(** * Agent orchestration engine: a shallow embedding and its properties

    The development follows the TypeScript sources of the backend:

    - [JS]       : the fragment of JavaScript values and string primitives the
                   engine relies on (truthiness, ToString, property access,
                   trim, split, the regular expressions of the engine);
    - [Workflow] : [WorkflowEngine] (workflow/workflow-engine.ts) and
                   [ReActExecutor] (workflow/react-executor.ts);
    - [Bus]      : [A2AServer] (a2a/a2a-server.ts);
    - [Agent]    : [BaseAgent] (agents/base-agent.ts);
    - [Server]   : the dependency scheduler of index.ts.

    Asynchronous code is modelled by explicit state passing.  What the
    program obtains from its environment (the language model, [eval],
    [JSON.parse], [JSON.stringify], the tools' bodies) is a parameter of the
    corresponding section. *)

From Stdlib Require Import ZArith Ascii Lia Bool DecimalString.
From stdpp Require Import base option list strings gmap.

Open Scope string_scope.
Open Scope list_scope.

Set Warnings "-register-all".

(* ===================================================================== *)
(** * JavaScript values and string primitives *)
(* ===================================================================== *)

Module JS.

(** ** Characters and strings

    Strings are sequences of 8-bit code units; the classes below are the
    restrictions of the ECMAScript classes to code units below 256. *)

(** The double quote character (code 34). *)
Definition dq : string := String (ascii_of_nat 34) "".

(** [\s] and the characters removed by [String.prototype.trim]:
    TAB, LF, VT, FF, CR, SPACE and NBSP. *)
Definition is_space (c : ascii) : bool :=
  let n := nat_of_ascii c in
  (Nat.leb 9 n && Nat.leb n 13) || Nat.eqb n 32 || Nat.eqb n 160.

(** Line terminators: the characters [.] does not match without the [s]
    flag. *)
Definition is_line_terminator (c : ascii) : bool :=
  let n := nat_of_ascii c in Nat.eqb n 10 || Nat.eqb n 13.

Definition is_empty (s : string) : bool :=
  match s with EmptyString => true | _ => false end.

Fixpoint startsWith (p s : string) : bool :=
  match p, s with
  | EmptyString, _ => true
  | String a p', String b s' => if Ascii.eqb a b then startsWith p' s' else false
  | String _ _, EmptyString => false
  end.

(** [s.substring(n)] *)
Fixpoint substring_from (n : nat) (s : string) : string :=
  match n, s with
  | O, _ => s
  | S n', String _ s' => substring_from n' s'
  | S _, EmptyString => EmptyString
  end.

Fixpoint trimStart (s : string) : string :=
  match s with
  | String c s' => if is_space c then trimStart s' else s
  | EmptyString => EmptyString
  end.

Fixpoint trimEnd (s : string) : string :=
  match s with
  | EmptyString => EmptyString
  | String c s' =>
      let t := trimEnd s' in
      if is_space c && is_empty t then EmptyString else String c t
  end.

Definition trim (s : string) : string := trimEnd (trimStart s).

(** [s.split(c)] for a one-character separator: never the empty list. *)
Fixpoint split (c : ascii) (s : string) : list string :=
  match s with
  | EmptyString => [EmptyString]
  | String x s' =>
      if Ascii.eqb x c then EmptyString :: split c s'
      else match split c s' with
           | h :: t => String x h :: t
           | [] => [String x EmptyString]
           end
  end.

(** [l.join(sep)] on strings *)
Fixpoint join (sep : string) (l : list string) : string :=
  match l with
  | [] => ""
  | [x] => x
  | x :: r => x +:+ sep +:+ join sep r
  end.

(** Occurrence of a substring anywhere in a string. *)
Fixpoint includes (p s : string) : bool :=
  startsWith p s ||
  match s with
  | EmptyString => false
  | String _ s' => includes p s'
  end.

(** ** Values

    JSON-like data.  Numbers are restricted to integers; functions and
    members inherited from prototypes are outside the model. *)

Inductive Value : Type :=
| VUndef
| VNull
| VBool (b : bool)
| VNum (n : Z)
| VStr (s : string)
| VArr (items : list Value)
| VObj (fields : list (string * Value)).

(** ToBoolean *)
Definition truthy (v : Value) : bool :=
  match v with
  | VUndef | VNull => false
  | VBool b => b
  | VNum n => negb (Z.eqb n 0)
  | VStr s => negb (is_empty s)
  | VArr _ | VObj _ => true
  end.

(** [a || b] *)
Definition or_else (a b : Value) : Value := if truthy a then a else b.

Definition string_of_Z (n : Z) : string := NilZero.string_of_int (Z.to_int n).
Definition string_of_nat (n : nat) : string := NilZero.string_of_uint (Nat.to_uint n).

(** ToString.  Array elements that are [null] or [undefined] print as the
    empty string, as [Array.prototype.join] does. *)
Fixpoint to_string (v : Value) : string :=
  match v with
  | VUndef => "undefined"
  | VNull => "null"
  | VBool true => "true"
  | VBool false => "false"
  | VNum n => string_of_Z n
  | VStr s => s
  | VArr items =>
      join "," (List.map (fun x => match x with
                                   | VUndef | VNull => ""
                                   | _ => to_string x
                                   end) items)
  | VObj _ => "[object Object]"
  end.

(** Own property of an object literal. *)
Fixpoint lookup_field (k : string) (fields : list (string * Value)) : option Value :=
  match fields with
  | [] => None
  | (k', v) :: r => if String.eqb k' k then Some v else lookup_field k r
  end.

(** Element of an array at the key that prints as its index. *)
Fixpoint array_get (i : nat) (items : list Value) (k : string) : Value :=
  match items with
  | [] => VUndef
  | x :: r => if String.eqb (string_of_nat i) k then x else array_get (S i) r k
  end.

Fixpoint string_get (i : nat) (s : string) (k : string) : Value :=
  match s with
  | EmptyString => VUndef
  | String c r =>
      if String.eqb (string_of_nat i) k then VStr (String c "") else string_get (S i) r k
  end.

(** [v?.[k]]: [undefined] on [undefined] and [null]; own properties of
    objects; indices and [length] of arrays and strings.  What objects
    inherit from their prototype ([constructor], [toString], ...) is not
    part of a value. *)
Definition get_prop (v : Value) (k : string) : Value :=
  match v with
  | VObj fields => default VUndef (lookup_field k fields)
  | VArr items =>
      if String.eqb k "length" then VNum (Z.of_nat (length items))
      else array_get 0 items k
  | VStr s =>
      if String.eqb k "length" then VNum (Z.of_nat (String.length s))
      else string_get 0 s k
  | _ => VUndef
  end.

(** Insertion-ordered maps with string keys ([Map], object literals):
    [set] keeps the position of a key that is already present. *)
Fixpoint omap_set {A} (k : string) (v : A) (m : list (string * A)) : list (string * A) :=
  match m with
  | [] => [(k, v)]
  | (k', v') :: r => if String.eqb k' k then (k, v) :: r else (k', v') :: omap_set k v r
  end.

Fixpoint omap_get {A} (k : string) (m : list (string * A)) : option A :=
  match m with
  | [] => None
  | (k', v) :: r => if String.eqb k' k then Some v else omap_get k r
  end.

Fixpoint omap_delete {A} (k : string) (m : list (string * A)) : list (string * A) :=
  match m with
  | [] => []
  | (k', v) :: r => if String.eqb k' k then omap_delete k r else (k', v) :: omap_delete k r
  end.

Definition omap_keys {A} (m : list (string * A)) : list string := List.map fst m.

(** ** The regular expressions of the engine *)

(** [/\{\{(.+?)\}\}/]: [scan r] is the capture when [r] is the text that
    follows an opening pair of braces.  The lazy group takes at least one
    character, none of them a line terminator, and stops at the first
    closing pair. *)
Fixpoint scan (r : string) : option string :=
  match r with
  | EmptyString => None
  | String c r' =>
      if is_line_terminator c then None
      else if startsWith "}}" r' then Some (String c "")
      else match scan r' with
           | Some t => Some (String c t)
           | None => None
           end
  end.

(** A token is plain when the lazy group can only end at its end: it has no
    line terminator and no closing brace. *)
Fixpoint plain (t : string) : bool :=
  match t with
  | EmptyString => true
  | String c t' =>
      negb (is_line_terminator c) && negb (Ascii.eqb c "}") && plain t'
  end.

Definition placeholder_at (s : string) : option string :=
  if startsWith "{{" s then scan (substring_from 2 s) else None.

(** [s.replace(/\{\{(.+?)\}\}/g, (_, g1) => f g1)].  [skip] counts the
    characters of the last match that are still to be passed over; the
    result of [f] is inserted as it is. *)
Fixpoint replace_placeholders (f : string -> string) (s : string) (skip : nat) : string :=
  match s with
  | EmptyString => EmptyString
  | String c s' =>
      match skip with
      | S k => replace_placeholders f s' k
      | O =>
          match placeholder_at s with
          | Some g1 => f g1 +:+ replace_placeholders f s' (String.length g1 + 3)
          | None => String c (replace_placeholders f s' 0)
          end
      end
  end.

(** [/LABEL\s*(.+?)(?=STOP1|STOP2|$)/s], the shape of the three expressions
    of [parseReActResponse]. *)

(** The lazy group once its first character has been taken: it grows until
    a stop follows or the text ends. *)
Fixpoint lazy_until (stops : list string) (r : string) : string :=
  match r with
  | EmptyString => EmptyString
  | String c r' =>
      if existsb (fun st => startsWith st r) stops then EmptyString
      else String c (lazy_until stops r')
  end.

Fixpoint last_char (s : string) : string :=
  match s with
  | EmptyString => EmptyString
  | String c EmptyString => s
  | String _ s' => last_char s'
  end.

(** The capture when the label has just been read and [r] follows.  The
    greedy [\s*] keeps all the leading white space unless nothing else
    follows, in which case it gives its last character back to the group. *)
Definition capture_after (stops : list string) (r : string) : option string :=
  match r with
  | EmptyString => None
  | _ =>
      match trimStart r with
      | EmptyString => Some (last_char r)
      | String c r' => Some (String c (lazy_until stops r'))
      end
  end.

(** Leftmost position at which the expression matches. *)
Fixpoint match_label (label : string) (stops : list string) (s : string) : option string :=
  let here :=
    if startsWith label s
    then capture_after stops (substring_from (String.length label) s)
    else None in
  match here with
  | Some g1 => Some g1
  | None =>
      match s with
      | EmptyString => None
      | String _ s' => match_label label stops s'
      end
  end.

End JS.

Import JS.

(* ===================================================================== *)
(** * workflow/workflow-types.ts *)
(* ===================================================================== *)

Module Types.

Inductive WorkflowNodeType : Type :=
| TOOL_CALL
| DATA_ACCESS
| REACT
| CONDITION
| LOOP
| OTHER_TYPE (tag : string).   (* a tag outside the enum, as JSON can carry *)

Record NodeConfig : Type := mkConfig {
  toolName : option string;
  toolParams : option (list (string * Value));
  dataSource : option string;
  condition : option string;
  cfgMaxIterations : option Z;
  reactPrompt : option string
}.

(** [next?: string | string[]] *)
Inductive NodeNext : Type :=
| NextAbsent
| NextId (id : string)
| NextIds (ids : list string).

Record WorkflowNode : Type := mkNode {
  node_id : string;
  node_type : WorkflowNodeType;
  node_name : string;
  config : NodeConfig;
  next : NodeNext
}.

Record Workflow : Type := mkWorkflow {
  wf_id : string;
  wf_name : string;
  agentType : string;
  nodes : list WorkflowNode;
  startNode : string;
  goalCondition : string
}.

Record WorkflowExecutionContext : Type := mkContext {
  variables : list (string * Value);
  iteration : Z;
  history : list Value;
  userMessages : list string;
  previousArtifacts : list (string * string)
}.

Record WorkflowExecutionResult : Type := mkResult {
  wr_success : bool;
  wr_output : Value;
  wr_error : option string;
  wr_context : WorkflowExecutionContext
}.

(** The context seen as a JavaScript object. *)
Definition context_object (c : WorkflowExecutionContext) : Value :=
  VObj [ ("variables", VObj (variables c));
         ("iteration", VNum (iteration c));
         ("history", VArr (history c));
         ("userMessages", VArr (List.map VStr (userMessages c)));
         ("previousArtifacts",
           VObj (List.map (fun kv => (fst kv, VStr (snd kv))) (previousArtifacts c))) ].

Definition set_variables (vs : list (string * Value)) (c : WorkflowExecutionContext) :=
  mkContext vs (iteration c) (history c) (userMessages c) (previousArtifacts c).

Definition set_iteration (i : Z) (c : WorkflowExecutionContext) :=
  mkContext (variables c) i (history c) (userMessages c) (previousArtifacts c).

Definition push_history (h : list Value) (c : WorkflowExecutionContext) :=
  mkContext (variables c) (iteration c) (history c ++ h) (userMessages c)
            (previousArtifacts c).

Definition set_userMessages (ms : list string) (c : WorkflowExecutionContext) :=
  mkContext (variables c) (iteration c) (history c) ms (previousArtifacts c).

(** [context.variables.NAME] *)
Definition variable (name : string) (c : WorkflowExecutionContext) : Value :=
  get_prop (VObj (variables c)) name.

(** A tool of the registry.  Its body is code of the agent that owns it: it
    returns a value or throws, and may write into the context it is given. *)
Inductive ToolOutcome : Type :=
| ToolReturn (v : Value) (c : WorkflowExecutionContext)
| ToolThrow (message : string) (c : WorkflowExecutionContext).

Record Tool : Type := mkTool {
  tool_description : string;
  tool_parameters : Value;
  tool_execute : Value -> WorkflowExecutionContext -> ToolOutcome
}.

End Types.

Import Types.

(* ===================================================================== *)
(** * workflow/react-executor.ts *)
(* ===================================================================== *)

Module ReAct.

Inductive Role : Type := system | user | assistant.

Record LLMMessage : Type := mkMessage { role : Role; content : string }.

(** [llmClient.chat(messages)]: the reply's text, or the thrown error's
    message. *)
Inductive ChatOutcome : Type :=
| ChatReply (text : string)
| ChatThrow (message : string).

Record ReActStep : Type := mkStep {
  thought : string;
  action : string;
  actionInput : Value;
  observation : string
}.

Definition step_object (s : ReActStep) : Value :=
  VObj [ ("thought", VStr (thought s)); ("action", VStr (action s));
         ("actionInput", actionInput s); ("observation", VStr (observation s)) ].

(** What [execute] returns, together with what it did on the way: the
    number of calls of the model ([rounds]), the steps handed to the progress
    callback, the conversation and the context as the tools left it. *)
Record ExecuteResult : Type := mkExecuteResult {
  success : bool;
  result : Value;
  steps : list ReActStep;
  rounds : nat;
  reported : list ReActStep;
  conversation : list LLMMessage;
  context_after : WorkflowExecutionContext
}.

Definition nl : string := String (ascii_of_nat 10) "".

Section Executor.

(** The language model.  The conversation grows at every round, so a
    function of the conversation covers any scripted sequence of replies. *)
Variable chat : list LLMMessage -> ChatOutcome.
(** [JSON.parse]: [None] when it throws. *)
Variable json_parse : string -> option Value.
(** [JSON.stringify(v)] and [JSON.stringify(context, null, 2)]. *)
Variable json_stringify : Value -> string.
Variable json_pretty : WorkflowExecutionContext -> string.

(** The fields of the executor. *)
Variable tools : list (string * Tool).
Variable maxIterations : nat.
Variable progressCallback : bool.   (* whether a callback is installed *)

Definition parseReActResponse (response : string) : string * string * Value :=
  let thoughtMatch := match_label "Thought:" [nl +:+ "Action:"; nl +:+ nl] response in
  let actionMatch := match_label "Action:" [nl +:+ "Action Input:"; nl +:+ nl] response in
  let actionInputMatch := match_label "Action Input:" [] response in
  let thought := match thoughtMatch with Some g1 => trim g1 | None => "" end in
  let action := match actionMatch with Some g1 => trim g1 | None => "FINISH" end in
  let actionInput :=
    match actionInputMatch with
    | Some g1 =>
        let inputStr := trim g1 in
        match json_parse inputStr with
        | Some v => v
        | None => VStr inputStr
        end
    | None => VObj []
    end in
  (thought, action, actionInput).

Definition getToolsDescription : string :=
  join nl (List.concat (List.map (fun nt =>
    [ "- " +:+ fst nt +:+ ": " +:+ tool_description (snd nt);
      "  Parameters: " +:+ json_stringify (tool_parameters (snd nt)) ]) tools)).

Definition buildReActPrompt (task toolsDescription : string)
           (context : WorkflowExecutionContext) : string :=
  "You are an AI agent using the ReAct (Reasoning and Acting) framework to solve tasks."
  +:+ nl +:+ nl +:+ "Task: " +:+ task
  +:+ nl +:+ nl +:+ "Context: " +:+ json_pretty context
  +:+ nl +:+ nl +:+ "Available Tools:" +:+ nl +:+ toolsDescription
  +:+ nl +:+ nl +:+ "You must respond in the following format for each step:"
  +:+ nl +:+ nl +:+ "Thought: [Your reasoning about what to do next]"
  +:+ nl +:+ "Action: [The tool name to use, or " +:+ dq +:+ "FINISH" +:+ dq
  +:+ " when the task is complete]"
  +:+ nl +:+ "Action Input: [The input for the tool as a JSON object, or the final result if Action is FINISH]"
  +:+ nl +:+ nl +:+ "When you have completed the task, use:"
  +:+ nl +:+ "Action: FINISH"
  +:+ nl +:+ "Action Input: [Your final result]"
  +:+ nl +:+ nl +:+ "Begin!".

Definition report (s : ReActStep) (reported : list ReActStep) : list ReActStep :=
  if progressCallback then reported ++ [s] else reported.

(** The observation built when the registry has no tool of that name. *)
Definition missing_tool_observation (action : string) : string :=
  "Error: Tool " +:+ dq +:+ action +:+ dq +:+ " not found. Available tools: "
  +:+ join ", " (omap_keys tools).

Definition follow_up (observation : string) : string :=
  "Observation: " +:+ observation +:+ nl +:+ nl +:+ "Continue with your reasoning.".

(** The [for] loop of [execute]; [n] is the number of iterations left. *)
Fixpoint rounds_loop (n : nat) (messages : list LLMMessage) (steps : list ReActStep)
         (done : nat) (reported : list ReActStep)
         (context : WorkflowExecutionContext) : ExecuteResult :=
  match n with
  | O =>
      mkExecuteResult false (VStr "Max iterations reached without completion")
                      steps done reported messages context
  | S n' =>
      match chat messages with
      | ChatThrow message =>
          mkExecuteResult false (VStr message) steps (S done) reported messages context
      | ChatReply response =>
          let '(thought, action, actionInput) := parseReActResponse response in
          if String.eqb action "FINISH" then
            let finalStep := mkStep thought action actionInput "Task completed" in
            mkExecuteResult true actionInput (steps ++ [finalStep]) (S done)
                            (report finalStep reported) messages context
          else
            match omap_get action tools with
            | None =>
                let observation := missing_tool_observation action in
                let step := mkStep thought action actionInput observation in
                rounds_loop n'
                  (messages ++ [mkMessage assistant response;
                                mkMessage user (follow_up observation)])
                  (steps ++ [step]) (S done) (report step reported) context
            | Some tool =>
                match tool_execute tool actionInput context with
                | ToolThrow message context' =>
                    mkExecuteResult false (VStr message) steps (S done) reported
                                    messages context'
                | ToolReturn observation context' =>
                    let step := mkStep thought action actionInput
                                       (json_stringify observation) in
                    rounds_loop n'
                      (messages ++ [mkMessage assistant response;
                                    mkMessage user (follow_up (json_stringify observation))])
                      (steps ++ [step]) (S done) (report step reported) context'
                end
            end
      end
  end.

Definition initial_messages (task : string) (context : WorkflowExecutionContext)
           (systemPrompt : option string) : list LLMMessage :=
  (match systemPrompt with
   | Some p => if is_empty p then [] else [mkMessage system p]
   | None => []
   end)
  ++ [mkMessage user (buildReActPrompt task getToolsDescription context)].

Definition execute (task : string) (context : WorkflowExecutionContext)
           (systemPrompt : option string) : ExecuteResult :=
  rounds_loop maxIterations (initial_messages task context systemPrompt) [] 0 [] context.

(** A model none of whose replies asks to finish, and tools that always
    return. *)
Definition never_finishes : Prop :=
  forall messages, exists response,
    chat messages = ChatReply response
    /\ snd (fst (parseReActResponse response)) <> "FINISH".

Definition tools_never_throw : Prop :=
  forall name tool input context,
    omap_get name tools = Some tool ->
    exists v context', tool_execute tool input context = ToolReturn v context'.

End Executor.

(** The value the class gives to its private field [maxIterations]. *)
Definition default_maxIterations : nat := 10.

End ReAct.

(* ===================================================================== *)
(** * workflow/workflow-engine.ts *)
(* ===================================================================== *)

Module Engine.

(** What the execution of a node does: it returns a value or throws, and in
    both cases leaves the context as the tools changed it. *)
Inductive NodeOutcome : Type :=
| NodeReturn (v : Value) (c : WorkflowExecutionContext)
| NodeThrow (message : string) (c : WorkflowExecutionContext).

Section WorkflowEngine.

(** [eval(source)] inside the engine, with [context] in scope: the value of
    the expression, or [None] when evaluation throws.  Conditions are taken to
    be expressions without side effects. *)
Variable js_eval : string -> WorkflowExecutionContext -> option Value.

(** The environment of the reasoning loop run by [react] nodes. *)
Variable chat : list ReAct.LLMMessage -> ReAct.ChatOutcome.
Variable json_parse : string -> option Value.
Variable json_stringify : Value -> string.
Variable json_pretty : WorkflowExecutionContext -> string.

(** The registry filled by [addTool]. *)
Variable tools : list (string * Tool).

Definition getNestedValue (obj : Value) (path : string) : Value :=
  fold_left (fun current key => get_prop current key) (split "." path) obj.

(** The replacer of [resolveString]; [String.prototype.replace] converts
    what it returns to a string. *)
Definition resolve_token (context : WorkflowExecutionContext) (varName : string) : string :=
  let trimmed := trim varName in
  if startsWith "context." trimmed then
    let path := substring_from 8 trimmed in
    to_string (getNestedValue (context_object context) path)
  else
    to_string (or_else (variable trimmed context) (VStr "")).

Definition resolveString (str : string) (context : WorkflowExecutionContext) : string :=
  replace_placeholders (resolve_token context) str 0.

Definition resolveParameters (params : list (string * Value))
           (context : WorkflowExecutionContext) : Value :=
  VObj (fold_left (fun resolved kv =>
                     match snd kv with
                     | VStr value => omap_set (fst kv) (VStr (resolveString value context)) resolved
                     | value => omap_set (fst kv) value resolved
                     end) params []).

Definition evaluateGoalCondition (condition : string)
           (context : WorkflowExecutionContext) : bool :=
  if is_empty condition then false
  else match js_eval (resolveString condition context) context with
       | Some v => truthy v
       | None => false
       end.

Definition determineNextNode (node : WorkflowNode) (result : Value)
           (context : WorkflowExecutionContext) : option string :=
  match next node with
  | NextAbsent => None
  | NextId id => if is_empty id then None else Some id
  | NextIds ids =>
      if Nat.ltb 0 (length ids)
      then if truthy result then ids !! 0%nat else ids !! 1%nat
      else None
  end.

Definition executeToolCall (node : WorkflowNode)
           (context : WorkflowExecutionContext) : NodeOutcome :=
  match toolName (config node) with
  | None => NodeThrow ("Tool name not specified in node " +:+ node_id node) context
  | Some toolName =>
      if is_empty toolName
      then NodeThrow ("Tool name not specified in node " +:+ node_id node) context
      else
        match omap_get toolName tools with
        | None => NodeThrow ("Tool " +:+ toolName +:+ " not found") context
        | Some tool =>
            let params := resolveParameters (default [] (toolParams (config node))) context in
            match tool_execute tool params context with
            | ToolReturn v c => NodeReturn v c
            | ToolThrow m c => NodeThrow m c
            end
        end
  end.

Definition executeDataAccess (node : WorkflowNode)
           (context : WorkflowExecutionContext) : NodeOutcome :=
  match dataSource (config node) with
  | None => NodeThrow ("Data source not specified in node " +:+ node_id node) context
  | Some dataSource =>
      if is_empty dataSource
      then NodeThrow ("Data source not specified in node " +:+ node_id node) context
      else if startsWith "artifact:" dataSource then
        let artifactKey := substring_from 9 dataSource in
        NodeReturn (match omap_get artifactKey (previousArtifacts context) with
                    | Some p => VStr p
                    | None => VUndef
                    end) context
      else if startsWith "variable:" dataSource then
        let varName := substring_from 9 dataSource in
        NodeReturn (variable varName context) context
      else NodeThrow ("Unknown data source: " +:+ dataSource) context
  end.

Definition executeReAct (node : WorkflowNode)
           (context : WorkflowExecutionContext) : NodeOutcome :=
  let task := match reactPrompt (config node) with
              | Some p => if is_empty p then "Complete the current task" else p
              | None => "Complete the current task"
              end in
  let taskWithContext := resolveString task context in
  let r := ReAct.execute chat json_parse json_stringify json_pretty tools
                         ReAct.default_maxIterations false taskWithContext context None in
  NodeReturn (ReAct.result r) (ReAct.context_after r).

Definition evaluateCondition (node : WorkflowNode)
           (context : WorkflowExecutionContext) : Value :=
  match condition (config node) with
  | None => VBool false
  | Some condition =>
      if is_empty condition then VBool false
      else match js_eval (resolveString condition context) context with
           | Some v => v
           | None => VBool false
           end
  end.

(** The [for] loop of [executeLoop]: [n] passes are left, [i] is the index
    of the next one. *)
Fixpoint loop_passes (goal : string) (n : nat) (i : Z) (results : list Value)
         (context : WorkflowExecutionContext) : list Value * WorkflowExecutionContext :=
  match n with
  | O => (results, context)
  | S n' =>
      let context' := set_iteration i context in
      if evaluateGoalCondition goal context' then (results, context')
      else loop_passes goal n' (i + 1)%Z (results ++ [VObj [("iteration", VNum i)]]) context'
  end.

Definition executeLoop (node : WorkflowNode) (context : WorkflowExecutionContext)
           (workflow : Workflow) : NodeOutcome :=
  let maxIterations := match cfgMaxIterations (config node) with
                       | Some n => if Z.eqb n 0 then 10%Z else n
                       | None => 10%Z
                       end in
  let '(results, context') :=
    loop_passes (goalCondition workflow) (Z.to_nat maxIterations) 0%Z [] context in
  NodeReturn (VArr results) context'.

Definition executeNode (node : WorkflowNode) (context : WorkflowExecutionContext)
           (workflow : Workflow) : NodeOutcome :=
  match node_type node with
  | TOOL_CALL => executeToolCall node context
  | DATA_ACCESS => executeDataAccess node context
  | REACT => executeReAct node context
  | CONDITION => NodeReturn (evaluateCondition node context) context
  | LOOP => executeLoop node context workflow
  | OTHER_TYPE tag => NodeThrow ("Unknown node type: " +:+ tag) context
  end.

(** The record [{ node: node.id, result }] pushed on the history. *)
Definition history_entry (id : string) (result : Value) : Value :=
  VObj [("node", VStr id); ("result", result)].

Definition find_node (workflow : Workflow) (currentNodeId : string) : option WorkflowNode :=
  List.find (fun n => String.eqb (node_id n) currentNodeId) (nodes workflow).

(** The [while (currentNodeId)] loop of [executeWorkflow].  A graph may be
    cyclic, so the loop is given [fuel] node executions; [None] means that
    they are used up before the run ends. *)
Fixpoint run_nodes (fuel : nat) (workflow : Workflow) (currentNodeId : option string)
         (context : WorkflowExecutionContext) : option WorkflowExecutionResult :=
  match currentNodeId with
  | None => Some (mkResult true (variable "output" context) None context)
  | Some id =>
      if is_empty id
      then Some (mkResult true (variable "output" context) None context)
      else
      match fuel with
      | O => None
      | S fuel' =>
          match find_node workflow id with
          | None =>
              Some (mkResult false VUndef
                             (Some ("Node " +:+ id +:+ " not found in workflow")) context)
          | Some node =>
              match executeNode node context workflow with
              | NodeThrow message context' =>
                  Some (mkResult false VUndef (Some message) context')
              | NodeReturn result context' =>
                  let context'' :=
                    push_history [history_entry (node_id node) result] context' in
                  if evaluateGoalCondition (goalCondition workflow) context''
                  then Some (mkResult true (or_else (variable "output" context'') result)
                                      None context'')
                  else run_nodes fuel' workflow
                                 (determineNextNode node result context'') context''
              end
          end
      end
  end.

Definition executeWorkflow (fuel : nat) (workflow : Workflow)
           (initialContext : WorkflowExecutionContext) : option WorkflowExecutionResult :=
  run_nodes fuel workflow (Some (startNode workflow)) initialContext.

End WorkflowEngine.

End Engine.

(* ===================================================================== *)
(** * a2a/message-types.ts and a2a/a2a-server.ts *)
(* ===================================================================== *)

Module Bus.

Inductive MessageType : Type :=
| AGENT_START
| AGENT_COMPLETE
| AGENT_ERROR
| AGENT_PROGRESS
| USER_MESSAGE
| SYSTEM_MESSAGE
| ARTIFACT_APPROVAL.

Record Payload : Type := mkPayload {
  p_content : option string;
  p_data : Value;
  p_artifactPath : Value;
  p_error : option string
}.

(** Agent identities travel as strings: ["planner"], ["artist"],
    ["developer"]; [msg_to] may also be ["all"]. *)
Record A2AMessage : Type := mkA2A {
  msg_id : string;
  msg_type : MessageType;
  msg_from : string;
  msg_to : string;
  msg_timestamp : Z;
  msg_payload : Payload
}.

(** The values of the enumeration [AgentType]. *)
Definition agentTypes : list string := ["planner"; "artist"; "developer"].

(** [WebSocket.readyState] *)
Inductive ReadyState : Type := CONNECTING | OPEN | CLOSING | CLOSED.

Definition is_open (r : ReadyState) : bool :=
  match r with OPEN => true | _ => false end.

(** The server.  [clients] and [agentClients] are insertion-ordered maps;
    [sent] records every [ws.send] of an ["a2a_message"] frame as the pair of
    the receiving client and the message, oldest first; [notified] records
    the calls of the message handlers in the same way. *)
Record A2AServer : Type := mkServer {
  clients : list (string * ReadyState);
  agentClients : list (string * string);
  messageQueue : gmap string (list A2AMessage);
  messageHandlers : list string;
  sent : list (string * A2AMessage);
  notified : list (string * A2AMessage)
}.

Definition with_queue (q : gmap string (list A2AMessage)) (s : A2AServer) : A2AServer :=
  mkServer (clients s) (agentClients s) q (messageHandlers s) (sent s) (notified s).

Definition with_sent (t : list (string * A2AMessage)) (s : A2AServer) : A2AServer :=
  mkServer (clients s) (agentClients s) (messageQueue s) (messageHandlers s) t (notified s).

Definition with_agentClients (a : list (string * string)) (s : A2AServer) : A2AServer :=
  mkServer (clients s) a (messageQueue s) (messageHandlers s) (sent s) (notified s).

Definition with_clients (c : list (string * ReadyState)) (s : A2AServer) : A2AServer :=
  mkServer c (agentClients s) (messageQueue s) (messageHandlers s) (sent s) (notified s).

Definition with_notified (n : list (string * A2AMessage)) (s : A2AServer) : A2AServer :=
  mkServer (clients s) (agentClients s) (messageQueue s) (messageHandlers s) (sent s) n.

Definition with_handlers (h : list string) (s : A2AServer) : A2AServer :=
  mkServer (clients s) (agentClients s) (messageQueue s) h (sent s) (notified s).

(** The constructor followed by [initializeMessageQueues]. *)
Definition new_server : A2AServer :=
  mkServer [] []
           (<["developer" := []]> (<["artist" := []]> (<["planner" := []]> ∅)))
           [] [] [].

Definition has_client (clientId : string) (s : A2AServer) : bool :=
  match omap_get clientId (clients s) with Some _ => true | None => false end.

(** The test [clientId && this.clients.has(clientId)] of [deliverMessage]. *)
Definition connected_client (agentType : string) (s : A2AServer) : option string :=
  match omap_get agentType (agentClients s) with
  | Some clientId =>
      if negb (is_empty clientId) && has_client clientId s then Some clientId else None
  | None => None
  end.

Definition deliverMessage (agentType : string) (message : A2AMessage)
           (s : A2AServer) : A2AServer :=
  match connected_client agentType s with
  | Some clientId => with_sent (sent s ++ [(clientId, message)]) s
  | None =>
      (* this.messageQueue.get(agentType)?.push(message) *)
      with_queue (alter (fun q => q ++ [message]) agentType (messageQueue s)) s
  end.

(** The loop [for (const message of queue) this.deliverMessage(...)] of
    [sendQueuedMessages].  The iterator reads the array that is in the map at
    each step, at the next index [i], so it sees what [deliverMessage]
    pushes; [None] means that [fuel] steps did not reach the end. *)
Fixpoint deliver_queue (fuel : nat) (i : nat) (agentType : string)
         (s : A2AServer) : option A2AServer :=
  match default [] (messageQueue s !! agentType) !! i with
  | None => Some s
  | Some message =>
      match fuel with
      | O => None
      | S fuel' => deliver_queue fuel' (S i) agentType (deliverMessage agentType message s)
      end
  end.

Definition sendQueuedMessages (fuel : nat) (agentType : string)
           (s : A2AServer) : option A2AServer :=
  match messageQueue s !! agentType with
  | Some queue =>
      if Nat.ltb 0 (length queue) then
        match deliver_queue fuel 0 agentType s with
        | Some s' => Some (with_queue (<[agentType := []]> (messageQueue s')) s')
        | None => None
        end
      else Some s
  | None => Some s
  end.

Definition broadcast (message : A2AMessage) (s : A2AServer) : A2AServer :=
  with_sent (sent s ++ List.map (fun c => (fst c, message))
                                (List.filter (fun c => is_open (snd c)) (clients s))) s.

Definition routeMessage (message : A2AMessage) (s : A2AServer) : A2AServer :=
  let s1 := if String.eqb (msg_to message) "all"
            then broadcast message s
            else deliverMessage (msg_to message) message s in
  with_notified (notified s1 ++ List.map (fun h => (h, message)) (messageHandlers s1)) s1.

(** [sendMessage], the publish operation. *)
Definition sendMessage (message : A2AMessage) (s : A2AServer) : A2AServer :=
  routeMessage message s.

(** Frames a client sends to the server. *)
Inductive Frame : Type :=
| Register (agentType : string)
| A2A (payload : A2AMessage)
| OtherFrame.

Definition handleMessage (fuel : nat) (clientId : string) (frame : Frame)
           (s : A2AServer) : option A2AServer :=
  match frame with
  | Register agentType =>
      if is_empty agentType then Some s
      else sendQueuedMessages fuel agentType
             (with_agentClients (omap_set agentType clientId (agentClients s)) s)
  | A2A payload => Some (routeMessage payload s)
  | OtherFrame => Some s
  end.

(** The ['connection'] event: the new socket is stored under a fresh id. *)
Definition on_connection (clientId : string) (s : A2AServer) : A2AServer :=
  with_clients (omap_set clientId OPEN (clients s)) s.

(** Removal of the first registration that points to [clientId]. *)
Fixpoint remove_first_registration (clientId : string)
         (regs : list (string * string)) : list (string * string) :=
  match regs with
  | [] => []
  | (agentType, id) :: r =>
      if String.eqb id clientId then r
      else (agentType, id) :: remove_first_registration clientId r
  end.

(** The ['close'] event. *)
Definition on_close (clientId : string) (s : A2AServer) : A2AServer :=
  with_agentClients (remove_first_registration clientId (agentClients s))
                    (with_clients (omap_delete clientId (clients s)) s).

Definition onMessage (handlerId : string) (s : A2AServer) : A2AServer :=
  with_handlers (messageHandlers s ++ [handlerId]) s.

Definition offMessage (handlerId : string) (s : A2AServer) : A2AServer :=
  with_handlers (List.filter (fun h => negb (String.eqb h handlerId)) (messageHandlers s)) s.

Definition getConnectedAgents (s : A2AServer) : list string :=
  omap_keys (agentClients s).

(** The part of the state that decides whether an agent is connected. *)
Definition same_links (s s' : A2AServer) : Prop :=
  clients s' = clients s /\ agentClients s' = agentClients s.

(** Messages a client has been sent, oldest first. *)
Definition received_by (clientId : string) (s : A2AServer) : list A2AMessage :=
  List.map snd (List.filter (fun e => String.eqb (fst e) clientId) (sent s)).

(** A run of [sendMessage] calls. *)
Definition publish_all (ms : list A2AMessage) (s : A2AServer) : A2AServer :=
  fold_left (fun st m => sendMessage m st) ms s.

End Bus.

(* ===================================================================== *)
(** * agents/base-agent.ts *)
(* ===================================================================== *)

Module Agent.

Import Bus.

Inductive AgentStatus : Type :=
| IDLE
| RUNNING
| PAUSED
| COMPLETED
| ERROR
| WAITING_FOR_USER
| WAITING_FOR_APPROVAL.

Definition status_eqb (a b : AgentStatus) : bool :=
  match a, b with
  | IDLE, IDLE | RUNNING, RUNNING | PAUSED, PAUSED | COMPLETED, COMPLETED
  | ERROR, ERROR | WAITING_FOR_USER, WAITING_FOR_USER
  | WAITING_FOR_APPROVAL, WAITING_FOR_APPROVAL => true
  | _, _ => false
  end.

Inductive ExecutionMode : Type := automatic | interactive.

Definition mode_name (m : ExecutionMode) : string :=
  match m with automatic => "automatic" | interactive => "interactive" end.

(** types/agent-config.ts; an absent or empty [scenario] is the empty
    string. *)
Record AgentConfig : Type := mkAgentConfig {
  scenario : string;
  prompt : option string;
  suggestedQuestions : option string
}.

(** A message handed to [sendA2AMessage], which adds the id and the
    timestamp. *)
Record Outgoing : Type := mkOutgoing {
  o_type : MessageType;
  o_from : string;
  o_to : string;
  o_payload : Payload
}.

(** The fields of [BaseAgent].  [ws_open] says whether the socket exists and
    is open; [outbox] records what [sendA2AMessage] wrote to it, oldest
    first. *)
Record BaseAgent : Type := mkAgent {
  type : string;
  status : AgentStatus;
  ws_open : bool;
  messageQueue : list A2AMessage;
  userMessages : list string;
  executionContext : WorkflowExecutionContext;
  goalAchieved : bool;
  currentWorkflow : option Workflow;
  executionMode : ExecutionMode;
  currentQuestion : option string;
  artifactForApproval : Value;
  agentConfig : option AgentConfig;
  askedForInitialInput : bool;
  outbox : list Outgoing
}.

(** The state the constructor builds. *)
Definition new_agent (type : string) : BaseAgent :=
  mkAgent type IDLE false [] [] (mkContext [] 0 [] [] []) false None automatic None VNull
          None false [].

Definition set_status (s : AgentStatus) (a : BaseAgent) : BaseAgent :=
  mkAgent (type a) s (ws_open a) (messageQueue a) (userMessages a) (executionContext a)
          (goalAchieved a) (currentWorkflow a) (executionMode a) (currentQuestion a)
          (artifactForApproval a) (agentConfig a) (askedForInitialInput a) (outbox a).

Definition set_goalAchieved (g : bool) (a : BaseAgent) : BaseAgent :=
  mkAgent (type a) (status a) (ws_open a) (messageQueue a) (userMessages a)
          (executionContext a) g (currentWorkflow a) (executionMode a) (currentQuestion a)
          (artifactForApproval a) (agentConfig a) (askedForInitialInput a) (outbox a).

Definition set_ws_open (w : bool) (a : BaseAgent) : BaseAgent :=
  mkAgent (type a) (status a) w (messageQueue a) (userMessages a) (executionContext a)
          (goalAchieved a) (currentWorkflow a) (executionMode a) (currentQuestion a)
          (artifactForApproval a) (agentConfig a) (askedForInitialInput a) (outbox a).

Definition set_messageQueue (q : list A2AMessage) (a : BaseAgent) : BaseAgent :=
  mkAgent (type a) (status a) (ws_open a) q (userMessages a) (executionContext a)
          (goalAchieved a) (currentWorkflow a) (executionMode a) (currentQuestion a)
          (artifactForApproval a) (agentConfig a) (askedForInitialInput a) (outbox a).

Definition set_agent_userMessages (u : list string) (a : BaseAgent) : BaseAgent :=
  mkAgent (type a) (status a) (ws_open a) (messageQueue a) u (executionContext a)
          (goalAchieved a) (currentWorkflow a) (executionMode a) (currentQuestion a)
          (artifactForApproval a) (agentConfig a) (askedForInitialInput a) (outbox a).

Definition set_executionContext (c : WorkflowExecutionContext) (a : BaseAgent) : BaseAgent :=
  mkAgent (type a) (status a) (ws_open a) (messageQueue a) (userMessages a) c
          (goalAchieved a) (currentWorkflow a) (executionMode a) (currentQuestion a)
          (artifactForApproval a) (agentConfig a) (askedForInitialInput a) (outbox a).

Definition set_currentWorkflow (w : option Workflow) (a : BaseAgent) : BaseAgent :=
  mkAgent (type a) (status a) (ws_open a) (messageQueue a) (userMessages a)
          (executionContext a) (goalAchieved a) w (executionMode a) (currentQuestion a)
          (artifactForApproval a) (agentConfig a) (askedForInitialInput a) (outbox a).

Definition set_executionMode (m : ExecutionMode) (a : BaseAgent) : BaseAgent :=
  mkAgent (type a) (status a) (ws_open a) (messageQueue a) (userMessages a)
          (executionContext a) (goalAchieved a) (currentWorkflow a) m (currentQuestion a)
          (artifactForApproval a) (agentConfig a) (askedForInitialInput a) (outbox a).

Definition set_currentQuestion (q : option string) (a : BaseAgent) : BaseAgent :=
  mkAgent (type a) (status a) (ws_open a) (messageQueue a) (userMessages a)
          (executionContext a) (goalAchieved a) (currentWorkflow a) (executionMode a) q
          (artifactForApproval a) (agentConfig a) (askedForInitialInput a) (outbox a).

Definition set_artifactForApproval (v : Value) (a : BaseAgent) : BaseAgent :=
  mkAgent (type a) (status a) (ws_open a) (messageQueue a) (userMessages a)
          (executionContext a) (goalAchieved a) (currentWorkflow a) (executionMode a)
          (currentQuestion a) v (agentConfig a) (askedForInitialInput a) (outbox a).

Definition set_agentConfig (c : option AgentConfig) (a : BaseAgent) : BaseAgent :=
  mkAgent (type a) (status a) (ws_open a) (messageQueue a) (userMessages a)
          (executionContext a) (goalAchieved a) (currentWorkflow a) (executionMode a)
          (currentQuestion a) (artifactForApproval a) c (askedForInitialInput a) (outbox a).

Definition set_askedForInitialInput (b : bool) (a : BaseAgent) : BaseAgent :=
  mkAgent (type a) (status a) (ws_open a) (messageQueue a) (userMessages a)
          (executionContext a) (goalAchieved a) (currentWorkflow a) (executionMode a)
          (currentQuestion a) (artifactForApproval a) (agentConfig a) b (outbox a).

Definition set_outbox (o : list Outgoing) (a : BaseAgent) : BaseAgent :=
  mkAgent (type a) (status a) (ws_open a) (messageQueue a) (userMessages a)
          (executionContext a) (goalAchieved a) (currentWorkflow a) (executionMode a)
          (currentQuestion a) (artifactForApproval a) (agentConfig a)
          (askedForInitialInput a) o.

(** [sendA2AMessage]: nothing is sent unless the socket is open. *)
Definition sendA2AMessage (m : Outgoing) (a : BaseAgent) : BaseAgent :=
  if ws_open a then set_outbox (outbox a ++ [m]) a else a.

Definition to_all (t : MessageType) (a : BaseAgent) (p : Payload) : Outgoing :=
  mkOutgoing t (type a) "all" p.

(** [handleA2AMessage] *)
Definition handleA2AMessage (message : A2AMessage) (a : BaseAgent) : BaseAgent :=
  match msg_type message with
  | AGENT_START => set_messageQueue (messageQueue a ++ [message]) a
  | USER_MESSAGE =>
      set_agent_userMessages
        (userMessages a ++ [match p_content (msg_payload message) with
                            | Some c => c
                            | None => ""
                            end]) a
  | AGENT_COMPLETE =>
      if truthy (p_artifactPath (msg_payload message)) then
        let c := executionContext a in
        set_executionContext
          (mkContext (variables c) (iteration c) (history c) (Types.userMessages c)
                     (omap_set (msg_from message)
                               (to_string (p_artifactPath (msg_payload message)))
                               (previousArtifacts c))) a
      else a
  | _ => a
  end.

(** ** The calls of the control plane *)

Definition sendUserMessage (message : string) (a : BaseAgent) : BaseAgent :=
  let a1 := set_agent_userMessages (userMessages a ++ [message]) a in
  if status_eqb (status a1) WAITING_FOR_USER
  then set_currentQuestion None (set_status RUNNING a1)
  else a1.

(** [approveArtifact]: [None] when it throws. *)
Definition approveArtifact (approved : bool) (a : BaseAgent) : option BaseAgent :=
  if negb (status_eqb (status a) WAITING_FOR_APPROVAL) then None
  else if approved
       then Some (set_status RUNNING (set_goalAchieved true a))
       else Some (set_artifactForApproval VNull
                    (set_status RUNNING (set_goalAchieved false a))).

Definition pause (a : BaseAgent) : BaseAgent := set_status PAUSED a.

Definition resume (a : BaseAgent) : BaseAgent :=
  if status_eqb (status a) PAUSED then set_status RUNNING a else a.

Definition stop (a : BaseAgent) : BaseAgent :=
  set_goalAchieved true (set_status IDLE a).

Definition getStatus (a : BaseAgent) : AgentStatus := status a.

(** ** [start]: from the call to the call of [run]

    [config] is what [readAgentConfig] returns.  The read is the only
    suspension point of this part; no other call is taken to run during it.
    Calls that overlap are taken in the module [Tasks], where the test of
    RUNNING and the part after the read are two steps. *)

Inductive StartEntry : Type :=
| AlreadyRunning (a : BaseAgent)
| ConfigurationError (message : string) (a : BaseAgent)
| EnterRun (a : BaseAgent).

Definition scenario_missing (type : string) : string :=
  "Agent " +:+ type +:+ " must have a scenario configured to define completion criteria".

Definition configured (config : option AgentConfig) : bool :=
  match config with
  | Some c => negb (is_empty (scenario c))
  | None => false
  end.

Definition start_entry (config : option AgentConfig) (initialData : list (string * Value))
           (mode : option ExecutionMode) (a : BaseAgent) : StartEntry :=
  if status_eqb (status a) RUNNING then AlreadyRunning a
  else
    let a1 := set_agentConfig config a in
    if negb (configured config) then ConfigurationError (scenario_missing (type a)) a1
    else
      let a2 := set_executionMode (default automatic mode) a1 in
      let a3 := set_goalAchieved false (set_status RUNNING a2) in
      let a4 := set_executionContext (set_variables initialData (executionContext a3)) a3 in
      EnterRun (sendA2AMessage
                  (to_all AGENT_START a4
                          (mkPayload (Some (type a4 +:+ " agent started in "
                                            +:+ mode_name (executionMode a4) +:+ " mode"))
                                     VUndef VUndef None)) a4).

(** ** [run]

    The loop suspends in three places: the read of the saved workflow, the
    one-second timers, and the execution pass.  [Pc] names the place where
    the run is suspended; [Finished] is the end of [start]. *)

Inductive Pc : Type := LoadingWorkflow | Sleeping | Executing | Finished.

(** What a pass ([executeWorkflow] or [executeReActLoop]) did when it
    settles: the steps its progress callback reported, and the context it
    leaves or the error it throws. *)
Inductive PassOutcome : Type :=
| PassDone (reported : list ReAct.ReActStep) (context : WorkflowExecutionContext)
| PassThrew (reported : list ReAct.ReActStep) (message : string).

Inductive Event : Type :=
| WorkflowRead (saved : option Workflow)
| TimerFired
| PassSettled (o : PassOutcome)
| SocketOpened
| Incoming (message : A2AMessage)
| CallSendUserMessage (message : string)
| CallApproveArtifact (approved : bool)
| CallPause
| CallResume
| CallStop.

Section Run.

(** [eval(goalCondition)] inside [checkGoalAchievement]: [None] when it
    throws. *)
Variable agent_eval : string -> BaseAgent -> option Value.

Definition output_generated (a : BaseAgent) : bool :=
  truthy (variable "output" (executionContext a)).

Definition checkGoalAchievement (a : BaseAgent) : bool :=
  let by_output :=
    if negb (output_generated a) then false
    else if configured (agentConfig a) then true
    else output_generated a in
  match currentWorkflow a with
  | Some w =>
      if negb (is_empty (goalCondition w)) then
        match agent_eval (goalCondition w) a with
        | Some v => truthy v
        | None => false
        end
      else by_output
  | None => by_output
  end.

(** The code after the loop. *)
Definition after_loop (a : BaseAgent) : BaseAgent :=
  if goalAchieved a then
    let a1 := set_status COMPLETED a in
    let artifact := variable "output" (executionContext a1) in
    sendA2AMessage
      (to_all AGENT_COMPLETE a1
              (mkPayload (Some (type a1 +:+ " agent completed")) artifact
                         (variable "artifactPath" (executionContext a1)) None)) a1
  else a.

Definition ask_initial_input (a : BaseAgent) : BaseAgent :=
  let question := "Please provide your initial requirements to begin." in
  let a1 := set_askedForInitialInput true a in
  let a2 := set_status WAITING_FOR_USER (set_currentQuestion (Some question) a1) in
  sendA2AMessage
    (to_all AGENT_PROGRESS a2
            (mkPayload (Some question)
                       (VObj [("status", VStr "waiting_for_user");
                              ("question", VStr question)]) VUndef None)) a2.

Definition begin_iteration (a : BaseAgent) : BaseAgent :=
  let c := executionContext a in
  let c1 := set_iteration (iteration c + 1)%Z c in
  set_agent_userMessages [] (set_executionContext (set_userMessages (userMessages a) c1) a).

(** From the test of the [while] to the next suspension.  [continue] goes
    back to the test at once, which [fuel] bounds. *)
Fixpoint enter_loop (fuel : nat) (a : BaseAgent) : option (BaseAgent * Pc) :=
  if goalAchieved a || status_eqb (status a) ERROR then Some (after_loop a, Finished)
  else if status_eqb (status a) WAITING_FOR_USER then Some (a, Sleeping)
  else if status_eqb (status a) WAITING_FOR_APPROVAL then Some (a, Sleeping)
  else if negb (status_eqb (status a) RUNNING) then Some (a, Sleeping)
  else
    match executionMode a, askedForInitialInput a, userMessages a with
    | interactive, false, [] =>
        match fuel with
        | O => None
        | S fuel' => enter_loop fuel' (ask_initial_input a)
        end
    | _, _, _ => Some (begin_iteration a, Executing)
    end.

Definition report_step (a : BaseAgent) (step : ReAct.ReActStep) : BaseAgent :=
  sendA2AMessage
    (to_all AGENT_PROGRESS a
            (mkPayload (Some "ReAct step executed")
                       (VObj [("step", ReAct.step_object step);
                              ("iteration", VNum (iteration (executionContext a)))])
                       VUndef None)) a.

(** The rest of the body once the pass has settled; an error leaves [run]
    and is caught by [start]. *)
Definition pass_settled (fuel : nat) (o : PassOutcome) (a : BaseAgent)
  : option (BaseAgent * Pc) :=
  match o with
  | PassThrew reported message =>
      let a1 := fold_left report_step reported a in
      let a2 := set_status ERROR a1 in
      Some (sendA2AMessage
              (to_all AGENT_ERROR a2 (mkPayload None VUndef VUndef (Some message))) a2,
            Finished)
  | PassDone reported context =>
      let a1 := fold_left report_step reported a in
      let a2 := set_executionContext context a1 in
      let a3 := set_goalAchieved (checkGoalAchievement a2) a2 in
      match executionMode a3, goalAchieved a3 with
      | interactive, true =>
          let a4 := set_artifactForApproval (variable "output" (executionContext a3)) a3 in
          let a5 := set_status WAITING_FOR_APPROVAL a4 in
          enter_loop fuel
            (sendA2AMessage
               (to_all AGENT_PROGRESS a5
                       (mkPayload (Some "Task completed. Please review the artifact.")
                                  (VObj [("status", VStr "waiting_for_approval");
                                         ("artifact", artifactForApproval a5)])
                                  VUndef None)) a5)
      | _, _ =>
          Some (sendA2AMessage
                  (to_all AGENT_PROGRESS a3
                          (mkPayload (Some ("Iteration "
                                            +:+ string_of_Z (iteration (executionContext a3))
                                            +:+ " completed"))
                                     (VObj [("goalAchieved", VBool (goalAchieved a3))])
                                     VUndef None)) a3,
                Sleeping)
      end
  end.

(** One event of the environment.  An event that cannot occur where the run
    is suspended leaves everything as it is; [None] only if the loop used up
    its [continue] bound. *)
Definition step (e : Event) (st : BaseAgent * Pc) : option (BaseAgent * Pc) :=
  let '(a, pc) := st in
  match e, pc with
  | WorkflowRead saved, LoadingWorkflow =>
      enter_loop 2 (match saved with
                    | Some w => set_currentWorkflow (Some w) a
                    | None => a
                    end)
  | TimerFired, Sleeping => enter_loop 2 a
  | PassSettled o, Executing => pass_settled 2 o a
  | SocketOpened, _ => Some (set_ws_open true a, pc)
  | Incoming message, _ => Some (handleA2AMessage message a, pc)
  | CallSendUserMessage message, _ => Some (sendUserMessage message a, pc)
  | CallApproveArtifact approved, _ =>
      Some (default a (approveArtifact approved a), pc)
  | CallPause, _ => Some (pause a, pc)
  | CallResume, _ => Some (resume a, pc)
  | CallStop, _ => Some (stop a, pc)
  | _, _ => Some st
  end.

(** Events among which there is no call of [stop]. *)
Definition no_stop (events : list Event) : bool :=
  forallb (fun e => match e with CallStop => false | _ => true end) events.

(** How far a list of events takes a run. *)
Inductive RunResult : Type :=
| Settled (a : BaseAgent) (rest : list Event)   (* [start] has returned *)
| Pending (a : BaseAgent) (pc : Pc)             (* the events are used up *)
| Stuck.

Fixpoint run_events (events : list Event) (a : BaseAgent) (pc : Pc) : RunResult :=
  match pc with
  | Finished => Settled a events
  | _ =>
      match events with
      | [] => Pending a pc
      | e :: rest =>
          match step e (a, pc) with
          | Some (a', pc') => run_events rest a' pc'
          | None => Stuck
          end
      end
  end.

(** [start], with the events that occur while it runs. *)
Inductive StartResult : Type :=
| StartReturned (a : BaseAgent) (rest : list Event)
| StartThrew (message : string) (a : BaseAgent)
| StartPending (a : BaseAgent) (pc : Pc)
| StartStuck.

Definition start (config : option AgentConfig) (initialData : list (string * Value))
           (mode : option ExecutionMode) (events : list Event) (a : BaseAgent) : StartResult :=
  match start_entry config initialData mode a with
  | AlreadyRunning a' => StartReturned a' events
  | ConfigurationError message a' => StartThrew message a'
  | EnterRun a' =>
      match run_events events a' LoadingWorkflow with
      | Settled a'' rest => StartReturned a'' rest
      | Pending a'' pc => StartPending a'' pc
      | Stuck => StartStuck
      end
  end.

End Run.

(** ** The two kinds of pass, from the engine *)

Section Passes.

Variable js_eval : string -> WorkflowExecutionContext -> option Value.
Variable chat : list ReAct.LLMMessage -> ReAct.ChatOutcome.
Variable json_parse : string -> option Value.
Variable json_stringify : Value -> string.
Variable json_pretty : WorkflowExecutionContext -> string.
(** [this.tools], [getDefaultGoal()] and [getSystemPrompt()] of the subclass. *)
Variable tools : list (string * Tool).
Variable defaultGoal : string.
Variable baseSystemPrompt : string.

(** [executeWorkflow]; [None] when the engine's run does not end within
    [fuel] nodes. *)
Definition executeWorkflow (fuel : nat) (a : BaseAgent) : option PassOutcome :=
  match currentWorkflow a with
  | None => Some (PassDone [] (executionContext a))
  | Some w =>
      match Engine.executeWorkflow js_eval chat json_parse json_stringify json_pretty
                                   tools fuel w (executionContext a) with
      | None => None
      | Some r =>
          if wr_success r then
            Some (PassDone []
                    (set_variables (omap_set "output" (wr_output r)
                                             (variables (wr_context r))) (wr_context r)))
          else Some (PassThrew [] (default "" (wr_error r)))
      end
  end.

Definition systemPrompt (a : BaseAgent) : string :=
  let with_scenario :=
    match agentConfig a with
    | Some c =>
        if is_empty (scenario c) then baseSystemPrompt
        else baseSystemPrompt +:+ ReAct.nl +:+ ReAct.nl
             +:+ "Completion Criteria (适用场景): " +:+ scenario c +:+ ReAct.nl
             +:+ "Your task is complete when you have successfully satisfied the above completion criteria."
    | None => baseSystemPrompt
    end in
  let with_prompt :=
    match agentConfig a with
    | Some (mkAgentConfig _ (Some p) _) =>
        if is_empty p then with_scenario
        else with_scenario +:+ ReAct.nl +:+ ReAct.nl +:+ "Additional Instructions: " +:+ p
    | _ => with_scenario
    end in
  match executionMode a, agentConfig a with
  | interactive, Some (mkAgentConfig _ _ (Some q)) =>
      if is_empty q then with_prompt
      else with_prompt +:+ ReAct.nl +:+ ReAct.nl
           +:+ "When asking for user input, you may use these suggested questions: " +:+ q
  | _, _ => with_prompt
  end.

Definition executeReActLoop (a : BaseAgent) : PassOutcome :=
  let r := ReAct.execute chat json_parse json_stringify json_pretty tools
                         ReAct.default_maxIterations true defaultGoal
                         (executionContext a) (Some (systemPrompt a)) in
  if ReAct.success r then
    let c := ReAct.context_after r in
    PassDone (ReAct.reported r)
             (push_history (List.map ReAct.step_object (ReAct.steps r))
                           (set_variables (omap_set "output" (ReAct.result r) (variables c)) c))
  else PassThrew (ReAct.reported r) (to_string (ReAct.result r)).

End Passes.

End Agent.

(* ===================================================================== *)
(** * index.ts: the dependency scheduler *)
(* ===================================================================== *)

Module Server.

Import Bus Agent.

Record AgentConnection : Type := mkConnection { from : string; to : string }.

(** types/agent-config.ts *)
Record WorkflowExecutionState : Type := mkExecutionState {
  currentNodeId : option string;
  currentAgentType : option string;
  mode : ExecutionMode;
  blockedAgents : list string;
  completedNodes : list string;
  artifactApprovals : list (string * bool)
}.

(** The module-level variables of index.ts, the stored agent configurations
    ([readAgentConfig]), and the record of the calls of [agent.start], oldest
    first. *)
Record State : Type := mkState {
  plannerAgent : option BaseAgent;
  artistAgent : option BaseAgent;
  developerAgent : option BaseAgent;
  agentConnections : list AgentConnection;
  executionState : WorkflowExecutionState;
  configs : list (string * AgentConfig);
  start_calls : list string
}.

Definition getAgentByType (type : string) (s : State) : option BaseAgent :=
  if String.eqb type "planner" then plannerAgent s
  else if String.eqb type "artist" then artistAgent s
  else if String.eqb type "developer" then developerAgent s
  else None.

(** Assignment to the agent object [getAgentByType] returns. *)
Definition update_agent (type : string) (a : BaseAgent) (s : State) : State :=
  if String.eqb type "planner"
  then mkState (Some a) (artistAgent s) (developerAgent s) (agentConnections s)
               (executionState s) (configs s) (start_calls s)
  else if String.eqb type "artist"
  then mkState (plannerAgent s) (Some a) (developerAgent s) (agentConnections s)
               (executionState s) (configs s) (start_calls s)
  else if String.eqb type "developer"
  then mkState (plannerAgent s) (artistAgent s) (Some a) (agentConnections s)
               (executionState s) (configs s) (start_calls s)
  else s.

Definition set_executionState (e : WorkflowExecutionState) (s : State) : State :=
  mkState (plannerAgent s) (artistAgent s) (developerAgent s) (agentConnections s) e
          (configs s) (start_calls s).

Definition set_connections (c : list AgentConnection) (s : State) : State :=
  mkState (plannerAgent s) (artistAgent s) (developerAgent s) c (executionState s)
          (configs s) (start_calls s).

Definition log_start (type : string) (s : State) : State :=
  mkState (plannerAgent s) (artistAgent s) (developerAgent s) (agentConnections s)
          (executionState s) (configs s) (start_calls s ++ [type]).

Definition set_currentAgentType (t : option string) (e : WorkflowExecutionState) :=
  mkExecutionState (currentNodeId e) t (mode e) (blockedAgents e) (completedNodes e)
                   (artifactApprovals e).

Definition set_completedNodes (c : list string) (e : WorkflowExecutionState) :=
  mkExecutionState (currentNodeId e) (currentAgentType e) (mode e) (blockedAgents e) c
                   (artifactApprovals e).

(** [l.includes(x)] *)
Definition includes_name (x : string) (l : list string) : bool :=
  existsb (String.eqb x) l.

Definition allAgents : list string := ["planner"; "artist"; "developer"].

Definition agentsWithDependencies (s : State) : list string :=
  List.map to (agentConnections s).

Definition startingAgents (s : State) : list string :=
  List.filter (fun agent => negb (includes_name agent (agentsWithDependencies s))) allAgents.

(** How a handler ends: it answers, or it is still waiting for a [start]
    whose run has not returned when the events are used up. *)
Inductive Response : Type :=
| BadRequest (error : string)                                        (* 400 *)
| WorkflowStarted (currentAgent : option string) (startedAgents : list string)
| InternalError (error : string)                                      (* 500 *)
| Suspended.

Inductive HandlerEnd : Type := Handled | Failed (error : string) | Waiting.

(** The handlers below take one invocation from its first line to its
    last, with the events of each run it awaits; nothing else takes its turn
    during an invocation.  The module [Tasks] takes the invocations with
    their suspension points. *)

Section Handlers.

Variable agent_eval : string -> BaseAgent -> option Value.
(** The events that occur during the run of each agent once it is started. *)
Variable schedule : string -> list Event.

(** [await agent.start({}, mode)] on the agent of that type; the agent reads
    the configuration stored under its own type. *)
Definition call_start (agentType : string) (m : option ExecutionMode) (a : BaseAgent)
           (s : State) : State * HandlerEnd :=
  let s1 := log_start agentType s in
  match Agent.start agent_eval (omap_get (type a) (configs s1)) [] m
                    (schedule agentType) a with
  | StartReturned a' _ => (update_agent agentType a' s1, Handled)
  | StartThrew message a' => (update_agent agentType a' s1, Failed message)
  | StartPending a' _ => (update_agent agentType a' s1, Waiting)
  | StartStuck => (s1, Waiting)
  end.

(** The loop [for (const agentType of startingAgents)] of the handler of
    POST /api/workflow/start. *)
Fixpoint start_each (m : option ExecutionMode) (agents : list string) (s : State)
  : State * HandlerEnd :=
  match agents with
  | [] => (s, Handled)
  | agentType :: rest =>
      match getAgentByType agentType s with
      | Some agent =>
          match call_start agentType m agent s with
          | (s', Handled) => start_each m rest s'
          | stopped => stopped
          end
      | None => start_each m rest s
      end
  end.

Definition workflow_start (m : option ExecutionMode) (s : State) : State * Response :=
  let s1 := set_executionState
              (mkExecutionState None None (default automatic m) [] [] []) s in
  let starting := startingAgents s1 in
  if Nat.eqb (length starting) 0 then (s1, BadRequest "No starting agents found")
  else
    match start_each m starting s1 with
    | (s2, Handled) =>
        (set_executionState (set_currentAgentType (starting !! 0%nat) (executionState s2)) s2,
         WorkflowStarted (starting !! 0%nat) starting)
    | (s2, Failed message) => (s2, InternalError message)
    | (s2, Waiting) => (s2, Suspended)
    end.

(** The loop [for (const nextAgentType of nextAgents)] of the monitor. *)
Fixpoint start_next (nextAgents : list string) (s : State) : State * HandlerEnd :=
  match nextAgents with
  | [] => (s, Handled)
  | nextAgentType :: rest =>
      let dependencies :=
        List.map from (List.filter (fun conn => String.eqb (to conn) nextAgentType)
                                   (agentConnections s)) in
      let allDependenciesCompleted :=
        forallb (fun dep => includes_name dep (completedNodes (executionState s)))
                dependencies in
      if allDependenciesCompleted then
        match getAgentByType nextAgentType s with
        | Some agent =>
            if status_eqb (getStatus agent) IDLE then
              let s1 := set_executionState
                          (set_currentAgentType (Some nextAgentType) (executionState s)) s in
              match call_start nextAgentType (Some (mode (executionState s1))) agent s1 with
              | (s', Handled) => start_next rest s'
              | stopped => stopped
              end
            else start_next rest s
        | None => start_next rest s
        end
      else start_next rest s
  end.

(** The ['message'] handler of the monitor client, for an ["a2a_message"]
    frame. *)
Definition monitor_message (message : A2AMessage) (s : State) : State * HandlerEnd :=
  match msg_type message with
  | AGENT_COMPLETE =>
      let completedAgentType := msg_from message in
      let e := executionState s in
      let s1 :=
        if negb (includes_name completedAgentType (completedNodes e))
        then set_executionState
               (set_completedNodes (completedNodes e ++ [completedAgentType]) e) s
        else s in
      let nextAgents :=
        List.map to (List.filter (fun conn => String.eqb (from conn) completedAgentType)
                                 (agentConnections s1)) in
      start_next nextAgents s1
  | _ => (s, Handled)
  end.

(** An agent is ready when it is initialised and its [start] returns. *)
Definition ready (m : option ExecutionMode) (s : State) (t : string) : bool :=
  match getAgentByType t s with
  | Some a =>
      match Agent.start agent_eval (omap_get (type a) (configs s)) [] m (schedule t) a with
      | StartReturned _ _ => true
      | _ => false
      end
  | None => false
  end.

End Handlers.

(** What a call of [start] leaves alone. *)
Definition same_setup (s s' : State) : Prop :=
  agentConnections s' = agentConnections s
  /\ executionState s' = executionState s
  /\ configs s' = configs s.

(** The number of calls of [start] on an agent. *)
Definition starts_of (agentType : string) (s : State) : nat :=
  length (List.filter (String.eqb agentType) (start_calls s)).

End Server.

(* ===================================================================== *)
(** * llm/gemini-client.ts: the conversion of a conversation *)
(* ===================================================================== *)

Module Gemini.

Import ReAct.

Inductive GeminiRole : Type := role_user | role_model.

(** [{ role, parts: [{ text }] }] *)
Record Content : Type := mkContent { content_role : GeminiRole; content_text : string }.

(** The [for] loop of [convertMessagesToGeminiFormat]. *)
Fixpoint collect (messages : list LLMMessage) (contents : list Content)
         (systemInstruction : string) : list Content * string :=
  match messages with
  | [] => (contents, systemInstruction)
  | msg :: rest =>
      match role msg with
      | system => collect rest contents (systemInstruction +:+ content msg +:+ nl)
      | assistant =>
          collect rest (contents ++ [mkContent role_model (content msg)]) systemInstruction
      | user =>
          collect rest (contents ++ [mkContent role_user (content msg)]) systemInstruction
      end
  end.

(** Assignment to the text of the first content whose role is [user]. *)
Fixpoint prepend_to_first_user (prefix : string) (contents : list Content) : list Content :=
  match contents with
  | [] => []
  | c :: rest =>
      match content_role c with
      | role_user => mkContent role_user (prefix +:+ content_text c) :: rest
      | role_model => c :: prepend_to_first_user prefix rest
      end
  end.

Definition convertMessagesToGeminiFormat (messages : list LLMMessage) : list Content :=
  let '(contents, systemInstruction) := collect messages [] "" in
  if negb (is_empty systemInstruction) && Nat.ltb 0 (length contents)
  then prepend_to_first_user (systemInstruction +:+ nl) contents
  else contents.

(** The same conversion, written without the loop: the messages that are
    not system messages, in order, and the system texts, each followed by a
    line feed. *)
Definition plain_content (msg : LLMMessage) : Content :=
  mkContent (match role msg with assistant => role_model | _ => role_user end) (content msg).

Definition is_system (msg : LLMMessage) : bool :=
  match role msg with system => true | _ => false end.

Definition plain_contents (messages : list LLMMessage) : list Content :=
  List.map plain_content (List.filter (fun m => negb (is_system m)) messages).

Definition system_text (messages : list LLMMessage) : string :=
  fold_right (fun m acc => content m +:+ nl +:+ acc) ""
             (List.filter is_system messages).

Definition has_user (contents : list Content) : bool :=
  existsb (fun c => match content_role c with role_user => true | _ => false end) contents.

End Gemini.

(* ===================================================================== *)
(** * Observations on an agent's run *)
(* ===================================================================== *)

Module AgentObs.

Import Bus Agent.

(** The text of the request for initial input. *)
Definition initial_question : string := "Please provide your initial requirements to begin.".

(** Is a message sent the request for initial input? *)
Definition is_question (o : Outgoing) : bool :=
  match o_type o, p_content (o_payload o) with
  | AGENT_PROGRESS, Some c => String.eqb c initial_question
  | _, _ => false
  end.

(** The number of requests for initial input among the messages sent. *)
Definition questions_sent (a : BaseAgent) : nat :=
  length (List.filter is_question (outbox a)).

(** The requests sent, and the one the agent may still send. *)
Definition question_budget (a : BaseAgent) : nat :=
  questions_sent a + (if askedForInitialInput a then 0 else 1).

(** The messages of a type among the messages sent. *)
Definition sent_of_type (t : MessageType) (a : BaseAgent) : list Outgoing :=
  List.filter (fun o => match o_type o, t with
                        | AGENT_START, AGENT_START | AGENT_COMPLETE, AGENT_COMPLETE
                        | AGENT_ERROR, AGENT_ERROR | AGENT_PROGRESS, AGENT_PROGRESS
                        | USER_MESSAGE, USER_MESSAGE | SYSTEM_MESSAGE, SYSTEM_MESSAGE
                        | ARTIFACT_APPROVAL, ARTIFACT_APPROVAL => true
                        | _, _ => false
                        end) (outbox a).

(** The type of the last message sent. *)
Definition last_sent_type (a : BaseAgent) : option MessageType :=
  o_type <$> last (outbox a).

(** How an agent is left when [start] returns from a run: completed with
    [agent_complete] sent last, or in error with [agent_error] sent last (a
    closed socket sends nothing). *)
Definition completed_or_in_error (a : BaseAgent) : Prop :=
  (status a = COMPLETED /\ goalAchieved a = true
   /\ (ws_open a = true -> last_sent_type a = Some AGENT_COMPLETE))
  \/ (status a = ERROR
      /\ (ws_open a = true -> last_sent_type a = Some AGENT_ERROR)).

(** Events among which the socket is not opened. *)
Definition socket_stays_closed (events : list Event) : bool :=
  forallb (fun e => match e with SocketOpened => false | _ => true end) events.

(** The agent a run result holds, if any. *)
Definition agent_of (r : RunResult) : option BaseAgent :=
  match r with
  | Settled a _ | Pending a _ => Some a
  | Stuck => None
  end.

(** A property of the agent a run has led to; a run that has used up its
    bound has none. *)
Definition after_run (P : BaseAgent -> Prop) (r : RunResult) : Prop :=
  match r with
  | Settled a _ | Pending a _ => P a
  | Stuck => False
  end.

(** The same for a call of [start], however it ends. *)
Definition after_start (P : BaseAgent -> Prop) (r : StartResult) : Prop :=
  match r with
  | StartReturned a _ | StartThrew _ a | StartPending a _ => P a
  | StartStuck => False
  end.

(** The socket is closed and nothing more has been sent. *)
Definition quiet_since (a a' : BaseAgent) : Prop :=
  ws_open a' = false /\ outbox a' = outbox a.

Ltac budget_same := unfold question_budget, questions_sent; cbn; lia.

End AgentObs.
(* ===================================================================== *)
(** * The server over a sequence of events *)
(* ===================================================================== *)

Module BusRun.

Import Bus.

(** What happens to the server: the events of its socket server and the
    calls of its public methods. *)
Inductive BusEvent : Type :=
| Connect (clientId : string)                   (* ['connection'], with the id drawn *)
| Close (clientId : string)                     (* ['close'] of that client's socket *)
| Receive (clientId : string) (frame : Frame)   (* ['message'] on that client's socket *)
| Publish (message : A2AMessage)                (* [sendMessage] *)
| Subscribe (handlerId : string)                (* [onMessage], with the id drawn *)
| Unsubscribe (handlerId : string)              (* [offMessage] *)
| Closing (clientId : string).                  (* that client's socket leaves OPEN *)

(** The server together with the client ids drawn so far and the messages
    routed so far, oldest first. *)
Record BusTrace : Type := mkTrace {
  used : list string;
  routed : list A2AMessage;
  server : A2AServer
}.

Definition in_list (x : string) (l : list string) : bool := existsb (String.eqb x) l.

(** The closing handshake of a client's socket has begun ([close()] was
    called, or the close frame of the peer has arrived): its [readyState] is
    CLOSING, and it stays in [clients] until ['close'] is emitted. *)
Definition begin_close (clientId : string) (s : A2AServer) : A2AServer :=
  with_clients (omap_set clientId CLOSING (clients s)) s.

(** One event.  The ids [uuidv4] draws are fresh and not empty, and a socket
    emits ['message'] and ['close'] and changes its [readyState] only while
    its client is in [clients]: an event that breaks this cannot occur and is
    skipped. *)
Definition bus_step (fuel : nat) (e : BusEvent) (t : BusTrace) : option BusTrace :=
  match e with
  | Connect c =>
      if is_empty c || in_list c (used t) then Some t
      else Some (mkTrace (c :: used t) (routed t) (on_connection c (server t)))
  | Close c =>
      if has_client c (server t)
      then Some (mkTrace (used t) (routed t) (on_close c (server t)))
      else Some t
  | Receive c frame =>
      if has_client c (server t) then
        match handleMessage fuel c frame (server t) with
        | Some s =>
            Some (mkTrace (used t)
                          (routed t ++ match frame with A2A m => [m] | _ => [] end) s)
        | None => None
        end
      else Some t
  | Publish m => Some (mkTrace (used t) (routed t ++ [m]) (sendMessage m (server t)))
  | Subscribe h => Some (mkTrace (used t) (routed t) (onMessage h (server t)))
  | Unsubscribe h => Some (mkTrace (used t) (routed t) (offMessage h (server t)))
  | Closing c =>
      if has_client c (server t)
      then Some (mkTrace (used t) (routed t) (begin_close c (server t)))
      else Some t
  end.

Fixpoint bus_run (fuel : nat) (events : list BusEvent) (t : BusTrace) : option BusTrace :=
  match events with
  | [] => Some t
  | e :: rest =>
      match bus_step fuel e t with
      | Some t' => bus_run fuel rest t'
      | None => None
      end
  end.

Definition initial_trace : BusTrace := mkTrace [] [] new_server.

(** The messages of a list that are addressed to [a]. *)
Definition addressed_to (a : string) (ms : list A2AMessage) : list A2AMessage :=
  List.filter (fun m => String.eqb (msg_to m) a) ms.

(** The messages addressed to [a] that have been sent to a client. *)
Definition directly_sent (a : string) (s : A2AServer) : list A2AMessage :=
  addressed_to a (List.map snd (sent s)).

(** The buffer of [a]. *)
Definition buffered (a : string) (s : A2AServer) : list A2AMessage :=
  default [] (messageQueue s !! a).

(** Is [c] a client whose socket is open? *)
Definition open_client (c : string) (s : A2AServer) : bool :=
  match omap_get c (clients s) with
  | Some r => is_open r
  | None => false
  end.

(** The messages a handler has been called with, oldest first. *)
Definition notified_to (h : string) (s : A2AServer) : list A2AMessage :=
  List.map snd (List.filter (fun e => String.eqb (fst e) h) (notified s)).

(** How many times a handler id stands among the handlers. *)
Definition subscriptions (h : string) (s : A2AServer) : nat :=
  length (List.filter (fun h' => String.eqb h' h) (messageHandlers s)).

(** Events that neither subscribe nor unsubscribe [h]. *)
Definition keeps_handler (h : string) (events : list BusEvent) : bool :=
  forallb (fun e => match e with
                    | Subscribe h' | Unsubscribe h' => negb (String.eqb h' h)
                    | _ => true
                    end) events.

(** The invariant of the server. *)
Record consistent (t : BusTrace) : Prop := mkConsistent {
  queue_names : forall a, In a agentTypes <-> is_Some (messageQueue (server t) !! a);
  client_ids : forall c, has_client c (server t) = true ->
                         in_list c (used t) = true /\ is_empty c = false;
  registered_ids : forall a c, omap_get a (agentClients (server t)) = Some c ->
                               in_list c (used t) = true;
  registered_once : List.NoDup (omap_keys (agentClients (server t)));
  clients_once : List.NoDup (omap_keys (clients (server t)));
  connected_unbuffered : forall a c, connected_client a (server t) = Some c ->
                                     buffered a (server t) = [];
  conserved : forall a, In a agentTypes ->
                        directly_sent a (server t) ++ buffered a (server t)
                        = addressed_to a (routed t)
}.

End BusRun.

(* ===================================================================== *)
(** * The dependencies of an agent *)
(* ===================================================================== *)

Module ServerObs.

Import Server.

(** [allDependenciesCompleted] for an agent, as the monitor computes it. *)
Definition dependencies_met (t : string) (s : State) : bool :=
  forallb (fun dep => includes_name dep (completedNodes (executionState s)))
          (List.map from (List.filter (fun conn => String.eqb (to conn) t)
                                      (agentConnections s))).

End ServerObs.

(* ===================================================================== *)
(** * Templates, parameters and loops of the workflow engine *)
(* ===================================================================== *)

Module EngineObs.

Import Engine.

(** Strings all of whose characters satisfy [p]. *)
Fixpoint all_chars (p : ascii -> bool) (s : string) : bool :=
  match s with
  | EmptyString => true
  | String c s' => p c && all_chars p s'
  end.

(** Text without an opening brace. *)
Definition brace_free (s : string) : bool :=
  all_chars (fun c => negb (Ascii.eqb c "{")) s.

(** A name: not empty, without white space, dot or closing brace. *)
Definition word (s : string) : bool :=
  negb (is_empty s)
  && all_chars (fun c => negb (is_space c) && negb (Ascii.eqb c "}")
                         && negb (Ascii.eqb c ".")) s.

(** The names an object literal inherits from [Object.prototype].  Looked up
    on an object that has no field of that name they give the inherited
    function (the prototype itself, for [__proto__]); [get_prop] reads the
    fields of the object only, so it stands for the source's property access
    on the other names. *)
Definition prototype_names : list string :=
  ["constructor"; "hasOwnProperty"; "isPrototypeOf"; "propertyIsEnumerable";
   "toLocaleString"; "toString"; "valueOf"; "__proto__";
   "__defineGetter__"; "__defineSetter__"; "__lookupGetter__"; "__lookupSetter__"].

Definition inherited (name : string) : bool :=
  existsb (String.eqb name) prototype_names.

(** What [resolveParameters] does to the value of one parameter. *)
Definition resolve_value (context : WorkflowExecutionContext) (v : Value) : Value :=
  match v with
  | VStr s => VStr (resolveString s context)
  | _ => v
  end.

(** The record a loop node adds for a pass. *)
Definition iteration_record (i : nat) : Value := VObj [("iteration", VNum (Z.of_nat i))].

(** [node.config.maxIterations || 10], as the number of passes at most. *)
Definition loop_limit (node : WorkflowNode) : nat :=
  Z.to_nat (match cfgMaxIterations (config node) with
            | Some n => if Z.eqb n 0 then 10%Z else n
            | None => 10%Z
            end).

End EngineObs.

(* ===================================================================== *)
(** * Steps and replies of the reasoning loop *)
(* ===================================================================== *)

Module ReActObs.

Import ReAct.

(** A step that is not the final one. *)
Definition tool_step (s : ReActStep) : bool := negb (String.eqb (action s) "FINISH").

(** How a run of the loop ends, given the steps it has added: with
    success, the last step is the final one and the result is its input;
    without, no step is final. *)
Definition ends_well (r : ExecuteResult) (added : list ReActStep) : Prop :=
  if success r
  then exists earlier final,
         added = earlier ++ [final]
         /\ forallb tool_step earlier = true
         /\ action final = "FINISH" /\ observation final = "Task completed"
         /\ result r = actionInput final
  else forallb tool_step added = true.

(** Is [c] a character of a line that is not white space? *)
Definition is_visible (c : ascii) : bool := negb (is_space c).

(** A line of text as a reply carries it after a label: it starts and ends
    with a character that is not white space and has no line break. *)
Fixpoint one_line (s : string) : bool :=
  match s with
  | EmptyString => true
  | String c s' => negb (is_line_terminator c) && one_line s'
  end.

Definition last_visible (s : string) : bool :=
  match last_char s with
  | String c _ => is_visible c
  | EmptyString => false
  end.

Definition field_text (s : string) : bool :=
  match s with
  | String c _ => is_visible c && one_line s && last_visible s
  | EmptyString => false
  end.

(** Text that [trim] leaves as it is and that is not empty. *)
Definition trimmed_text (s : string) : bool :=
  match s with
  | String c _ => is_visible c && last_visible s
  | EmptyString => false
  end.

(** The reply in the format the prompt asks for. *)
Definition formatted_reply (thought action input : string) : string :=
  "Thought: " +:+ thought +:+ nl +:+ "Action: " +:+ action +:+ nl
  +:+ "Action Input: " +:+ input.

End ReActObs.

(* ===================================================================== *)
(** * The handlers of index.ts with their suspension points *)
(* ===================================================================== *)

(** The monitor's ['message'] handler and the handler of
    POST /api/workflow/start are [async] functions: each invocation runs
    until its next [await] and goes on when what it awaits has settled, and
    other invocations, the runs of the agents and the calls of the other
    routes take their turns in between.  An invocation is a task; a task is
    suspended at a place; the module-level variables are shared by all of
    them.  While the handlers run, the agents are not created anew, the
    connections and the stored configurations are not rewritten, and
    [saveExecutionState] does not throw. *)

Module Tasks.

Import Bus Agent Server ServerObs.

(** [start] from the return of [readAgentConfig] (l.322) to the call of
    [run]: the test of RUNNING lies before the read. *)
Inductive AfterRead : Type :=
| Throws (message : string) (a : BaseAgent)
| Enters (a : BaseAgent).

Definition start_after_read (config : option AgentConfig)
           (initialData : list (string * Value))
           (mode : option ExecutionMode) (a : BaseAgent) : AfterRead :=
  let a1 := set_agentConfig config a in
  if negb (configured config) then Throws (scenario_missing (type a)) a1
  else
    let a2 := set_executionMode (default automatic mode) a1 in
    let a3 := set_goalAchieved false (set_status RUNNING a2) in
    let a4 := set_executionContext (set_variables initialData (executionContext a3)) a3 in
    Enters (sendA2AMessage
              (to_all AGENT_START a4
                      (mkPayload (Some (type a4 +:+ " agent started in "
                                        +:+ mode_name (executionMode a4) +:+ " mode"))
                                 VUndef VUndef None)) a4).

(** Where a call of [start] is suspended. *)
Inductive StartPc : Type :=
| ReadingConfig (mode : option ExecutionMode)   (* [await readAgentConfig] *)
| InRun (pc : Pc).                              (* [await this.run()] *)

(** The events that let a run go on, as opposed to the calls and messages
    that reach an agent from outside its run. *)
Definition is_run_event (e : Event) : bool :=
  match e with
  | WorkflowRead _ | TimerFired | PassSettled _ => true
  | _ => false
  end.

(** The return of a call of [start]: the agent as it is at that instant, and
    whether the call had entered [run]. *)
Record Return : Type := mkReturn {
  r_type : string;
  r_agent : BaseAgent;
  r_entered : bool
}.

(** Where an invocation is suspended.  For the monitor: before its first
    line, at [await saveExecutionState] after the push (l.534), at the one
    after the idle test (l.563), in [await agent.start] (l.564), and at its
    end, with the error the [catch] has logged.  For the start of the
    workflow: before its first line, at the first [await saveExecutionState]
    (l.907), in [await agent.start] (l.931), at the last
    [await saveExecutionState] (l.941), and after the answer. *)
Inductive Place : Type :=
| MonitorReceived (message : A2AMessage)
| MonitorMarked (completed : string)
| MonitorGuarded (agentType : string) (rest : list string)
| MonitorStarting (agentType : string) (rest : list string) (p : StartPc)
| MonitorEnded (error : option string)
| StartReceived (m : option ExecutionMode)
| StartReset (m : option ExecutionMode)
| StartStarting (m : option ExecutionMode) (starting : list string)
                (agentType : string) (rest : list string) (p : StartPc)
| StartRecording (m : option ExecutionMode) (starting : list string)
| StartAnswered (r : Response).

(** An invocation, with the calls of [agent.start] it has made and those
    that have returned to it, oldest first. *)
Record Task : Type := mkTask {
  place : Place;
  called : list string;
  returned : list Return
}.

Definition set_place (p : Place) (k : Task) : Task := mkTask p (called k) (returned k).

Definition log_call (t : string) (k : Task) : Task :=
  mkTask (place k) (called k ++ [t]) (returned k).

Definition log_return (t : string) (a : BaseAgent) (entered : bool) (k : Task) : Task :=
  mkTask (place k) (called k) (returned k ++ [mkReturn t a entered]).

(** A request to start the workflow and a delivery to the monitor, not yet
    handled. *)
Definition request (m : option ExecutionMode) : Task := mkTask (StartReceived m) [] [].

Definition observation (message : A2AMessage) : Task :=
  mkTask (MonitorReceived message) [] [].

(** The agents that depend on the one that has completed. *)
Definition successors (completed : string) (s : State) : list string :=
  List.map to (List.filter (fun conn => String.eqb (from conn) completed)
                           (agentConnections s)).

(** The loop [for (const nextAgentType of nextAgents)] of the monitor, up
    to its next suspension: the agent whose dependencies are met and that is
    idle becomes the current agent, and the handler awaits the save. *)
Fixpoint monitor_scan (nextAgents : list string) (k : Task) (s : State) : Task * State :=
  match nextAgents with
  | [] => (set_place (MonitorEnded None) k, s)
  | nextAgentType :: rest =>
      if dependencies_met nextAgentType s then
        match getAgentByType nextAgentType s with
        | Some agent =>
            if status_eqb (getStatus agent) IDLE then
              (set_place (MonitorGuarded nextAgentType rest) k,
               set_executionState
                 (set_currentAgentType (Some nextAgentType) (executionState s)) s)
            else monitor_scan rest k s
        | None => monitor_scan rest k s
        end
      else monitor_scan rest k s
  end.

(** The loop [for (const agentType of startingAgents)], up to its next
    suspension: a call of [start] on a running agent returns at once, and the
    loop goes on in the same turn; on another agent the call suspends at the
    read of the configuration.  After the loop the first starting agent
    becomes the current agent and the handler awaits the save. *)
Fixpoint start_scan (m : option ExecutionMode) (starting : list string)
         (agents : list string) (k : Task) (s : State) : Task * State :=
  match agents with
  | [] =>
      (set_place (StartRecording m starting) k,
       set_executionState (set_currentAgentType (starting !! 0%nat) (executionState s)) s)
  | agentType :: rest =>
      match getAgentByType agentType s with
      | Some agent =>
          if status_eqb (status agent) RUNNING
          then start_scan m starting rest
                          (log_return agentType agent false (log_call agentType k)) s
          else (set_place (StartStarting m starting agentType rest (ReadingConfig m))
                          (log_call agentType k), s)
      | None => start_scan m starting rest k s
      end
  end.

Section Moves.

Variable agent_eval : string -> BaseAgent -> option Value.

(** What a task does when the promise it awaits has settled, up to its next
    suspension.  A task that is inside the run of an agent goes on with the
    events of that run, see [deliver]. *)
Definition resume_task (k : Task) (s : State) : Task * State :=
  match place k with
  | MonitorReceived message =>
      match msg_type message with
      | AGENT_COMPLETE =>
          let completedAgentType := msg_from message in
          let e := executionState s in
          if negb (includes_name completedAgentType (completedNodes e))
          then (set_place (MonitorMarked completedAgentType) k,
                set_executionState
                  (set_completedNodes (completedNodes e ++ [completedAgentType]) e) s)
          else monitor_scan (successors completedAgentType s) k s
      | _ => (set_place (MonitorEnded None) k, s)
      end
  | MonitorMarked completedAgentType =>
      monitor_scan (successors completedAgentType s) k s
  | MonitorGuarded agentType rest =>
      (* agent.start({}, executionState.mode), on the agent the guard has seen *)
      match getAgentByType agentType s with
      | Some agent =>
          if status_eqb (status agent) RUNNING
          then monitor_scan rest (log_return agentType agent false (log_call agentType k)) s
          else (set_place (MonitorStarting agentType rest
                             (ReadingConfig (Some (mode (executionState s)))))
                          (log_call agentType k), s)
      | None => monitor_scan rest k s
      end
  | MonitorStarting agentType rest (ReadingConfig m) =>
      match getAgentByType agentType s with
      | Some agent =>
          match start_after_read (omap_get (type agent) (configs s)) [] m agent with
          | Enters agent' =>
              (set_place (MonitorStarting agentType rest (InRun LoadingWorkflow)) k,
               update_agent agentType agent' s)
          | Throws message agent' =>
              (set_place (MonitorEnded (Some message)) k, update_agent agentType agent' s)
          end
      | None => (k, s)
      end
  | StartReceived m =>
      (set_place (StartReset m) k,
       set_executionState (mkExecutionState None None (default automatic m) [] [] []) s)
  | StartReset m =>
      let starting := startingAgents s in
      if Nat.eqb (length starting) 0
      then (set_place (StartAnswered (BadRequest "No starting agents found")) k, s)
      else start_scan m starting starting k s
  | StartStarting m starting agentType rest (ReadingConfig m') =>
      match getAgentByType agentType s with
      | Some agent =>
          match start_after_read (omap_get (type agent) (configs s)) [] m' agent with
          | Enters agent' =>
              (set_place (StartStarting m starting agentType rest (InRun LoadingWorkflow)) k,
               update_agent agentType agent' s)
          | Throws message agent' =>
              (set_place (StartAnswered (InternalError message)) k,
               update_agent agentType agent' s)
          end
      | None => (k, s)
      end
  | StartRecording m starting =>
      (set_place (StartAnswered (WorkflowStarted (starting !! 0%nat) starting)) k, s)
  | _ => (k, s)
  end.

(** A task resumed [n] times in a row. *)
Fixpoint resume_times (n : nat) (k : Task) (s : State) : Task * State :=
  match n with
  | O => (k, s)
  | S n' => let '(k', s') := resume_task k s in resume_times n' k' s'
  end.

(** An event of the run a task awaits.  When the run ends, [start] returns
    and the task goes on with its loop. *)
Definition deliver (e : Event) (k : Task) (s : State) : Task * State :=
  if is_run_event e then
    match place k with
    | MonitorStarting agentType rest (InRun pc) =>
        match getAgentByType agentType s with
        | Some agent =>
            match step agent_eval e (agent, pc) with
            | Some (agent', Finished) =>
                monitor_scan rest (log_return agentType agent' true k)
                             (update_agent agentType agent' s)
            | Some (agent', pc') =>
                (set_place (MonitorStarting agentType rest (InRun pc')) k,
                 update_agent agentType agent' s)
            | None => (k, s)
            end
        | None => (k, s)
        end
    | StartStarting m starting agentType rest (InRun pc) =>
        match getAgentByType agentType s with
        | Some agent =>
            match step agent_eval e (agent, pc) with
            | Some (agent', Finished) =>
                start_scan m starting rest (log_return agentType agent' true k)
                           (update_agent agentType agent' s)
            | Some (agent', pc') =>
                (set_place (StartStarting m starting agentType rest (InRun pc')) k,
                 update_agent agentType agent' s)
            | None => (k, s)
            end
        | None => (k, s)
        end
    | _ => (k, s)
    end
  else (k, s).

(** A call or a message that reaches an agent from outside its run: the
    routes of the server ([stop], [pause], [resume], [sendUserMessage],
    [approveArtifact]) and the agent's socket. *)
Definition control (agentType : string) (e : Event) (s : State) : State :=
  if is_run_event e then s
  else
    match getAgentByType agentType s with
    | Some agent =>
        match step agent_eval e (agent, Finished) with
        | Some (agent', _) => update_agent agentType agent' s
        | None => s
        end
    | None => s
    end.

(** The shared variables and the invocations in flight. *)
Record System : Type := mkSystem {
  shared : State;
  tasks : list Task
}.

(** [start] called by another route (POST /api/agents/:type/start), from
    the return of its read of the configuration on; the error it may throw
    goes to that route. *)
Definition started_elsewhere (agentType : string) (initialData : list (string * Value))
           (m : option ExecutionMode) (s : State) : State :=
  match getAgentByType agentType s with
  | Some agent =>
      match start_after_read (omap_get (type agent) (configs s)) initialData m agent with
      | Throws _ agent' | Enters agent' => update_agent agentType agent' s
      end
  | None => s
  end.

(** An event of a run that such a call awaits, wherever that run is
    suspended. *)
Definition run_elsewhere (agentType : string) (e : Event) (pc : Pc) (s : State) : State :=
  if is_run_event e then
    match getAgentByType agentType s with
    | Some agent =>
        match step agent_eval e (agent, pc) with
        | Some (agent', _) => update_agent agentType agent' s
        | None => s
        end
    | None => s
    end
  else s.

(** What the event loop does next: it resumes a task, hands an event to the
    run a task awaits, serves a call from outside, lets another route
    assign the execution state (POST /api/execution/state,
    POST /api/workflow/respond), or lets a call of [start] by another route
    and its run go on.  A move that names no task, or that the task cannot
    make where it is, changes nothing. *)
Inductive Move : Type :=
| Resume (i : nat)
| Deliver (i : nat) (e : Event)
| Control (agentType : string) (e : Event)
| Execution (e : WorkflowExecutionState)
| StartedElsewhere (agentType : string) (initialData : list (string * Value))
                   (m : option ExecutionMode)
| RunElsewhere (agentType : string) (e : Event) (pc : Pc).

Definition put_task (i : nat) (r : Task * State) (y : System) : System :=
  mkSystem (snd r) (<[i := fst r]> (tasks y)).

Definition sys_step (mv : Move) (y : System) : System :=
  match mv with
  | Resume i =>
      match tasks y !! i with
      | Some k => put_task i (resume_task k (shared y)) y
      | None => y
      end
  | Deliver i e =>
      match tasks y !! i with
      | Some k => put_task i (deliver e k (shared y)) y
      | None => y
      end
  | Control agentType e => mkSystem (control agentType e (shared y)) (tasks y)
  | Execution e => mkSystem (set_executionState e (shared y)) (tasks y)
  | StartedElsewhere agentType initialData m =>
      mkSystem (started_elsewhere agentType initialData m (shared y)) (tasks y)
  | RunElsewhere agentType e pc =>
      mkSystem (run_elsewhere agentType e pc (shared y)) (tasks y)
  end.

Definition run_moves (moves : list Move) (y : System) : System :=
  fold_left (fun y mv => sys_step mv y) moves y.

(** How a move changes an agent, if it does: by the part of [start] after
    the read, by an event of one of its runs, or by a call from outside. *)
Inductive agent_moved (mv : Move) (t : string) (a a' : BaseAgent) : Prop :=
| moved_entered (config : option AgentConfig) (initialData : list (string * Value))
                (m : option ExecutionMode) :
    start_after_read config initialData m a = Enters a' -> agent_moved mv t a a'
| moved_threw (config : option AgentConfig) (initialData : list (string * Value))
              (m : option ExecutionMode) (message : string) :
    start_after_read config initialData m a = Throws message a' -> agent_moved mv t a a'
| moved_run (e : Event) (pc pc' : Pc) :
    is_run_event e = true -> step agent_eval e (a, pc) = Some (a', pc') ->
    agent_moved mv t a a'
| moved_called (e : Event) (pc' : Pc) :
    mv = Control t e -> step agent_eval e (a, Finished) = Some (a', pc') ->
    agent_moved mv t a a'.

End Moves.

(** ** What is observed of a task *)

Definition answer (k : Task) : option Response :=
  match place k with
  | StartAnswered r => Some r
  | _ => None
  end.

(** The agent whose [start] the task awaits. *)
Definition pending (k : Task) : option string :=
  match place k with
  | MonitorStarting t _ _ => Some t
  | StartStarting _ _ t _ _ => Some t
  | _ => None
  end.

Definition returned_types (k : Task) : list string := List.map r_type (returned k).

Definition initialised (s : State) (t : string) : bool :=
  match getAgentByType t s with Some _ => true | None => false end.

(** The starting agents that are initialised, in the order of the loop. *)
Definition selected (s : State) : list string :=
  List.filter (initialised s) (startingAgents s).

(** Moves among which [stop] is not called on the agent [t]. *)
Definition no_stop_on (t : string) (moves : list Move) : bool :=
  forallb (fun mv => match mv with
                     | Control t' CallStop => negb (String.eqb t' t)
                     | _ => true
                     end) moves.

(** What a move leaves alone: the connections, the stored configurations,
    which agents are initialised, and their types. *)
Definition same_world (s0 s : State) : Prop :=
  agentConnections s = agentConnections s0
  /\ configs s = configs s0
  /\ forall t, option_map type (getAgentByType t s) = option_map type (getAgentByType t s0).

(** How a call of [start] has returned: from its first line when the agent
    was running, after its run otherwise. *)
Definition return_ok (r : Return) : Prop :=
  if r_entered r
  then status (r_agent r) = COMPLETED \/ status (r_agent r) = ERROR
  else status (r_agent r) = RUNNING.

(** The status of the agent of a type, when it is initialised. *)
Definition status_of (t : string) (s : State) : option AgentStatus :=
  option_map status (getAgentByType t s).

(** ** What holds of a task wherever it is suspended *)

(** The loop of the start of the workflow has gone through [before] and
    has called [start] on [t]: the calls are the initialised agents of
    [before] and [t], and the calls before that on [t] have returned. *)
Definition progress_of (s0 : State) (before : list string) (t : string) (k : Task) : Prop :=
  called k = List.filter (initialised s0) before ++ [t]
  /\ returned_types k = List.filter (initialised s0) before.

(** A start of the workflow received with mode [m] in the state [s0]. *)
Definition start_inv (s0 : State) (m : option ExecutionMode) (k : Task) : Prop :=
  Forall return_ok (returned k)
  /\ match place k with
     | StartReceived m' | StartReset m' => m' = m /\ called k = [] /\ returned k = []
     | StartStarting m' starting t rest p =>
         m' = m /\ starting = startingAgents s0 /\ p <> InRun Finished
         /\ (forall m'', p = ReadingConfig m'' -> m'' = m)
         /\ initialised s0 t = true
         /\ exists before, starting = before ++ t :: rest /\ progress_of s0 before t k
     | StartRecording m' starting =>
         m' = m /\ starting = startingAgents s0 /\ starting <> []
         /\ called k = selected s0 /\ returned_types k = called k
     | StartAnswered (BadRequest e) =>
         e = "No starting agents found" /\ startingAgents s0 = []
         /\ called k = [] /\ returned k = []
     | StartAnswered (WorkflowStarted cur started) =>
         started = startingAgents s0 /\ started <> [] /\ cur = started !! 0%nat
         /\ called k = selected s0 /\ returned_types k = called k
     | StartAnswered (InternalError e) =>
         exists before t rest a0,
           startingAgents s0 = before ++ t :: rest /\ progress_of s0 before t k
           /\ getAgentByType t s0 = Some a0
           /\ configured (omap_get (type a0) (configs s0)) = false
           /\ e = scenario_missing (type a0)
     | _ => False
     end.

(** An observation of the completion of [P] when the only connection is
    P -> Q. *)
Definition monitor_inv (P Q : string) (k : Task) : Prop :=
  match place k with
  | MonitorReceived message =>
      (msg_type message = AGENT_COMPLETE -> msg_from message = P) /\ called k = []
  | MonitorMarked c => c = P /\ called k = []
  | MonitorGuarded t rest => t = Q /\ rest = [] /\ called k = []
  | MonitorStarting t rest p => t = Q /\ rest = [] /\ called k = [Q]
  | MonitorEnded _ => called k = [] \/ called k = [Q]
  | _ => False
  end.

(** The same, while Q is not idle. *)
Definition monitor_quiet (P : string) (k : Task) : Prop :=
  match place k with
  | MonitorReceived message =>
      (msg_type message = AGENT_COMPLETE -> msg_from message = P) /\ called k = []
  | MonitorMarked c => c = P /\ called k = []
  | MonitorEnded _ => called k = []
  | _ => False
  end.

(** The only connection is P -> Q, and Q is not idle. *)
Definition successor_busy (P Q : string) (s : State) : Prop :=
  agentConnections s = [mkConnection P Q]
  /\ forall a, getAgentByType Q s = Some a -> status a <> IDLE.

End Tasks.

(* ===================================================================== *)
(** * Concrete environments and data used by the examples *)
(* ===================================================================== *)

Module Examples.

Import ReAct Engine.

(** An evaluator for the two literals; anything else throws. *)
Definition literal_eval (source : string) (_ : WorkflowExecutionContext) : option Value :=
  if String.eqb source "true" then Some (VBool true)
  else if String.eqb source "false" then Some (VBool false)
  else None.

(** A tool that returns its parameters and leaves the context alone. *)
Definition echo : Tool :=
  mkTool "Return the parameters" (VObj []) (fun params context => ToolReturn params context).

Definition no_parse (_ : string) : option Value := None.
Definition plain_stringify (v : Value) : string := to_string v.
Definition no_pretty (_ : WorkflowExecutionContext) : string := "{}".

Definition empty_context : WorkflowExecutionContext := mkContext [] 0 [] [] [].

(** A model that is unavailable, one that never finishes, and one that
    finishes at once. *)
Definition failing_model (_ : list LLMMessage) : ChatOutcome := ChatThrow "model unavailable".
Definition searching_reply : string :=
  "Thought: look it up" +:+ nl +:+ "Action: search" +:+ nl +:+ "Action Input: q".
Definition searching_model (_ : list LLMMessage) : ChatOutcome := ChatReply searching_reply.
Definition unlabelled_model (_ : list LLMMessage) : ChatOutcome := ChatReply "I am done.".
Definition finishing_model (_ : list LLMMessage) : ChatOutcome :=
  ChatReply ("Thought: t" +:+ nl +:+ "Action: FINISH" +:+ nl +:+ "Action Input: done").

(** The workflow of the scenario A -> B -> [C, D], up to the parameters of
    A and the contents of C and D. *)
Definition branching_workflow (paramsA : option (list (string * Value)))
           (typeC : WorkflowNodeType) (configC : NodeConfig)
           (typeD : WorkflowNodeType) (configD : NodeConfig) (nextD : NodeNext) : Workflow :=
  mkWorkflow "wf" "scenario" "planner"
    [ mkNode "A" TOOL_CALL "A" (mkConfig (Some "echo") paramsA None None None None)
             (NextId "B");
      mkNode "B" CONDITION "B" (mkConfig None None None (Some "true") None None)
             (NextIds ["C"; "D"]);
      mkNode "C" typeC "C" configC NextAbsent;
      mkNode "D" typeD "D" configD nextD ]
    "A" "false".

Definition echo_config (text : string) : NodeConfig :=
  mkConfig (Some "echo") (Some [("text", VStr text)]) None None None None.

Definition echo_workflow : Workflow :=
  branching_workflow (Some [("text", VStr "a")]) TOOL_CALL (echo_config "c")
                     TOOL_CALL (echo_config "d") NextAbsent.

(** Two nodes that are not conditions, each with a pair of next nodes. *)
Definition retry_node : WorkflowNode :=
  mkNode "n" LOOP "retry" (mkConfig None None None None None None)
         (NextIds ["then"; "else"]).

Definition read_node : WorkflowNode :=
  mkNode "n" DATA_ACCESS "read" (mkConfig None None (Some "variable:x") None None None)
         (NextIds ["then"; "else"]).

(** Two messages for the planner. *)
Definition plan_request (id text : string) : Bus.A2AMessage :=
  Bus.mkA2A id Bus.USER_MESSAGE "user" "planner" 0
            (Bus.mkPayload (Some text) VUndef VUndef None).

Definition two_requests : list Bus.A2AMessage :=
  [plan_request "m1" "first"; plan_request "m2" "second"].

(** A configuration with a scenario. *)
Definition planner_config : Agent.AgentConfig :=
  Agent.mkAgentConfig "A game design document has been saved" None None.

(** A run that settles: no saved workflow, one pass that leaves an output,
    then the timer. *)
Definition settling_schedule (_ : string) : list Agent.Event :=
  [Agent.WorkflowRead None;
   Agent.PassSettled (Agent.PassDone [] (mkContext [("output", VStr "done")] 1 [] [] []));
   Agent.TimerFired].

Definition no_eval (_ : string) (_ : Agent.BaseAgent) : option Value := None.

(** The three agents initialised and configured, and the single connection
    planner -> artist. *)
Definition planner_then_artist : Server.State :=
  Server.mkState (Some (Agent.new_agent "planner")) (Some (Agent.new_agent "artist"))
                 (Some (Agent.new_agent "developer"))
                 [Server.mkConnection "planner" "artist"]
                 (Server.mkExecutionState None None Agent.automatic [] [] [])
                 [("planner", planner_config); ("artist", planner_config);
                  ("developer", planner_config)]
                 [].

(** Every agent waits for another one. *)
Definition ring : list Server.AgentConnection :=
  [Server.mkConnection "planner" "artist"; Server.mkConnection "artist" "developer";
   Server.mkConnection "developer" "planner"].

Definition planner_completed : Bus.A2AMessage :=
  Bus.mkA2A "m9" Bus.AGENT_COMPLETE "planner" "all" 0
            (Bus.mkPayload (Some "planner agent completed") VUndef VUndef None).

End Examples.
(* ===================================================================== *)
(** * More example data *)
(* ===================================================================== *)

Module MoreExamples.

Import JS Types Examples.

(** A user message as it comes over the bus. *)
Definition bus_user_message (text : string) : Bus.A2AMessage :=
  Bus.mkA2A "m1" Bus.USER_MESSAGE "user" "planner" 0
            (Bus.mkPayload (Some text) VUndef VUndef None).

(** A planner that has asked for its initial input and waits for it. *)
Definition waiting_planner : Agent.BaseAgent :=
  Agent.ask_initial_input
    (Agent.set_executionMode Agent.interactive
       (Agent.set_status Agent.RUNNING (Agent.new_agent "planner"))).

(** An interactive run: the question, the user's answer, and a pass that
    leaves an output. *)
Definition interactive_schedule : list Agent.Event :=
  [Agent.WorkflowRead None;
   Agent.CallSendUserMessage "a platformer";
   Agent.TimerFired;
   Agent.PassSettled (Agent.PassDone [] (mkContext [("output", VStr "done")] 1 [] [] []))].

(** A conversation whose system message comes after the first user
    message, and one without any user message. *)
Definition late_system : list ReAct.LLMMessage :=
  [ReAct.mkMessage ReAct.user "hi"; ReAct.mkMessage ReAct.assistant "yo";
   ReAct.mkMessage ReAct.system "be brief"; ReAct.mkMessage ReAct.user "again"].

Definition no_user : list ReAct.LLMMessage :=
  [ReAct.mkMessage ReAct.system "be brief"; ReAct.mkMessage ReAct.assistant "yo"].

(** A planner's client that comes after the first request and leaves before
    the third. *)
Definition busy_day : list BusRun.BusEvent :=
  [BusRun.Publish (plan_request "m1" "first");
   BusRun.Connect "c1";
   BusRun.Receive "c1" (Bus.Register "planner");
   BusRun.Publish (plan_request "m2" "second");
   BusRun.Close "c1";
   BusRun.Publish (plan_request "m3" "third")].

(** Two clients, the first of which has begun to close. *)
Definition closing_time : list BusRun.BusEvent :=
  [BusRun.Connect "c1"; BusRun.Connect "ui"; BusRun.Closing "c1"].

(** A message for a name that is not an agent type. *)
Definition note_for_ui : Bus.A2AMessage :=
  Bus.mkA2A "m7" Bus.SYSTEM_MESSAGE "planner" "ui" 0
            (Bus.mkPayload (Some "saved") VUndef VUndef None).

(** A workflow whose only node is a condition that leads back to itself,
    without a goal condition. *)
Definition spinning_workflow : Workflow :=
  mkWorkflow "w2" "spin" "planner"
             [mkNode "again" CONDITION "again" (mkConfig None None None (Some "true") None None)
                     (NextId "again")]
             "again" "".

(** The three agents initialised, the connection planner -> artist, and no
    stored configuration. *)
Definition unconfigured_setup : Server.State :=
  Server.mkState (Some (Agent.new_agent "planner")) (Some (Agent.new_agent "artist"))
                 (Some (Agent.new_agent "developer"))
                 [Server.mkConnection "planner" "artist"]
                 (Server.mkExecutionState None None Agent.automatic [] [] [])
                 [] [].

(** The completion of the planner with the path of its artifact, and a
    node that reads it. *)
Definition planner_saved : Bus.A2AMessage :=
  Bus.mkA2A "m8" Bus.AGENT_COMPLETE "planner" "all" 0
            (Bus.mkPayload (Some "planner agent completed") VUndef
                           (VStr "artifacts/planner/gdd.md") None).

Definition read_planner_artifact : WorkflowNode :=
  mkNode "read" DATA_ACCESS "read"
         (mkConfig None None (Some "artifact:planner") None None None) NextAbsent.

(** A search tool whose index is offline: its body throws. *)
Definition broken_search : Tool :=
  mkTool "search the index" VNull (fun _ c => ToolThrow "index offline" c).

(** A request to start the workflow that nothing else accompanies. *)
Definition start_requested (s : Server.State) : Tasks.System :=
  Tasks.mkSystem s [Tasks.request None].

(** The completion of the planner, delivered to the monitor twice. *)
Definition observed_twice : Tasks.System :=
  Tasks.mkSystem planner_then_artist
                 [Tasks.observation planner_completed; Tasks.observation planner_completed].

(** The same two deliveries when no configuration is stored, and their
    handling one after the other. *)
Definition observed_twice_unconfigured : Tasks.System :=
  Tasks.mkSystem unconfigured_setup
                 [Tasks.observation planner_completed; Tasks.observation planner_completed].

Definition one_after_the_other : list Tasks.Move :=
  repeat (Tasks.Resume 0) 4 ++ repeat (Tasks.Resume 1) 3.

(** The events of a run that settles, for the run the task [i] awaits. *)
Definition settling_run (i : nat) : list Tasks.Move :=
  List.map (Tasks.Deliver i) (settling_schedule "").

(** The start of the workflow up to the entry of the run of its second
    agent, and up to its answer; [stop] is called on the first agent, which
    has finished, while the handler awaits the second. *)
Definition first_half : list Tasks.Move :=
  repeat (Tasks.Resume 0) 3 ++ settling_run 0 ++ [Tasks.Resume 0].

Definition whole_start : list Tasks.Move :=
  first_half ++ [Tasks.Control "planner" Agent.CallStop] ++ settling_run 0
  ++ [Tasks.Resume 0].

(** What follows the first observation when the second one is handled
    during the run the first has begun. *)
Definition second_during_the_run : list Tasks.Move :=
  [Tasks.Resume 1; Tasks.Resume 1; Tasks.Deliver 0 (Agent.WorkflowRead None);
   Tasks.Resume 1].

(** The first observation, a call of [stop] on the artist, and the second
    observation. *)
Definition stopped_in_between : list Tasks.Move :=
  repeat (Tasks.Resume 0) 4 ++ [Tasks.Control "artist" Agent.CallStop]
  ++ repeat (Tasks.Resume 1) 3.

End MoreExamples.


(* ===================================================================== *)
(** * Properties of the workflow engine *)
(* ===================================================================== *)

Module EngineFacts.

Import Engine Examples.

(** ** Strings *)

Lemma append_cons c p s : String c p +:+ s = String c (p +:+ s).
Proof. reflexivity. Qed.

Lemma append_nil_r a : a +:+ "" = a.
Proof.
  induction a as [|x a IH]; [reflexivity|].
  rewrite append_cons. f_equal. exact IH.
Qed.

Lemma append_assoc a b c : (a +:+ b) +:+ c = a +:+ b +:+ c.
Proof.
  induction a as [|x a IH]; [reflexivity|].
  rewrite !append_cons. f_equal. exact IH.
Qed.

Lemma length_append a b : String.length (a +:+ b) = String.length a + String.length b.
Proof.
  induction a as [|x a IH]; [reflexivity|].
  rewrite append_cons. cbn [String.length]. rewrite IH. reflexivity.
Qed.

Lemma startsWith_app p s : startsWith p (p +:+ s) = true.
Proof.
  induction p as [|c p IH]; [reflexivity|].
  rewrite append_cons. cbn [startsWith]. rewrite Ascii.eqb_refl. exact IH.
Qed.

Lemma startsWith_cons a p b s :
  startsWith (String a p) (String b s) = if Ascii.eqb a b then startsWith p s else false.
Proof. reflexivity. Qed.

(** ** Placeholder substitution *)

Lemma scan_plain t rest :
  plain t = true -> t <> "" -> scan (t +:+ "}}" +:+ rest) = Some t.
Proof.
  induction t as [|c t IH]; intros Hp Hne; [congruence|].
  cbn [plain] in Hp. apply andb_true_iff in Hp as [Hc Ht].
  apply andb_true_iff in Hc as [Hlt Hbr].
  rewrite append_cons. cbn [scan]. apply negb_true_iff in Hlt. rewrite Hlt.
  destruct t as [|d t'].
  - change ("" +:+ "}}" +:+ rest) with ("}}" +:+ rest).
    rewrite (startsWith_app "}}" rest). reflexivity.
  - assert (Hd : startsWith "}}" (String d t' +:+ "}}" +:+ rest) = false).
    { cbn [plain] in Ht. apply andb_true_iff in Ht as [Hd _].
      apply andb_true_iff in Hd as [_ Hd]. apply negb_true_iff in Hd.
      rewrite append_cons, startsWith_cons, Ascii.eqb_sym, Hd. reflexivity. }
    rewrite Hd. rewrite IH; [reflexivity | exact Ht | discriminate].
Qed.

Lemma replace_skip f x rest :
  replace_placeholders f (x +:+ rest) (String.length x) = replace_placeholders f rest 0.
Proof.
  induction x as [|c x IH]; [reflexivity|].
  rewrite append_cons. cbn [String.length replace_placeholders]. exact IH.
Qed.

Lemma replace_at f c s :
  replace_placeholders f (String c s) 0 =
  match placeholder_at (String c s) with
  | Some g1 => f g1 +:+ replace_placeholders f s (String.length g1 + 3)
  | None => String c (replace_placeholders f s 0)
  end.
Proof. reflexivity. Qed.

Lemma placeholder_at_plain t rest :
  plain t = true -> t <> "" -> placeholder_at ("{{" +:+ t +:+ "}}" +:+ rest) = Some t.
Proof.
  intros Hp Hne. unfold placeholder_at. rewrite startsWith_app.
  change (substring_from 2 ("{{" +:+ t +:+ "}}" +:+ rest)) with (t +:+ "}}" +:+ rest).
  apply scan_plain; assumption.
Qed.

(** A plain placeholder is replaced by what the replacer returns for its
    token, and the replacement goes on after it. *)
Lemma replace_placeholder f t rest :
  plain t = true -> t <> "" ->
  replace_placeholders f ("{{" +:+ t +:+ "}}" +:+ rest) 0
  = f t +:+ replace_placeholders f rest 0.
Proof.
  intros Hp Hne.
  change ("{{" +:+ t +:+ "}}" +:+ rest) with (String "{" ("{" +:+ t +:+ "}}" +:+ rest)).
  rewrite replace_at.
  change (String "{" ("{" +:+ t +:+ "}}" +:+ rest)) with ("{{" +:+ t +:+ "}}" +:+ rest).
  rewrite (placeholder_at_plain t rest Hp Hne). f_equal.
  assert (E : "{" +:+ t +:+ "}}" +:+ rest = ("{" +:+ t +:+ "}}") +:+ rest).
  { rewrite !append_assoc. reflexivity. }
  rewrite E.
  replace (String.length t + 3) with (String.length ("{" +:+ t +:+ "}}")).
  - apply replace_skip.
  - rewrite !length_append. cbn [String.length]. lia.
Qed.

Lemma resolveString_placeholder t context :
  plain t = true -> t <> "" ->
  resolveString ("{{" +:+ t +:+ "}}") context = resolve_token context t.
Proof.
  intros Hp Hne. unfold resolveString.
  rewrite <- (append_nil_r "}}") at 1.
  rewrite (replace_placeholder _ t "" Hp Hne). apply append_nil_r.
Qed.

(** The variable branch: a variable that is absent, or whose value is falsy,
    resolves to the empty string; any other resolves to its value as a
    string. *)
Lemma resolveString_variable t context :
  plain t = true -> t <> "" -> startsWith "context." (trim t) = false ->
  resolveString ("{{" +:+ t +:+ "}}") context
  = if truthy (variable (trim t) context)
    then to_string (variable (trim t) context) else "".
Proof.
  intros Hp Hne Hctx. rewrite resolveString_placeholder by assumption.
  unfold resolve_token. rewrite Hctx. unfold or_else.
  destruct (truthy (variable (trim t) context)); reflexivity.
Qed.

(** The context branch: the value found by the dotted lookup, as a string. *)
Lemma resolveString_context_path t context :
  plain t = true -> t <> "" -> startsWith "context." (trim t) = true ->
  resolveString ("{{" +:+ t +:+ "}}") context
  = to_string (getNestedValue (context_object context) (substring_from 8 (trim t))).
Proof.
  intros Hp Hne Hctx. rewrite resolveString_placeholder by assumption.
  unfold resolve_token. rewrite Hctx. reflexivity.
Qed.

(** A lookup that has reached [undefined] stays there. *)
Lemma lookup_from_undefined keys :
  fold_left (fun current key => get_prop current key) keys VUndef = VUndef.
Proof. induction keys as [|k keys IH]; [reflexivity | exact IH]. Qed.

(** C9. Placeholder substitution on a context path that does not exist: the
    dotted lookup ends in [undefined], and the replacement text is the string
    "undefined", not the empty string, whatever the context holds and however
    the path goes on; the variable branch next to it gives the empty string
    for an absent variable. *)
Theorem resolveString_missing_context_path :
  forall (context : WorkflowExecutionContext) (more : string),
    resolveString "{{context.missing}}" context = "undefined"
    /\ getNestedValue (context_object context) ("missing." +:+ more) = VUndef
    /\ resolveString "{{missing}}" (set_variables [] context) = "".
Proof.
  intros context more. split; [reflexivity|]. split; [|reflexivity].
  unfold getNestedValue.
  change ("missing." +:+ more)
    with (String "m" (String "i" (String "s" (String "s" (String "i" (String "n"
            (String "g" (String "." more)))))))).
  cbn [split Ascii.eqb Bool.eqb].
  destruct (split "." more) as [|h r] eqn:E.
  - destruct more; cbn in E; [discriminate|].
    destruct (Ascii.eqb _ _); [discriminate|].
    destruct (split _ _); discriminate.
  - cbn. apply lookup_from_undefined.
Qed.

(** ** Choice of the next node *)

(** C10. For every node whose [next] is a non-empty array, whatever its
    kind, the next node is [next[0]] when the result of the node is truthy
    and [next[1]] otherwise ([undefined] when the array has one element). *)
Theorem determineNextNode_branch_pair :
  forall (node : WorkflowNode) (result : Value) (context : WorkflowExecutionContext)
         (first : string) (others : list string),
    next node = NextIds (first :: others) ->
    determineNextNode node result context
    = if truthy result then Some first else others !! 0%nat.
Proof.
  intros node result context first others Hnext.
  unfold determineNextNode. rewrite Hnext. cbn.
  destruct (truthy result); reflexivity.
Qed.

Lemma determineNextNode_branch_pair_witness :
  determineNextNode retry_node (VArr []) empty_context = Some "then"
  /\ determineNextNode read_node VUndef empty_context = Some "else".
Proof.
  split.
  - exact (determineNextNode_branch_pair retry_node (VArr []) empty_context
             "then" ["else"] eq_refl).
  - exact (determineNextNode_branch_pair read_node VUndef empty_context
             "then" ["else"] eq_refl).
Defined.

(** ** Runs *)

Section Runs.

Variable js_eval : string -> WorkflowExecutionContext -> option Value.
Variable chat : list ReAct.LLMMessage -> ReAct.ChatOutcome.
Variable json_parse : string -> option Value.
Variable json_stringify : Value -> string.
Variable json_pretty : WorkflowExecutionContext -> string.
Variable tools : list (string * Tool).

#[local] Abbreviation run_nodes := (run_nodes js_eval chat json_parse json_stringify json_pretty tools).
#[local] Abbreviation executeNode := (executeNode js_eval chat json_parse json_stringify json_pretty tools).

(** One turn of the loop when the node returns and the goal is not met. *)
Lemma run_nodes_step fuel workflow id node context result context' :
  is_empty id = false ->
  find_node workflow id = Some node ->
  executeNode node context workflow = NodeReturn result context' ->
  evaluateGoalCondition js_eval (goalCondition workflow)
                        (push_history [history_entry (node_id node) result] context') = false ->
  run_nodes (S fuel) workflow (Some id) context
  = run_nodes fuel workflow
              (determineNextNode node result
                 (push_history [history_entry (node_id node) result] context'))
              (push_history [history_entry (node_id node) result] context').
Proof.
  intros Hid Hfind Hexec Hgoal. cbn [Engine.run_nodes].
  rewrite Hid, Hfind, Hexec, Hgoal. reflexivity.
Qed.

(** The run ends when there is no next node. *)
Lemma run_nodes_end fuel workflow context :
  run_nodes fuel workflow None context
  = Some (mkResult true (variable "output" context) None context).
Proof. destruct fuel; reflexivity. Qed.

End Runs.

Section Scenario.

Variable js_eval : string -> WorkflowExecutionContext -> option Value.
Variable chat : list ReAct.LLMMessage -> ReAct.ChatOutcome.
Variable json_parse : string -> option Value.
Variable json_stringify : Value -> string.
Variable json_pretty : WorkflowExecutionContext -> string.
Variable tools : list (string * Tool).

Hypothesis eval_true : forall c, js_eval "true" c = Some (VBool true).
Hypothesis eval_false : forall c, js_eval "false" c = Some (VBool false).

Lemma goal_false c : evaluateGoalCondition js_eval "false" c = false.
Proof.
  unfold evaluateGoalCondition.
  change (resolveString "false" c) with "false".
  rewrite eval_false. reflexivity.
Qed.

(** C6 (amended). The workflow A (tool_call: echo) -> B (condition "true")
    -> [C, D] under the goal condition "false": A is executed, then B, whose
    result is [true], then C in the context that holds the entries of A and
    B, and never D; with no next node after C the run ends successfully.
    What it returns is the variable [output] of the final context; the result
    of C is in the last entry of the history. *)
Theorem branching_scenario :
  forall (echo_tool : Tool) (paramsA : option (list (string * Value)))
         (typeC typeD : WorkflowNodeType) (configC configD : NodeConfig) (nextD : NodeNext)
         (context cA cC : WorkflowExecutionContext) (rA rC : Value) (fuel : nat),
    omap_get "echo" tools = Some echo_tool ->
    tool_execute echo_tool (resolveParameters (default [] paramsA) context) context
      = ToolReturn rA cA ->
    Engine.executeNode js_eval chat json_parse json_stringify json_pretty tools
      (mkNode "C" typeC "C" configC NextAbsent)
      (push_history [history_entry "B" (VBool true)] (push_history [history_entry "A" rA] cA))
      (branching_workflow paramsA typeC configC typeD configD nextD)
      = NodeReturn rC cC ->
    3 <= fuel ->
    executeWorkflow js_eval chat json_parse json_stringify json_pretty tools fuel
      (branching_workflow paramsA typeC configC typeD configD nextD) context
    = Some (mkResult true
                     (variable "output" (push_history [history_entry "C" rC] cC))
                     None
                     (push_history [history_entry "C" rC] cC)).
Proof.
  intros echo_tool paramsA typeC typeD configC configD nextD context cA cC rA rC fuel
         Hecho HA HC Hfuel.
  destruct fuel as [|[|[|fuel]]]; try lia.
  unfold executeWorkflow.
  set (wf := branching_workflow paramsA typeC configC typeD configD nextD) in *.
  change (startNode wf) with "A".
  (* A *)
  erewrite run_nodes_step; cycle 1.
  - reflexivity.
  - reflexivity.
  - cbn [Engine.executeNode node_type]. unfold executeToolCall.
    cbn [config toolName toolParams is_empty]. rewrite Hecho, HA. reflexivity.
  - apply goal_false.
  - cbn [node_id determineNextNode next is_empty].
    (* B *)
    erewrite run_nodes_step; cycle 1.
    + reflexivity.
    + reflexivity.
    + cbn [Engine.executeNode node_type]. unfold evaluateCondition.
      cbn [config condition is_empty].
      change (resolveString "true" ?c) with "true".
      rewrite eval_true. reflexivity.
    + apply goal_false.
    + cbn [node_id determineNextNode next length Nat.ltb Nat.leb truthy].
      change (["C"; "D"] !! 0%nat) with (Some "C").
      (* C *)
      erewrite run_nodes_step; cycle 1.
      * reflexivity.
      * reflexivity.
      * exact HC.
      * apply goal_false.
      * cbn [node_id determineNextNode next]. apply run_nodes_end.
Qed.

End Scenario.

Lemma branching_scenario_witness :
  executeWorkflow literal_eval failing_model no_parse plain_stringify no_pretty
                  [("echo", echo)] 3 echo_workflow
                  (mkContext [("output", VStr "kept")] 0 [] [] [])
  = Some (mkResult true (VStr "kept") None
            (mkContext [("output", VStr "kept")] 0
                       [history_entry "A" (VObj [("text", VStr "a")]);
                        history_entry "B" (VBool true);
                        history_entry "C" (VObj [("text", VStr "c")])] [] [])).
Proof.
  exact (branching_scenario literal_eval failing_model no_parse plain_stringify no_pretty
           [("echo", echo)] (fun _ => eq_refl) (fun _ => eq_refl)
           echo (Some [("text", VStr "a")]) TOOL_CALL TOOL_CALL
           (echo_config "c") (echo_config "d") NextAbsent
           (mkContext [("output", VStr "kept")] 0 [] [] []) _ _ _ _ 3
           eq_refl eq_refl eq_refl (le_n 3)).
Defined.

(** C6, as stated, fails: with an echo tool that returns its parameters, the
    run visits A, B and C and ends at C, but it returns [undefined], the
    variable [output] of the context, and not the result of C. *)
Lemma branching_scenario_output_is_not_the_result_of_C :
  exists r : WorkflowExecutionResult,
    executeWorkflow literal_eval failing_model no_parse plain_stringify no_pretty
                    [("echo", echo)] 5 echo_workflow empty_context = Some r
    /\ history (wr_context r)
       = [history_entry "A" (VObj [("text", VStr "a")]);
          history_entry "B" (VBool true);
          history_entry "C" (VObj [("text", VStr "c")])]
    /\ wr_success r = true
    /\ wr_output r = VUndef
    /\ wr_output r <> VObj [("text", VStr "c")].
Proof.
  eexists. split; [reflexivity|]. cbn. repeat split; discriminate.
Qed.

End EngineFacts.

(* ===================================================================== *)
(** * Properties of the reasoning loop *)
(* ===================================================================== *)

Module ReActFacts.

Import ReAct Examples.

Lemma match_label_absent label stops s :
  includes label s = false -> match_label label stops s = None.
Proof.
  induction s as [|c s IH]; intros H; cbn [includes] in H;
    apply orb_false_iff in H as [Hhere Hrest]; cbn [match_label]; rewrite Hhere.
  - reflexivity.
  - apply IH. exact Hrest.
Qed.

Section Loop.
Variable chat : list LLMMessage -> ChatOutcome.
Variable json_parse : string -> option Value.
Variable json_stringify : Value -> string.
Variable json_pretty : WorkflowExecutionContext -> string.
Variable tools : list (string * Tool).
Variable maxIterations : nat.
Variable progressCallback : bool.

#[local] Abbreviation parse := (parseReActResponse json_parse).
#[local] Abbreviation loop := (rounds_loop chat json_parse json_stringify tools progressCallback).
#[local] Abbreviation never_finishes := (never_finishes chat json_parse).
#[local] Abbreviation tools_never_throw := (tools_never_throw tools).

Lemma parse_without_action response :
  includes "Action:" response = false -> snd (fst (parse response)) = "FINISH".
Proof.
  intros H. unfold parseReActResponse.
  rewrite (match_label_absent "Action:" _ response H). reflexivity.
Qed.

Lemma loop_rounds n : forall messages steps done reported context,
  let r := loop n messages steps done reported context in
  done <= rounds r <= done + n
  /\ (success r = false ->
      (rounds r = done + n /\ length (ReAct.steps r) = length steps + n)
      \/ length (ReAct.steps r) + done + 1 = length steps + rounds r).
Proof.
  induction n as [|n IH]; intros messages steps done reported context; cbn zeta.
  - cbn. split; [lia|]. intros _. left. lia.
  - cbn [rounds_loop]. destruct (chat messages) as [response|message].
    + destruct (parse response) as [[thought action] input].
      destruct (String.eqb action "FINISH").
      * cbn. split; [lia|]. discriminate.
      * destruct (omap_get action tools) as [tool|].
        -- destruct (tool_execute tool input context) as [v c'|m c'].
           ++ specialize (IH (messages ++ [mkMessage assistant response;
                                     mkMessage user (follow_up (json_stringify v))])
                             (steps ++ [mkStep thought action input (json_stringify v)])
                             (S done)
                             (report progressCallback (mkStep thought action input (json_stringify v)) reported) c').
              cbn zeta in IH. rewrite length_app in IH. cbn [length] in IH.
              destruct IH as [Hr Hs]. split; [lia|].
              intros Hf. destruct (Hs Hf) as [[? ?]|?]; [left|right]; lia.
           ++ cbn. split; [lia|]. intros _. right. lia.
        -- specialize (IH (messages ++ [mkMessage assistant response;
                                     mkMessage user (follow_up (missing_tool_observation tools action))])
                             (steps ++ [mkStep thought action input (missing_tool_observation tools action)])
                             (S done)
                             (report progressCallback (mkStep thought action input (missing_tool_observation tools action)) reported) context).
           cbn zeta in IH. rewrite length_app in IH. cbn [length] in IH.
           destruct IH as [Hr Hs]. split; [lia|].
           intros Hf. destruct (Hs Hf) as [[? ?]|?]; [left|right]; lia.
    + cbn. split; [lia|]. intros _. right. lia.
Qed.

(** Without FINISH and without failure the loop runs all its rounds. *)
Lemma loop_exhausted n : forall messages steps done reported context,
  never_finishes -> tools_never_throw ->
  let r := loop n messages steps done reported context in
  success r = false
  /\ result r = VStr "Max iterations reached without completion"
  /\ rounds r = done + n
  /\ length (ReAct.steps r) = length steps + n.
Proof.
  intros messages steps done reported context Hnf Hnt. revert messages steps done reported context.
  induction n as [|n IH]; intros messages steps done reported context; cbn zeta.
  - cbn. repeat split; lia.
  - cbn [rounds_loop]. destruct (Hnf messages) as (response & Hchat & Hact).
    rewrite Hchat. destruct (parse response) as [[thought action] input].
    cbn [fst snd] in Hact. apply String.eqb_neq in Hact. rewrite Hact.
    destruct (omap_get action tools) as [tool|] eqn:Htool.
    + destruct (Hnt action tool input context Htool) as (v & c' & Hexec). rewrite Hexec.
      match goal with |- context [rounds_loop _ _ _ _ _ n ?m ?s ?d ?rp ?c] =>
        specialize (IH m s d rp c) end.
      cbn zeta in IH. rewrite length_app in IH. cbn [length] in IH.
      destruct IH as (H1 & H2 & H3 & H4). repeat split; try assumption; lia.
    + match goal with |- context [rounds_loop _ _ _ _ _ n ?m ?s ?d ?rp ?c] =>
        specialize (IH m s d rp c) end.
      cbn zeta in IH. rewrite length_app in IH. cbn [length] in IH.
      destruct IH as (H1 & H2 & H3 & H4). repeat split; try assumption; lia.
Qed.

(** A failed run is either one that used up its rounds, or one that stopped
    at the round whose model or tool call threw: the conversation it holds is
    the one that round began with, and its result is the thrown message. *)
Lemma loop_failure n : forall messages steps done reported context,
  let r := loop n messages steps done reported context in
  success r = false ->
  (rounds r = done + n /\ length (ReAct.steps r) = length steps + n
   /\ result r = VStr "Max iterations reached without completion")
  \/ (length (ReAct.steps r) + done + 1 = length steps + rounds r
      /\ exists message,
           result r = VStr message
           /\ (chat (conversation r) = ChatThrow message
               \/ exists response tool c,
                    chat (conversation r) = ChatReply response
                    /\ snd (fst (parse response)) <> "FINISH"
                    /\ omap_get (snd (fst (parse response))) tools = Some tool
                    /\ tool_execute tool (snd (parse response)) c
                       = ToolThrow message (context_after r))).
Proof.
  induction n as [|n IH]; intros messages steps done reported context; cbn zeta.
  - cbn. intros _. left. repeat split; lia.
  - cbn [rounds_loop]. destruct (chat messages) as [response|message] eqn:Hchat.
    + destruct (parse response) as [[thought action] input] eqn:Hparse.
      destruct (String.eqb action "FINISH") eqn:Hfin.
      * cbn. discriminate.
      * destruct (omap_get action tools) as [tool|] eqn:Htool.
        -- destruct (tool_execute tool input context) as [v c'|m c'] eqn:Hexec.
           ++ match goal with |- context [rounds_loop _ _ _ _ _ n ?m ?s ?d ?rp ?c] =>
                specialize (IH m s d rp c) end.
              cbn zeta in IH. rewrite length_app in IH. cbn [length] in IH.
              intros Hf. destruct (IH Hf) as [(? & ? & ?)|(? & ?)]; [left|right].
              ** repeat split; [lia | lia | assumption].
              ** split; [lia | assumption].
           ++ cbn [success result ReAct.steps rounds conversation context_after].
              intros _. right. split; [lia|]. exists m. split; [reflexivity|].
              right. exists response, tool, context. rewrite Hchat, Hparse. cbn [fst snd].
              split; [reflexivity|]. split; [apply String.eqb_neq; exact Hfin|].
              split; assumption.
        -- match goal with |- context [rounds_loop _ _ _ _ _ n ?m ?s ?d ?rp ?c] =>
             specialize (IH m s d rp c) end.
           cbn zeta in IH. rewrite length_app in IH. cbn [length] in IH.
           intros Hf. destruct (IH Hf) as [(? & ? & ?)|(? & ?)]; [left|right].
           ** repeat split; [lia | lia | assumption].
           ** split; [lia | assumption].
    + cbn [success result ReAct.steps rounds conversation context_after].
      intros _. right. split; [lia|]. exists message. split; [reflexivity|].
      left. exact Hchat.
Qed.

(** C7 (amended). For any input the loop calls the model at most
    [maxIterations] times and returns a result.  When it returns
    [success = false], either it has run [maxIterations] rounds, holds one
    step for each and reports that the rounds are used up, or it has stopped
    at a round whose model or tool call threw: it holds the steps of the
    rounds before, the conversation that round began with, and the thrown
    message as its result.  When every reply has an action other than FINISH
    and no call throws, it runs exactly [maxIterations] rounds and returns
    [success = false] with its steps.  A round whose model call throws, and a
    round whose tool throws, end the loop at once with [success = false], the
    thrown message, the steps and the progress reports of the rounds before,
    and that round counted. *)
Theorem execute_rounds :
  forall (task : string) (context : WorkflowExecutionContext) (systemPrompt : option string),
    let r := execute chat json_parse json_stringify json_pretty tools maxIterations
                     progressCallback task context systemPrompt in
    rounds r <= maxIterations
    /\ (success r = false ->
        (rounds r = maxIterations /\ length (ReAct.steps r) = maxIterations)
        \/ S (length (ReAct.steps r)) = rounds r)
    /\ (never_finishes -> tools_never_throw ->
        success r = false
        /\ result r = VStr "Max iterations reached without completion"
        /\ rounds r = maxIterations
        /\ length (ReAct.steps r) = maxIterations)
    /\ (success r = false ->
        (rounds r = maxIterations /\ length (ReAct.steps r) = maxIterations
         /\ result r = VStr "Max iterations reached without completion")
        \/ (S (length (ReAct.steps r)) = rounds r
            /\ exists message,
                 result r = VStr message
                 /\ (chat (conversation r) = ChatThrow message
                     \/ exists response tool c,
                          chat (conversation r) = ChatReply response
                          /\ snd (fst (parse response)) <> "FINISH"
                          /\ omap_get (snd (fst (parse response))) tools = Some tool
                          /\ tool_execute tool (snd (parse response)) c
                             = ToolThrow message (context_after r))))
    /\ (forall n messages steps done reported c message,
          chat messages = ChatThrow message ->
          loop (S n) messages steps done reported c
          = mkExecuteResult false (VStr message) steps (S done) reported messages c)
    /\ (forall n messages steps done reported c response tool message c',
          chat messages = ChatReply response ->
          snd (fst (parse response)) <> "FINISH" ->
          omap_get (snd (fst (parse response))) tools = Some tool ->
          tool_execute tool (snd (parse response)) c = ToolThrow message c' ->
          loop (S n) messages steps done reported c
          = mkExecuteResult false (VStr message) steps (S done) reported messages c').
Proof.
  intros task context systemPrompt. cbn zeta. unfold execute.
  pose proof (loop_rounds maxIterations
                (initial_messages json_stringify json_pretty tools task context systemPrompt)
                [] 0 [] context) as [Hr Hs].
  cbn zeta in Hr, Hs. cbn [length] in Hs.
  split; [lia|]. split; [|split; [|split; [|split]]].
  - intros Hf. destruct (Hs Hf) as [[? ?]|?]; [left; lia | right; lia].
  - intros Hnf Hnt.
    pose proof (loop_exhausted maxIterations
                  (initial_messages json_stringify json_pretty tools task context systemPrompt)
                  [] 0 [] context Hnf Hnt) as H.
    cbn zeta in H. cbn [length] in H. exact H.
  - intros Hf.
    pose proof (loop_failure maxIterations
                  (initial_messages json_stringify json_pretty tools task context systemPrompt)
                  [] 0 [] context) as H.
    cbn zeta in H. cbn [length] in H.
    destruct (H Hf) as [(? & ? & ?)|(? & ?)]; [left|right].
    + repeat split; [lia | lia | assumption].
    + split; [lia | assumption].
  - intros n messages steps done reported c message Hchat.
    cbn [rounds_loop]. rewrite Hchat. reflexivity.
  - intros n messages steps done reported c response tool message c' Hchat Hfin Htool Hexec.
    cbn [rounds_loop]. rewrite Hchat.
    destruct (parse response) as [[thought action] input]. cbn [fst snd] in *.
    apply String.eqb_neq in Hfin. rewrite Hfin, Htool, Hexec. reflexivity.
Qed.

(** C8. A reply without the label "Action:" parses to the action FINISH, so
    the round that receives it ends the loop successfully.  A reply whose
    action is not FINISH and names no tool of the registry adds a step whose
    observation names the missing tool, appends the reply and the observation
    to the conversation, and goes on with the next round, one iteration
    fewer being left. *)
Theorem missing_action_and_missing_tool :
  forall (n : nat) (messages : list LLMMessage) (steps : list ReActStep) (done : nat)
         (reported : list ReActStep) (context : WorkflowExecutionContext)
         (response : string),
    chat messages = ChatReply response ->
    (includes "Action:" response = false ->
     snd (fst (parse response)) = "FINISH"
     /\ let r := loop (S n) messages steps done reported context in
        success r = true /\ rounds r = S done
        /\ ReAct.steps r = steps ++ [mkStep (fst (fst (parse response))) "FINISH"
                                           (snd (parse response)) "Task completed"])
    /\ (snd (fst (parse response)) <> "FINISH" ->
        omap_get (snd (fst (parse response))) tools = None ->
        let step := mkStep (fst (fst (parse response))) (snd (fst (parse response)))
                           (snd (parse response))
                           ("Error: Tool " +:+ dq +:+ snd (fst (parse response)) +:+ dq
                            +:+ " not found. Available tools: "
                            +:+ join ", " (omap_keys tools)) in
        loop (S n) messages steps done reported context
        = loop n (messages ++ [mkMessage assistant response;
                               mkMessage user (follow_up (observation step))])
               (steps ++ [step]) (S done) (report progressCallback step reported) context).
Proof.
  intros n messages steps done reported context response Hchat. split.
  - intros Habsent. pose proof (parse_without_action response Habsent) as Hfin.
    split; [exact Hfin|]. cbn zeta. cbn [rounds_loop]. rewrite Hchat.
    destruct (parse response) as [[thought action] input]. cbn [fst snd] in *.
    subst action. cbn. repeat split.
  - intros Hact Htool. cbn zeta. cbn [rounds_loop]. rewrite Hchat.
    destruct (parse response) as [[thought action] input]. cbn [fst snd] in *.
    apply String.eqb_neq in Hact. rewrite Hact, Htool. reflexivity.
Qed.

End Loop.

Lemma never_finishes_searching : never_finishes searching_model no_parse.
Proof.
  intros messages. eexists. split; [reflexivity|]. vm_compute. discriminate.
Qed.

Lemma no_tools_never_throw : tools_never_throw [].
Proof. intros name tool input context H. discriminate H. Qed.

Lemma execute_rounds_witness :
  (let r := execute searching_model no_parse plain_stringify no_pretty [] 3 false
                    "task" empty_context None in
   success r = false /\ rounds r = 3 /\ length (ReAct.steps r) = 3)
  /\ rounds_loop failing_model no_parse plain_stringify [] false 2 [] [] 0 [] empty_context
     = mkExecuteResult false (VStr "model unavailable") [] 1 [] [] empty_context
  /\ rounds_loop searching_model no_parse plain_stringify
                 [("search", MoreExamples.broken_search)] false 2 [] [] 0 [] empty_context
     = mkExecuteResult false (VStr "index offline") [] 1 [] [] empty_context.
Proof.
  destruct (execute_rounds searching_model no_parse plain_stringify no_pretty [] 3 false
              "task" empty_context None) as (_ & _ & H & _).
  destruct (execute_rounds failing_model no_parse plain_stringify no_pretty [] 3 false
              "task" empty_context None) as (_ & _ & _ & _ & Hchat & _).
  destruct (execute_rounds searching_model no_parse plain_stringify no_pretty
              [("search", MoreExamples.broken_search)] 3 false
              "task" empty_context None) as (_ & _ & _ & _ & _ & Htool).
  split; [|split].
  - cbn zeta.
    destruct (H never_finishes_searching no_tools_never_throw) as (H1 & _ & H3 & H4).
    repeat split; assumption.
  - apply Hchat. reflexivity.
  - apply (Htool 1 [] [] 0 [] empty_context searching_reply MoreExamples.broken_search).
    + reflexivity.
    + vm_compute. discriminate.
    + vm_compute. reflexivity.
    + vm_compute. reflexivity.
Defined.

(** C7, as stated, fails: when the model call throws in the first round, no
    round has produced FINISH, and the loop returns after one round, not
    after [maxIterations]. *)
Lemma execute_stops_at_a_failing_round :
  let r := execute failing_model no_parse plain_stringify no_pretty [] default_maxIterations
                   false "task" empty_context None in
  success r = false
  /\ ReAct.steps r = []
  /\ result r = VStr "model unavailable"
  /\ rounds r = 1
  /\ rounds r <> default_maxIterations.
Proof. cbn. repeat split. discriminate. Qed.

Lemma missing_action_and_missing_tool_witness :
  (let r := rounds_loop unlabelled_model no_parse plain_stringify [] false
                        1 [] [] 0 [] empty_context in
   success r = true /\ rounds r = 1)
  /\ rounds_loop searching_model no_parse plain_stringify [] false 2 [] [] 0 [] empty_context
     = rounds_loop searching_model no_parse plain_stringify [] false 1
         [mkMessage assistant searching_reply;
          mkMessage user (follow_up ("Error: Tool " +:+ dq +:+ "search" +:+ dq
                                     +:+ " not found. Available tools: "))]
         [mkStep "look it up" "search" (VStr "q")
                 ("Error: Tool " +:+ dq +:+ "search" +:+ dq
                  +:+ " not found. Available tools: ")]
         1 [] empty_context.
Proof.
  split.
  - destruct (missing_action_and_missing_tool unlabelled_model no_parse plain_stringify []
                false 0 [] [] 0 [] empty_context "I am done." eq_refl) as [H _].
    destruct (H eq_refl) as (_ & H1 & H2 & _). split; assumption.
  - destruct (missing_action_and_missing_tool searching_model no_parse plain_stringify []
                false 1 [] [] 0 [] empty_context searching_reply eq_refl) as [_ H].
    apply H.
    + vm_compute. discriminate.
    + reflexivity.
Defined.

End ReActFacts.

(* ===================================================================== *)
(** * Properties of the message bus *)
(* ===================================================================== *)

Module BusFacts.

Import Bus Examples.

Lemma omap_get_set_eq {A} k (v : A) m : omap_get k (omap_set k v m) = Some v.
Proof.
  induction m as [|[k' v'] m IH]; cbn [omap_set omap_get].
  - rewrite String.eqb_refl. reflexivity.
  - destruct (String.eqb k' k) eqn:E; cbn [omap_get].
    + rewrite String.eqb_refl. reflexivity.
    + rewrite E. exact IH.
Qed.

Lemma connected_client_links a s s' :
  same_links s s' -> connected_client a s' = connected_client a s.
Proof.
  intros [Hc Ha]. unfold connected_client, has_client. rewrite Hc, Ha. reflexivity.
Qed.

(** Publishing to a disconnected agent only appends to its buffer. *)
Lemma sendMessage_disconnected a m s :
  msg_to m = a -> a <> "all" -> connected_client a s = None ->
  let s' := sendMessage m s in
  same_links s s' /\ sent s' = sent s
  /\ messageQueue s' = alter (fun q => q ++ [m]) a (messageQueue s).
Proof.
  intros Hto Hall Hdis. cbn zeta. unfold sendMessage, routeMessage.
  rewrite Hto. apply String.eqb_neq in Hall. rewrite Hall.
  unfold deliverMessage. rewrite Hdis. cbn. repeat split.
Qed.

Lemma publish_all_disconnected a ms : forall s q,
  Forall (fun m => msg_to m = a) ms -> a <> "all" ->
  connected_client a s = None -> messageQueue s !! a = Some q ->
  let s' := publish_all ms s in
  same_links s s' /\ sent s' = sent s /\ messageQueue s' !! a = Some (q ++ ms).
Proof.
  induction ms as [|m ms IH]; intros s q Hto Hall Hdis Hq; cbn zeta.
  - cbn. rewrite app_nil_r. repeat split. exact Hq.
  - inversion Hto as [|m' ms' Hm Hms]; subst.
    destruct (sendMessage_disconnected (msg_to m) m s eq_refl Hall Hdis) as ([Hc Ha] & Hs & Hmq).
    cbn zeta in *. unfold publish_all. cbn [fold_left].
    specialize (IH (sendMessage m s) (q ++ [m]) Hms Hall).
    cbn zeta in IH. unfold publish_all in IH.
    destruct IH as ([Hc' Ha'] & Hs' & Hq').
    + rewrite (connected_client_links _ s); [exact Hdis | split; assumption].
    + rewrite Hmq. rewrite lookup_alter_eq. rewrite Hq. reflexivity.
    + repeat split; try congruence. rewrite Hq'. rewrite <- app_assoc. reflexivity.
Qed.

(** Delivery of the buffer to a connected agent: every message from index
    [i] on is sent to its client, in order, and the buffer is not touched. *)
Lemma deliver_queue_connected a cid : forall fuel i s q,
  connected_client a s = Some cid -> messageQueue s !! a = Some q ->
  length q <= i + fuel ->
  deliver_queue fuel i a s
  = Some (with_sent (sent s ++ List.map (fun m => (cid, m)) (drop i q)) s).
Proof.
  induction fuel as [|fuel IH]; intros i s q Hcon Hq Hlen.
  - cbn [deliver_queue]. rewrite Hq. change (default [] (Some q)) with q.
    rewrite (lookup_ge_None_2 q i) by lia.
    rewrite drop_ge by lia. cbn. rewrite app_nil_r. destruct s; reflexivity.
  - cbn [deliver_queue]. rewrite Hq. change (default [] (Some q)) with q.
    destruct (q !! i) as [m|] eqn:Hi.
    + unfold deliverMessage at 1. rewrite Hcon.
      rewrite (IH (S i) _ q).
      * cbn. rewrite (drop_S q m i Hi). cbn. rewrite <- app_assoc. reflexivity.
      * rewrite (connected_client_links a s); [exact Hcon | split; reflexivity].
      * exact Hq.
      * lia.
    + apply lookup_ge_None_1 in Hi. rewrite drop_ge by lia. cbn.
      rewrite app_nil_r. destruct s; reflexivity.
Qed.

Lemma received_by_sent cid ms s s' :
  sent s' = sent s ++ List.map (fun m => (cid, m)) ms ->
  received_by cid s' = received_by cid s ++ ms.
Proof.
  intros H. unfold received_by. rewrite H, List.filter_app, List.map_app. f_equal.
  clear H. induction ms as [|m ms IH]; [reflexivity|].
  cbn. rewrite String.eqb_refl. cbn. f_equal. exact IH.
Qed.

Lemma agent_type_names a :
  In a agentTypes -> a <> "all" /\ is_empty a = false.
Proof.
  unfold agentTypes. cbn. intros [<-|[<-|[<-|[]]]]; split; (discriminate || reflexivity).
Qed.

(** Registration of a client as [a]: the buffer of [a] goes to that client,
    in order, and is emptied. *)
Lemma register_delivers_buffer a cid q s fuel :
  is_empty a = false -> cid <> "" -> has_client cid s = true ->
  messageQueue s !! a = Some q -> length q <= fuel ->
  exists s', handleMessage fuel cid (Register a) s = Some s'
    /\ sent s' = sent s ++ List.map (fun m => (cid, m)) q
    /\ messageQueue s' !! a = Some []
    /\ connected_client a s' = Some cid
    /\ has_client cid s' = true.
Proof.
  intros Ha Hcid Hhas Hq Hlen. cbn [handleMessage]. rewrite Ha.
  set (s1 := with_agentClients (omap_set a cid (agentClients s)) s).
  assert (Hcon : connected_client a s1 = Some cid).
  { unfold connected_client, s1. cbn. rewrite omap_get_set_eq.
    destruct cid; [congruence|]. cbn. unfold has_client in *. cbn in *.
    rewrite Hhas. reflexivity. }
  unfold sendQueuedMessages. change (messageQueue s1) with (messageQueue s). rewrite Hq.
  destruct q as [|m q].
  - cbn. exists s1. rewrite app_nil_r. repeat split; assumption.
  - cbn [length Nat.ltb Nat.leb].
    rewrite (deliver_queue_connected a cid fuel 0 s1 (m :: q) Hcon Hq) by (cbn in *; lia).
    eexists. split; [reflexivity|]. cbn [drop]. repeat split.
    + cbn. apply lookup_insert_eq.
    + exact Hcon.
    + exact Hhas.
Qed.

(** The server starts with an empty buffer for each agent type and no
    client. *)
Lemma new_server_buffers a :
  In a agentTypes ->
  messageQueue new_server !! a = Some [] /\ connected_client a new_server = None.
Proof.
  unfold agentTypes. cbn [In].
  intros [<-|[<-|[<-|[]]]]; split; vm_compute; reflexivity.
Qed.

(** C1. While an agent identity is disconnected and its buffer is empty,
    the messages published to it are appended to its buffer in publish order
    and nothing is sent.  When a client then connects and registers under
    that identity, it is sent exactly those messages, in that order, the
    buffer is emptied, and registering again sends nothing more. *)
Theorem buffered_messages_delivered_on_register :
  forall (s : A2AServer) (a : string) (ms : list A2AMessage) (clientId : string)
         (fuel : nat),
    In a agentTypes ->
    connected_client a s = None ->
    messageQueue s !! a = Some [] ->
    Forall (fun m => msg_to m = a) ms ->
    clientId <> "" ->
    length ms <= fuel ->
    let s1 := publish_all ms s in
    messageQueue s1 !! a = Some ms
    /\ sent s1 = sent s
    /\ exists s2,
        handleMessage fuel clientId (Register a) (on_connection clientId s1) = Some s2
        /\ sent s2 = sent s ++ List.map (fun m => (clientId, m)) ms
        /\ received_by clientId s2 = received_by clientId s ++ ms
        /\ messageQueue s2 !! a = Some []
        /\ exists s3,
            handleMessage fuel clientId (Register a) s2 = Some s3
            /\ sent s3 = sent s2.
Proof.
  intros s a ms clientId fuel Ha Hdis Hq Hto Hcid Hfuel. cbn zeta.
  destruct (agent_type_names a Ha) as [Hall Hne].
  destruct (publish_all_disconnected a ms s [] Hto Hall Hdis Hq) as (_ & Hsent & Hbuf).
  cbn zeta in Hsent, Hbuf. cbn [app] in Hbuf.
  split; [exact Hbuf|]. split; [exact Hsent|].
  destruct (register_delivers_buffer a clientId ms (on_connection clientId (publish_all ms s)) fuel)
    as (s2 & Hreg & Hs2 & Hq2 & Hcon2 & Hhas2); try assumption.
  { unfold has_client, on_connection. cbn. rewrite omap_get_set_eq. reflexivity. }
  exists s2. split; [exact Hreg|].
  change (sent (on_connection clientId (publish_all ms s))) with (sent (publish_all ms s)) in Hs2.
  rewrite Hsent in Hs2.
  split; [exact Hs2|]. split; [apply (received_by_sent clientId ms s s2 Hs2)|].
  split; [exact Hq2|].
  destruct (register_delivers_buffer a clientId [] s2 fuel)
    as (s3 & Hreg3 & Hs3 & _); try assumption; [cbn; lia|].
  exists s3. split; [exact Hreg3|]. rewrite Hs3. cbn. apply app_nil_r.
Qed.

Lemma buffered_messages_delivered_on_register_witness :
  messageQueue (publish_all two_requests new_server) !! "planner" = Some two_requests
  /\ sent (publish_all two_requests new_server) = []
  /\ exists s2,
      handleMessage 2 "c1" (Register "planner")
                    (on_connection "c1" (publish_all two_requests new_server)) = Some s2
      /\ received_by "c1" s2 = two_requests
      /\ messageQueue s2 !! "planner" = Some [].
Proof.
  destruct (buffered_messages_delivered_on_register new_server "planner" two_requests
              "c1" 2) as (H1 & H2 & s2 & H3 & _ & H5 & H6 & _).
  - left. reflexivity.
  - reflexivity.
  - reflexivity.
  - repeat constructor.
  - discriminate.
  - cbn. lia.
  - split; [exact H1|]. split; [exact H2|]. exists s2. repeat split; assumption.
Defined.

End BusFacts.

(* ===================================================================== *)
(** * Properties of the agent runtime *)
(* ===================================================================== *)

Module AgentFacts.

Import Bus Agent Examples.

Lemma status_eqb_eq a b : status_eqb a b = true <-> a = b.
Proof. destruct a, b; cbn; split; (reflexivity || discriminate). Qed.

Lemma status_eqb_neq a b : status_eqb a b = false <-> a <> b.
Proof. destruct a, b; cbn; split; (congruence || discriminate || reflexivity). Qed.

(** ** The loop always reaches a suspension point *)

Lemma enter_loop_total a : exists r, enter_loop 2 a = Some r.
Proof.
  cbn [enter_loop].
  destruct (goalAchieved a || status_eqb (status a) ERROR) eqn:E0; [eauto|].
  destruct (status_eqb (status a) WAITING_FOR_USER); [eauto|].
  destruct (status_eqb (status a) WAITING_FOR_APPROVAL); [eauto|].
  destruct (negb (status_eqb (status a) RUNNING)); [eauto|].
  destruct (executionMode a); [eauto|].
  destruct (askedForInitialInput a); [eauto|].
  destruct (userMessages a); [|eauto].
  apply orb_false_iff in E0 as [Hg He].
  assert (Hs : status (ask_initial_input a) = WAITING_FOR_USER).
  { unfold ask_initial_input, sendA2AMessage. cbn. destruct (ws_open a); reflexivity. }
  assert (Hg' : goalAchieved (ask_initial_input a) = goalAchieved a).
  { unfold ask_initial_input, sendA2AMessage. cbn. destruct (ws_open a); reflexivity. }
  rewrite Hg', Hg, Hs. cbn. eauto.
Qed.

Lemma pass_settled_total eval o a : exists r, pass_settled eval 2 o a = Some r.
Proof.
  destruct o as [reported context|reported message]; cbn [pass_settled]; [|eauto].
  match goal with |- context [executionMode ?x] => destruct (executionMode x) end; [eauto|].
  match goal with |- context [goalAchieved ?x] => destruct (goalAchieved x) end; [|eauto].
  apply enter_loop_total.
Qed.

Lemma step_total eval e st : exists r, step eval e st = Some r.
Proof.
  destruct st as [a pc].
  destruct e, pc; cbn [step]; eauto using enter_loop_total, pass_settled_total.
Qed.

Lemma run_events_not_stuck eval events : forall a pc, run_events eval events a pc <> Stuck.
Proof.
  induction events as [|e events IH]; intros a pc; destruct pc; cbn [run_events];
    try discriminate;
    destruct (step_total eval e (a, LoadingWorkflow)) as [[a1 p1] H1];
    destruct (step_total eval e (a, Sleeping)) as [[a2 p2] H2];
    destruct (step_total eval e (a, Executing)) as [[a3 p3] H3];
    rewrite ?H1, ?H2, ?H3; apply IH.
Qed.

(** ** An agent that has been started is not idle unless it is stopped *)

Lemma status_send m a : status (sendA2AMessage m a) = status a.
Proof. unfold sendA2AMessage. destruct (ws_open a); reflexivity. Qed.

Lemma goal_send m a : goalAchieved (sendA2AMessage m a) = goalAchieved a.
Proof. unfold sendA2AMessage. destruct (ws_open a); reflexivity. Qed.

Lemma status_report_steps reported a :
  status (fold_left report_step reported a) = status a.
Proof.
  revert a. induction reported as [|r reported IH]; intros a; [reflexivity|].
  cbn [fold_left]. rewrite IH. unfold report_step. apply status_send.
Qed.

Lemma status_after_loop a : status a <> IDLE -> status (after_loop a) <> IDLE.
Proof.
  intros H. unfold after_loop. destruct (goalAchieved a); [|exact H].
  rewrite status_send. discriminate.
Qed.

Lemma enter_loop_not_idle fuel : forall a a' pc,
  status a <> IDLE -> enter_loop fuel a = Some (a', pc) -> status a' <> IDLE.
Proof.
  induction fuel as [|fuel IH]; intros a a' pc Hs; cbn [enter_loop];
    (destruct (goalAchieved a || status_eqb (status a) ERROR);
     [intros [= <- <-]; apply status_after_loop; exact Hs|]);
    (destruct (status_eqb (status a) WAITING_FOR_USER); [intros [= <- <-]; exact Hs|]);
    (destruct (status_eqb (status a) WAITING_FOR_APPROVAL); [intros [= <- <-]; exact Hs|]);
    (destruct (negb (status_eqb (status a) RUNNING)); [intros [= <- <-]; exact Hs|]);
    (destruct (executionMode a); [intros [= <- <-]; exact Hs|]);
    (destruct (askedForInitialInput a); [intros [= <- <-]; exact Hs|]);
    (destruct (userMessages a); [|intros [= <- <-]; exact Hs]).
  - discriminate.
  - apply IH. unfold ask_initial_input. rewrite status_send. discriminate.
Qed.

Lemma pass_settled_not_idle eval fuel o a a' pc :
  status a <> IDLE -> pass_settled eval fuel o a = Some (a', pc) -> status a' <> IDLE.
Proof.
  intros Hs. destruct o as [reported context|reported message]; cbn [pass_settled].
  - match goal with |- context [executionMode ?x] => destruct (executionMode x) eqn:Em end.
    + intros [= <- <-]. rewrite status_send. cbn. rewrite status_report_steps. exact Hs.
    + match goal with |- context [goalAchieved ?x] => destruct (goalAchieved x) eqn:Eg end.
      * apply enter_loop_not_idle. rewrite status_send. discriminate.
      * intros [= <- <-]. rewrite status_send. cbn. rewrite status_report_steps. exact Hs.
  - intros [= <- <-]. rewrite status_send. discriminate.
Qed.

Lemma status_handleA2AMessage m a : status (handleA2AMessage m a) = status a.
Proof.
  unfold handleA2AMessage. destruct (msg_type m); try reflexivity.
  destruct (truthy _); reflexivity.
Qed.

Lemma step_not_idle eval e a pc a' pc' :
  e <> CallStop -> status a <> IDLE ->
  step eval e (a, pc) = Some (a', pc') -> status a' <> IDLE.
Proof.
  intros He Hs. destruct e; try congruence; cbn [step].
  - destruct pc; try (intros [= <- <-]; exact Hs).
    apply enter_loop_not_idle. destruct saved; exact Hs.
  - destruct pc; try (intros [= <- <-]; exact Hs). apply enter_loop_not_idle. exact Hs.
  - destruct pc; try (intros [= <- <-]; exact Hs). apply pass_settled_not_idle. exact Hs.
  - intros [= <- <-]. exact Hs.
  - intros [= <- <-]. rewrite status_handleA2AMessage. exact Hs.
  - intros [= <- <-]. unfold sendUserMessage.
    destruct (status_eqb _ _); cbn; [discriminate | exact Hs].
  - intros [= <- <-]. unfold approveArtifact.
    destruct (negb _); [exact Hs|]. destruct approved; cbn; discriminate.
  - intros [= <- <-]. cbn. discriminate.
  - intros [= <- <-]. unfold resume. destruct (status_eqb _ _); cbn; [discriminate|exact Hs].
Qed.

Lemma run_events_not_idle eval events : forall a pc,
  no_stop events = true -> status a <> IDLE ->
  match run_events eval events a pc with
  | Settled a' _ | Pending a' _ => status a' <> IDLE
  | Stuck => False
  end.
Proof.
  induction events as [|e events IH]; intros a pc Hns Hs.
  - destruct pc; cbn [run_events]; exact Hs.
  - cbn [no_stop forallb] in Hns. apply andb_true_iff in Hns as [He Hns].
    assert (Hne : e <> CallStop) by (intros ->; discriminate).
    destruct pc; cbn [run_events]; try exact Hs;
      match goal with |- context [step eval e ?st] =>
        destruct (step_total eval e st) as [[a1 p1] H1]; rewrite H1;
        apply IH; [exact Hns | eapply step_not_idle; eassumption]
      end.
Qed.

(** Once [start] has passed its configuration check, and as long as [stop]
    is not called, the agent is not idle. *)
Lemma start_not_idle eval config data mode events a :
  status a <> RUNNING -> configured config = true -> no_stop events = true ->
  match start eval config data mode events a with
  | StartReturned a' _ | StartPending a' _ => status a' <> IDLE
  | StartThrew _ _ | StartStuck => False
  end.
Proof.
  intros Hr Hc Hns. unfold start, start_entry.
  apply status_eqb_neq in Hr. rewrite Hr, Hc. cbn [negb].
  match goal with |- context [run_events eval events ?x LoadingWorkflow] =>
    pose proof (run_events_not_idle eval events x LoadingWorkflow Hns) as H;
    destruct (run_events eval events x LoadingWorkflow)
  end; apply H; rewrite status_send; discriminate.
Qed.

(** ** [stop] *)

(** C3. [stop] sets the status to idle and the goal flag to true.  The flag
    ends the loop at its next test, and the code after the loop, which runs
    whenever the flag is set, then marks the agent completed and sends
    [agent_complete] on an open socket: for a run suspended in a timer, the
    call of [stop] followed by the timer ends [start] in that state. *)
Theorem stop_ends_with_completion :
  forall (agent_eval : string -> BaseAgent -> option Value) (a : BaseAgent) (fuel : nat),
    status (stop a) = IDLE
    /\ goalAchieved (stop a) = true
    /\ enter_loop fuel (stop a) = Some (after_loop (stop a), Finished)
    /\ run_events agent_eval [CallStop; TimerFired] a Sleeping
       = Settled (after_loop (stop a)) []
    /\ status (after_loop (stop a)) = COMPLETED
    /\ outbox (after_loop (stop a))
       = if ws_open a
         then outbox a
              ++ [mkOutgoing AGENT_COMPLETE (type a) "all"
                    (mkPayload (Some (type a +:+ " agent completed"))
                               (variable "output" (executionContext a))
                               (variable "artifactPath" (executionContext a)) None)]
         else outbox a.
Proof.
  intros agent_eval a fuel.
  assert (E : enter_loop fuel (stop a) = Some (after_loop (stop a), Finished)).
  { destruct fuel; reflexivity. }
  repeat split; try reflexivity; try exact E.
  - unfold after_loop, stop, sendA2AMessage. cbn. destruct (ws_open a); reflexivity.
  - unfold after_loop, stop, sendA2AMessage. cbn. destruct (ws_open a); reflexivity.
Qed.

(** The same on a running planner whose socket is open. *)
Example stop_ends_with_completion_example :
  let a := set_ws_open true (set_status RUNNING (new_agent "planner")) in
  run_events (fun _ _ => None) [CallStop; TimerFired] a Sleeping
  = Settled (set_outbox
               [mkOutgoing AGENT_COMPLETE "planner" "all"
                  (mkPayload (Some "planner agent completed") VUndef VUndef None)]
               (set_goalAchieved true (set_status COMPLETED a))) [].
Proof. reflexivity. Qed.

(** ** [start] *)

(** C4 (amended). [start] does nothing on a running agent.  In every other
    status, idle or not, it throws when no scenario is configured, leaving
    the status as it is and sending nothing; and when a scenario is
    configured it sets the status to running, clears the goal flag, takes the
    mode (automatic by default) and the initial variables, and enters the
    run: an agent that is completed or in error is started again. *)
Theorem start_entry_cases :
  forall (config : option AgentConfig) (initialData : list (string * Value))
         (mode : option ExecutionMode) (a : BaseAgent),
    (status a = RUNNING ->
     start_entry config initialData mode a = AlreadyRunning a)
    /\ (status a <> RUNNING -> configured config = false ->
        exists a', start_entry config initialData mode a
                   = ConfigurationError (scenario_missing (type a)) a'
                   /\ status a' = status a /\ outbox a' = outbox a)
    /\ (status a <> RUNNING -> configured config = true ->
        exists a', start_entry config initialData mode a = EnterRun a'
                   /\ status a' = RUNNING
                   /\ goalAchieved a' = false
                   /\ executionMode a' = default automatic mode
                   /\ variables (executionContext a') = initialData).
Proof.
  intros config initialData mode a. unfold start_entry. repeat split.
  - intros ->. reflexivity.
  - intros Hr Hc. apply status_eqb_neq in Hr. rewrite Hr, Hc. cbn [negb].
    eexists. repeat split.
  - intros Hr Hc. apply status_eqb_neq in Hr. rewrite Hr, Hc. cbn [negb].
    eexists. split; [reflexivity|].
    unfold sendA2AMessage. destruct (ws_open _); cbn; repeat split.
Qed.

Lemma start_entry_cases_witness :
  (exists a', start_entry (Some planner_config) [] None
                          (set_status COMPLETED (new_agent "planner")) = EnterRun a'
              /\ status a' = RUNNING)
  /\ (exists a', start_entry None [] None (set_status ERROR (new_agent "planner"))
                 = ConfigurationError (scenario_missing "planner") a'
                 /\ status a' = ERROR)
  /\ start_entry (Some planner_config) [] None (set_status RUNNING (new_agent "planner"))
     = AlreadyRunning (set_status RUNNING (new_agent "planner")).
Proof.
  split; [|split].
  - destruct (start_entry_cases (Some planner_config) [] None
                (set_status COMPLETED (new_agent "planner"))) as (_ & _ & H).
    destruct H as (a' & H1 & H2 & _); [discriminate | reflexivity |].
    exists a'. split; assumption.
  - destruct (start_entry_cases None [] None
                (set_status ERROR (new_agent "planner"))) as (_ & H & _).
    destruct H as (a' & H1 & H2 & _); [discriminate | reflexivity |].
    exists a'. split; assumption.
  - destruct (start_entry_cases (Some planner_config) [] None
                (set_status RUNNING (new_agent "planner"))) as (H & _).
    apply H. reflexivity.
Defined.

(** C4, as stated, fails: [start] on a completed agent, and on an agent in
    error, sets it running again. *)
Lemma terminal_agent_is_restarted :
  (exists a', start_entry (Some planner_config) [] None
                          (set_status COMPLETED (new_agent "planner")) = EnterRun a'
              /\ status a' = RUNNING)
  /\ (exists a', start_entry (Some planner_config) [] (Some interactive)
                             (set_status ERROR (new_agent "planner")) = EnterRun a'
                 /\ status a' = RUNNING).
Proof. split; eexists; split; reflexivity. Qed.

End AgentFacts.

(* ===================================================================== *)
(** * The selection of the starting agents and the table of the agents *)
(* ===================================================================== *)

Module ServerFacts.

Import Bus Agent Server Examples AgentFacts.

Lemma includes_name_In x l : includes_name x l = true <-> In x l.
Proof.
  unfold includes_name. rewrite existsb_exists. split.
  - intros (y & Hy & E). apply String.eqb_eq in E. subst. exact Hy.
  - intros H. exists x. split; [exact H | apply String.eqb_refl].
Qed.

Lemma startingAgents_spec s t :
  In t (startingAgents s)
  <-> In t allAgents /\ forall c, In c (agentConnections s) -> to c <> t.
Proof.
  unfold startingAgents. rewrite List.filter_In. split.
  - intros [Hin Hn]. split; [exact Hin|]. intros c Hc E.
    apply negb_true_iff in Hn.
    assert (includes_name t (agentsWithDependencies s) = true) as Hc'.
    { apply includes_name_In. unfold agentsWithDependencies.
      apply List.in_map_iff. exists c. split; assumption. }
    congruence.
  - intros [Hin Hn]. split; [exact Hin|]. apply negb_true_iff.
    destruct (includes_name t (agentsWithDependencies s)) eqn:E; [|reflexivity].
    apply includes_name_In in E. unfold agentsWithDependencies in E.
    apply List.in_map_iff in E as (c & Hc1 & Hc2). exfalso. exact (Hn c Hc2 Hc1).
Qed.

Lemma startingAgents_empty s :
  startingAgents s = []
  <-> forall t, In t allAgents -> exists c, In c (agentConnections s) /\ to c = t.
Proof.
  split.
  - intros E t Ht.
    destruct (includes_name t (agentsWithDependencies s)) eqn:Ei.
    + apply includes_name_In in Ei. unfold agentsWithDependencies in Ei.
      apply List.in_map_iff in Ei as (c & Hc1 & Hc2). exists c. split; assumption.
    + exfalso. assert (In t (startingAgents s)) as Hin.
      { unfold startingAgents. apply List.filter_In. split; [exact Ht|].
        rewrite Ei. reflexivity. }
      rewrite E in Hin. exact Hin.
  - intros H. destruct (startingAgents s) as [|t l] eqn:E; [reflexivity|].
    assert (In t (startingAgents s)) as Hin by (rewrite E; left; reflexivity).
    apply startingAgents_spec in Hin as [Hin Hn].
    destruct (H t Hin) as (c & Hc & Hto). exfalso. exact (Hn c Hc Hto).
Qed.

(** ** Agents and the record of calls *)

Lemma getAgentByType_update t t' a s :
  getAgentByType t' (update_agent t a s)
  = if String.eqb t t' && includes_name t allAgents then Some a else getAgentByType t' s.
Proof.
  unfold update_agent, getAgentByType, allAgents, includes_name. cbn [existsb].
  destruct (String.eqb_spec t t') as [<-|Hne].
  - destruct (String.eqb_spec t "planner") as [->|H1]; [reflexivity|].
    destruct (String.eqb_spec t "artist") as [->|H2]; [reflexivity|].
    destruct (String.eqb_spec t "developer") as [->|H3]; [reflexivity|].
    reflexivity.
  - cbn [andb].
    destruct (String.eqb_spec t "planner") as [->|H1].
    { cbn. rewrite (proj2 (String.eqb_neq _ _) (not_eq_sym Hne)). reflexivity. }
    destruct (String.eqb_spec t "artist") as [->|H2].
    { cbn. rewrite (proj2 (String.eqb_neq _ _) (not_eq_sym Hne)).
      destruct (String.eqb t' "planner"); reflexivity. }
    destruct (String.eqb_spec t "developer") as [->|H3].
    { cbn. rewrite (proj2 (String.eqb_neq _ _) (not_eq_sym Hne)).
      destruct (String.eqb t' "planner"); [reflexivity|].
      destruct (String.eqb t' "artist"); reflexivity. }
    reflexivity.
Qed.

Section Scheduler.

Variable agent_eval : string -> BaseAgent -> option Value.
Variable schedule : string -> list Event.

#[local] Abbreviation call_start := (call_start agent_eval schedule).
#[local] Abbreviation start_each := (start_each agent_eval schedule).
#[local] Abbreviation start_next := (start_next agent_eval schedule).
#[local] Abbreviation workflow_start := (workflow_start agent_eval schedule).
#[local] Abbreviation monitor_message := (monitor_message agent_eval schedule).
#[local] Abbreviation ready := (ready agent_eval schedule).

Lemma same_setup_update t a s : same_setup s (update_agent t a s).
Proof.
  unfold update_agent.
  destruct (String.eqb t "planner"); [repeat split|].
  destruct (String.eqb t "artist"); [repeat split|].
  destruct (String.eqb t "developer"); repeat split.
Qed.

Lemma start_calls_update t a s : start_calls (update_agent t a s) = start_calls s.
Proof.
  unfold update_agent.
  destruct (String.eqb t "planner"); [reflexivity|].
  destruct (String.eqb t "artist"); [reflexivity|].
  destruct (String.eqb t "developer"); reflexivity.
Qed.

Lemma call_start_effect t m a s :
  let '(s', _) := call_start t m a s in
  start_calls s' = start_calls s ++ [t]
  /\ same_setup s s'
  /\ forall t', t' <> t -> getAgentByType t' s' = getAgentByType t' s.
Proof.
  unfold Server.call_start.
  destruct (Agent.start _ _ _ _ _ _) as [a' rest|msg a'|a' pc|].
  1-3: split; [rewrite start_calls_update; reflexivity|];
       split; [destruct (same_setup_update t a' (log_start t s)) as (?&?&?); repeat split; assumption|];
       intros t' Hne; rewrite getAgentByType_update;
       rewrite (proj2 (String.eqb_neq t t')) by congruence; reflexivity.
  split; [reflexivity|]. split; [repeat split|]. reflexivity.
Qed.

Lemma NoDup_startingAgents s : List.NoDup (startingAgents s).
Proof.
  unfold startingAgents. apply List.NoDup_filter. unfold allAgents.
  repeat constructor; cbn; intuition discriminate.
Qed.

(** ** The three agents *)

Lemma third_agent P Q :
  In P allAgents -> In Q allAgents -> P <> Q ->
  exists R, In R allAgents /\ R <> P /\ R <> Q.
Proof.
  unfold allAgents. cbn [In].
  intros [<-|[<-|[<-|[]]]] [<-|[<-|[<-|[]]]] Hne; try congruence;
    [exists "developer" | exists "artist" | exists "developer"
     | exists "planner" | exists "artist" | exists "planner"];
    (split; [cbn; tauto | split; discriminate]).
Qed.

End Scheduler.

End ServerFacts.
(* ===================================================================== *)
(** * The conversion of a conversation for Gemini *)
(* ===================================================================== *)

Module GeminiFacts.

Import JS ReAct Gemini EngineFacts MoreExamples.

Lemma plain_contents_cons msg rest :
  plain_contents (msg :: rest)
  = if is_system msg then plain_contents rest else plain_content msg :: plain_contents rest.
Proof. unfold plain_contents. cbn [List.filter]. destruct (is_system msg); reflexivity. Qed.

Lemma system_text_cons msg rest :
  system_text (msg :: rest)
  = if is_system msg then content msg +:+ nl +:+ system_text rest else system_text rest.
Proof. unfold system_text. cbn [List.filter]. destruct (is_system msg); reflexivity. Qed.

Lemma collect_spec messages : forall contents systemInstruction,
  collect messages contents systemInstruction
  = (contents ++ plain_contents messages, systemInstruction +:+ system_text messages).
Proof.
  induction messages as [|msg rest IH]; intros contents sys.
  - cbn. rewrite app_nil_r, append_nil_r. reflexivity.
  - cbn [collect]. rewrite plain_contents_cons, system_text_cons.
    unfold is_system, plain_content.
    destruct (role msg); rewrite IH.
    + rewrite !append_assoc. reflexivity.
    + rewrite <- app_assoc. reflexivity.
    + rewrite <- app_assoc. reflexivity.
Qed.

Lemma prepend_nil prefix : prepend_to_first_user prefix [] = [].
Proof. reflexivity. Qed.

Lemma prepend_without_user prefix contents :
  has_user contents = false -> prepend_to_first_user prefix contents = contents.
Proof.
  induction contents as [|c rest IH]; [reflexivity|].
  unfold has_user. cbn [existsb prepend_to_first_user].
  destruct (content_role c); [discriminate|]. cbn [orb]. intros H.
  f_equal. apply IH. exact H.
Qed.

Lemma prepend_at_first_user prefix pre text post :
  has_user pre = false ->
  prepend_to_first_user prefix (pre ++ mkContent role_user text :: post)
  = pre ++ mkContent role_user (prefix +:+ text) :: post.
Proof.
  induction pre as [|c pre IH]; [reflexivity|].
  unfold has_user. cbn [existsb app prepend_to_first_user].
  destruct (content_role c); [discriminate|]. cbn [orb]. intros H.
  f_equal. apply IH. exact H.
Qed.

Lemma prepend_roles prefix contents :
  List.map content_role (prepend_to_first_user prefix contents)
  = List.map content_role contents.
Proof.
  induction contents as [|c rest IH]; [reflexivity|].
  cbn [prepend_to_first_user]. destruct (content_role c) eqn:E; cbn [List.map content_role].
  - rewrite E. reflexivity.
  - rewrite E, IH. reflexivity.
Qed.

(** The loop computes the conversion described by [plain_contents] and
    [system_text]. *)
Lemma convertMessagesToGeminiFormat_spec messages :
  convertMessagesToGeminiFormat messages
  = if is_empty (system_text messages) then plain_contents messages
    else prepend_to_first_user (system_text messages +:+ nl) (plain_contents messages).
Proof.
  unfold convertMessagesToGeminiFormat. rewrite collect_spec. cbn [app].
  change ("" +:+ system_text messages) with (system_text messages).
  destruct (is_empty (system_text messages)); [reflexivity|]. cbn [negb andb].
  destruct (plain_contents messages); reflexivity.
Qed.

Lemma is_empty_append a b : is_empty (a +:+ b) = is_empty a && is_empty b.
Proof. destruct a; [destruct b|]; reflexivity. Qed.

Lemma system_text_empty messages :
  is_empty (system_text messages) = negb (existsb is_system messages).
Proof.
  induction messages as [|msg rest IH]; [reflexivity|].
  rewrite system_text_cons. cbn [existsb]. destruct (is_system msg); [|exact IH].
  rewrite !is_empty_append. cbn. rewrite andb_false_r. reflexivity.
Qed.

(** X1. When the conversation has a system message and a user message,
    the system texts, each followed by a line feed and all followed by one
    more, are put in front of the text of the first user message, wherever
    the system messages stand in the conversation; every other message keeps
    its place and its text, assistant messages under the role [model]. *)
Theorem system_instruction_goes_to_first_user :
  forall (messages : list LLMMessage) (before after : list Content) (text : string),
    existsb is_system messages = true ->
    plain_contents messages = before ++ mkContent role_user text :: after ->
    has_user before = false ->
    convertMessagesToGeminiFormat messages
    = before ++ mkContent role_user (system_text messages +:+ nl +:+ text) :: after.
Proof.
  intros messages before after text Hs Hp Hb.
  rewrite convertMessagesToGeminiFormat_spec, system_text_empty, Hs. cbn [negb].
  rewrite Hp, prepend_at_first_user by exact Hb.
  rewrite append_assoc. reflexivity.
Qed.

Lemma system_instruction_goes_to_first_user_witness :
  convertMessagesToGeminiFormat late_system
  = [mkContent role_user ("be brief" +:+ nl +:+ nl +:+ "hi");
     mkContent role_model "yo"; mkContent role_user "again"].
Proof.
  apply (system_instruction_goes_to_first_user late_system []
           [mkContent role_model "yo"; mkContent role_user "again"] "hi"); reflexivity.
Defined.

(** X2. Without a system message the conversation is converted message by
    message; without a user message the system texts are dropped: the result
    is the assistant messages alone, and nothing at all for a conversation of
    system messages only. *)
Theorem system_instruction_dropped_without_user :
  forall (messages : list LLMMessage),
    existsb is_system messages = false \/ has_user (plain_contents messages) = false ->
    convertMessagesToGeminiFormat messages = plain_contents messages.
Proof.
  intros messages H.
  rewrite convertMessagesToGeminiFormat_spec, system_text_empty.
  destruct (existsb is_system messages); cbn [negb]; [|reflexivity].
  destruct H as [H|H]; [discriminate|]. apply prepend_without_user. exact H.
Qed.

Lemma system_instruction_dropped_without_user_witness :
  convertMessagesToGeminiFormat no_user = [mkContent role_model "yo"].
Proof.
  apply (system_instruction_dropped_without_user no_user). right. reflexivity.
Defined.

End GeminiFacts.

(* ===================================================================== *)
(** * More on the agent runtime *)
(* ===================================================================== *)

Module AgentExtra.

Import JS Types Bus Agent AgentObs AgentFacts Examples MoreExamples.

(** ** A suspended agent *)

Lemma enter_loop_suspended fuel a :
  goalAchieved a = false -> status a <> RUNNING -> status a <> ERROR ->
  enter_loop fuel a = Some (a, Sleeping).
Proof.
  intros Hg Hr He. apply status_eqb_neq in Hr, He.
  destruct fuel; cbn [enter_loop]; rewrite Hg, He, Hr; cbn [orb negb];
    destruct (status_eqb (status a) WAITING_FOR_USER);
    destruct (status_eqb (status a) WAITING_FOR_APPROVAL); reflexivity.
Qed.

Lemma timers_while_suspended agent_eval a n :
  goalAchieved a = false -> status a <> RUNNING -> status a <> ERROR ->
  run_events agent_eval (repeat TimerFired n) a Sleeping = Pending a Sleeping.
Proof.
  intros Hg Hr He. induction n as [|n IH]; [reflexivity|].
  cbn [repeat run_events step]. rewrite (enter_loop_suspended 2 a Hg Hr He). exact IH.
Qed.

(** A running agent that has nothing to ask begins an iteration. *)
Lemma enter_loop_begins fuel a :
  goalAchieved a = false -> status a = RUNNING ->
  executionMode a = automatic \/ askedForInitialInput a = true \/ userMessages a <> [] ->
  enter_loop fuel a = Some (begin_iteration a, Executing).
Proof.
  intros Hg Hs Hask.
  destruct fuel; cbn [enter_loop]; rewrite Hg, Hs; cbn [status_eqb orb negb];
    destruct (executionMode a); try reflexivity;
    destruct (askedForInitialInput a); try reflexivity;
    destruct (userMessages a); try reflexivity;
    destruct Hask as [H|[H|H]]; congruence.
Qed.

(** X3. While an agent is not running (paused, idle, waiting), is not in
    error and has not reached its goal, the loop only sleeps: any number of
    timer ticks leaves every field of the agent as it is: no iteration, no
    message. *)
Theorem suspended_agent_does_no_work :
  forall (agent_eval : string -> BaseAgent -> option Value) (a : BaseAgent) (n : nat),
    goalAchieved a = false -> status a <> RUNNING -> status a <> ERROR ->
    run_events agent_eval (repeat TimerFired n) a Sleeping = Pending a Sleeping.
Proof.
  intros agent_eval a n. apply timers_while_suspended.
Qed.

Lemma suspended_agent_does_no_work_witness :
  run_events no_eval (repeat TimerFired 5) (pause (set_status RUNNING (new_agent "artist")))
             Sleeping
  = Pending (pause (set_status RUNNING (new_agent "artist"))) Sleeping.
Proof.
  apply (suspended_agent_does_no_work no_eval _ 5); [reflexivity | discriminate | discriminate].
Defined.

(** ** [pause] and [resume] *)

Lemma set_status_same a : set_status (status a) a = a.
Proof. destruct a; reflexivity. Qed.

(** X4. [resume] after [pause] leaves the agent running whatever its status
    was: a running agent gets back all its fields, and an agent that was
    waiting for the user no longer waits: at the next tick it begins an
    iteration although no message has come. *)
Theorem pause_then_resume :
  forall (agent_eval : string -> BaseAgent -> option Value) (a : BaseAgent),
    resume (pause a) = set_status RUNNING a
    /\ (status a = RUNNING -> resume (pause a) = a)
    /\ (status a = WAITING_FOR_USER -> goalAchieved a = false ->
        askedForInitialInput a = true ->
        run_events agent_eval [CallPause; CallResume; TimerFired] a Sleeping
        = Pending (begin_iteration (set_status RUNNING a)) Executing).
Proof.
  intros agent_eval a. split; [reflexivity|]. split.
  - intros H. change (resume (pause a)) with (set_status RUNNING a).
    rewrite <- H. apply set_status_same.
  - intros Hs Hg Ha. cbn [run_events step].
    change (resume (pause a)) with (set_status RUNNING a).
    rewrite (enter_loop_begins 2 (set_status RUNNING a)); [reflexivity| | |].
    + exact Hg.
    + reflexivity.
    + right. left. exact Ha.
Qed.

Lemma pause_then_resume_witness :
  let a := ask_initial_input (set_executionMode interactive
                                (set_status RUNNING (new_agent "planner"))) in
  status a = WAITING_FOR_USER
  /\ run_events no_eval [CallPause; CallResume; TimerFired] a Sleeping
     = Pending (begin_iteration (set_status RUNNING a)) Executing.
Proof.
  cbn zeta. split; [reflexivity|].
  destruct (pause_then_resume no_eval
              (ask_initial_input (set_executionMode interactive
                                    (set_status RUNNING (new_agent "planner")))))
    as (_ & _ & H).
  apply H; reflexivity.
Defined.

(** ** Messages of the user *)

(** X5. [sendUserMessage] on an agent that waits for the user sets it
    running and clears the question; the next turn of the loop begins an
    iteration whose context holds the pending messages followed by the new
    one, and the agent's own list is emptied. *)
Theorem user_message_resumes :
  forall (agent_eval : string -> BaseAgent -> option Value) (a : BaseAgent)
         (message : string),
    status a = WAITING_FOR_USER -> goalAchieved a = false ->
    exists a',
      run_events agent_eval [CallSendUserMessage message; TimerFired] a Sleeping
      = Pending a' Executing
      /\ status a' = RUNNING
      /\ currentQuestion a' = None
      /\ Types.userMessages (executionContext a') = userMessages a ++ [message]
      /\ userMessages a' = []
      /\ iteration (executionContext a') = (iteration (executionContext a) + 1)%Z
      /\ outbox a' = outbox a.
Proof.
  intros agent_eval a message Hs Hg. cbn [run_events step].
  unfold sendUserMessage. cbn [status set_agent_userMessages]. rewrite Hs.
  cbn [status_eqb].
  rewrite enter_loop_begins.
  - eexists. split; [reflexivity|]. cbn. repeat split.
  - exact Hg.
  - reflexivity.
  - right. right. cbn. destruct (userMessages a); discriminate.
Qed.

Lemma user_message_resumes_witness :
  let a := ask_initial_input (set_executionMode interactive
                                (set_status RUNNING (new_agent "planner"))) in
  exists a',
    run_events no_eval [CallSendUserMessage "a platformer"; TimerFired] a Sleeping
    = Pending a' Executing
    /\ Types.userMessages (executionContext a') = ["a platformer"].
Proof.
  cbn zeta.
  destruct (user_message_resumes no_eval
              (ask_initial_input (set_executionMode interactive
                                    (set_status RUNNING (new_agent "planner"))))
              "a platformer" eq_refl eq_refl) as (a' & H1 & _ & _ & H2 & _).
  exists a'. split; [exact H1 | exact H2].
Defined.

(** X6. A user message that comes over the bus is added to the pending
    messages but, unlike [sendUserMessage], does not resume an agent that
    waits for the user: the status is kept and the loop goes on sleeping. *)
Theorem bus_user_message_does_not_resume :
  forall (agent_eval : string -> BaseAgent -> option Value) (a : BaseAgent)
         (message : A2AMessage) (n : nat),
    msg_type message = USER_MESSAGE ->
    status a = WAITING_FOR_USER -> goalAchieved a = false ->
    run_events agent_eval (Incoming message :: repeat TimerFired n) a Sleeping
    = Pending (handleA2AMessage message a) Sleeping
    /\ status (handleA2AMessage message a) = WAITING_FOR_USER
    /\ userMessages (handleA2AMessage message a)
       = userMessages a ++ [default "" (p_content (msg_payload message))].
Proof.
  intros agent_eval a message n Ht Hs Hg.
  assert (Hst : status (handleA2AMessage message a) = WAITING_FOR_USER).
  { rewrite status_handleA2AMessage. exact Hs. }
  split; [|split; [exact Hst|]].
  - cbn [run_events step]. apply timers_while_suspended.
    + unfold handleA2AMessage. rewrite Ht. exact Hg.
    + rewrite Hst. discriminate.
    + rewrite Hst. discriminate.
  - unfold handleA2AMessage. rewrite Ht. cbn.
    destruct (p_content (msg_payload message)); reflexivity.
Qed.

Lemma bus_user_message_does_not_resume_witness :
  run_events no_eval (Incoming (bus_user_message "a platformer") :: repeat TimerFired 3)
             waiting_planner Sleeping
  = Pending (handleA2AMessage (bus_user_message "a platformer") waiting_planner) Sleeping
  /\ status (handleA2AMessage (bus_user_message "a platformer") waiting_planner)
     = WAITING_FOR_USER
  /\ userMessages (handleA2AMessage (bus_user_message "a platformer") waiting_planner)
     = ["a platformer"].
Proof.
  apply (bus_user_message_does_not_resume no_eval waiting_planner
           (bus_user_message "a platformer") 3); reflexivity.
Defined.

(** ** The wait for approval *)

Lemma status_begin_iteration a : status (begin_iteration a) = status a.
Proof. reflexivity. Qed.

Lemma enter_loop_no_approval_wait fuel : forall a a' pc,
  status a <> WAITING_FOR_APPROVAL -> enter_loop fuel a = Some (a', pc) ->
  status a' <> WAITING_FOR_APPROVAL.
Proof.
  induction fuel as [|fuel IH]; intros a a' pc Hs; cbn [enter_loop];
    (destruct (goalAchieved a || status_eqb (status a) ERROR) eqn:E0;
     [intros [= <- <-]; unfold after_loop; destruct (goalAchieved a);
      [rewrite status_send; discriminate | exact Hs]|]);
    (destruct (status_eqb (status a) WAITING_FOR_USER); [intros [= <- <-]; exact Hs|]);
    (destruct (status_eqb (status a) WAITING_FOR_APPROVAL); [intros [= <- <-]; exact Hs|]);
    (destruct (negb (status_eqb (status a) RUNNING)); [intros [= <- <-]; exact Hs|]);
    (destruct (executionMode a); [intros [= <- <-]; exact Hs|]);
    (destruct (askedForInitialInput a); [intros [= <- <-]; exact Hs|]);
    (destruct (userMessages a); [|intros [= <- <-]; exact Hs]).
  - discriminate.
  - apply IH. unfold ask_initial_input. rewrite status_send. discriminate.
Qed.

(** When the goal flag is set the loop is left at once. *)
Lemma enter_loop_goal fuel a :
  goalAchieved a = true -> enter_loop fuel a = Some (after_loop a, Finished).
Proof. intros H. destruct fuel; cbn [enter_loop]; rewrite H; reflexivity. Qed.

Lemma status_after_loop_goal a : goalAchieved a = true -> status (after_loop a) = COMPLETED.
Proof. intros H. unfold after_loop. rewrite H. rewrite status_send. reflexivity. Qed.

Lemma pass_settled_no_approval_wait eval fuel o a a' pc :
  status a <> WAITING_FOR_APPROVAL -> pass_settled eval fuel o a = Some (a', pc) ->
  status a' <> WAITING_FOR_APPROVAL.
Proof.
  intros Hs. destruct o as [reported context|reported message]; cbn [pass_settled].
  - match goal with |- context [executionMode ?x] => destruct (executionMode x) eqn:Em end.
    + intros [= <- <-]. rewrite status_send. cbn. rewrite status_report_steps. exact Hs.
    + match goal with |- context [goalAchieved ?x] => destruct (goalAchieved x) eqn:Eg end.
      * rewrite enter_loop_goal by (rewrite goal_send; exact Eg).
        intros [= <- <-]. rewrite status_after_loop_goal by (rewrite goal_send; exact Eg).
        discriminate.
      * intros [= <- <-]. rewrite status_send. cbn. rewrite status_report_steps. exact Hs.
  - intros [= <- <-]. rewrite status_send. discriminate.
Qed.

Lemma step_no_approval_wait eval e a pc a' pc' :
  status a <> WAITING_FOR_APPROVAL ->
  step eval e (a, pc) = Some (a', pc') -> status a' <> WAITING_FOR_APPROVAL.
Proof.
  intros Hs. destruct e; cbn [step].
  - destruct pc; try (intros [= <- <-]; exact Hs).
    apply enter_loop_no_approval_wait. destruct saved; exact Hs.
  - destruct pc; try (intros [= <- <-]; exact Hs).
    apply enter_loop_no_approval_wait. exact Hs.
  - destruct pc; try (intros [= <- <-]; exact Hs).
    apply pass_settled_no_approval_wait. exact Hs.
  - intros [= <- <-]. exact Hs.
  - intros [= <- <-]. rewrite status_handleA2AMessage. exact Hs.
  - intros [= <- <-]. unfold sendUserMessage.
    destruct (status_eqb _ _); cbn; [discriminate | exact Hs].
  - intros [= <- <-]. unfold approveArtifact.
    apply status_eqb_neq in Hs. rewrite Hs. exact (proj1 (status_eqb_neq _ _) Hs).
  - intros [= <- <-]. cbn. discriminate.
  - intros [= <- <-]. unfold resume. destruct (status_eqb _ _); cbn; [discriminate|exact Hs].
  - intros [= <- <-]. cbn. discriminate.
Qed.

Lemma run_events_no_approval_wait eval events : forall a pc a',
  status a <> WAITING_FOR_APPROVAL ->
  agent_of (run_events eval events a pc) = Some a' ->
  status a' <> WAITING_FOR_APPROVAL.
Proof.
  induction events as [|e events IH]; intros a pc a' Hs.
  - destruct pc; cbn; intros [= <-]; exact Hs.
  - destruct pc; cbn [run_events]; try (cbn; intros [= <-]; exact Hs);
      match goal with |- context [step eval e ?st] =>
        destruct (step_total eval e st) as [[a1 p1] H1]; rewrite H1;
        apply IH; eapply step_no_approval_wait; eassumption
      end.
Qed.

(** X7. An agent is never found waiting for approval: when a pass ends with
    the goal reached in interactive mode, the status is set to
    waiting-for-approval and the loop is left in the same turn, so from an
    agent that is not waiting for approval no sequence of events, through
    [start] or inside a run, leads to one that is, and [approveArtifact]
    throws on every agent so reached. *)
Theorem approval_is_never_awaited :
  forall (agent_eval : string -> BaseAgent -> option Value)
         (config : option AgentConfig) (initialData : list (string * Value))
         (mode : option ExecutionMode) (events : list Event) (a : BaseAgent)
         (pc : Pc) (approved : bool),
    status a <> WAITING_FOR_APPROVAL ->
    after_run (fun b => status b <> WAITING_FOR_APPROVAL
                        /\ approveArtifact approved b = None)
              (run_events agent_eval events a pc)
    /\ after_start (fun b => status b <> WAITING_FOR_APPROVAL
                             /\ approveArtifact approved b = None)
                   (start agent_eval config initialData mode events a).
Proof.
  intros agent_eval config initialData mode events a pc approved Hs.
  assert (Hthrow : forall b, status b <> WAITING_FOR_APPROVAL ->
                             status b <> WAITING_FOR_APPROVAL
                             /\ approveArtifact approved b = None).
  { intros b Hb. split; [exact Hb|]. unfold approveArtifact.
    apply status_eqb_neq in Hb. rewrite Hb. reflexivity. }
  split.
  - pose proof (run_events_no_approval_wait agent_eval events a pc) as H.
    pose proof (run_events_not_stuck agent_eval events a pc) as Hn.
    destruct (run_events agent_eval events a pc) as [b rest|b pc'|];
      [apply Hthrow, H; [exact Hs|reflexivity] ..|congruence].
  - unfold start, start_entry.
    destruct (status_eqb (status a) RUNNING); [apply Hthrow; exact Hs|].
    destruct (negb (configured config)); [apply Hthrow; exact Hs|].
    match goal with |- context [run_events agent_eval events ?x LoadingWorkflow] =>
      pose proof (run_events_no_approval_wait agent_eval events x LoadingWorkflow) as H;
      pose proof (run_events_not_stuck agent_eval events x LoadingWorkflow) as Hn;
      destruct (run_events agent_eval events x LoadingWorkflow) as [b rest|b pc'|]
    end.
    + apply Hthrow. apply (H b); [rewrite status_send; discriminate | reflexivity].
    + apply Hthrow. apply (H b); [rewrite status_send; discriminate | reflexivity].
    + congruence.
Qed.

Lemma approval_is_never_awaited_witness :
  status (new_agent "planner") <> WAITING_FOR_APPROVAL
  /\ after_start (fun b => status b <> WAITING_FOR_APPROVAL
                           /\ approveArtifact true b = None)
                 (start no_eval (Some planner_config) [] (Some interactive)
                        interactive_schedule (new_agent "planner")).
Proof.
  split; [discriminate|].
  apply (approval_is_never_awaited no_eval (Some planner_config) [] (Some interactive)
           interactive_schedule (new_agent "planner") LoadingWorkflow true).
  discriminate.
Defined.

Lemma Pc_eq_dec (p q : Pc) : {p = q} + {p <> q}.
Proof. decide equality. Qed.

(** ** Sending on a closed socket *)

Lemma send_closed m a : ws_open a = false -> sendA2AMessage m a = a.
Proof. intros H. unfold sendA2AMessage. rewrite H. reflexivity. Qed.

Lemma report_steps_closed reported : forall a,
  ws_open a = false -> fold_left report_step reported a = a.
Proof.
  induction reported as [|r reported IH]; intros a H; [reflexivity|].
  cbn [fold_left]. unfold report_step at 2. rewrite send_closed by exact H. apply IH, H.
Qed.

Lemma after_loop_closed a : ws_open a = false -> quiet_since a (after_loop a).
Proof.
  intros H. unfold after_loop. destruct (goalAchieved a); [|split; [exact H|reflexivity]].
  rewrite send_closed by exact H. split; [exact H|reflexivity].
Qed.

Lemma enter_loop_closed fuel : forall a a' pc,
  ws_open a = false -> enter_loop fuel a = Some (a', pc) -> quiet_since a a'.
Proof.
  induction fuel as [|fuel IH]; intros a a' pc H; cbn [enter_loop];
    (destruct (goalAchieved a || status_eqb (status a) ERROR);
     [intros [= <- <-]; apply after_loop_closed; exact H|]);
    (destruct (status_eqb (status a) WAITING_FOR_USER);
     [intros [= <- <-]; split; [exact H|reflexivity]|]);
    (destruct (status_eqb (status a) WAITING_FOR_APPROVAL);
     [intros [= <- <-]; split; [exact H|reflexivity]|]);
    (destruct (negb (status_eqb (status a) RUNNING));
     [intros [= <- <-]; split; [exact H|reflexivity]|]);
    (destruct (executionMode a); [intros [= <- <-]; split; [exact H|reflexivity]|]);
    (destruct (askedForInitialInput a); [intros [= <- <-]; split; [exact H|reflexivity]|]);
    (destruct (userMessages a); [|intros [= <- <-]; split; [exact H|reflexivity]]).
  - discriminate.
  - intros E. unfold ask_initial_input in E. rewrite send_closed in E by exact H.
    apply IH in E; [|exact H]. exact E.
Qed.

Lemma pass_settled_closed eval fuel o a a' pc :
  ws_open a = false -> pass_settled eval fuel o a = Some (a', pc) -> quiet_since a a'.
Proof.
  intros H. destruct o as [reported context|reported message]; cbn [pass_settled];
    rewrite (report_steps_closed reported a H).
  - match goal with |- context [executionMode ?x] => destruct (executionMode x) end.
    + rewrite send_closed by exact H. intros [= <- <-]. split; [exact H|reflexivity].
    + match goal with |- context [goalAchieved ?x] => destruct (goalAchieved x) end.
      * rewrite send_closed by exact H. intros E.
        apply enter_loop_closed in E; [exact E | exact H].
      * rewrite send_closed by exact H. intros [= <- <-]. split; [exact H|reflexivity].
  - rewrite send_closed by exact H. intros [= <- <-]. split; [exact H|reflexivity].
Qed.

Lemma step_closed eval e a pc a' pc' :
  ws_open a = false -> e <> SocketOpened ->
  step eval e (a, pc) = Some (a', pc') -> quiet_since a a'.
Proof.
  intros H He. destruct e; try congruence; cbn [step].
  - destruct pc; try (intros [= <- <-]; split; [exact H|reflexivity]).
    intros E. apply enter_loop_closed in E; [|destruct saved; exact H].
    destruct saved; exact E.
  - destruct pc; try (intros [= <- <-]; split; [exact H|reflexivity]).
    apply enter_loop_closed, H.
  - destruct pc; try (intros [= <- <-]; split; [exact H|reflexivity]).
    apply pass_settled_closed, H.
  - intros [= <- <-]. unfold handleA2AMessage. destruct (msg_type message);
      try (split; [exact H|reflexivity]).
    destruct (truthy _); split; try exact H; reflexivity.
  - intros [= <- <-]. unfold sendUserMessage. destruct (status_eqb _ _);
      split; try exact H; reflexivity.
  - intros [= <- <-]. unfold approveArtifact. destruct (negb _);
      [split; [exact H|reflexivity]|].
    destruct approved; split; try exact H; reflexivity.
  - intros [= <- <-]. split; [exact H|reflexivity].
  - intros [= <- <-]. unfold resume. destruct (status_eqb _ _);
      split; try exact H; reflexivity.
  - intros [= <- <-]. split; [exact H|reflexivity].
Qed.

(** X8. An agent whose socket is not open sends nothing: as long as the
    socket is not opened, every message of the run (start, progress,
    completion, error) is dropped, while the run goes on and ends as usual. *)
Theorem closed_socket_sends_nothing :
  forall (agent_eval : string -> BaseAgent -> option Value) (events : list Event)
         (a : BaseAgent) (pc : Pc),
    ws_open a = false -> socket_stays_closed events = true ->
    after_run (fun a' => ws_open a' = false /\ outbox a' = outbox a)
              (run_events agent_eval events a pc).
Proof.
  intros agent_eval events. induction events as [|e events IH]; intros a pc H Hc.
  - destruct pc; cbn; (split; [exact H|reflexivity]).
  - cbn [socket_stays_closed forallb] in Hc. apply andb_true_iff in Hc as [He Hc].
    assert (Hne : e <> SocketOpened) by (intros ->; discriminate).
    destruct pc; cbn [run_events];
      try (cbn; split; [exact H|reflexivity]);
      match goal with |- context [step agent_eval e ?st] =>
        destruct (step_total agent_eval e st) as [[a1 p1] H1]; rewrite H1;
        destruct (step_closed agent_eval e _ _ _ _ H Hne H1) as [Hw Ho];
        specialize (IH a1 p1 Hw Hc);
        destruct (run_events agent_eval events a1 p1); cbn in IH |- *;
        [destruct IH as [Hw' Ho']; split; [exact Hw' | congruence] ..| exact IH]
      end.
Qed.

Lemma closed_socket_sends_nothing_witness :
  after_run (fun a' => ws_open a' = false /\ outbox a' = [])
            (run_events no_eval (settling_schedule "planner")
                        (set_status RUNNING (new_agent "planner")) LoadingWorkflow).
Proof.
  apply (closed_socket_sends_nothing no_eval (settling_schedule "planner")
           (set_status RUNNING (new_agent "planner")) LoadingWorkflow); reflexivity.
Defined.

(** ** The request for initial input *)

Lemma budget_send m a :
  is_question m = false ->
  question_budget (sendA2AMessage m a) = question_budget a.
Proof.
  intros H. unfold sendA2AMessage. destruct (ws_open a); [|reflexivity].
  unfold question_budget, questions_sent. cbn.
  rewrite List.filter_app, length_app. cbn. rewrite H. cbn. lia.
Qed.

Lemma budget_report_steps reported : forall a,
  question_budget (fold_left report_step reported a) = question_budget a.
Proof.
  induction reported as [|r reported IH]; intros a; [reflexivity|].
  cbn [fold_left]. rewrite IH. apply budget_send. reflexivity.
Qed.

Lemma budget_after_loop a : question_budget (after_loop a) = question_budget a.
Proof.
  unfold after_loop. destruct (goalAchieved a); [|reflexivity].
  rewrite budget_send by reflexivity. reflexivity.
Qed.

Lemma budget_ask a :
  askedForInitialInput a = false ->
  question_budget (ask_initial_input a) <= question_budget a.
Proof.
  intros H. unfold ask_initial_input, sendA2AMessage. cbn.
  destruct (ws_open a); unfold question_budget, questions_sent; cbn; rewrite H.
  - rewrite List.filter_app, length_app. cbn. lia.
  - lia.
Qed.

Lemma budget_begin a : question_budget (begin_iteration a) = question_budget a.
Proof. reflexivity. Qed.

Lemma enter_loop_budget fuel : forall a a' pc,
  enter_loop fuel a = Some (a', pc) -> question_budget a' <= question_budget a.
Proof.
  induction fuel as [|fuel IH]; intros a a' pc; cbn [enter_loop];
    (destruct (goalAchieved a || status_eqb (status a) ERROR);
     [intros [= <- <-]; rewrite budget_after_loop; lia|]);
    (destruct (status_eqb (status a) WAITING_FOR_USER); [intros [= <- <-]; lia|]);
    (destruct (status_eqb (status a) WAITING_FOR_APPROVAL); [intros [= <- <-]; lia|]);
    (destruct (negb (status_eqb (status a) RUNNING)); [intros [= <- <-]; lia|]);
    (destruct (executionMode a); [intros [= <- <-]; rewrite budget_begin; lia|]);
    (destruct (askedForInitialInput a) eqn:Ha;
     [intros [= <- <-]; rewrite budget_begin; lia|]);
    (destruct (userMessages a); [|intros [= <- <-]; rewrite budget_begin; lia]).
  - discriminate.
  - intros E. apply IH in E. pose proof (budget_ask a Ha). lia.
Qed.

Lemma pass_settled_budget eval fuel o a a' pc :
  pass_settled eval fuel o a = Some (a', pc) -> question_budget a' <= question_budget a.
Proof.
  destruct o as [reported context|reported message]; cbn [pass_settled].
  - match goal with |- context [executionMode ?x] => destruct (executionMode x) end.
    + intros [= <- <-]. rewrite budget_send.
      * change (question_budget (fold_left report_step reported a) <= question_budget a).
        rewrite budget_report_steps. lia.
      * cbn. rewrite EngineFacts.append_cons. reflexivity.
    + match goal with |- context [goalAchieved ?x] => destruct (goalAchieved x) end.
      * intros E. apply enter_loop_budget in E. rewrite budget_send in E by reflexivity.
        change (question_budget a' <= question_budget (fold_left report_step reported a)) in E.
        rewrite budget_report_steps in E. exact E.
      * intros [= <- <-]. rewrite budget_send.
        -- change (question_budget (fold_left report_step reported a) <= question_budget a).
           rewrite budget_report_steps. lia.
        -- cbn. rewrite EngineFacts.append_cons. reflexivity.
  - intros [= <- <-]. rewrite budget_send by reflexivity.
    change (question_budget (fold_left report_step reported a) <= question_budget a).
    rewrite budget_report_steps. lia.
Qed.

Lemma step_budget eval e a pc a' pc' :
  step eval e (a, pc) = Some (a', pc') -> question_budget a' <= question_budget a.
Proof.
  destruct e; cbn [step].
  - destruct pc; try (intros [= <- <-]; lia).
    intros E. apply enter_loop_budget in E. destruct saved; exact E.
  - destruct pc; try (intros [= <- <-]; lia). apply enter_loop_budget.
  - destruct pc; try (intros [= <- <-]; lia). apply pass_settled_budget.
  - intros [= <- <-]. budget_same.
  - intros [= <- <-]. unfold handleA2AMessage. destruct (msg_type message); try budget_same.
    destruct (truthy _); budget_same.
  - intros [= <- <-]. unfold sendUserMessage. destruct (status_eqb _ _); budget_same.
  - intros [= <- <-]. unfold approveArtifact. destruct (negb _); [budget_same|].
    destruct approved; budget_same.
  - intros [= <- <-]. budget_same.
  - intros [= <- <-]. unfold resume. destruct (status_eqb _ _); budget_same.
  - intros [= <- <-]. budget_same.
Qed.

Lemma run_events_budget eval events : forall a a' pc,
  agent_of (run_events eval events a pc) = Some a' ->
  question_budget a' <= question_budget a.
Proof.
  induction events as [|e events IH]; intros a a' pc.
  - destruct pc; cbn; intros [= <-]; lia.
  - destruct pc; cbn [run_events]; try (cbn; intros [= <-]; lia);
      match goal with |- context [step eval e ?st] =>
        destruct (step eval e st) as [[a1 p1]|] eqn:H1; [|discriminate];
        intros E; apply IH in E; apply step_budget in H1; lia
      end.
Qed.

(** X9. The request for initial input is sent at most once in the life of
    an agent: no call of [start], whatever happens while it runs, sends it
    when it has been sent before, and a call that finds it not yet sent sends
    it at most once.  (The requests sent plus the one that may still be sent
    never grow.) *)
Theorem initial_input_is_requested_once :
  forall (agent_eval : string -> BaseAgent -> option Value)
         (config : option AgentConfig) (initialData : list (string * Value))
         (mode : option ExecutionMode) (events : list Event) (a : BaseAgent),
    after_start
      (fun a' => questions_sent a' + (if askedForInitialInput a' then 0 else 1)
                 <= questions_sent a + (if askedForInitialInput a then 0 else 1))
      (start agent_eval config initialData mode events a).
Proof.
  intros agent_eval config initialData mode events a.
  change (after_start (fun a' => question_budget a' <= question_budget a)
                      (start agent_eval config initialData mode events a)).
  unfold start, start_entry.
  destruct (status_eqb (status a) RUNNING); [cbn; lia|].
  destruct (negb (configured config)); [cbn; budget_same|].
  match goal with |- context [run_events agent_eval events ?x LoadingWorkflow] =>
    pose proof (run_events_budget agent_eval events x) as H;
    pose proof (run_events_not_stuck agent_eval events x LoadingWorkflow) as Hn;
    assert (Hx : question_budget x = question_budget a)
      by (rewrite budget_send by reflexivity; reflexivity);
    destruct (run_events agent_eval events x LoadingWorkflow) as [b rest|b pc'|] eqn:E
  end; cbn; try congruence;
    specialize (H b LoadingWorkflow); rewrite E in H; specialize (H eq_refl); lia.
Qed.

(** ** How [start] returns *)

Lemma last_sent_send t a p :
  ws_open a = true -> last_sent_type (sendA2AMessage (to_all t a p) a) = Some t.
Proof.
  intros H. unfold sendA2AMessage, last_sent_type. rewrite H. cbn.
  rewrite last_snoc. reflexivity.
Qed.

Lemma ws_open_send m a : ws_open (sendA2AMessage m a) = ws_open a.
Proof. unfold sendA2AMessage. destruct (ws_open a) eqn:E; [cbn|]; congruence. Qed.

Lemma goalAchieved_send m a : goalAchieved (sendA2AMessage m a) = goalAchieved a.
Proof. unfold sendA2AMessage. destruct (ws_open a); reflexivity. Qed.

Lemma after_loop_final a :
  goalAchieved a = true -> completed_or_in_error (after_loop a).
Proof.
  intros H. unfold after_loop. rewrite H. left. split; [|split].
  - rewrite status_send. reflexivity.
  - rewrite goalAchieved_send. exact H.
  - rewrite ws_open_send. intros Hw. apply last_sent_send. exact Hw.
Qed.

Lemma enter_loop_final fuel : forall a a' pc,
  status a <> ERROR -> enter_loop fuel a = Some (a', pc) ->
  match pc with
  | Finished => completed_or_in_error a'
  | _ => status a' <> ERROR
  end.
Proof.
  induction fuel as [|fuel IH]; intros a a' pc Hs; cbn [enter_loop];
    rewrite (proj2 (status_eqb_neq _ _) Hs), orb_false_r;
    (destruct (goalAchieved a) eqn:Hg;
     [intros [= <- <-]; apply after_loop_final; exact Hg|]);
    (destruct (status_eqb (status a) WAITING_FOR_USER); [intros [= <- <-]; exact Hs|]);
    (destruct (status_eqb (status a) WAITING_FOR_APPROVAL); [intros [= <- <-]; exact Hs|]);
    (destruct (negb (status_eqb (status a) RUNNING)); [intros [= <- <-]; exact Hs|]);
    (destruct (executionMode a); [intros [= <- <-]; exact Hs|]);
    (destruct (askedForInitialInput a); [intros [= <- <-]; exact Hs|]);
    (destruct (userMessages a); [|intros [= <- <-]; exact Hs]).
  - discriminate.
  - apply IH. unfold ask_initial_input. rewrite status_send. discriminate.
Qed.

Lemma pass_settled_final eval fuel o a a' pc :
  pass_settled eval fuel o a = Some (a', pc) ->
  match pc with
  | Finished => completed_or_in_error a'
  | _ => status a <> ERROR -> status a' <> ERROR
  end.
Proof.
  destruct o as [reported context|reported message]; cbn [pass_settled].
  - match goal with |- context [executionMode ?x] => destruct (executionMode x) end.
    + intros [= <- <-]. rewrite status_send. cbn. rewrite status_report_steps. tauto.
    + match goal with |- context [goalAchieved ?x] => destruct (goalAchieved x) end.
      * intros E. apply enter_loop_final in E.
        -- destruct pc; try exact E; intros _; exact E.
        -- rewrite status_send. discriminate.
      * intros [= <- <-]. rewrite status_send. cbn. rewrite status_report_steps. tauto.
  - intros [= <- <-]. right. split.
    + rewrite status_send. reflexivity.
    + rewrite ws_open_send. intros Hw. apply last_sent_send. exact Hw.
Qed.

Lemma step_final eval e a pc a' pc' :
  pc <> Finished -> status a <> ERROR ->
  step eval e (a, pc) = Some (a', pc') ->
  match pc' with
  | Finished => completed_or_in_error a'
  | _ => status a' <> ERROR
  end.
Proof.
  intros Hp Hs.
  assert (Hk : forall b, status b <> ERROR -> Some (b, pc) = Some (a', pc') ->
                         match pc' with
                         | Finished => completed_or_in_error a'
                         | _ => status a' <> ERROR
                         end).
  { intros b Hb [= <- <-]. destruct pc; try congruence; exact Hb. }
  destruct e; cbn [step].
  - destruct pc; try (apply Hk; exact Hs).
    apply enter_loop_final. destruct saved; exact Hs.
  - destruct pc; try (apply Hk; exact Hs). apply enter_loop_final. exact Hs.
  - destruct pc; try (apply Hk; exact Hs).
    intros E. apply pass_settled_final in E. destruct pc'; try exact E; apply E; exact Hs.
  - apply Hk. exact Hs.
  - apply Hk. rewrite status_handleA2AMessage. exact Hs.
  - apply Hk. unfold sendUserMessage. destruct (status_eqb _ _); [discriminate | exact Hs].
  - apply Hk. unfold approveArtifact. destruct (negb _); [exact Hs|].
    destruct approved; discriminate.
  - apply Hk. discriminate.
  - apply Hk. unfold resume. destruct (status_eqb _ _); [discriminate | exact Hs].
  - apply Hk. discriminate.
Qed.

Lemma run_events_final eval events : forall a a' pc rest,
  pc <> Finished -> status a <> ERROR ->
  run_events eval events a pc = Settled a' rest -> completed_or_in_error a'.
Proof.
  induction events as [|e events IH]; intros a a' pc rest Hp Hs.
  - destruct pc; try congruence; discriminate.
  - assert (E : run_events eval (e :: events) a pc
                = match step eval e (a, pc) with
                  | Some (a1, p1) => run_events eval events a1 p1
                  | None => Stuck
                  end).
    { destruct pc; try congruence; reflexivity. }
    rewrite E. destruct (step eval e (a, pc)) as [[a1 p1]|] eqn:H1; [|discriminate].
    pose proof (step_final eval e a pc a1 p1 Hp Hs H1) as Hf.
    destruct (Pc_eq_dec p1 Finished) as [->|Hp1].
    + assert (E' : run_events eval events a1 Finished = Settled a1 events)
        by (destruct events; reflexivity).
      rewrite E'. intros [= <- <-]. exact Hf.
    + apply IH; [exact Hp1|]. destruct p1; try congruence; exact Hf.
Qed.

Lemma start_returned_final eval config initialData mode events a b rest :
  status a <> RUNNING ->
  start eval config initialData mode events a = StartReturned b rest ->
  completed_or_in_error b.
Proof.
  intros Hs. unfold start, start_entry. rewrite (proj2 (status_eqb_neq _ _) Hs).
  destruct (configured config); cbn [negb]; [|discriminate].
  match goal with |- context [run_events eval events ?x LoadingWorkflow] =>
    pose proof (run_events_final eval events x) as H;
    destruct (run_events eval events x LoadingWorkflow) as [b' rest'|b' pc'|] eqn:E
  end; try discriminate.
  intros [= <- <-]. apply (H b' LoadingWorkflow rest'); [discriminate| |exact E].
  rewrite status_send. discriminate.
Qed.

(** X10. [start] on an agent that is not running either throws, which it
    does only when no scenario is configured and then before anything is
    sent, or returns only once the run is over: the agent is then completed
    with the goal flag set, or in error, and on an open socket the last
    message it has sent is [agent_complete], respectively [agent_error].  An
    error of a pass never leaves [start]. *)
Theorem start_returns_completed_or_in_error :
  forall (agent_eval : string -> BaseAgent -> option Value)
         (config : option AgentConfig) (initialData : list (string * Value))
         (mode : option ExecutionMode) (events : list Event) (a : BaseAgent),
    status a <> RUNNING ->
    match start agent_eval config initialData mode events a with
    | StartThrew message b =>
        configured config = false /\ message = scenario_missing (type a)
        /\ outbox b = outbox a /\ status b = status a
    | StartReturned b rest =>
        configured config = true
        /\ ((status b = COMPLETED /\ goalAchieved b = true
             /\ (ws_open b = true -> last_sent_type b = Some AGENT_COMPLETE))
            \/ (status b = ERROR
                /\ (ws_open b = true -> last_sent_type b = Some AGENT_ERROR)))
    | StartPending b pc => configured config = true /\ pc <> Finished
    | StartStuck => False
    end.
Proof.
  intros agent_eval config initialData mode events a Hs.
  unfold start, start_entry. rewrite (proj2 (status_eqb_neq _ _) Hs).
  destruct (configured config); cbn [negb]; [|repeat split].
  match goal with |- context [run_events agent_eval events ?x LoadingWorkflow] =>
    pose proof (run_events_final agent_eval events x) as H;
    pose proof (run_events_not_stuck agent_eval events x LoadingWorkflow) as Hn;
    destruct (run_events agent_eval events x LoadingWorkflow) as [b rest|b pc'|] eqn:E
  end.
  - split; [reflexivity|]. apply (H b LoadingWorkflow rest); [discriminate| |exact E].
    rewrite status_send. discriminate.
  - split; [reflexivity|]. intros ->. clear -E.
    revert E. generalize LoadingWorkflow. 
    match goal with |- forall p, run_events _ _ ?x p = _ -> _ => generalize x end.
    induction events as [|e events IH]; intros x p; destruct p; cbn [run_events];
      try discriminate;
      match goal with |- context [step agent_eval e ?st] =>
        destruct (step agent_eval e st) as [[a1 p1]|]; [apply IH | discriminate]
      end.
  - congruence.
Qed.

Lemma start_returns_completed_or_in_error_witness :
  status (new_agent "planner") <> RUNNING
  /\ exists b,
      start no_eval (Some planner_config) [] None (settling_schedule "planner")
            (set_ws_open true (new_agent "planner")) = StartReturned b []
      /\ status b = COMPLETED /\ last_sent_type b = Some AGENT_COMPLETE.
Proof.
  split; [discriminate|].
  pose proof (start_returns_completed_or_in_error no_eval (Some planner_config) [] None
                (settling_schedule "planner") (set_ws_open true (new_agent "planner"))) as H.
  vm_compute in H. vm_compute. eexists. split; [reflexivity|].
  specialize (H ltac:(discriminate)). destruct H as [_ [(H1 & _ & H2)|(H1 & _)]].
  - split; [exact H1 | exact (H2 eq_refl)].
  - discriminate H1.
Defined.

(** ** [stop] while a pass executes *)

Lemma goalAchieved_report_steps reported : forall a,
  goalAchieved (fold_left report_step reported a) = goalAchieved a.
Proof.
  induction reported as [|r reported IH]; intros a; [reflexivity|].
  cbn [fold_left]. rewrite IH. apply goalAchieved_send.
Qed.

Lemma completions_send m a :
  o_type m = AGENT_PROGRESS ->
  sent_of_type AGENT_COMPLETE (sendA2AMessage m a) = sent_of_type AGENT_COMPLETE a.
Proof.
  intros H. unfold sent_of_type, sendA2AMessage. destruct (ws_open a); [|reflexivity].
  cbn. rewrite List.filter_app. cbn. rewrite H. apply app_nil_r.
Qed.

Lemma completions_report_steps reported : forall a,
  sent_of_type AGENT_COMPLETE (fold_left report_step reported a)
  = sent_of_type AGENT_COMPLETE a.
Proof.
  induction reported as [|r reported IH]; intros a; [reflexivity|].
  cbn [fold_left]. rewrite IH. apply completions_send. reflexivity.
Qed.

(** X11. A [stop] called while a pass executes is lost when the pass does
    not reach the goal: the goal flag [stop] has set is overwritten by the
    goal check after the pass, the status stays idle, and the loop sleeps for
    ever: [run] does not end and nothing is sent after the progress message
    of that iteration. *)
Theorem stop_during_a_pass_is_lost :
  forall (agent_eval : string -> BaseAgent -> option Value) (a : BaseAgent)
         (reported : list ReAct.ReActStep) (context : WorkflowExecutionContext) (n : nat),
    checkGoalAchievement agent_eval
      (set_executionContext context (fold_left report_step reported (stop a))) = false ->
    exists a',
      run_events agent_eval
                 (CallStop :: PassSettled (PassDone reported context) :: repeat TimerFired n)
                 a Executing
      = Pending a' Sleeping
      /\ status a' = IDLE /\ goalAchieved a' = false
      /\ sent_of_type AGENT_COMPLETE a' = sent_of_type AGENT_COMPLETE a.
Proof.
  intros agent_eval a reported context n Hc.
  cbn [run_events step pass_settled]. rewrite Hc.
  set (a3 := set_goalAchieved false
               (set_executionContext context (fold_left report_step reported (stop a)))).
  set (m := to_all AGENT_PROGRESS a3 _).
  assert (E : match executionMode a3, goalAchieved a3 with
              | interactive, true =>
                  enter_loop 2
                    (sendA2AMessage
                       (to_all AGENT_PROGRESS
                          (set_status WAITING_FOR_APPROVAL
                             (set_artifactForApproval
                                (variable "output" (executionContext a3)) a3))
                          (mkPayload (Some "Task completed. Please review the artifact.")
                             (VObj [("status", VStr "waiting_for_approval");
                                    ("artifact",
                                     artifactForApproval
                                       (set_status WAITING_FOR_APPROVAL
                                          (set_artifactForApproval
                                             (variable "output" (executionContext a3)) a3)))])
                             VUndef None))
                       (set_status WAITING_FOR_APPROVAL
                          (set_artifactForApproval
                             (variable "output" (executionContext a3)) a3)))
              | _, _ => Some (sendA2AMessage m a3, Sleeping)
              end = Some (sendA2AMessage m a3, Sleeping)).
  { destruct (executionMode a3); reflexivity. }
  rewrite E. exists (sendA2AMessage m a3).
  assert (Hst : status (sendA2AMessage m a3) = IDLE).
  { rewrite status_send. subst a3. cbn. rewrite status_report_steps. reflexivity. }
  assert (Hg : goalAchieved (sendA2AMessage m a3) = false).
  { rewrite goalAchieved_send. reflexivity. }
  split; [|split; [exact Hst|split; [exact Hg|]]].
  - apply timers_while_suspended; [exact Hg | rewrite Hst; discriminate ..].
  - rewrite completions_send by reflexivity.
    change (sent_of_type AGENT_COMPLETE (fold_left report_step reported (stop a))
            = sent_of_type AGENT_COMPLETE a).
    rewrite completions_report_steps. reflexivity.
Qed.

Lemma stop_during_a_pass_is_lost_witness :
  exists a',
    run_events no_eval
               (CallStop :: PassSettled (PassDone [] (mkContext [] 1 [] [] []))
                         :: repeat TimerFired 4)
               (set_status RUNNING (new_agent "planner")) Executing
    = Pending a' Sleeping
    /\ status a' = IDLE /\ goalAchieved a' = false
    /\ sent_of_type AGENT_COMPLETE a' = [].
Proof.
  apply (stop_during_a_pass_is_lost no_eval (set_status RUNNING (new_agent "planner")) []
           (mkContext [] 1 [] [] []) 4).
  reflexivity.
Defined.

(** ** Artifacts from one agent to the next *)

(** X12. The path of the artifact an agent announces with its completion is
    what a data access node with the source [artifact:] followed by the name of that
    agent reads in the agent that has received the completion; a later
    completion of the same sender replaces the path, and a completion without
    a path changes nothing. *)
Theorem announced_artifact_is_read_by_data_access :
  forall (a : BaseAgent) (message : A2AMessage) (node : WorkflowNode),
    msg_type message = AGENT_COMPLETE ->
    dataSource (config node) = Some ("artifact:" +:+ msg_from message) ->
    let a' := handleA2AMessage message a in
    (truthy (p_artifactPath (msg_payload message)) = true ->
     Engine.executeDataAccess node (executionContext a')
     = Engine.NodeReturn (VStr (to_string (p_artifactPath (msg_payload message))))
                         (executionContext a'))
    /\ (truthy (p_artifactPath (msg_payload message)) = false -> a' = a).
Proof.
  intros a message node Ht Hsrc. cbn zeta. unfold handleA2AMessage. rewrite Ht. split.
  - intros Hp. rewrite Hp. unfold Engine.executeDataAccess. rewrite Hsrc.
    change (is_empty ("artifact:" +:+ msg_from message)) with false. cbn iota.
    rewrite (EngineFacts.startsWith_app "artifact:" (msg_from message)).
    change (substring_from 9 ("artifact:" +:+ msg_from message)) with (msg_from message).
    cbn [executionContext set_executionContext previousArtifacts].
    rewrite BusFacts.omap_get_set_eq. reflexivity.
  - intros Hp. rewrite Hp. reflexivity.
Qed.

Lemma announced_artifact_is_read_by_data_access_witness :
  Engine.executeDataAccess read_planner_artifact
    (executionContext (handleA2AMessage planner_saved (new_agent "artist")))
  = Engine.NodeReturn (VStr "artifacts/planner/gdd.md")
      (executionContext (handleA2AMessage planner_saved (new_agent "artist"))).
Proof.
  destruct (announced_artifact_is_read_by_data_access (new_agent "artist") planner_saved
              read_planner_artifact eq_refl eq_refl) as [H _].
  apply H. reflexivity.
Defined.

End AgentExtra.
(* ===================================================================== *)
(** * More on the message bus *)
(* ===================================================================== *)

Module BusExtra.

Import JS Types Bus BusRun BusFacts Examples MoreExamples.

(** ** Insertion-ordered maps *)

Lemma omap_get_set_neq {A} k k' (v : A) m :
  k <> k' -> omap_get k' (omap_set k v m) = omap_get k' m.
Proof.
  intros Hne. induction m as [|[k0 v0] m IH]; cbn [omap_set omap_get].
  - apply String.eqb_neq in Hne. rewrite Hne. reflexivity.
  - destruct (String.eqb k0 k) eqn:E; cbn [omap_get].
    + apply String.eqb_eq in E. subst k0. apply String.eqb_neq in Hne. rewrite Hne.
      reflexivity.
    + rewrite IH. reflexivity.
Qed.

Lemma omap_get_delete {A} k k' (m : list (string * A)) :
  omap_get k' (omap_delete k m) = if String.eqb k k' then None else omap_get k' m.
Proof.
  induction m as [|[k0 v0] m IH]; cbn [omap_delete omap_get].
  - destruct (String.eqb k k'); reflexivity.
  - destruct (String.eqb k0 k) eqn:E.
    + rewrite IH. apply String.eqb_eq in E. subst k0.
      destruct (String.eqb k k'); reflexivity.
    + cbn [omap_get]. destruct (String.eqb k0 k') eqn:E'.
      * apply String.eqb_eq in E'. subst k0. rewrite String.eqb_sym, E. reflexivity.
      * exact IH.
Qed.

Lemma omap_get_In {A} k (v : A) m : omap_get k m = Some v -> In k (omap_keys m).
Proof.
  induction m as [|[k0 v0] m IH]; cbn [omap_get omap_keys List.map fst]; [discriminate|].
  destruct (String.eqb k0 k) eqn:E.
  - apply String.eqb_eq in E. intros _. left. exact E.
  - intros H. right. apply IH, H.
Qed.

Lemma omap_keys_set {A} k (v : A) m :
  forall x, In x (omap_keys (omap_set k v m)) <-> x = k \/ In x (omap_keys m).
Proof.
  intros x. induction m as [|[k0 v0] m IH]; cbn [omap_set omap_keys List.map fst In].
  - intuition congruence.
  - destruct (String.eqb k0 k) eqn:E; cbn [omap_keys List.map fst In].
    + apply String.eqb_eq in E. subst k0. intuition congruence.
    + unfold omap_keys in IH. rewrite IH. intuition congruence.
Qed.

Lemma omap_set_NoDup {A} k (v : A) m :
  List.NoDup (omap_keys m) -> List.NoDup (omap_keys (omap_set k v m)).
Proof.
  induction m as [|[k0 v0] m IH]; cbn [omap_set omap_keys List.map fst]; intros H.
  - constructor; [intros []|constructor].
  - inversion H as [|x l Hx Hl]; subst.
    destruct (String.eqb k0 k) eqn:E; cbn [omap_keys List.map fst].
    + apply String.eqb_eq in E. subst k0. constructor; assumption.
    + constructor; [|apply IH, Hl].
      intros Hin. apply (omap_keys_set k v m k0) in Hin. destruct Hin as [->|Hin].
      * rewrite String.eqb_refl in E. discriminate.
      * exact (Hx Hin).
Qed.

(** ** The registrations after a close *)

Lemma remove_first_keys c regs x :
  In x (omap_keys (remove_first_registration c regs)) -> In x (omap_keys regs).
Proof.
  induction regs as [|[a id] r IH]; cbn [remove_first_registration omap_keys List.map fst In];
    [tauto|].
  destruct (String.eqb id c); cbn [omap_keys List.map fst In]; [tauto|].
  intros [H|H]; [left; exact H | right; apply IH, H].
Qed.

Lemma remove_first_NoDup c regs :
  List.NoDup (omap_keys regs) -> List.NoDup (omap_keys (remove_first_registration c regs)).
Proof.
  induction regs as [|[a id] r IH]; cbn [remove_first_registration omap_keys List.map fst];
    intros H; [constructor|].
  inversion H as [|x l Hx Hl]; subst.
  destruct (String.eqb id c); cbn [omap_keys List.map fst]; [exact Hl|].
  constructor; [|apply IH, Hl]. intros Hin. apply Hx. eapply remove_first_keys, Hin.
Qed.

Lemma remove_first_get c regs a x :
  List.NoDup (omap_keys regs) ->
  omap_get a (remove_first_registration c regs) = Some x -> omap_get a regs = Some x.
Proof.
  induction regs as [|[a0 id] r IH]; cbn [remove_first_registration omap_keys List.map fst];
    intros H; [discriminate|].
  inversion H as [|y l Hy Hl]; subst.
  destruct (String.eqb id c); cbn [omap_get].
  - intros Hget. destruct (String.eqb a0 a) eqn:E; [|exact Hget].
    apply String.eqb_eq in E. subst a0. apply omap_get_In in Hget. contradiction.
  - destruct (String.eqb a0 a); [tauto|]. apply IH, Hl.
Qed.

Lemma omap_keys_delete {A} k (m : list (string * A)) x :
  In x (omap_keys (omap_delete k m)) -> In x (omap_keys m).
Proof.
  induction m as [|[k0 v0] m IH]; cbn [omap_delete omap_keys List.map fst In]; [tauto|].
  destruct (String.eqb k0 k); cbn [omap_keys List.map fst In]; [intros H; right; apply IH, H|].
  intros [H|H]; [left; exact H | right; apply IH, H].
Qed.

Lemma omap_delete_NoDup {A} k (m : list (string * A)) :
  List.NoDup (omap_keys m) -> List.NoDup (omap_keys (omap_delete k m)).
Proof.
  induction m as [|[k0 v0] m IH]; cbn [omap_delete omap_keys List.map fst]; intros H;
    [constructor|].
  inversion H as [|x l Hx Hl]; subst.
  destruct (String.eqb k0 k); cbn [omap_keys List.map fst]; [apply IH, Hl|].
  constructor; [|apply IH, Hl]. intros Hin. apply Hx. eapply omap_keys_delete, Hin.
Qed.

(** ** The invariant of the server *)

Lemma connected_client_spec a s c :
  connected_client a s = Some c
  <-> omap_get a (agentClients s) = Some c /\ is_empty c = false /\ has_client c s = true.
Proof.
  unfold connected_client. destruct (omap_get a (agentClients s)) as [c'|].
  - destruct (is_empty c') eqn:E1; destruct (has_client c' s) eqn:E2; cbn [negb andb];
      split; try discriminate.
    all: try (intros (H & H1 & H2); injection H as ->; congruence).
    intros [= ->]. auto.
  - split; [discriminate | intros (H & _); discriminate].
Qed.

Lemma in_list_cons x c l : in_list x l = true -> in_list x (c :: l) = true.
Proof. unfold in_list. cbn. intros ->. apply orb_true_r. Qed.

Lemma filter_all {A} (f : A -> bool) l :
  (forall x, In x l -> f x = true) -> List.filter f l = l.
Proof.
  induction l as [|y l IH]; intros H; [reflexivity|]. cbn.
  rewrite (H y (or_introl eq_refl)). f_equal. apply IH. intros x Hx. apply H. right. exact Hx.
Qed.

Lemma filter_none {A} (f : A -> bool) l :
  (forall x, In x l -> f x = false) -> List.filter f l = [].
Proof.
  induction l as [|y l IH]; intros H; [reflexivity|]. cbn.
  rewrite (H y (or_introl eq_refl)). apply IH. intros x Hx. apply H. right. exact Hx.
Qed.

Lemma addressed_to_app a l1 l2 :
  addressed_to a (l1 ++ l2) = addressed_to a l1 ++ addressed_to a l2.
Proof. apply List.filter_app. Qed.

Lemma addressed_to_length a l : length (addressed_to a l) <= length l.
Proof. apply List.filter_length_le. Qed.

(** What a buffer holds is addressed to its agent. *)
Lemma buffered_addressed a t m :
  consistent t -> In a agentTypes -> In m (buffered a (server t)) -> msg_to m = a.
Proof.
  intros Hc Ha Hm. pose proof (conserved t Hc a Ha) as H.
  assert (Hin : In m (addressed_to a (routed t))).
  { rewrite <- H. apply in_or_app. right. exact Hm. }
  apply List.filter_In in Hin. apply String.eqb_eq, Hin.
Qed.

Lemma directly_sent_to c ms a s s' :
  sent s' = sent s ++ List.map (fun m => (c, m)) ms ->
  directly_sent a s' = directly_sent a s ++ addressed_to a ms.
Proof.
  intros H. unfold directly_sent. rewrite H, List.map_app, addressed_to_app.
  rewrite List.map_map. cbn [snd]. rewrite List.map_id. reflexivity.
Qed.

Lemma consistent_initial : consistent initial_trace.
Proof.
  constructor; cbn [initial_trace server used routed].
  - intros a. unfold new_server. cbn [messageQueue].
    rewrite !lookup_insert_is_Some, lookup_empty. unfold agentTypes. cbn [In].
    split.
    + intros [<-|[<-|[<-|[]]]]; [right; split; [discriminate|right; split; [discriminate|left; reflexivity]]
                                 |right; split; [discriminate|left; reflexivity]
                                 |left; reflexivity].
    + intros [H|[_ [H|[_ [H|[_ H]]]]]]; [auto ..|destruct H; discriminate].
  - discriminate.
  - discriminate.
  - constructor.
  - constructor.
  - intros a c H. apply connected_client_spec in H. destruct H as (H & _). discriminate.
  - intros a Ha. destruct (new_server_buffers a Ha) as [H _].
    unfold directly_sent, buffered. rewrite H. reflexivity.
Qed.

(** Events that touch neither the clients, the registrations, the buffers
    nor what has been sent. *)
Lemma consistent_same t t' :
  consistent t ->
  used t' = used t -> routed t' = routed t ->
  clients (server t') = clients (server t) ->
  agentClients (server t') = agentClients (server t) ->
  messageQueue (server t') = messageQueue (server t) ->
  sent (server t') = sent (server t) ->
  consistent t'.
Proof.
  intros Hc Hu Hr Hcl Hag Hq Hs.
  assert (Hhas : forall c, has_client c (server t') = has_client c (server t))
    by (intros c; unfold has_client; rewrite Hcl; reflexivity).
  assert (Hcon : forall a, connected_client a (server t') = connected_client a (server t))
    by (intros a; apply connected_client_links; split; assumption).
  constructor.
  - intros a. rewrite Hq. apply (queue_names t Hc).
  - intros c. rewrite Hhas, Hu. apply (client_ids t Hc).
  - intros a c. rewrite Hag, Hu. apply (registered_ids t Hc).
  - rewrite Hag. apply (registered_once t Hc).
  - rewrite Hcl. apply (clients_once t Hc).
  - intros a c. rewrite Hcon. unfold buffered. rewrite Hq. apply (connected_unbuffered t Hc).
  - intros a Ha. unfold directly_sent, buffered. rewrite Hs, Hq, Hr.
    apply (conserved t Hc a Ha).
Qed.

Lemma consistent_connect c t :
  consistent t -> is_empty c = false -> in_list c (used t) = false ->
  consistent (mkTrace (c :: used t) (routed t) (on_connection c (server t))).
Proof.
  intros Hc Hne Hfresh.
  assert (Hhas : forall c', has_client c' (on_connection c (server t)) = true ->
                            c' = c \/ has_client c' (server t) = true).
  { intros c'. unfold has_client, on_connection. cbn [clients with_clients].
    destruct (String.string_dec c c') as [->|Hn]; [left; reflexivity|].
    rewrite omap_get_set_neq by exact Hn. right. assumption. }
  constructor; cbn [server used routed].
  - apply (queue_names t Hc).
  - intros c' H. destruct (Hhas c' H) as [->|H'].
    + split; [|exact Hne]. unfold in_list. cbn. rewrite String.eqb_refl. reflexivity.
    + destruct (client_ids t Hc c' H') as [H1 H2]. split; [apply in_list_cons, H1 | exact H2].
  - intros a c' H. apply in_list_cons. apply (registered_ids t Hc a c' H).
  - apply (registered_once t Hc).
  - apply omap_set_NoDup, (clients_once t Hc).
  - intros a c' H. apply connected_client_spec in H. destruct H as (H1 & H2 & H3).
    cbn [agentClients on_connection with_clients] in H1.
    apply (connected_unbuffered t Hc a c'). apply connected_client_spec.
    split; [exact H1|split; [exact H2|]].
    destruct (Hhas c' H3) as [->|H']; [|exact H'].
    rewrite (registered_ids t Hc a c H1) in Hfresh. discriminate.
  - apply (conserved t Hc).
Qed.

Lemma consistent_closing c t :
  consistent t -> has_client c (server t) = true ->
  consistent (mkTrace (used t) (routed t) (begin_close c (server t))).
Proof.
  intros Hc Hin.
  assert (Hhas : forall c', has_client c' (begin_close c (server t))
                            = has_client c' (server t)).
  { intros c'. unfold has_client, begin_close. cbn [clients with_clients].
    destruct (String.string_dec c c') as [<-|Hn].
    - rewrite omap_get_set_eq. unfold has_client in Hin.
      destruct (omap_get c (clients (server t))); [reflexivity|discriminate].
    - rewrite omap_get_set_neq by exact Hn. reflexivity. }
  constructor; cbn [server used routed].
  - apply (queue_names t Hc).
  - intros c'. rewrite Hhas. apply (client_ids t Hc).
  - apply (registered_ids t Hc).
  - apply (registered_once t Hc).
  - apply omap_set_NoDup, (clients_once t Hc).
  - intros a c' H. apply connected_client_spec in H. destruct H as (H1 & H2 & H3).
    rewrite Hhas in H3. apply (connected_unbuffered t Hc a c').
    apply connected_client_spec. auto.
  - apply (conserved t Hc).
Qed.

Lemma consistent_close c t :
  consistent t -> consistent (mkTrace (used t) (routed t) (on_close c (server t))).
Proof.
  intros Hc.
  assert (Hhas : forall c', has_client c' (on_close c (server t)) = true ->
                            has_client c' (server t) = true).
  { intros c'. unfold has_client, on_close. cbn [clients with_clients with_agentClients].
    rewrite omap_get_delete. destruct (String.eqb c c'); [discriminate | tauto]. }
  constructor; cbn [server used routed].
  - apply (queue_names t Hc).
  - intros c' H. apply (client_ids t Hc), Hhas, H.
  - intros a c' H. cbn [on_close agentClients with_agentClients] in H.
    apply remove_first_get in H; [|apply (registered_once t Hc)].
    apply (registered_ids t Hc a c' H).
  - cbn [on_close agentClients with_agentClients]. apply remove_first_NoDup.
    apply (registered_once t Hc).
  - apply omap_delete_NoDup, (clients_once t Hc).
  - intros a c' H. apply connected_client_spec in H. destruct H as (H1 & H2 & H3).
    cbn [on_close agentClients with_agentClients] in H1.
    apply remove_first_get in H1; [|apply (registered_once t Hc)].
    apply (connected_unbuffered t Hc a c'). apply connected_client_spec.
    split; [exact H1|split; [exact H2|apply Hhas, H3]].
  - apply (conserved t Hc).
Qed.

Lemma register_fields a cid q s fuel :
  is_empty a = false -> is_empty cid = false -> has_client cid s = true ->
  messageQueue s !! a = Some q -> length q <= fuel ->
  exists s', handleMessage fuel cid (Register a) s = Some s'
    /\ clients s' = clients s
    /\ agentClients s' = omap_set a cid (agentClients s)
    /\ sent s' = sent s ++ List.map (fun m => (cid, m)) q
    /\ messageQueue s' = <[a := []]> (messageQueue s).
Proof.
  intros Ha Hcid Hhas Hq Hlen. cbn [handleMessage]. rewrite Ha.
  set (s1 := with_agentClients (omap_set a cid (agentClients s)) s).
  assert (Hcon : connected_client a s1 = Some cid).
  { apply connected_client_spec. unfold s1. cbn. rewrite omap_get_set_eq. auto. }
  unfold sendQueuedMessages. change (messageQueue s1) with (messageQueue s). rewrite Hq.
  destruct q as [|m q].
  - cbn. exists s1. rewrite app_nil_r. repeat split.
    symmetry. apply insert_id. exact Hq.
  - cbn [length Nat.ltb Nat.leb].
    rewrite (deliver_queue_connected a cid fuel 0 s1 (m :: q) Hcon Hq) by (cbn in *; lia).
    eexists. split; [reflexivity|]. cbn [drop]. repeat split.
Qed.

Lemma register_unbuffered a cid s fuel :
  is_empty a = false -> messageQueue s !! a = None ->
  handleMessage fuel cid (Register a) s
  = Some (with_agentClients (omap_set a cid (agentClients s)) s).
Proof.
  intros Ha Hq. cbn [handleMessage]. rewrite Ha. unfold sendQueuedMessages.
  cbn [messageQueue with_agentClients]. rewrite Hq. reflexivity.
Qed.

Lemma addressed_to_all a l :
  (forall m, In m l -> msg_to m = a) -> addressed_to a l = l.
Proof. intros H. apply filter_all. intros m Hm. apply String.eqb_eq, H, Hm. Qed.

Lemma addressed_to_none a l :
  (forall m, In m l -> msg_to m <> a) -> addressed_to a l = [].
Proof. intros H. apply filter_none. intros m Hm. apply String.eqb_neq, H, Hm. Qed.

Lemma consistent_register a c t s' :
  consistent t -> is_empty a = false -> has_client c (server t) = true ->
  clients s' = clients (server t) ->
  agentClients s' = omap_set a c (agentClients (server t)) ->
  sent s' = sent (server t) ++ List.map (fun m => (c, m)) (buffered a (server t)) ->
  messageQueue s' = match messageQueue (server t) !! a with
                    | Some _ => <[a := []]> (messageQueue (server t))
                    | None => messageQueue (server t)
                    end ->
  consistent (mkTrace (used t) (routed t) s').
Proof.
  intros Hc Ha Hhas Hcl Hag Hs Hq.
  assert (Hhas' : forall c', has_client c' s' = has_client c' (server t))
    by (intros c'; unfold has_client; rewrite Hcl; reflexivity).
  assert (Hbuf : forall a', a' <> a -> buffered a' s' = buffered a' (server t)).
  { intros a' Hn. unfold buffered. rewrite Hq.
    destruct (messageQueue (server t) !! a); [|reflexivity].
    rewrite lookup_insert_ne by congruence. reflexivity. }
  assert (Hbuf0 : buffered a s' = []).
  { unfold buffered. rewrite Hq.
    destruct (messageQueue (server t) !! a) eqn:E; [rewrite lookup_insert_eq|rewrite E];
      reflexivity. }
  constructor; cbn [server used routed].
  - intros a'. rewrite Hq. rewrite (queue_names t Hc a').
    destruct (messageQueue (server t) !! a) eqn:E; [|reflexivity].
    rewrite lookup_insert_is_Some.
    destruct (String.string_dec a a') as [<-|Hn].
    + rewrite E. split; [left; reflexivity | intros _; eexists; reflexivity].
    + split; [intros H; right; split; assumption | intros [H|[_ H]]; [contradiction|exact H]].
  - intros c'. rewrite Hhas'. apply (client_ids t Hc).
  - intros a' c'. rewrite Hag.
    destruct (String.string_dec a a') as [<-|Hn].
    + rewrite omap_get_set_eq. intros [= <-]. apply (client_ids t Hc c Hhas).
    + rewrite omap_get_set_neq by exact Hn. apply (registered_ids t Hc).
  - rewrite Hag. apply omap_set_NoDup, (registered_once t Hc).
  - rewrite Hcl. apply (clients_once t Hc).
  - intros a' c' H. destruct (String.string_dec a' a) as [->|Hn]; [exact Hbuf0|].
    rewrite Hbuf by exact Hn. apply (connected_unbuffered t Hc a' c').
    apply connected_client_spec in H. destruct H as (H1 & H2 & H3).
    apply connected_client_spec. rewrite Hag, omap_get_set_neq in H1 by congruence.
    rewrite Hhas' in H3. auto.
  - intros a' Ha'. rewrite (directly_sent_to c (buffered a (server t)) a' (server t) s' Hs).
    destruct (String.string_dec a' a) as [->|Hn].
    + rewrite Hbuf0, app_nil_r.
      rewrite (addressed_to_all a (buffered a (server t))).
      * apply (conserved t Hc a Ha').
      * intros m Hm. eapply buffered_addressed; eassumption.
    + rewrite Hbuf by exact Hn.
      rewrite (addressed_to_none a' (buffered a (server t))).
      * rewrite app_nil_r. apply (conserved t Hc a' Ha').
      * intros m Hm. unfold buffered in Hm.
        destruct (messageQueue (server t) !! a) as [q|] eqn:E; [|destruct Hm].
        assert (Hin : In a agentTypes) by (apply (queue_names t Hc); eexists; exact E).
        rewrite (buffered_addressed a t m Hc Hin); [congruence|].
        unfold buffered. rewrite E. exact Hm.
Qed.

(** ** Routing *)

Lemma routeMessage_fields m s :
  clients (routeMessage m s) = clients s
  /\ agentClients (routeMessage m s) = agentClients s.
Proof.
  unfold routeMessage, broadcast, deliverMessage.
  destruct (String.eqb (msg_to m) "all"); [split; reflexivity|].
  destruct (connected_client (msg_to m) s); split; reflexivity.
Qed.

Lemma consistent_route m t :
  consistent t ->
  consistent (mkTrace (used t) (routed t ++ [m]) (routeMessage m (server t))).
Proof.
  intros Hc. destruct (routeMessage_fields m (server t)) as [Hcl Hag].
  set (s' := routeMessage m (server t)) in *.
  assert (Hhas' : forall c', has_client c' s' = has_client c' (server t))
    by (intros c'; unfold has_client; rewrite Hcl; reflexivity).
  assert (Hcon : forall a, connected_client a s' = connected_client a (server t))
    by (intros a; apply connected_client_links; split; assumption).
  assert (Hcases :
            (msg_to m = "all" /\ messageQueue s' = messageQueue (server t)
             /\ exists cs, sent s' = sent (server t) ++ List.map (fun c => (c, m)) cs)
            \/ (msg_to m <> "all" /\ messageQueue s' = messageQueue (server t)
                /\ exists c, connected_client (msg_to m) (server t) = Some c
                             /\ sent s' = sent (server t) ++ [(c, m)])
            \/ (msg_to m <> "all" /\ connected_client (msg_to m) (server t) = None
                /\ sent s' = sent (server t)
                /\ messageQueue s'
                   = alter (fun q => q ++ [m]) (msg_to m) (messageQueue (server t)))).
  { unfold s', routeMessage, broadcast, deliverMessage.
    destruct (String.eqb (msg_to m) "all") eqn:E.
    - left. apply String.eqb_eq in E. split; [exact E|split; [reflexivity|]].
      exists (List.map fst (List.filter (fun c => is_open (snd c)) (clients (server t)))).
      cbn. rewrite List.map_map. reflexivity.
    - right. apply String.eqb_neq in E.
      destruct (connected_client (msg_to m) (server t)) as [c|] eqn:Econ.
      + left. split; [exact E|split; [reflexivity|]]. exists c. split; reflexivity.
      + right. repeat split; assumption. }
  constructor; cbn [server used routed].
  - intros a. rewrite (queue_names t Hc a).
    destruct Hcases as [(_ & Hq & _)|[(_ & Hq & _)|(_ & _ & _ & Hq)]]; rewrite Hq;
      try reflexivity.
    destruct (String.string_dec (msg_to m) a) as [<-|Hn].
    + rewrite lookup_alter_eq. unfold is_Some.
      destruct (messageQueue (server t) !! msg_to m); cbn; split; intros [x H]; eauto;
        discriminate.
    + rewrite lookup_alter_ne by exact Hn. reflexivity.
  - intros c'. rewrite Hhas'. apply (client_ids t Hc).
  - intros a c'. rewrite Hag. apply (registered_ids t Hc).
  - rewrite Hag. apply (registered_once t Hc).
  - rewrite Hcl. apply (clients_once t Hc).
  - intros a c' H. rewrite Hcon in H. pose proof (connected_unbuffered t Hc a c' H) as Hb.
    unfold buffered in *.
    destruct Hcases as [(_ & Hq & _)|[(_ & Hq & _)|(_ & Hdis & _ & Hq)]]; rewrite Hq;
      try exact Hb.
    rewrite lookup_alter_ne; [exact Hb|]. intros <-. congruence.
  - intros a Ha. rewrite addressed_to_app.
    destruct (agent_type_names a Ha) as [Hall _].
    destruct Hcases as [(Hto & Hq & cs & Hs)|[(Hto & Hq & c & Hcn & Hs)|(Hto & Hdis & Hs & Hq)]].
    + assert (E : addressed_to a [m] = []).
      { cbn. rewrite Hto. destruct (String.eqb "all" a) eqn:E; [|reflexivity].
        apply String.eqb_eq in E. congruence. }
      rewrite E, app_nil_r. unfold directly_sent, buffered. rewrite Hs, Hq.
      rewrite List.map_app, addressed_to_app.
      rewrite (addressed_to_none a (List.map snd (List.map (fun c => (c, m)) cs))).
      * rewrite app_nil_r. apply (conserved t Hc a Ha).
      * intros x Hx. rewrite List.map_map in Hx. cbn in Hx. apply List.in_map_iff in Hx.
        destruct Hx as (c & <- & _). rewrite Hto. congruence.
    + rewrite (directly_sent_to c [m] a (server t) s' Hs). unfold buffered. rewrite Hq.
      fold (buffered a (server t)).
      destruct (String.string_dec (msg_to m) a) as [<-|Hn].
      * rewrite (connected_unbuffered t Hc _ c Hcn), app_nil_r.
        pose proof (conserved t Hc _ Ha) as H.
        rewrite (connected_unbuffered t Hc _ c Hcn), app_nil_r in H. rewrite H. reflexivity.
      * assert (E : addressed_to a [m] = []).
        { cbn. apply String.eqb_neq in Hn. rewrite Hn. reflexivity. }
        rewrite E, !app_nil_r. apply (conserved t Hc a Ha).
    + unfold directly_sent, buffered. rewrite Hs, Hq.
      destruct (String.string_dec (msg_to m) a) as [<-|Hn].
      * rewrite lookup_alter_eq.
        destruct (proj1 (queue_names t Hc _) Ha) as [q Eq].
        pose proof (conserved t Hc _ Ha) as H. unfold directly_sent, buffered in H.
        rewrite Eq in H |- *. cbn in H |- *. rewrite String.eqb_refl.
        rewrite app_assoc, H. reflexivity.
      * rewrite lookup_alter_ne by exact Hn.
        assert (E : addressed_to a [m] = []).
        { cbn. apply String.eqb_neq in Hn. rewrite Hn. reflexivity. }
        rewrite E, app_nil_r. apply (conserved t Hc a Ha).
Qed.

Lemma trace_eta t : mkTrace (used t) (routed t) (server t) = t.
Proof. destruct t; reflexivity. Qed.

Lemma bus_step_consistent fuel e t :
  consistent t -> length (routed t) <= fuel ->
  exists t', bus_step fuel e t = Some t' /\ consistent t'
             /\ length (routed t') <= S (length (routed t)).
Proof.
  intros Hc Hlen. destruct e as [c|c|c frame|m|h|h|c]; cbn [bus_step].
  - destruct (is_empty c) eqn:E1; cbn [orb]; [exists t; auto|].
    destruct (in_list c (used t)) eqn:E2; [exists t; auto|].
    eexists. split; [reflexivity|]. split; [apply consistent_connect; assumption|cbn; lia].
  - destruct (has_client c (server t)); [|exists t; auto].
    eexists. split; [reflexivity|]. split; [apply consistent_close; assumption|cbn; lia].
  - destruct (has_client c (server t)) eqn:Hhas; [|exists t; auto].
    destruct frame as [a|m|].
    + destruct (is_empty a) eqn:Ha.
      * cbn [handleMessage]. rewrite Ha. eexists. split; [reflexivity|].
        rewrite app_nil_r, trace_eta. auto.
      * destruct (client_ids t Hc c Hhas) as [_ Hne].
        destruct (messageQueue (server t) !! a) as [q|] eqn:Hq.
        -- assert (Hin : In a agentTypes) by (apply (queue_names t Hc); eexists; exact Hq).
           assert (Hq' : length q <= fuel).
           { pose proof (conserved t Hc a Hin) as H. unfold buffered in H. rewrite Hq in H.
             cbn in H. pose proof (addressed_to_length a (routed t)) as H'.
             rewrite <- H, length_app in H'. lia. }
           destruct (register_fields a c q (server t) fuel Ha Hne Hhas Hq Hq')
             as (s' & -> & H1 & H2 & H3 & H4).
           eexists. split; [reflexivity|]. rewrite app_nil_r. split; [|cbn; lia].
           apply (consistent_register a c t s' Hc Ha Hhas H1 H2).
           ++ unfold buffered. rewrite Hq. exact H3.
           ++ rewrite Hq. exact H4.
        -- rewrite (register_unbuffered a c (server t) fuel Ha Hq).
           eexists. split; [reflexivity|]. rewrite app_nil_r. split; [|cbn; lia].
           apply (consistent_register a c t _ Hc Ha Hhas); cbn.
           ++ reflexivity.
           ++ reflexivity.
           ++ unfold buffered. rewrite Hq. cbn. rewrite app_nil_r. reflexivity.
           ++ rewrite Hq. reflexivity.
    + cbn [handleMessage]. eexists. split; [reflexivity|].
      split; [apply consistent_route, Hc | cbn; rewrite length_app; cbn; lia].
    + cbn [handleMessage]. eexists. split; [reflexivity|].
      rewrite app_nil_r, trace_eta. auto.
  - eexists. split; [reflexivity|].
    split; [apply consistent_route, Hc | cbn; rewrite length_app; cbn; lia].
  - eexists. split; [reflexivity|]. split; [|cbn; lia].
    apply (consistent_same t); [exact Hc | reflexivity ..].
  - eexists. split; [reflexivity|]. split; [|cbn; lia].
    apply (consistent_same t); [exact Hc | reflexivity ..].
  - destruct (has_client c (server t)) eqn:Hhas; [|exists t; auto].
    eexists. split; [reflexivity|].
    split; [apply consistent_closing; assumption|cbn; lia].
Qed.

Lemma bus_run_consistent fuel events : forall t,
  consistent t -> length (routed t) + length events <= fuel ->
  exists t', bus_run fuel events t = Some t' /\ consistent t'.
Proof.
  induction events as [|e events IH]; intros t Hc Hlen; cbn [bus_run].
  - exists t. auto.
  - cbn [length] in Hlen.
    destruct (bus_step_consistent fuel e t Hc) as (t1 & -> & Hc1 & Hl1); [lia|].
    apply IH; [exact Hc1 | lia].
Qed.

(** X13. Whatever clients connect, register, close and send, and whatever is
    published, the run of the server's handlers ends (the delivery loop of
    a registration included), and for each of the three agent types no
    message addressed to it is lost, doubled or reordered: the messages
    sent to clients for that type, followed by the ones in its buffer, are
    the messages routed to it so far, in the order of routing.  The buffer of
    a type whose client is connected is empty, and no other name ever
    gets a buffer. *)
Theorem direct_messages_are_conserved :
  forall (events : list BusEvent) (fuel : nat),
    length events <= fuel ->
    exists t,
      bus_run fuel events initial_trace = Some t
      /\ (forall a, In a agentTypes ->
                    directly_sent a (server t) ++ buffered a (server t)
                    = addressed_to a (routed t))
      /\ (forall a c, connected_client a (server t) = Some c -> buffered a (server t) = [])
      /\ (forall a, ~ In a agentTypes -> messageQueue (server t) !! a = None).
Proof.
  intros events fuel Hlen.
  destruct (bus_run_consistent fuel events initial_trace consistent_initial) as (t & Ht & Hc);
    [cbn; lia|].
  exists t. split; [exact Ht|]. split; [apply (conserved t Hc)|].
  split; [apply (connected_unbuffered t Hc)|].
  intros a Ha. destruct (messageQueue (server t) !! a) eqn:E; [|reflexivity].
  exfalso. apply Ha. apply (queue_names t Hc). eexists. exact E.
Qed.

(** ** Broadcasts *)

Lemma filter_key_absent c m (l : list (string * ReadyState)) :
  ~ In c (omap_keys l) ->
  List.filter (fun e : string * A2AMessage => String.eqb (fst e) c)
              (List.map (fun cl => (fst cl, m))
                        (List.filter (fun cl => is_open (snd cl)) l)) = [].
Proof.
  intros Hc. apply filter_none. intros x Hx. apply List.in_map_iff in Hx.
  destruct Hx as (y & <- & Hy). apply List.filter_In in Hy. destruct Hy as [Hy _].
  cbn [fst]. apply String.eqb_neq. intros <-. apply Hc.
  unfold omap_keys. apply List.in_map. exact Hy.
Qed.

Lemma broadcast_received c m (l : list (string * ReadyState)) :
  List.NoDup (omap_keys l) ->
  List.map snd (List.filter (fun e : string * A2AMessage => String.eqb (fst e) c)
                            (List.map (fun cl => (fst cl, m))
                                      (List.filter (fun cl => is_open (snd cl)) l)))
  = if match omap_get c l with Some r => is_open r | None => false end then [m] else [].
Proof.
  induction l as [|[k r] l IH]; intros H; [reflexivity|].
  inversion H as [|x l' Hx Hl]; subst. specialize (IH Hl).
  cbn [List.filter snd omap_get]. destruct (String.eqb k c) eqn:E.
  - apply String.eqb_eq in E. subst k.
    destruct (is_open r); cbn [List.map List.filter fst].
    + rewrite String.eqb_refl. cbn [List.map snd]. f_equal.
      rewrite (filter_key_absent c m l Hx). reflexivity.
    + rewrite (filter_key_absent c m l Hx). reflexivity.
  - destruct (is_open r); cbn [List.map List.filter fst]; [rewrite E|]; exact IH.
Qed.

Lemma direct_messages_are_conserved_witness :
  exists t,
    bus_run 6 busy_day initial_trace = Some t
    /\ directly_sent "planner" (server t) = [plan_request "m1" "first";
                                             plan_request "m2" "second"]
    /\ buffered "planner" (server t) = [plan_request "m3" "third"]
    /\ directly_sent "planner" (server t) ++ buffered "planner" (server t)
       = addressed_to "planner" (routed t).
Proof.
  destruct (direct_messages_are_conserved busy_day 6) as (t & H1 & H2 & _).
  - cbn. lia.
  - exists t. split; [exact H1|].
    specialize (H2 "planner" (or_introl eq_refl)).
    vm_compute in H1. injection H1 as <-.
    split; [vm_compute; reflexivity|]. split; [vm_compute; reflexivity|]. exact H2.
Defined.

(** X14. In every state the server can reach, a message addressed to
    ["all"] is sent once to each client whose socket is open, registered as
    an agent or not and the sender included, and to no other: a client whose
    socket is closing is still among the clients and is sent nothing.  The
    message is put in no buffer, so a client that connects later never gets
    it. *)
Theorem broadcast_reaches_open_clients_once :
  forall (events : list BusEvent) (fuel : nat) (m : A2AMessage),
    length events <= fuel -> msg_to m = "all" ->
    exists t,
      bus_run fuel events initial_trace = Some t
      /\ messageQueue (sendMessage m (server t)) = messageQueue (server t)
      /\ forall c, received_by c (sendMessage m (server t))
                   = received_by c (server t)
                     ++ (if open_client c (server t) then [m] else []).
Proof.
  intros events fuel m Hlen Hto.
  destruct (bus_run_consistent fuel events initial_trace consistent_initial) as (t & Ht & Hc);
    [cbn; lia|].
  exists t. split; [exact Ht|].
  unfold sendMessage, routeMessage. rewrite Hto. cbn [String.eqb Ascii.eqb Bool.eqb].
  split; [reflexivity|]. intros c. unfold received_by, broadcast.
  cbn [sent with_sent with_notified]. rewrite List.filter_app, List.map_app. f_equal.
  apply broadcast_received. apply (clients_once t Hc).
Qed.

Lemma broadcast_reaches_open_clients_once_witness :
  exists t,
    bus_run 3 closing_time initial_trace = Some t
    /\ has_client "c1" (server t) = true
    /\ received_by "c1" (sendMessage planner_completed (server t)) = []
    /\ received_by "ui" (sendMessage planner_completed (server t)) = [planner_completed]
    /\ received_by "c2" (sendMessage planner_completed (server t)) = [].
Proof.
  destruct (broadcast_reaches_open_clients_once closing_time 3
              planner_completed) as (t & H1 & _ & H3).
  - cbn. lia.
  - reflexivity.
  - exists t. split; [exact H1|]. rewrite !H3.
    vm_compute in H1. injection H1 as <-. repeat split; vm_compute; reflexivity.
Defined.

(** ** Names without a buffer *)

Lemma alter_absent {A} (f : A -> A) (k : string) (m : gmap string A) :
  m !! k = None -> alter f k m = m.
Proof.
  intros H. apply map_eq. intros i. destruct (String.string_dec k i) as [<-|Hn].
  - rewrite lookup_alter_eq, H. reflexivity.
  - rewrite lookup_alter_ne by exact Hn. reflexivity.
Qed.

(** X15. In every state the server can reach, a message addressed to a name
    that is neither ["all"] nor one of the three agent types, and under which
    no connected client is registered, is dropped: it is sent to no client and
    put in no buffer; only the subscribed handlers are called with it. *)
Theorem message_to_unknown_name_is_dropped :
  forall (events : list BusEvent) (fuel : nat) (m : A2AMessage),
    length events <= fuel -> msg_to m <> "all" -> ~ In (msg_to m) agentTypes ->
    exists t,
      bus_run fuel events initial_trace = Some t
      /\ (connected_client (msg_to m) (server t) = None ->
          sent (sendMessage m (server t)) = sent (server t)
          /\ messageQueue (sendMessage m (server t)) = messageQueue (server t)
          /\ notified (sendMessage m (server t))
             = notified (server t)
               ++ List.map (fun h => (h, m)) (messageHandlers (server t))).
Proof.
  intros events fuel m Hlen Hall Hname.
  destruct (bus_run_consistent fuel events initial_trace consistent_initial) as (t & Ht & Hc);
    [cbn; lia|].
  exists t. split; [exact Ht|]. intros Hdis.
  assert (Hq : messageQueue (server t) !! msg_to m = None).
  { destruct (messageQueue (server t) !! msg_to m) eqn:E; [|reflexivity].
    exfalso. apply Hname. apply (queue_names t Hc). eexists. exact E. }
  unfold sendMessage, routeMessage. apply String.eqb_neq in Hall. rewrite Hall.
  unfold deliverMessage. rewrite Hdis. cbn. rewrite (alter_absent _ _ _ Hq).
  repeat split.
Qed.

Lemma message_to_unknown_name_is_dropped_witness :
  exists t,
    bus_run 6 busy_day initial_trace = Some t
    /\ sent (sendMessage note_for_ui (server t)) = sent (server t)
    /\ messageQueue (sendMessage note_for_ui (server t)) = messageQueue (server t).
Proof.
  destruct (message_to_unknown_name_is_dropped busy_day 6 note_for_ui)
    as (t & H1 & H2).
  - cbn. lia.
  - discriminate.
  - cbn. intros [H|[H|[H|[]]]]; discriminate.
  - exists t. split; [exact H1|].
    assert (Hdis : connected_client (msg_to note_for_ui) (server t) = None).
    { vm_compute in H1. injection H1 as <-. vm_compute. reflexivity. }
    destruct (H2 Hdis) as (H3 & H4 & _). split; [exact H3 | exact H4].
Defined.

(** ** Handlers *)

Lemma deliverMessage_handlers a m s :
  notified (deliverMessage a m s) = notified s
  /\ messageHandlers (deliverMessage a m s) = messageHandlers s.
Proof. unfold deliverMessage. destruct (connected_client a s); split; reflexivity. Qed.

Lemma deliver_queue_handlers a : forall fuel i s s',
  deliver_queue fuel i a s = Some s' ->
  notified s' = notified s /\ messageHandlers s' = messageHandlers s.
Proof.
  induction fuel as [|fuel IH]; intros i s s'; cbn [deliver_queue];
    destruct (default [] (messageQueue s !! a) !! i) as [m|]; try discriminate;
    try (intros [= <-]; split; reflexivity).
  intros H. apply IH in H. destruct (deliverMessage_handlers a m s) as [H1 H2].
  destruct H as [H3 H4]. split; congruence.
Qed.

Lemma handleMessage_register_handlers fuel c a s s' :
  handleMessage fuel c (Register a) s = Some s' ->
  notified s' = notified s /\ messageHandlers s' = messageHandlers s.
Proof.
  cbn [handleMessage]. destruct (is_empty a); [intros [= <-]; split; reflexivity|].
  unfold sendQueuedMessages. cbn [messageQueue with_agentClients].
  destruct (messageQueue s !! a) as [q|]; [|intros [= <-]; split; reflexivity].
  destruct (Nat.ltb 0 (length q)); [|intros [= <-]; split; reflexivity].
  destruct (deliver_queue fuel 0 a _) as [s1|] eqn:E; [|discriminate].
  intros [= <-]. apply deliver_queue_handlers in E. exact E.
Qed.

Lemma notified_to_route h m s :
  notified_to h (routeMessage m s) = notified_to h s ++ repeat m (subscriptions h s)
  /\ messageHandlers (routeMessage m s) = messageHandlers s.
Proof.
  unfold routeMessage.
  set (s1 := if String.eqb (msg_to m) "all" then broadcast m s
             else deliverMessage (msg_to m) m s).
  assert (H : notified s1 = notified s /\ messageHandlers s1 = messageHandlers s).
  { unfold s1. destruct (String.eqb (msg_to m) "all"); [split; reflexivity|].
    apply deliverMessage_handlers. }
  destruct H as [H1 H2]. split; [|exact H2].
  unfold notified_to, subscriptions. cbn [notified with_notified].
  rewrite H1, H2, List.filter_app, List.map_app. f_equal. clear.
  induction (messageHandlers s) as [|h' l IH]; [reflexivity|].
  cbn [List.map List.filter fst]. destruct (String.eqb h' h); cbn; [f_equal|]; exact IH.
Qed.

Lemma subscriptions_off_other h h' s :
  String.eqb h' h = false -> subscriptions h (offMessage h' s) = subscriptions h s.
Proof.
  intros Hk. unfold subscriptions, offMessage. cbn [messageHandlers with_handlers]. f_equal.
  induction (messageHandlers s) as [|x l IH]; [reflexivity|].
  cbn [List.filter]. destruct (String.eqb x h') eqn:E; cbn [negb List.filter].
  - apply String.eqb_eq in E. subst x. rewrite Hk. exact IH.
  - destruct (String.eqb x h); [f_equal|]; exact IH.
Qed.

Lemma subscriptions_off h s : subscriptions h (offMessage h s) = 0.
Proof.
  unfold subscriptions, offMessage. cbn [messageHandlers with_handlers].
  induction (messageHandlers s) as [|x l IH]; [reflexivity|].
  cbn [List.filter]. destruct (String.eqb x h) eqn:E; cbn [negb List.filter]; [exact IH|].
  rewrite E. exact IH.
Qed.

Lemma flat_map_once {A} (l : list A) : flat_map (fun m => repeat m 1) l = l.
Proof. induction l as [|m l IH]; [reflexivity|]. cbn. f_equal. exact IH. Qed.

Lemma flat_map_never {A} (l : list A) : flat_map (fun m => repeat m 0) l = [].
Proof. induction l as [|m l IH]; [reflexivity|]. exact IH. Qed.

Lemma bus_step_handler fuel e t t' h :
  keeps_handler h [e] = true -> bus_step fuel e t = Some t' ->
  subscriptions h (server t') = subscriptions h (server t)
  /\ exists new,
      routed t' = routed t ++ new
      /\ notified_to h (server t')
         = notified_to h (server t)
           ++ flat_map (fun m => repeat m (subscriptions h (server t))) new.
Proof.
  intros Hk.
  assert (Hsame : forall t1, Some t1 = Some t' ->
                             notified (server t1) = notified (server t) ->
                             messageHandlers (server t1) = messageHandlers (server t) ->
                             routed t1 = routed t ->
                             subscriptions h (server t') = subscriptions h (server t)
                             /\ exists new,
                                 routed t' = routed t ++ new
                                 /\ notified_to h (server t')
                                    = notified_to h (server t)
                                      ++ flat_map (fun m => repeat m (subscriptions h (server t)))
                                                  new).
  { intros t1 [= <-] H1 H2 H3. unfold subscriptions, notified_to. rewrite H1, H2.
    split; [reflexivity|]. exists []. rewrite !app_nil_r. auto. }
  assert (Hroute : forall m, Some (mkTrace (used t) (routed t ++ [m])
                                           (routeMessage m (server t))) = Some t' ->
                             subscriptions h (server t') = subscriptions h (server t)
                             /\ exists new,
                                 routed t' = routed t ++ new
                                 /\ notified_to h (server t')
                                    = notified_to h (server t)
                                      ++ flat_map (fun m => repeat m (subscriptions h (server t)))
                                                  new).
  { intros m [= <-]. cbn [server routed].
    destruct (notified_to_route h m (server t)) as [H1 H2]. split.
    - unfold subscriptions. rewrite H2. reflexivity.
    - exists [m]. split; [reflexivity|]. cbn [flat_map]. rewrite app_nil_r. exact H1. }
  destruct e as [c|c|c frame|m|h'|h'|c]; cbn [bus_step].
  - destruct (is_empty c || in_list c (used t)); intros H; apply (Hsame _ H); reflexivity.
  - destruct (has_client c (server t)); intros H; apply (Hsame _ H); reflexivity.
  - destruct (has_client c (server t)); [|intros H; apply (Hsame _ H); reflexivity].
    destruct frame as [a|m|].
    + destruct (handleMessage fuel c (Register a) (server t)) as [s1|] eqn:E; [|discriminate].
      apply handleMessage_register_handlers in E. destruct E as [E1 E2].
      intros H. apply (Hsame _ H); cbn; [exact E1 | exact E2 | apply app_nil_r].
    + cbn [handleMessage]. apply Hroute.
    + cbn [handleMessage]. intros H. apply (Hsame _ H); cbn; try reflexivity. apply app_nil_r.
  - apply Hroute.
  - cbn in Hk. rewrite andb_true_r in Hk. apply negb_true_iff in Hk.
    intros [= <-]. cbn [server routed]. unfold subscriptions, notified_to, onMessage.
    cbn [messageHandlers with_handlers notified]. rewrite List.filter_app. cbn [List.filter].
    rewrite Hk, app_nil_r. split; [reflexivity|]. exists []. rewrite !app_nil_r. auto.
  - cbn in Hk. rewrite andb_true_r in Hk. apply negb_true_iff in Hk.
    intros [= <-]. cbn [server routed]. unfold subscriptions, notified_to, offMessage.
    cbn [messageHandlers with_handlers notified]. split.
    + apply (subscriptions_off_other h h' (server t) Hk).
    + exists []. rewrite !app_nil_r. auto.
  - destruct (has_client c (server t)); intros H; apply (Hsame _ H); reflexivity.
Qed.

Lemma bus_run_handler fuel h events : forall t t',
  keeps_handler h events = true -> bus_run fuel events t = Some t' ->
  subscriptions h (server t') = subscriptions h (server t)
  /\ exists new,
      routed t' = routed t ++ new
      /\ notified_to h (server t')
         = notified_to h (server t)
           ++ flat_map (fun m => repeat m (subscriptions h (server t))) new.
Proof.
  induction events as [|e events IH]; intros t t' Hk; cbn [bus_run].
  - intros [= <-]. split; [reflexivity|]. exists []. rewrite !app_nil_r. auto.
  - cbn [keeps_handler forallb] in Hk. apply andb_true_iff in Hk as [Hk1 Hk2].
    destruct (bus_step fuel e t) as [t1|] eqn:E; [|discriminate].
    intros H. apply (IH t1 t' Hk2) in H.
    apply bus_step_handler with (h := h) in E; [|cbn; rewrite Hk1; reflexivity].
    destruct E as (E1 & new1 & E2 & E3). destruct H as (H1 & new2 & H2 & H3).
    split; [congruence|]. exists (new1 ++ new2).
    rewrite H2, E2, H3, E3, E1, flat_map_app, !app_assoc. auto.
Qed.

(** X16. A handler is called with exactly the messages routed between its
    [onMessage] and its [offMessage], in the order of routing, whether they
    are delivered, buffered or dropped; once [offMessage] has been called it
    is not called again. *)
Theorem handler_sees_what_is_routed_while_subscribed :
  forall (fuel : nat) (events later : list BusEvent) (t t1 t2 : BusTrace) (h : string),
    subscriptions h (server t) = 0 ->
    keeps_handler h events = true -> keeps_handler h later = true ->
    bus_run fuel (Subscribe h :: events) t = Some t1 ->
    bus_run fuel (Unsubscribe h :: later) t1 = Some t2 ->
    exists new,
      routed t1 = routed t ++ new
      /\ notified_to h (server t1) = notified_to h (server t) ++ new
      /\ notified_to h (server t2) = notified_to h (server t1).
Proof.
  intros fuel events later t t1 t2 h H0 Hk1 Hk2. cbn [bus_run bus_step].
  intros R1 R2.
  apply (bus_run_handler fuel h events _ t1 Hk1) in R1.
  apply (bus_run_handler fuel h later _ t2 Hk2) in R2.
  cbn [server routed] in R1, R2.
  assert (S1 : subscriptions h (onMessage h (server t)) = 1).
  { unfold subscriptions, onMessage in *. cbn [messageHandlers with_handlers].
    rewrite List.filter_app, length_app, H0. cbn. rewrite String.eqb_refl. reflexivity. }
  pose proof (subscriptions_off h (server t1)) as S2.
  destruct R1 as (_ & new & R11 & R12). destruct R2 as (_ & new' & _ & R22).
  rewrite S1 in R12. rewrite S2 in R22.
  exists new. split; [exact R11|]. split.
  - rewrite R12, flat_map_once. reflexivity.
  - rewrite R22, flat_map_never, app_nil_r. reflexivity.
Qed.

Lemma handler_sees_what_is_routed_while_subscribed_witness :
  exists t1 t2,
    bus_run 2 [Subscribe "h1"; Publish (plan_request "m1" "first"); Publish note_for_ui]
            initial_trace = Some t1
    /\ bus_run 2 [Unsubscribe "h1"; Publish planner_completed] t1 = Some t2
    /\ notified_to "h1" (server t1) = [plan_request "m1" "first"; note_for_ui]
    /\ notified_to "h1" (server t2) = [plan_request "m1" "first"; note_for_ui].
Proof.
  destruct (bus_run 2 [Subscribe "h1"; Publish (plan_request "m1" "first");
                       Publish note_for_ui] initial_trace) as [t1|] eqn:R1;
    [|vm_compute in R1; discriminate].
  destruct (bus_run 2 [Unsubscribe "h1"; Publish planner_completed] t1) as [t2|] eqn:R2;
    [|cbn in R2; discriminate].
  exists t1, t2. split; [reflexivity|]. split; [exact R2|].
  destruct (handler_sees_what_is_routed_while_subscribed
              2 [Publish (plan_request "m1" "first"); Publish note_for_ui]
              [Publish planner_completed] initial_trace t1 t2 "h1"
              eq_refl eq_refl eq_refl R1 R2) as (new & H1 & H2 & H3).
  rewrite H3, H2. cbn in H1. subst new.
  vm_compute in R1. injection R1 as <-. split; reflexivity.
Defined.

End BusExtra.

(* ===================================================================== *)
(** * More on the workflow engine *)
(* ===================================================================== *)

Module EngineExtra.

Import JS Types Engine EngineObs EngineFacts Examples MoreExamples.

(** ** Templates *)

Lemma placeholder_at_other c s :
  Ascii.eqb c "{" = false -> placeholder_at (String c s) = None.
Proof.
  intros H. unfold placeholder_at. cbn [startsWith].
  rewrite Ascii.eqb_sym, H. reflexivity.
Qed.

Lemma replace_brace_free f lit rest :
  brace_free lit = true ->
  replace_placeholders f (lit +:+ rest) 0 = lit +:+ replace_placeholders f rest 0.
Proof.
  induction lit as [|c lit IH]; intros H; [reflexivity|].
  cbn [brace_free all_chars] in H. apply andb_true_iff in H as [Hc Hl].
  apply negb_true_iff in Hc.
  rewrite !append_cons, replace_at, (placeholder_at_other c _ Hc). f_equal.
  apply IH. exact Hl.
Qed.

(** X17. A template is resolved piece by piece, from left to right: text
    without an opening brace is kept as it is, and a placeholder whose token
    has no closing brace and no line break is replaced by the text of its
    value, which is not resolved again; what follows is resolved in the same
    way. *)
Theorem resolveString_template :
  forall (context : WorkflowExecutionContext) (lit t rest : string),
    brace_free lit = true -> plain t = true -> t <> "" ->
    resolveString (lit +:+ "{{" +:+ t +:+ "}}" +:+ rest) context
    = lit +:+ resolve_token context t +:+ resolveString rest context
    /\ resolveString lit context = lit.
Proof.
  intros context lit t rest Hl Hp Hne. unfold resolveString. split.
  - rewrite (replace_brace_free _ lit _ Hl). f_equal.
    apply replace_placeholder; assumption.
  - rewrite <- (append_nil_r lit) at 1. rewrite (replace_brace_free _ lit "" Hl).
    apply append_nil_r.
Qed.

Lemma resolveString_template_witness :
  resolveString "Make {{kind}} for {{ who }}!"
                (mkContext [("kind", VStr "{{art}}"); ("who", VNum 0)] 0 [] [] [])
  = "Make {{art}} for !".
Proof.
  destruct (resolveString_template
              (mkContext [("kind", VStr "{{art}}"); ("who", VNum 0)] 0 [] [] [])
              "Make " "kind" " for {{ who }}!" eq_refl eq_refl) as [H _]; [discriminate|].
  destruct (resolveString_template
              (mkContext [("kind", VStr "{{art}}"); ("who", VNum 0)] 0 [] [] [])
              " for " " who " "!" eq_refl eq_refl) as [H' _]; [discriminate|].
  change (" for " +:+ "{{" +:+ " who " +:+ "}}" +:+ "!") with " for {{ who }}!" in H'.
  change ("Make " +:+ "{{" +:+ "kind" +:+ "}}" +:+ " for {{ who }}!")
    with "Make {{kind}} for {{ who }}!" in H.
  rewrite H, H'. reflexivity.
Defined.

(** ** Parameters *)

Lemma omap_set_fresh {A} k (v : A) m :
  ~ In k (omap_keys m) -> omap_set k v m = m ++ [(k, v)].
Proof.
  induction m as [|[k0 v0] m IH]; cbn [omap_set omap_keys List.map fst In app]; intros H;
    [reflexivity|].
  destruct (String.eqb_spec k0 k) as [->|Hn]; [exfalso; apply H; left; reflexivity|].
  f_equal. apply IH. intros Hin. apply H. right. exact Hin.
Qed.

Lemma resolve_fold context params : forall resolved,
  List.NoDup (omap_keys resolved ++ omap_keys params) ->
  fold_left (fun resolved kv =>
               match snd kv with
               | VStr value => omap_set (fst kv) (VStr (resolveString value context)) resolved
               | value => omap_set (fst kv) value resolved
               end) params resolved
  = resolved ++ List.map (fun kv => (fst kv, resolve_value context (snd kv))) params.
Proof.
  induction params as [|[k v] params IH]; intros resolved H; cbn [fold_left List.map fst snd].
  - rewrite app_nil_r. reflexivity.
  - cbn [omap_keys List.map fst] in H.
    assert (Hk : ~ In k (omap_keys resolved)).
    { intros Hin. apply List.NoDup_remove_2 in H. apply H. apply in_or_app. left. exact Hin. }
    assert (Hnd : List.NoDup (omap_keys (resolved ++ [(k, resolve_value context v)])
                              ++ omap_keys params)).
    { unfold omap_keys in *. rewrite List.map_app. cbn [List.map fst].
      rewrite <- app_assoc. exact H. }
    destruct v; cbn [resolve_value] in *; rewrite omap_set_fresh by exact Hk;
      rewrite IH by exact Hnd; rewrite <- app_assoc; reflexivity.
Qed.

(** X18. The parameters of a tool call are resolved one by one, in their
    order: a parameter whose value is a string is resolved as a template,
    every other value is passed as it is: a template inside an array or an
    object is not resolved. *)
Theorem resolveParameters_resolves_top_level_strings :
  forall (params : list (string * Value)) (context : WorkflowExecutionContext),
    List.NoDup (omap_keys params) ->
    resolveParameters params context
    = VObj (List.map (fun kv => (fst kv, resolve_value context (snd kv))) params).
Proof.
  intros params context H. unfold resolveParameters. f_equal.
  apply (resolve_fold context params []). exact H.
Qed.

Lemma resolveParameters_resolves_top_level_strings_witness :
  resolveParameters [("title", VStr "{{kind}}"); ("tags", VArr [VStr "{{kind}}"])]
                    (mkContext [("kind", VStr "maze")] 0 [] [] [])
  = VObj [("title", VStr "maze"); ("tags", VArr [VStr "{{kind}}"])].
Proof.
  apply (resolveParameters_resolves_top_level_strings
           [("title", VStr "{{kind}}"); ("tags", VArr [VStr "{{kind}}"])]
           (mkContext [("kind", VStr "maze")] 0 [] [] [])).
  repeat constructor; cbn; intuition discriminate.
Defined.

(** ** Loop nodes *)

Section Loops.

Variable js_eval : string -> WorkflowExecutionContext -> option Value.

Lemma loop_passes_shape goal : forall n i results context,
  exists k,
    k <= n
    /\ loop_passes js_eval goal n (Z.of_nat i) results context
       = (results ++ List.map iteration_record (seq i k),
          match n with
          | O => context
          | S _ => set_iteration (Z.of_nat (i + Nat.min k (n - 1))) context
          end)
    /\ (forall j, j < k ->
                  evaluateGoalCondition js_eval goal
                                        (set_iteration (Z.of_nat (i + j)) context) = false)
    /\ (k < n ->
        evaluateGoalCondition js_eval goal
                              (set_iteration (Z.of_nat (i + k)) context) = true).
Proof.
  induction n as [|n IH]; intros i results context.
  - exists 0. split; [lia|]. split; [cbn; rewrite app_nil_r; reflexivity|].
    split; intros; lia.
  - cbn [loop_passes].
    destruct (evaluateGoalCondition js_eval goal (set_iteration (Z.of_nat i) context)) eqn:E.
    + exists 0. split; [lia|]. split.
      * cbn. rewrite app_nil_r, Nat.add_0_r. reflexivity.
      * split; [intros; lia|]. intros _. rewrite Nat.add_0_r. exact E.
    + replace (Z.of_nat i + 1)%Z with (Z.of_nat (S i)) by lia.
      destruct (IH (S i) (results ++ [VObj [("iteration", VNum (Z.of_nat i))]])
                   (set_iteration (Z.of_nat i) context)) as (k & Hk & Hrun & Hfalse & Htrue).
      exists (S k). split; [lia|]. split; [|split].
      * rewrite Hrun. cbn [seq List.map]. rewrite <- app_assoc. cbn [app]. f_equal.
        destruct n as [|n'].
        -- assert (k = 0) by lia. subst k. cbn. rewrite Nat.add_0_r. reflexivity.
        -- cbn [set_iteration variables history userMessages previousArtifacts].
           unfold set_iteration. cbn. f_equal. lia.
      * intros j Hj. destruct j as [|j]; [rewrite Nat.add_0_r; exact E|].
        specialize (Hfalse j ltac:(lia)).
        replace (i + S j) with (S i + j) by lia. exact Hfalse.
      * intros Hlt. specialize (Htrue ltac:(lia)).
        replace (i + S k) with (S i + k) by lia. exact Htrue.
Qed.

(** X19. A loop node executes no body: it returns one record
    [{ iteration: i }] for each pass, counting from 0, stops before the pass
    at which the goal condition of the workflow holds and after
    [maxIterations] passes at the latest (10 when the field is absent or 0),
    and never throws.  Unless the limit is not positive, it overwrites the
    iteration counter of the context with the index it has reached. *)
Theorem executeLoop_counts_passes :
  forall (node : WorkflowNode) (context : WorkflowExecutionContext) (workflow : Workflow),
  exists k,
    k <= loop_limit node
    /\ executeLoop js_eval node context workflow
       = NodeReturn (VArr (List.map iteration_record (seq 0 k)))
                    (match loop_limit node with
                     | O => context
                     | S _ => set_iteration (Z.of_nat (Nat.min k (loop_limit node - 1))) context
                     end)
    /\ (forall j, j < k ->
                  evaluateGoalCondition js_eval (goalCondition workflow)
                                        (set_iteration (Z.of_nat j) context) = false)
    /\ (k < loop_limit node ->
        evaluateGoalCondition js_eval (goalCondition workflow)
                              (set_iteration (Z.of_nat k) context) = true).
Proof.
  intros node context workflow.
  destruct (loop_passes_shape (goalCondition workflow) (loop_limit node) 0 [] context)
    as (k & Hk & Hrun & Hfalse & Htrue).
  exists k. split; [exact Hk|]. split; [|split; assumption].
  unfold executeLoop. fold (loop_limit node).
  change 0%Z with (Z.of_nat 0). rewrite Hrun. reflexivity.
Qed.

(** ** Cycles *)

Variable chat : list ReAct.LLMMessage -> ReAct.ChatOutcome.
Variable json_parse : string -> option Value.
Variable json_stringify : Value -> string.
Variable json_pretty : WorkflowExecutionContext -> string.
Variable tools : list (string * Tool).

#[local] Abbreviation run_nodes := (Engine.run_nodes js_eval chat json_parse json_stringify json_pretty tools).
#[local] Abbreviation executeNode := (Engine.executeNode js_eval chat json_parse json_stringify json_pretty tools).

(** X20. The engine has no bound on the number of nodes it executes: when a
    node is its own next node and always returns, and the goal condition
    never holds, the run does not end, whatever number of node executions it
    is given. *)
Theorem self_loop_without_goal_never_ends :
  forall (workflow : Workflow) (id : string) (node : WorkflowNode),
    is_empty id = false ->
    find_node workflow id = Some node ->
    next node = NextId id ->
    (forall c, exists r c', executeNode node c workflow = NodeReturn r c') ->
    (forall c, evaluateGoalCondition js_eval (goalCondition workflow) c = false) ->
    forall (fuel : nat) (context : WorkflowExecutionContext),
      run_nodes fuel workflow (Some id) context = None.
Proof.
  intros workflow id node Hid Hfind Hnext Hret Hgoal fuel.
  induction fuel as [|fuel IH]; intros context; cbn [Engine.run_nodes]; rewrite Hid;
    [reflexivity|].
  rewrite Hfind. destruct (Hret context) as (r & c' & ->). rewrite Hgoal.
  unfold determineNextNode. rewrite Hnext, Hid. apply IH.
Qed.

End Loops.

Lemma self_loop_without_goal_never_ends_witness :
  Engine.executeWorkflow literal_eval failing_model no_parse plain_stringify no_pretty []
                         1000 spinning_workflow empty_context = None.
Proof.
  apply (self_loop_without_goal_never_ends literal_eval failing_model no_parse
           plain_stringify no_pretty [] spinning_workflow "again"
           (mkNode "again" CONDITION "again" (mkConfig None None None (Some "true") None None)
                   (NextId "again"))); try reflexivity.
  intros c. eexists. eexists. reflexivity.
Defined.

(** ** Variables by name and by path *)

Lemma all_chars_app p a b : all_chars p (a +:+ b) = all_chars p a && all_chars p b.
Proof.
  induction a as [|c a IH]; [reflexivity|].
  rewrite append_cons. cbn [all_chars]. rewrite IH. apply andb_assoc.
Qed.

Lemma all_chars_weaken (p q : ascii -> bool) s :
  (forall c, p c = true -> q c = true) -> all_chars p s = true -> all_chars q s = true.
Proof.
  intros H. induction s as [|c s IH]; [reflexivity|].
  cbn [all_chars]. intros Hs. apply andb_true_iff in Hs as [H1 H2].
  rewrite (H c H1), (IH H2). reflexivity.
Qed.

Lemma trimEnd_no_space s :
  all_chars (fun c => negb (is_space c)) s = true -> trimEnd s = s.
Proof.
  induction s as [|c s IH]; [reflexivity|].
  cbn [all_chars trimEnd]. intros H. apply andb_true_iff in H as [H1 H2].
  apply negb_true_iff in H1. rewrite H1, (IH H2). reflexivity.
Qed.

Lemma trim_no_space s :
  all_chars (fun c => negb (is_space c)) s = true -> trim s = s.
Proof.
  intros H. unfold trim.
  assert (E : trimStart s = s).
  { destruct s as [|c s]; [reflexivity|]. cbn [all_chars] in H.
    apply andb_true_iff in H as [H1 _]. apply negb_true_iff in H1.
    cbn [trimStart]. rewrite H1. reflexivity. }
  rewrite E. apply trimEnd_no_space, H.
Qed.

Lemma split_dot_free x :
  all_chars (fun c => negb (Ascii.eqb c ".")) x = true -> split "." x = [x].
Proof.
  induction x as [|c x IH]; [reflexivity|].
  cbn [all_chars split]. intros H. apply andb_true_iff in H as [H1 H2].
  apply negb_true_iff in H1. rewrite H1, (IH H2). reflexivity.
Qed.

Lemma word_plain x : word x = true -> plain x = true /\ x <> "".
Proof.
  unfold word. intros H. apply andb_true_iff in H as [Hne H]. split.
  - clear Hne. induction x as [|c x IH]; [reflexivity|].
    cbn [all_chars plain] in *. apply andb_true_iff in H as [Hc Hx].
    apply andb_true_iff in Hc as [Hc Hdot]. apply andb_true_iff in Hc as [Hsp Hbr].
    rewrite (IH Hx), Hbr, andb_true_r, andb_true_r.
    apply negb_true_iff in Hsp. apply negb_true_iff.
    unfold is_space, is_line_terminator in *.
    destruct (Nat.eqb_spec (nat_of_ascii c) 10) as [E|_];
      [rewrite E in Hsp; discriminate|].
    destruct (Nat.eqb_spec (nat_of_ascii c) 13) as [E|_];
      [rewrite E in Hsp; discriminate|].
    reflexivity.
  - destruct x; [discriminate|discriminate].
Qed.

Lemma word_no_space x :
  word x = true -> all_chars (fun c => negb (is_space c)) x = true.
Proof.
  unfold word. intros H. apply andb_true_iff in H as [_ H].
  revert H. apply all_chars_weaken. intros c Hc.
  apply andb_true_iff in Hc as [Hc _]. apply andb_true_iff in Hc as [Hc _]. exact Hc.
Qed.

Lemma word_dot_free x :
  word x = true -> all_chars (fun c => negb (Ascii.eqb c ".")) x = true.
Proof.
  unfold word. intros H. apply andb_true_iff in H as [_ H].
  revert H. apply all_chars_weaken. intros c Hc.
  apply andb_true_iff in Hc as [_ Hc]. exact Hc.
Qed.

Lemma word_not_a_path x : word x = true -> startsWith "context." x = false.
Proof.
  intros H. apply word_dot_free in H.
  destruct (startsWith "context." x) eqn:E; [|reflexivity]. exfalso.
  do 8 (destruct x as [|? x]; [discriminate E|];
        cbn [startsWith] in E;
        match type of E with
        | (if Ascii.eqb ?a ?b then _ else _) = true =>
            destruct (Ascii.eqb_spec a b) as [<-|]; [|discriminate E]
        end;
        cbn [all_chars] in H; try discriminate H;
        apply andb_true_iff in H as [_ H]).
Qed.

(** X21. A variable whose name is not one that objects inherit from
    [Object.prototype] can be named in a template in two ways that differ on
    falsy values: [{{name}}] gives the text of the value when the value is
    truthy and nothing otherwise (so nothing for 0, [false] and a missing
    variable), while [{{context.variables.name}}] always gives the text of the
    value ("0", "false", "undefined").  For an inherited name such as
    [constructor] or [toString] that is not a variable the source finds the
    inherited function; those names are left out. *)
Theorem variable_by_name_and_by_path :
  forall (context : WorkflowExecutionContext) (name : string),
    word name = true ->
    inherited name = false ->
    resolveString ("{{" +:+ name +:+ "}}") context
    = (if truthy (variable name context) then to_string (variable name context) else "")
    /\ resolveString ("{{context.variables." +:+ name +:+ "}}") context
       = to_string (variable name context).
Proof.
  intros context name Hw _.
  destruct (word_plain name Hw) as [Hp Hne].
  pose proof (word_no_space name Hw) as Hsp.
  pose proof (word_dot_free name Hw) as Hdot.
  split.
  - rewrite resolveString_variable; rewrite ?(trim_no_space name Hsp); auto.
    apply word_not_a_path, Hw.
  - change ("{{context.variables." +:+ name +:+ "}}")
      with ("{{" +:+ ("context.variables." +:+ name) +:+ "}}").
    assert (Hsp' : all_chars (fun c => negb (is_space c)) ("context.variables." +:+ name)
                   = true).
    { rewrite all_chars_app, Hsp. reflexivity. }
    rewrite resolveString_context_path; rewrite ?(trim_no_space _ Hsp').
    + change (substring_from 8 ("context.variables." +:+ name)) with ("variables." +:+ name).
      unfold getNestedValue.
      assert (E : split "." ("variables." +:+ name) = ["variables"; name]).
      { change ("variables." +:+ name)
          with (String "v" (String "a" (String "r" (String "i" (String "a" (String "b"
               (String "l" (String "e" (String "s" (String "." name)))))))))).
        cbn [split Ascii.eqb Bool.eqb]. rewrite (split_dot_free name Hdot). reflexivity. }
      rewrite E. reflexivity.
    + unfold plain. fold plain.
      change ("context.variables." +:+ name)
        with (String "c" (String "o" (String "n" (String "t" (String "e" (String "x"
             (String "t" (String "." (String "v" (String "a" (String "r" (String "i"
             (String "a" (String "b" (String "l" (String "e" (String "s" (String "."
              name)))))))))))))))))).
      cbn. exact Hp.
    + destruct name; discriminate.
    + reflexivity.
Qed.

Lemma variable_by_name_and_by_path_witness :
  resolveString "{{lives}}" (mkContext [("lives", VNum 0)] 0 [] [] []) = ""
  /\ resolveString "{{context.variables.lives}}" (mkContext [("lives", VNum 0)] 0 [] [] [])
     = "0".
Proof.
  exact (variable_by_name_and_by_path (mkContext [("lives", VNum 0)] 0 [] [] []) "lives"
                                      eq_refl eq_refl).
Defined.

End EngineExtra.

(* ===================================================================== *)
(** * More on the reasoning loop *)
(* ===================================================================== *)

Module ReActExtra.

Import JS Types ReAct ReActObs ReActFacts Examples MoreExamples.

Section Shape.
Variable chat : list LLMMessage -> ChatOutcome.
Variable json_parse : string -> option Value.
Variable json_stringify : Value -> string.
Variable json_pretty : WorkflowExecutionContext -> string.
Variable tools : list (string * Tool).
Variable maxIterations : nat.
Variable progressCallback : bool.

#[local] Abbreviation parse := (parseReActResponse json_parse).
#[local] Abbreviation loop := (rounds_loop chat json_parse json_stringify tools progressCallback).

Lemma ends_well_cons r s added :
  tool_step s = true -> ends_well r added -> ends_well r (s :: added).
Proof.
  unfold ends_well. intros Hs. destruct (success r).
  - intros (earlier & final & -> & H1 & H2). exists (s :: earlier), final.
    split; [reflexivity|]. split; [cbn; rewrite Hs; exact H1 | exact H2].
  - intros H. cbn. rewrite Hs. exact H.
Qed.

Lemma loop_shape n : forall messages steps done reported context,
  let r := loop n messages steps done reported context in
  exists added,
    ReAct.steps r = steps ++ added
    /\ ReAct.reported r = reported ++ (if progressCallback then added else [])
    /\ ends_well r added
    /\ length (conversation r)
       = length messages + 2 * length (List.filter tool_step added).
Proof.
  induction n as [|n IH]; intros messages steps done reported context; cbn zeta.
  - exists []. cbn. rewrite !app_nil_r. repeat split; try lia.
    destruct progressCallback; rewrite ?app_nil_r; reflexivity.
  - cbn [rounds_loop]. destruct (chat messages) as [response|message].
    + destruct (parse response) as [[thought action] input].
      destruct (String.eqb action "FINISH") eqn:Ef.
      * exists [mkStep thought action input "Task completed"]. cbn.
        unfold tool_step. cbn. rewrite Ef. cbn.
        split; [reflexivity|]. split; [unfold report; destruct progressCallback;
                                       rewrite ?app_nil_r; reflexivity|].
        split; [|lia]. unfold ends_well. cbn.
        exists [], (mkStep thought action input "Task completed").
        apply String.eqb_eq in Ef. repeat split; assumption.
      * assert (Hnext : forall obs context',
                   let r := loop n (messages ++ [mkMessage assistant response;
                                                 mkMessage user (follow_up obs)])
                                 (steps ++ [mkStep thought action input obs]) (S done)
                                 (report progressCallback (mkStep thought action input obs)
                                         reported) context' in
                   exists added,
                     ReAct.steps r = steps ++ added
                     /\ ReAct.reported r = reported ++ (if progressCallback then added else [])
                     /\ ends_well r added
                     /\ length (conversation r)
                        = length messages + 2 * length (List.filter tool_step added)).
        { intros obs context'. cbn zeta.
          destruct (IH (messages ++ [mkMessage assistant response;
                                     mkMessage user (follow_up obs)])
                       (steps ++ [mkStep thought action input obs]) (S done)
                       (report progressCallback (mkStep thought action input obs) reported)
                       context') as (added & H1 & H2 & H3 & H4).
          assert (Ht : tool_step (mkStep thought action input obs) = true)
            by (unfold tool_step; cbn; rewrite Ef; reflexivity).
          exists (mkStep thought action input obs :: added).
          split; [rewrite H1, <- app_assoc; reflexivity|].
          split; [rewrite H2; unfold report; destruct progressCallback;
                  rewrite <- ?app_assoc; reflexivity|].
          split; [apply ends_well_cons; assumption|].
          rewrite H4, length_app. cbn [List.filter]. rewrite Ht. cbn [length]. lia. }
        destruct (omap_get action tools) as [tool|]; [|apply Hnext].
        destruct (tool_execute tool input context) as [v c'|m c']; [apply Hnext|].
        exists []. cbn. rewrite !app_nil_r. repeat split; try lia.
        destruct progressCallback; rewrite ?app_nil_r; reflexivity.
    + exists []. cbn. rewrite !app_nil_r. repeat split; try lia.
      destruct progressCallback; rewrite ?app_nil_r; reflexivity.
Qed.

(** X22. The steps of a run are told to the progress callback one by one, in
    order: what the callback has seen is the list of steps returned, also when
    the run fails.  A run succeeds only by a final step: its action is FINISH,
    its observation "Task completed", it is the last step, no step before it
    is final, and the result is its input; a run that fails has no final
    step.  Each step that is not final has added two messages to the
    conversation. *)
Theorem execute_steps_and_progress :
  forall (task : string) (context : WorkflowExecutionContext) (systemPrompt : option string),
    let r := execute chat json_parse json_stringify json_pretty tools maxIterations
                     progressCallback task context systemPrompt in
    ReAct.reported r = (if progressCallback then ReAct.steps r else [])
    /\ (success r = true ->
        exists earlier final,
          ReAct.steps r = earlier ++ [final]
          /\ forallb tool_step earlier = true
          /\ action final = "FINISH" /\ observation final = "Task completed"
          /\ result r = actionInput final)
    /\ (success r = false -> forallb tool_step (ReAct.steps r) = true)
    /\ length (conversation r)
       = length (initial_messages json_stringify json_pretty tools task context systemPrompt)
         + 2 * length (List.filter tool_step (ReAct.steps r)).
Proof.
  intros task context systemPrompt. cbn zeta. unfold execute.
  destruct (loop_shape maxIterations
              (initial_messages json_stringify json_pretty tools task context systemPrompt)
              [] 0 [] context) as (added & H1 & H2 & H3 & H4).
  cbn zeta in *. cbn [app] in H1, H2. rewrite H1, H2. unfold ends_well in H3.
  split; [reflexivity|]. split; [|split; [|exact H4]].
  - intros Hs. rewrite Hs in H3. exact H3.
  - intros Hs. rewrite Hs in H3. exact H3.
Qed.

End Shape.

Lemma execute_steps_and_progress_witness :
  let r := execute finishing_model no_parse plain_stringify no_pretty [] 3 true
                   "task" empty_context None in
  success r = true
  /\ ReAct.reported r = ReAct.steps r
  /\ exists earlier final,
      ReAct.steps r = earlier ++ [final]
      /\ forallb tool_step earlier = true
      /\ action final = "FINISH" /\ observation final = "Task completed"
      /\ result r = actionInput final.
Proof.
  cbn zeta.
  destruct (execute_steps_and_progress finishing_model no_parse plain_stringify no_pretty
              [] 3 true "task" empty_context None) as (H1 & H2 & _).
  split; [reflexivity|]. split; [exact H1|]. apply H2. reflexivity.
Defined.

(** ** Replies in the format of the prompt *)

Lemma startsWith_line label t r :
  one_line label = true ->
  startsWith label (t +:+ nl +:+ r) = startsWith label t.
Proof.
  revert t. induction label as [|a label IH]; intros t H; [destruct t; reflexivity|].
  cbn [one_line] in H. apply andb_true_iff in H as [Ha Hl].
  destruct t as [|b t].
  - change ("" +:+ nl +:+ r) with (String (ascii_of_nat 10) r). cbn [startsWith].
    destruct (Ascii.eqb_spec a (ascii_of_nat 10)) as [->|_]; [discriminate Ha|reflexivity].
  - rewrite EngineFacts.append_cons. cbn [startsWith].
    destruct (Ascii.eqb a b); [apply IH, Hl | reflexivity].
Qed.

Lemma includes_line label a b :
  one_line label = true -> label <> "" ->
  includes label (a +:+ nl +:+ b) = includes label a || includes label b.
Proof.
  intros Hl Hne. induction a as [|c a IH].
  - change ("" +:+ nl +:+ b) with (String (ascii_of_nat 10) b).
    cbn [includes]. destruct label as [|x label]; [congruence|].
    cbn [one_line] in Hl. apply andb_true_iff in Hl as [Hx _].
    cbn [startsWith].
    destruct (Ascii.eqb_spec x (ascii_of_nat 10)) as [->|_]; [discriminate Hx|].
    destruct b; reflexivity.
  - rewrite EngineFacts.append_cons. cbn [includes].
    rewrite <- EngineFacts.append_cons, (startsWith_line label (String c a) b Hl), IH.
    rewrite orb_assoc. reflexivity.
Qed.

Lemma match_label_skip_line label stops t r :
  one_line label = true -> includes label t = false ->
  match_label label stops (t +:+ nl +:+ r) = match_label label stops (nl +:+ r).
Proof.
  intros Hl. induction t as [|c t IH]; intros H; [reflexivity|].
  cbn [includes] in H. apply orb_false_iff in H as [H1 H2].
  rewrite EngineFacts.append_cons. cbn [match_label].
  rewrite <- EngineFacts.append_cons, (startsWith_line label (String c t) r Hl), H1.
  apply IH. exact H2.
Qed.

Lemma substring_from_length p s : substring_from (String.length p) (p +:+ s) = s.
Proof. induction p as [|c p IH]; [destruct s; reflexivity | exact IH]. Qed.

Lemma match_label_here label stops rest g :
  capture_after stops rest = Some g ->
  match_label label stops (label +:+ rest) = Some g.
Proof.
  intros H. destruct (label +:+ rest) as [|c s] eqn:E; cbn [match_label];
    rewrite <- E, EngineFacts.startsWith_app, substring_from_length, H; reflexivity.
Qed.

Lemma match_label_next_line label stops rest g :
  one_line label = true -> label <> "" ->
  capture_after stops rest = Some g ->
  match_label label stops (nl +:+ label +:+ rest) = Some g.
Proof.
  intros Hl Hne H. change (nl +:+ label +:+ rest) with (String (ascii_of_nat 10) (label +:+ rest)).
  cbn [match_label].
  destruct label as [|x label]; [congruence|].
  cbn [one_line] in Hl. apply andb_true_iff in Hl as [Hx _]. cbn [startsWith].
  destruct (Ascii.eqb_spec x (ascii_of_nat 10)) as [->|_]; [discriminate Hx|].
  apply match_label_here. exact H.
Qed.

Lemma lazy_until_line stops x tail :
  one_line x = true ->
  Forall (fun st => startsWith nl st = true) stops ->
  existsb (fun st => startsWith st (nl +:+ tail)) stops = true ->
  lazy_until stops (x +:+ nl +:+ tail) = x.
Proof.
  intros Hx Hstops Hhit. induction x as [|c x IH].
  - change ("" +:+ nl +:+ tail) with (String (ascii_of_nat 10) tail).
    cbn [lazy_until]. change (String (ascii_of_nat 10) tail) with (nl +:+ tail).
    rewrite Hhit. reflexivity.
  - cbn [one_line] in Hx. apply andb_true_iff in Hx as [Hc Hx].
    rewrite EngineFacts.append_cons. cbn [lazy_until].
    assert (E : existsb (fun st => startsWith st (String c (x +:+ nl +:+ tail))) stops = false).
    { clear -Hstops Hc. induction Hstops as [|st stops Hst _ IH]; [reflexivity|].
      cbn [existsb]. rewrite IH, orb_false_r.
      destruct st as [|a st]; [discriminate Hst|].
      revert Hst. unfold nl. cbn [startsWith].
      destruct (Ascii.eqb_spec (ascii_of_nat 10) a) as [<-|_]; [intros _|discriminate].
      destruct (Ascii.eqb_spec (ascii_of_nat 10) c) as [<-|_]; [vm_compute in Hc; discriminate Hc|reflexivity]. }
    rewrite E, (IH Hx). reflexivity.
Qed.

Lemma lazy_until_end r : lazy_until [] r = r.
Proof. induction r as [|c r IH]; [reflexivity|]. cbn. rewrite IH. reflexivity. Qed.

Lemma capture_after_space stops c r :
  is_visible c = true ->
  capture_after stops (String " " (String c r)) = Some (String c (lazy_until stops r)).
Proof.
  intros Hc. unfold is_visible in Hc. apply negb_true_iff in Hc.
  unfold capture_after. cbn [trimStart]. change (is_space " ") with true. cbn iota.
  rewrite Hc. reflexivity.
Qed.

Lemma trimEnd_last_visible s : last_visible s = true -> trimEnd s = s.
Proof.
  induction s as [|c s IH]; [discriminate|].
  unfold last_visible. cbn [last_char]. destruct s as [|d s].
  - unfold is_visible. intros H. apply negb_true_iff in H.
    cbn [trimEnd]. rewrite H. reflexivity.
  - intros H. change (trimEnd (String c (String d s)))
      with (let t := trimEnd (String d s) in
            if is_space c && is_empty t then "" else String c t).
    rewrite (IH H). cbn. rewrite andb_false_r. reflexivity.
Qed.

Lemma trim_trimmed s : trimmed_text s = true -> trim s = s.
Proof.
  destruct s as [|c s]; [discriminate|]. unfold trimmed_text. intros H.
  apply andb_true_iff in H as [Hc Hl]. unfold trim.
  assert (E : trimStart (String c s) = String c s).
  { cbn [trimStart]. unfold is_visible in Hc. apply negb_true_iff in Hc. rewrite Hc.
    reflexivity. }
  rewrite E. apply trimEnd_last_visible, Hl.
Qed.

Lemma field_text_trimmed s : field_text s = true -> trimmed_text s = true.
Proof.
  destruct s as [|c s]; [discriminate|]. unfold field_text, trimmed_text.
  intros H. apply andb_true_iff in H as [H Hl]. apply andb_true_iff in H as [Hc _].
  rewrite Hc, Hl. reflexivity.
Qed.

Lemma field_text_line s : field_text s = true -> one_line s = true.
Proof.
  destruct s as [|c s]; [discriminate|]. unfold field_text.
  intros H. apply andb_true_iff in H as [H _]. apply andb_true_iff in H as [_ H]. exact H.
Qed.

Section Parse.
Variable json_parse : string -> option Value.

(** X23. A reply in the format the prompt asks for is read back field by
    field: when the thought and the action are single lines, no field begins
    or ends with white space, the thought contains neither label "Action:"
    nor "Action Input:" and the action does not contain "Action Input:", the
    parser returns the thought, the action, and the input as [JSON.parse]
    reads it, or as text if it does not parse. *)
Theorem parse_formatted_reply :
  forall (thought action input : string),
    field_text thought = true -> field_text action = true -> trimmed_text input = true ->
    includes "Action:" thought = false ->
    includes "Action Input:" thought = false ->
    includes "Action Input:" action = false ->
    parseReActResponse json_parse (formatted_reply thought action input)
    = (thought, action, match json_parse input with
                        | Some v => v
                        | None => VStr input
                        end).
Proof.
  intros thought action input Ht Ha Hi Hta Hti Hai.
  pose proof (field_text_line _ Ht) as Htl. pose proof (field_text_line _ Ha) as Hal.
  pose proof (trim_trimmed _ (field_text_trimmed _ Ht)) as Htt.
  pose proof (trim_trimmed _ (field_text_trimmed _ Ha)) as Hat.
  pose proof (trim_trimmed _ Hi) as Hit.
  destruct thought as [|tc tx]; [discriminate|].
  destruct action as [|ac ax]; [discriminate|].
  destruct input as [|ic ix]; [discriminate|].
  assert (Htv : is_visible tc = true).
  { unfold field_text in Ht. apply andb_true_iff in Ht as [H _].
    apply andb_true_iff in H as [H _]. exact H. }
  assert (Hav : is_visible ac = true).
  { unfold field_text in Ha. apply andb_true_iff in Ha as [H _].
    apply andb_true_iff in H as [H _]. exact H. }
  assert (Hiv : is_visible ic = true).
  { unfold trimmed_text in Hi. apply andb_true_iff in Hi as [H _]. exact H. }
  cbn [one_line] in Htl, Hal.
  apply andb_true_iff in Htl as [_ Htl]. apply andb_true_iff in Hal as [_ Hal].
  unfold parseReActResponse.
  (* the thought *)
  assert (E1 : match_label "Thought:" [nl +:+ "Action:"; nl +:+ nl]
                           (formatted_reply (String tc tx) (String ac ax) (String ic ix))
               = Some (String tc tx)).
  { unfold formatted_reply.
    change ("Thought: " +:+ String tc tx +:+ nl +:+ "Action: " +:+ String ac ax +:+ nl
            +:+ "Action Input: " +:+ String ic ix)
      with ("Thought:" +:+ (" " +:+ String tc tx
                            +:+ (nl +:+ "Action: " +:+ String ac ax +:+ nl
                                 +:+ "Action Input: " +:+ String ic ix))).
    apply match_label_here.
    change (" " +:+ String tc tx
            +:+ (nl +:+ "Action: " +:+ String ac ax +:+ nl +:+ "Action Input: "
                 +:+ String ic ix))
      with (String " " (String tc (tx +:+ nl +:+ "Action: " +:+ String ac ax +:+ nl
                                   +:+ "Action Input: " +:+ String ic ix))).
    rewrite (capture_after_space _ tc _ Htv). f_equal. f_equal.
    apply lazy_until_line; [exact Htl | repeat constructor | reflexivity]. }
  (* the action *)
  assert (E2 : match_label "Action:" [nl +:+ "Action Input:"; nl +:+ nl]
                           (formatted_reply (String tc tx) (String ac ax) (String ic ix))
               = Some (String ac ax)).
  { unfold formatted_reply.
    change ("Thought: " +:+ String tc tx +:+ nl +:+ "Action: " +:+ String ac ax +:+ nl
            +:+ "Action Input: " +:+ String ic ix)
      with (("Thought: " +:+ String tc tx) +:+ nl
            +:+ ("Action:" +:+ (" " +:+ String ac ax
                                +:+ (nl +:+ "Action Input: " +:+ String ic ix)))).
    rewrite match_label_skip_line; [|reflexivity|exact Hta].
    apply match_label_next_line; [reflexivity|discriminate|].
    change (" " +:+ String ac ax +:+ (nl +:+ "Action Input: " +:+ String ic ix))
      with (String " " (String ac (ax +:+ nl +:+ "Action Input: " +:+ String ic ix))).
    rewrite (capture_after_space _ ac _ Hav). f_equal. f_equal.
    apply lazy_until_line; [exact Hal | repeat constructor | reflexivity]. }
  (* the input *)
  assert (E3 : match_label "Action Input:" []
                           (formatted_reply (String tc tx) (String ac ax) (String ic ix))
               = Some (String ic ix)).
  { unfold formatted_reply.
    assert (Eq : "Thought: " +:+ String tc tx +:+ nl +:+ "Action: " +:+ String ac ax +:+ nl
                 +:+ "Action Input: " +:+ String ic ix
                 = ("Thought: " +:+ String tc tx +:+ nl +:+ "Action: " +:+ String ac ax)
                   +:+ nl +:+ ("Action Input:" +:+ String " " (String ic ix))).
    { rewrite !EngineFacts.append_assoc. reflexivity. }
    rewrite Eq. rewrite match_label_skip_line; [|reflexivity|].
    - apply match_label_next_line; [reflexivity|discriminate|].
      rewrite (capture_after_space _ ic ix Hiv), lazy_until_end. reflexivity.
    - rewrite <- (EngineFacts.append_assoc "Thought: " (String tc tx)).
      rewrite includes_line; [|reflexivity|discriminate].
      change (includes "Action Input:" ("Thought: " +:+ String tc tx))
        with (includes "Action Input:" (String tc tx)).
      change (includes "Action Input:" ("Action: " +:+ String ac ax))
        with (includes "Action Input:" (String ac ax)).
      rewrite Hti. cbn [orb]. exact Hai. }
  rewrite E1, E2, E3, Htt, Hat, Hit. reflexivity.
Qed.

End Parse.

Lemma parse_formatted_reply_witness :
  parseReActResponse no_parse searching_reply = ("look it up", "search", VStr "q").
Proof.
  exact (parse_formatted_reply no_parse "look it up" "search" "q"
           eq_refl eq_refl eq_refl eq_refl eq_refl eq_refl).
Defined.

End ReActExtra.

(* ===================================================================== *)
(** * More on the dependency scheduler *)
(* ===================================================================== *)

Module ServerExtra.

Import JS Types Bus Agent AgentObs Server ServerObs Examples MoreExamples AgentFacts ServerFacts AgentExtra.

Section Scheduling.

Variable agent_eval : string -> BaseAgent -> option Value.
Variable schedule : string -> list Event.

#[local] Abbreviation call_start := (Server.call_start agent_eval schedule).
#[local] Abbreviation start_each := (Server.start_each agent_eval schedule).
#[local] Abbreviation start_next := (Server.start_next agent_eval schedule).
#[local] Abbreviation workflow_start := (Server.workflow_start agent_eval schedule).
#[local] Abbreviation monitor_message := (Server.monitor_message agent_eval schedule).

Lemma getAgentByType_known t s a :
  getAgentByType t s = Some a -> includes_name t allAgents = true.
Proof.
  unfold getAgentByType, includes_name, allAgents. cbn [existsb].
  rewrite !(String.eqb_sym t).
  destruct (String.eqb "planner" t); [reflexivity|].
  destruct (String.eqb "artist" t); [reflexivity|].
  destruct (String.eqb "developer" t); [reflexivity|discriminate].
Qed.

(** A call of [start] that returns on an agent that was not running. *)
Lemma call_start_handled t m a s s' :
  getAgentByType t s = Some a -> status a <> RUNNING ->
  call_start t m a s = (s', Handled) ->
  exists a', getAgentByType t s' = Some a' /\ completed_or_in_error a'.
Proof.
  intros Hget Hs. unfold Server.call_start.
  destruct (Agent.start _ _ _ _ _ _) as [a' rest|msg a'|a' pc|] eqn:E; try discriminate.
  intros [= <-]. exists a'. split.
  - rewrite getAgentByType_update, String.eqb_refl.
    change (getAgentByType t (log_start t s)) with (getAgentByType t s).
    rewrite (getAgentByType_known t s a Hget). reflexivity.
  - eapply start_returned_final; eassumption.
Qed.

Lemma completed_not_idle a : completed_or_in_error a -> status a <> IDLE.
Proof. intros [(H & _)|(H & _)]; rewrite H; discriminate. Qed.


End Scheduling.

Section Monitoring.

Variable agent_eval : string -> BaseAgent -> option Value.
Variable schedule : string -> list Event.

#[local] Abbreviation call_start := (Server.call_start agent_eval schedule).
#[local] Abbreviation start_next := (Server.start_next agent_eval schedule).
#[local] Abbreviation monitor_message := (Server.monitor_message agent_eval schedule).

Lemma start_next_spec next : forall s,
  exists called,
    agentConnections (fst (start_next next s)) = agentConnections s
    /\ completedNodes (executionState (fst (start_next next s)))
       = completedNodes (executionState s)
    /\ start_calls (fst (start_next next s)) = start_calls s ++ called
    /\ List.NoDup called
    /\ forall t, In t called ->
         In t next
         /\ dependencies_met t s = true
         /\ exists a, getAgentByType t s = Some a /\ status a = IDLE.
Proof.
  induction next as [|t next IH]; intros s; cbn [Server.start_next].
  - exists []. rewrite app_nil_r. split; [reflexivity|]. split; [reflexivity|].
    split; [reflexivity|]. split; [constructor | intros t []].
  - assert (Hskip : exists called,
               agentConnections (fst (start_next next s)) = agentConnections s
               /\ completedNodes (executionState (fst (start_next next s)))
                  = completedNodes (executionState s)
               /\ start_calls (fst (start_next next s)) = start_calls s ++ called
               /\ List.NoDup called
               /\ forall t', In t' called ->
                    In t' (t :: next)
                    /\ dependencies_met t' s = true
                    /\ exists a, getAgentByType t' s = Some a /\ status a = IDLE).
    { destruct (IH s) as (called & H1 & H2 & H3 & H4 & H5). exists called.
      split; [exact H1|]. split; [exact H2|]. split; [exact H3|]. split; [exact H4|].
      intros t' Hin. destruct (H5 t' Hin) as (Ha & Hb & Hc).
      split; [right; exact Ha | split; [exact Hb | exact Hc]]. }
    fold (dependencies_met t s).
    destruct (dependencies_met t s) eqn:Hdeps; [|exact Hskip].
    destruct (getAgentByType t s) as [a|] eqn:Hget; [|exact Hskip].
    unfold getStatus. destruct (status_eqb (status a) IDLE) eqn:Hidle; [|exact Hskip].
    apply status_eqb_eq in Hidle.
    set (s1 := set_executionState (set_currentAgentType (Some t) (executionState s)) s).
    pose proof (call_start_effect agent_eval schedule t (Some (mode (executionState s1))) a s1)
      as Hc.
    destruct (call_start t (Some (mode (executionState s1))) a s1) as [s2 e] eqn:Ecall.
    destruct Hc as (Hcalls & (Hconn & Hes & _) & Hother).
    assert (Hone : exists called,
               agentConnections s2 = agentConnections s
               /\ completedNodes (executionState s2) = completedNodes (executionState s)
               /\ start_calls s2 = start_calls s ++ called
               /\ List.NoDup called
               /\ forall t', In t' called ->
                    In t' (t :: next)
                    /\ dependencies_met t' s = true
                    /\ exists a, getAgentByType t' s = Some a /\ status a = IDLE).
    { exists [t]. rewrite Hconn, Hes. split; [reflexivity|]. split; [reflexivity|].
      split; [exact Hcalls|]. split; [constructor; [intros []|constructor]|].
      intros t' [<-|[]]. split; [left; reflexivity|]. split; [exact Hdeps|].
      exists a. split; [exact Hget | exact Hidle]. }
    destruct e; [|exact Hone|exact Hone]. cbn [fst].
    destruct (IH s2) as (called & H1 & H2 & H3 & H4 & H5).
    assert (Hs : status a <> RUNNING) by (rewrite Hidle; discriminate).
    destruct (call_start_handled agent_eval schedule t (Some (mode (executionState s1)))
                a s1 s2 Hget Hs Ecall) as (a' & Ha' & Hf).
    assert (Hdep : forall t', dependencies_met t' s2 = dependencies_met t' s).
    { intros t'. unfold dependencies_met. rewrite Hconn, Hes. reflexivity. }
    assert (Hnot : ~ In t called).
    { intros Hin. destruct (H5 t Hin) as (_ & _ & a0 & Hg0 & Hi0).
      rewrite Ha' in Hg0. injection Hg0 as <-.
      exact (completed_not_idle a' Hf Hi0). }
    exists (t :: called). rewrite H1, H2, H3, Hcalls, Hconn, Hes, <- app_assoc.
    split; [reflexivity|]. split; [reflexivity|]. split; [reflexivity|].
    split; [constructor; assumption|].
    intros t' [<-|Hin].
    + split; [left; reflexivity|]. split; [exact Hdeps|]. exists a. split; assumption.
    + destruct (H5 t' Hin) as (Ha & Hb & a0 & Hg0 & Hi0).
      split; [right; exact Ha|]. split; [rewrite <- Hdep; exact Hb|].
      exists a0. split; [|exact Hi0]. rewrite <- Hg0. symmetry.
      change (getAgentByType t' s) with (getAgentByType t' s1).
      apply Hother. intros ->. contradiction.
Qed.


End Monitoring.



End ServerExtra.

(* ===================================================================== *)
(** * Properties of the handlers with their suspension points *)
(* ===================================================================== *)

Module TaskFacts.

Import JS Types Bus Agent Server ServerObs Tasks AgentFacts AgentExtra ServerFacts ServerExtra Examples MoreExamples.

(** ** The agent during a run *)

Lemma type_send m a : type (sendA2AMessage m a) = type a.
Proof. unfold sendA2AMessage. destruct (ws_open a); reflexivity. Qed.

Lemma type_report_steps reported : forall a,
  type (fold_left report_step reported a) = type a.
Proof.
  induction reported as [|r reported IH]; intros a; cbn [fold_left]; [reflexivity|].
  rewrite IH. unfold report_step. apply type_send.
Qed.

Lemma type_after_loop a : type (after_loop a) = type a.
Proof. unfold after_loop. destruct (goalAchieved a); [rewrite type_send|]; reflexivity. Qed.

Lemma enter_loop_type fuel : forall a a' pc,
  enter_loop fuel a = Some (a', pc) -> type a' = type a.
Proof.
  induction fuel as [|fuel IH]; intros a a' pc; cbn [enter_loop];
    (destruct (goalAchieved a || status_eqb (status a) ERROR);
     [intros [= <- _]; apply type_after_loop|]);
    (destruct (status_eqb (status a) WAITING_FOR_USER); [intros [= <- _]; reflexivity|]);
    (destruct (status_eqb (status a) WAITING_FOR_APPROVAL); [intros [= <- _]; reflexivity|]);
    (destruct (negb (status_eqb (status a) RUNNING)); [intros [= <- _]; reflexivity|]);
    (destruct (executionMode a); [intros [= <- _]; reflexivity|]);
    (destruct (askedForInitialInput a); [intros [= <- _]; reflexivity|]);
    (destruct (userMessages a); [|intros [= <- _]; reflexivity]).
  - discriminate.
  - intros H. apply IH in H. rewrite H. unfold ask_initial_input. rewrite type_send. reflexivity.
Qed.

Lemma pass_settled_type eval fuel o a a' pc :
  pass_settled eval fuel o a = Some (a', pc) -> type a' = type a.
Proof.
  destruct o as [reported context|reported message]; cbn [pass_settled].
  - match goal with |- context [executionMode ?x] => destruct (executionMode x) end.
    + intros [= <- _]. rewrite type_send. cbn. apply type_report_steps.
    + match goal with |- context [goalAchieved ?x] => destruct (goalAchieved x) end.
      * intros H. apply enter_loop_type in H. rewrite H, type_send. cbn.
        apply type_report_steps.
      * intros [= <- _]. rewrite type_send. cbn. apply type_report_steps.
  - intros [= <- _]. rewrite type_send. cbn. apply type_report_steps.
Qed.

Lemma step_type eval e a pc a' pc' :
  step eval e (a, pc) = Some (a', pc') -> type a' = type a.
Proof.
  destruct e; cbn [step].
  - destruct pc; try (intros [= <- _]; reflexivity).
    intros H. apply enter_loop_type in H. rewrite H. destruct saved; reflexivity.
  - destruct pc; try (intros [= <- _]; reflexivity). apply enter_loop_type.
  - destruct pc; try (intros [= <- _]; reflexivity). apply pass_settled_type.
  - intros [= <- _]. reflexivity.
  - intros [= <- _]. unfold handleA2AMessage. destruct (msg_type message); try reflexivity.
    destruct (truthy _); reflexivity.
  - intros [= <- _]. unfold sendUserMessage.
    match goal with |- context [if ?c then _ else _] => destruct c end; reflexivity.
  - intros [= <- _]. unfold approveArtifact.
    destruct (negb _); [reflexivity|]. destruct approved; reflexivity.
  - intros [= <- _]. reflexivity.
  - intros [= <- _]. unfold resume. destruct (status_eqb _ _); reflexivity.
  - intros [= <- _]. reflexivity.
Qed.

Lemma enter_loop_finished fuel : forall a a',
  enter_loop fuel a = Some (a', Finished) -> status a' = COMPLETED \/ status a' = ERROR.
Proof.
  induction fuel as [|fuel IH]; intros a a'; cbn [enter_loop];
    (destruct (goalAchieved a || status_eqb (status a) ERROR) eqn:E0;
     [intros [= <-]; apply orb_true_iff in E0 as [Hg|He];
      [left; apply status_after_loop_goal; exact Hg
      | unfold after_loop; destruct (goalAchieved a);
        [left; rewrite status_send; reflexivity
        | right; apply status_eqb_eq; exact He]]|]);
    (destruct (status_eqb (status a) WAITING_FOR_USER); [discriminate|]);
    (destruct (status_eqb (status a) WAITING_FOR_APPROVAL); [discriminate|]);
    (destruct (negb (status_eqb (status a) RUNNING)); [discriminate|]);
    (destruct (executionMode a); [discriminate|]);
    (destruct (askedForInitialInput a); [discriminate|]);
    (destruct (userMessages a); [|discriminate]).
  - discriminate.
  - apply IH.
Qed.

Lemma pass_settled_finished eval fuel o a a' :
  pass_settled eval fuel o a = Some (a', Finished) ->
  status a' = COMPLETED \/ status a' = ERROR.
Proof.
  destruct o as [reported context|reported message]; cbn [pass_settled].
  - match goal with |- context [executionMode ?x] => destruct (executionMode x) end;
      [discriminate|].
    match goal with |- context [goalAchieved ?x] => destruct (goalAchieved x) end;
      [apply enter_loop_finished | discriminate].
  - intros [= <-]. right. rewrite status_send. reflexivity.
Qed.

(** The run ends only with the agent completed or in error. *)
Lemma step_finished eval e a pc a' :
  pc <> Finished -> step eval e (a, pc) = Some (a', Finished) ->
  status a' = COMPLETED \/ status a' = ERROR.
Proof.
  intros Hpc. destruct e; cbn [step]; destruct pc; try congruence;
    try (intros [= _ ?]; discriminate);
    try apply enter_loop_finished; try apply pass_settled_finished.
Qed.

(** [start] is the test of RUNNING followed by the part after the read. *)
Lemma start_entry_split config initialData mode a :
  start_entry config initialData mode a
  = if status_eqb (status a) RUNNING then AlreadyRunning a
    else match start_after_read config initialData mode a with
         | Throws message a' => ConfigurationError message a'
         | Enters a' => EnterRun a'
         end.
Proof.
  unfold start_entry, start_after_read.
  destruct (status_eqb (status a) RUNNING); [reflexivity|].
  destruct (negb (configured config)); reflexivity.
Qed.

Lemma start_after_read_type config initialData mode a :
  match start_after_read config initialData mode a with
  | Throws _ a' | Enters a' => type a' = type a
  end.
Proof.
  unfold start_after_read. destruct (negb (configured config)); [reflexivity|].
  rewrite type_send. reflexivity.
Qed.

Lemma start_after_read_status config initialData mode a :
  match start_after_read config initialData mode a with
  | Throws _ a' => status a' = status a
  | Enters a' => status a' = RUNNING
  end.
Proof.
  unfold start_after_read. destruct (negb (configured config)); [reflexivity|].
  rewrite status_send. reflexivity.
Qed.


(** ** What a move changes *)

Lemma monitor_scan_state next k : forall s,
  exists e, snd (monitor_scan next k s) = set_executionState e s.
Proof.
  induction next as [|t rest IH]; intros s; cbn [monitor_scan].
  - exists (executionState s). destruct s; reflexivity.
  - destruct (dependencies_met t s); [|apply IH].
    destruct (getAgentByType t s) as [agent|]; [|apply IH].
    destruct (status_eqb (getStatus agent) IDLE); [|apply IH].
    eexists. reflexivity.
Qed.

Lemma start_scan_state m starting agents : forall k s,
  exists e, snd (start_scan m starting agents k s) = set_executionState e s.
Proof.
  induction agents as [|t rest IH]; intros k s; cbn [start_scan].
  - eexists. reflexivity.
  - destruct (getAgentByType t s) as [agent|]; [|apply IH].
    destruct (status_eqb (status agent) RUNNING); [apply IH|].
    exists (executionState s). destruct s; reflexivity.
Qed.

Lemma update_agent_setup t a s :
  agentConnections (update_agent t a s) = agentConnections s
  /\ configs (update_agent t a s) = configs s.
Proof.
  unfold update_agent.
  destruct (String.eqb t "planner"); [split; reflexivity|].
  destruct (String.eqb t "artist"); [split; reflexivity|].
  destruct (String.eqb t "developer"); split; reflexivity.
Qed.

Lemma update_agent_cases t0 t agent a' s :
  getAgentByType t0 s = Some agent ->
  getAgentByType t (update_agent t0 a' s) = getAgentByType t s
  \/ (t = t0 /\ getAgentByType t (update_agent t0 a' s) = Some a').
Proof.
  intros Hget. rewrite getAgentByType_update, (getAgentByType_known t0 s agent Hget).
  destruct (String.eqb_spec t0 t) as [<-|Hne]; cbn [andb]; auto.
Qed.

Section Frame.

Variable agent_eval : string -> BaseAgent -> option Value.

#[local] Abbreviation deliver := (Tasks.deliver agent_eval).
#[local] Abbreviation control := (Tasks.control agent_eval).
#[local] Abbreviation sys_step := (Tasks.sys_step agent_eval).
#[local] Abbreviation run_moves := (Tasks.run_moves agent_eval).
#[local] Abbreviation agent_moved := (Tasks.agent_moved agent_eval).

(** The state after a move: the execution state apart, it is the state
    before, or the state before with one agent changed. *)
Lemma resume_task_state k s :
  (exists e, snd (resume_task k s) = set_executionState e s)
  \/ exists t0 a a' e,
       getAgentByType t0 s = Some a
       /\ snd (resume_task k s) = set_executionState e (update_agent t0 a' s)
       /\ forall mv t, agent_moved mv t a a'.
Proof.
  assert (Hsame : exists e, s = set_executionState e s)
    by (exists (executionState s); destruct s; reflexivity).
  unfold resume_task. destruct (place k) as [message|c|t rest|t rest p| |m|m|m starting t rest p|m starting|r].
  - destruct (msg_type message); cbn [snd]; try (left; exact Hsame).
    destruct (negb _); [left; eexists; reflexivity|].
    left. apply monitor_scan_state.
  - left. apply monitor_scan_state.
  - destruct (getAgentByType t s) as [agent|]; [|left; apply monitor_scan_state].
    destruct (status_eqb (status agent) RUNNING); [left; apply monitor_scan_state|].
    left. exact Hsame.
  - destruct p as [m|pc]; [|left; exact Hsame].
    destruct (getAgentByType t s) as [agent|] eqn:Hget; [|left; exact Hsame].
    destruct (start_after_read _ _ _ _) as [message agent'|agent'] eqn:E; right;
      exists t, agent, agent', (executionState (update_agent t agent' s));
      (split; [exact Hget|]);
      (split; [cbn [snd]; destruct (update_agent t agent' s); reflexivity|]);
      intros mv t'; [eapply moved_threw | eapply moved_entered]; exact E.
  - left. exact Hsame.
  - left. eexists. reflexivity.
  - destruct (Nat.eqb _ _); [left; exact Hsame|]. left. apply start_scan_state.
  - destruct p as [m'|pc]; [|left; exact Hsame].
    destruct (getAgentByType t s) as [agent|] eqn:Hget; [|left; exact Hsame].
    destruct (start_after_read _ _ _ _) as [message agent'|agent'] eqn:E; right;
      exists t, agent, agent', (executionState (update_agent t agent' s));
      (split; [exact Hget|]);
      (split; [cbn [snd]; destruct (update_agent t agent' s); reflexivity|]);
      intros mv t'; [eapply moved_threw | eapply moved_entered]; exact E.
  - left. exact Hsame.
  - left. exact Hsame.
Qed.

Lemma deliver_state e k s :
  (exists x, snd (deliver e k s) = set_executionState x s)
  \/ exists t0 a a' x,
       getAgentByType t0 s = Some a
       /\ snd (deliver e k s) = set_executionState x (update_agent t0 a' s)
       /\ forall mv t, agent_moved mv t a a'.
Proof.
  assert (Hsame : exists e, s = set_executionState e s)
    by (exists (executionState s); destruct s; reflexivity).
  unfold Tasks.deliver. destruct (is_run_event e) eqn:He; [|left; exact Hsame].
  destruct (place k) as [message|c|t rest|t rest p| |m|m|m starting t rest p|m starting|r];
    try (left; exact Hsame).
  - destruct p as [m|pc]; [left; exact Hsame|].
    destruct (getAgentByType t s) as [agent|] eqn:Hget; [|left; exact Hsame].
    destruct (step agent_eval e (agent, pc)) as [[agent' pc']|] eqn:E; [|left; exact Hsame].
    right. exists t, agent, agent'.
    assert (Hm : forall mv t', agent_moved mv t' agent agent')
      by (intros mv t'; eapply moved_run; eassumption).
    destruct pc'.
    4: { destruct (monitor_scan_state rest (log_return t agent' true k)
                                      (update_agent t agent' s)) as [x Hx].
         exists x. split; [exact Hget|]. split; [exact Hx | exact Hm]. }
    all: exists (executionState (update_agent t agent' s));
      (split; [exact Hget|]); (split; [|exact Hm]);
      cbn [snd]; destruct (update_agent t agent' s); reflexivity.
  - destruct p as [m'|pc]; [left; exact Hsame|].
    destruct (getAgentByType t s) as [agent|] eqn:Hget; [|left; exact Hsame].
    destruct (step agent_eval e (agent, pc)) as [[agent' pc']|] eqn:E; [|left; exact Hsame].
    right. exists t, agent, agent'.
    assert (Hm : forall mv t', agent_moved mv t' agent agent')
      by (intros mv t'; eapply moved_run; eassumption).
    destruct pc'.
    4: { destruct (start_scan_state m starting rest (log_return t agent' true k)
                                    (update_agent t agent' s)) as [x Hx].
         exists x. split; [exact Hget|]. split; [exact Hx | exact Hm]. }
    all: exists (executionState (update_agent t agent' s));
      (split; [exact Hget|]); (split; [|exact Hm]);
      cbn [snd]; destruct (update_agent t agent' s); reflexivity.
Qed.

Lemma sys_step_tasks mv y j :
  (forall i, mv <> Resume i \/ i <> j) -> (forall i e, mv <> Deliver i e \/ i <> j) ->
  tasks (sys_step mv y) !! j = tasks y !! j.
Proof.
  intros H1 H2. destruct mv as [i|i e|t e|x|t d m|t e pc]; cbn [Tasks.sys_step];
    try reflexivity.
  - destruct (tasks y !! i); [|reflexivity]. cbn [put_task tasks].
    apply list_lookup_insert_ne. destruct (H1 i); congruence.
  - destruct (tasks y !! i); [|reflexivity]. cbn [put_task tasks].
    apply list_lookup_insert_ne. destruct (H2 i e); congruence.
Qed.

Lemma sys_step_setup mv y :
  agentConnections (shared (sys_step mv y)) = agentConnections (shared y)
  /\ configs (shared (sys_step mv y)) = configs (shared y).
Proof.
  destruct mv as [i|i e|t e|x|t d m|t e pc]; cbn [Tasks.sys_step].
  - destruct (tasks y !! i) as [k|]; [|auto]. cbn [put_task shared].
    destruct (resume_task_state k (shared y)) as [[x ->]|(t0 & a & a' & x & _ & -> & _)].
    + split; reflexivity.
    + apply (update_agent_setup t0 a' (shared y)).
  - destruct (tasks y !! i) as [k|]; [|auto]. cbn [put_task shared].
    destruct (deliver_state e k (shared y)) as [[x ->]|(t0 & a & a' & x & _ & -> & _)].
    + split; reflexivity.
    + apply (update_agent_setup t0 a' (shared y)).
  - cbn [shared]. unfold Tasks.control. destruct (is_run_event e); [auto|].
    destruct (getAgentByType t (shared y)); [|auto].
    destruct (step agent_eval e _) as [[a' pc']|]; [|auto].
    apply update_agent_setup.
  - split; reflexivity.
  - cbn [shared]. unfold started_elsewhere.
    destruct (getAgentByType t (shared y)) as [a|]; [|auto].
    destruct (start_after_read _ _ _ _); apply update_agent_setup.
  - cbn [shared]. unfold Tasks.run_elsewhere. destruct (is_run_event e); [|auto].
    destruct (getAgentByType t (shared y)); [|auto].
    destruct (step agent_eval e _) as [[a' pc']|]; [|auto].
    apply update_agent_setup.
Qed.

(** A move changes an agent only as [agent_moved] says. *)
Lemma sys_step_agent mv y t :
  getAgentByType t (shared (sys_step mv y)) = getAgentByType t (shared y)
  \/ exists a a', getAgentByType t (shared y) = Some a
                  /\ getAgentByType t (shared (sys_step mv y)) = Some a'
                  /\ agent_moved mv t a a'.
Proof.
  destruct mv as [i|i e|t0 e|x|t0 d m|t0 e pc]; cbn [Tasks.sys_step].
  - destruct (tasks y !! i) as [k|]; [|auto]. cbn [put_task shared].
    destruct (resume_task_state k (shared y)) as [[x ->]|(t0 & a & a' & x & Hget & -> & Hm)].
    + left. reflexivity.
    + change (getAgentByType t (set_executionState x (update_agent t0 a' (shared y))))
        with (getAgentByType t (update_agent t0 a' (shared y))).
      destruct (update_agent_cases t0 t a a' (shared y) Hget) as [->|[-> ->]]; [auto|].
      right. exists a, a'. auto.
  - destruct (tasks y !! i) as [k|]; [|auto]. cbn [put_task shared].
    destruct (deliver_state e k (shared y)) as [[x ->]|(t0 & a & a' & x & Hget & -> & Hm)].
    + left. reflexivity.
    + change (getAgentByType t (set_executionState x (update_agent t0 a' (shared y))))
        with (getAgentByType t (update_agent t0 a' (shared y))).
      destruct (update_agent_cases t0 t a a' (shared y) Hget) as [->|[-> ->]]; [auto|].
      right. exists a, a'. auto.
  - cbn [shared]. unfold Tasks.control. destruct (is_run_event e); [auto|].
    destruct (getAgentByType t0 (shared y)) as [a|] eqn:Hget; [|auto].
    destruct (step agent_eval e (a, Finished)) as [[a' pc']|] eqn:E; [|auto].
    destruct (update_agent_cases t0 t a a' (shared y) Hget) as [->|[-> ->]]; [auto|].
    right. exists a, a'. split; [exact Hget|]. split; [reflexivity|].
    eapply moved_called; [reflexivity | exact E].
  - left. reflexivity.
  - cbn [shared]. unfold started_elsewhere.
    destruct (getAgentByType t0 (shared y)) as [a|] eqn:Hget; [|auto].
    destruct (start_after_read _ _ _ _) as [message a'|a'] eqn:E;
      (destruct (update_agent_cases t0 t a a' (shared y) Hget) as [->|[-> ->]]; [auto|]);
      right; exists a, a'; (split; [exact Hget|]); (split; [reflexivity|]);
      [eapply moved_threw | eapply moved_entered]; exact E.
  - cbn [shared]. unfold Tasks.run_elsewhere. destruct (is_run_event e) eqn:He; [|auto].
    destruct (getAgentByType t0 (shared y)) as [a|] eqn:Hget; [|auto].
    destruct (step agent_eval e (a, pc)) as [[a' pc']|] eqn:E; [|auto].
    destruct (update_agent_cases t0 t a a' (shared y) Hget) as [->|[-> ->]]; [auto|].
    right. exists a, a'. split; [exact Hget|]. split; [reflexivity|].
    eapply moved_run; [exact He | exact E].
Qed.

Lemma agent_moved_type mv t a a' : agent_moved mv t a a' -> type a' = type a.
Proof.
  intros [config d m E|config d m message E|e pc pc' _ E|e pc' _ E].
  - pose proof (start_after_read_type config d m a) as H. rewrite E in H. exact H.
  - pose proof (start_after_read_type config d m a) as H. rewrite E in H. exact H.
  - eapply step_type. exact E.
  - eapply step_type. exact E.
Qed.

Lemma sys_step_world s0 mv y :
  same_world s0 (shared y) -> same_world s0 (shared (sys_step mv y)).
Proof.
  intros (H1 & H2 & H3). destruct (sys_step_setup mv y) as [E1 E2].
  split; [congruence|]. split; [congruence|]. intros t. rewrite <- H3.
  destruct (sys_step_agent mv y t) as [->|(a & a' & -> & -> & Hm)]; [reflexivity|].
  cbn. f_equal. eapply agent_moved_type. exact Hm.
Qed.

Lemma same_world_refl s : same_world s s.
Proof. repeat split. Qed.

(** A property of a task that its own moves keep holds after any moves:
    the other moves do not touch the task. *)
Lemma task_invariant (W : State -> Prop) (Q : Task -> Prop) (allowed : Move -> bool) :
  (forall mv y, allowed mv = true -> W (shared y) -> W (shared (sys_step mv y))) ->
  (forall k s, W s -> Q k -> Q (fst (resume_task k s))) ->
  (forall e k s, W s -> Q k -> Q (fst (deliver e k s))) ->
  forall moves y j k,
    forallb allowed moves = true -> W (shared y) -> tasks y !! j = Some k -> Q k ->
    exists k', tasks (run_moves moves y) !! j = Some k' /\ Q k'
               /\ W (shared (run_moves moves y)).
Proof.
  intros HW Hr Hd moves. induction moves as [|mv moves IH]; intros y j k Hall Hw Hj Hq.
  - exists k. auto.
  - cbn [forallb] in Hall. apply andb_true_iff in Hall as [Hmv Hall].
    cbn [Tasks.run_moves fold_left].
    assert (exists k1, tasks (sys_step mv y) !! j = Some k1 /\ Q k1) as (k1 & Hj1 & Hq1).
    { destruct mv as [i|i e|t e|x|t d m|t e pc]; cbn [Tasks.sys_step]; try (eauto; fail).
      - destruct (tasks y !! i) as [ki|] eqn:Hi; [|eauto]. cbn [put_task tasks].
        destruct (Nat.eq_dec i j) as [->|Hne].
        + rewrite list_lookup_insert_eq by (eapply lookup_lt_Some; exact Hj).
          eexists. split; [reflexivity|]. apply Hr; congruence.
        + rewrite list_lookup_insert_ne by exact Hne. eauto.
      - destruct (tasks y !! i) as [ki|] eqn:Hi; [|eauto]. cbn [put_task tasks].
        destruct (Nat.eq_dec i j) as [->|Hne].
        + rewrite list_lookup_insert_eq by (eapply lookup_lt_Some; exact Hj).
          eexists. split; [reflexivity|]. apply Hd; congruence.
        + rewrite list_lookup_insert_ne by exact Hne. eauto. }
    apply (IH (sys_step mv y) j k1 Hall (HW mv y Hmv Hw) Hj1 Hq1).
Qed.

End Frame.


(** ** The start of the workflow *)

Lemma startingAgents_connections s s0 :
  agentConnections s = agentConnections s0 -> startingAgents s = startingAgents s0.
Proof. intros H. unfold startingAgents, agentsWithDependencies. rewrite H. reflexivity. Qed.

Lemma same_world_initialised s0 s t :
  same_world s0 s -> initialised s0 t = initialised s t.
Proof.
  intros (_ & _ & H). specialize (H t). unfold initialised.
  destruct (getAgentByType t s), (getAgentByType t s0); cbn in H; congruence.
Qed.

Lemma same_world_update s0 s t a a' :
  same_world s0 s -> getAgentByType t s = Some a -> type a' = type a ->
  same_world s0 (update_agent t a' s).
Proof.
  intros (H1 & H2 & H3) Hget Ht. destruct (update_agent_setup t a' s) as [E1 E2].
  split; [congruence|]. split; [congruence|]. intros t'. rewrite <- H3.
  destruct (update_agent_cases t t' a a' s Hget) as [->|[-> ->]]; [reflexivity|].
  rewrite Hget. cbn. congruence.
Qed.

Lemma start_after_read_throws config initialData m a message a' :
  start_after_read config initialData m a = Throws message a' ->
  configured config = false /\ message = scenario_missing (type a).
Proof.
  unfold start_after_read. destruct (configured config); cbn [negb]; [discriminate|].
  intros [= <- _]. auto.
Qed.

Lemma filter_snoc_in {A} (f : A -> bool) l x :
  f x = true -> List.filter f (l ++ [x]) = List.filter f l ++ [x].
Proof. intros H. rewrite List.filter_app. cbn. rewrite H. reflexivity. Qed.

Lemma filter_snoc_out {A} (f : A -> bool) l x :
  f x = false -> List.filter f (l ++ [x]) = List.filter f l.
Proof. intros H. rewrite List.filter_app. cbn. rewrite H. apply app_nil_r. Qed.

Lemma start_scan_inv s0 m : forall agents before k s,
  same_world s0 s ->
  startingAgents s0 = before ++ agents -> startingAgents s0 <> [] ->
  Forall return_ok (returned k) ->
  called k = List.filter (initialised s0) before ->
  returned_types k = List.filter (initialised s0) before ->
  start_inv s0 m (fst (start_scan m (startingAgents s0) agents k s)).
Proof.
  induction agents as [|t rest IH]; intros before k s Hw Hsplit Hne Hok Hc Hr;
    cbn [start_scan].
  - rewrite app_nil_r in Hsplit. subst before.
    split; [exact Hok|]. unfold returned_types in *.
    cbn [fst set_place place called returned].
    split; [reflexivity|]. split; [reflexivity|]. split; [exact Hne|].
    split; [exact Hc|]. congruence.
  - assert (Hsplit' : startingAgents s0 = (before ++ [t]) ++ rest)
      by (rewrite <- app_assoc; exact Hsplit).
    pose proof (same_world_initialised s0 s t Hw) as Hinit. unfold initialised at 2 in Hinit.
    destruct (getAgentByType t s) as [agent|] eqn:Hget.
    + destruct (status_eqb (status agent) RUNNING) eqn:Hrun.
      * apply (IH (before ++ [t])); try assumption.
        -- cbn [log_return log_call returned]. apply Forall_app. split; [exact Hok|].
           constructor; [|constructor]. unfold return_ok. cbn.
           apply status_eqb_eq. exact Hrun.
        -- cbn [log_return log_call called]. rewrite filter_snoc_in by exact Hinit.
           congruence.
        -- unfold returned_types in *. cbn [log_return log_call returned].
           rewrite List.map_app, filter_snoc_in by exact Hinit. cbn. congruence.
      * split; [exact Hok|]. cbn [fst set_place log_call place called returned].
        split; [reflexivity|]. split; [reflexivity|]. split; [discriminate|].
        split; [intros m'' [= <-]; reflexivity|].
        split; [exact Hinit|]. exists before. split; [exact Hsplit|].
        split; [cbn; congruence | exact Hr].
    + apply (IH (before ++ [t])); try assumption;
        rewrite filter_snoc_out by exact Hinit; assumption.
Qed.

Lemma start_inv_resume s0 m k s :
  same_world s0 s -> start_inv s0 m k -> start_inv s0 m (fst (resume_task k s)).
Proof.
  intros Hw [Hok Hp]. unfold resume_task.
  destruct (place k) as [message|c|t rest|t rest p| |m'|m'|m' starting t rest p|m' starting|r]
    eqn:Hplace; try contradiction.
  - destruct Hp as (-> & Hc & Hr). split; [exact Hok|]. cbn. auto.
  - destruct Hp as (-> & Hc & Hr).
    rewrite (startingAgents_connections s s0) by apply Hw.
    destruct (Nat.eqb (length (startingAgents s0)) 0) eqn:E.
    + split; [exact Hok|]. cbn [fst set_place place called returned].
      apply Nat.eqb_eq in E.
      destruct (startingAgents s0); [auto|discriminate].
    + apply (start_scan_inv s0 m (startingAgents s0) [] k s Hw eq_refl).
      * intros H. rewrite H in E. discriminate.
      * exact Hok.
      * exact Hc.
      * unfold returned_types. rewrite Hr. reflexivity.
  - destruct Hp as (-> & -> & Hpc & Hmode & Hinit & before & Hsplit & Hc & Hr).
    destruct p as [m'|pc].
    + destruct (getAgentByType t s) as [agent|] eqn:Hget.
      * destruct (start_after_read _ _ _ _) as [message agent'|agent'] eqn:E.
        -- split; [exact Hok|]. cbn [fst set_place place called returned].
           apply start_after_read_throws in E as [Hconf ->].
           destruct Hw as (_ & Hcfg & Hty). specialize (Hty t). rewrite Hget in Hty.
           destruct (getAgentByType t s0) as [a0|] eqn:Hget0; [|discriminate].
           cbn in Hty. injection Hty as Hty.
           exists before, t, rest, a0. rewrite <- Hty, <- Hcfg.
           repeat split; assumption.
        -- split; [exact Hok|]. cbn [fst set_place place called returned].
           split; [reflexivity|]. split; [reflexivity|]. split; [discriminate|].
           split; [discriminate|].
           split; [exact Hinit|]. exists before. repeat split; assumption.
      * split; [exact Hok|]. cbn [fst]. rewrite Hplace.
        split; [reflexivity|]. split; [reflexivity|]. split; [discriminate|].
        split; [exact Hmode|].
        split; [exact Hinit|]. exists before. repeat split; assumption.
    + split; [exact Hok|]. cbn [fst]. rewrite Hplace.
      split; [reflexivity|]. split; [reflexivity|]. split; [exact Hpc|].
      split; [discriminate|].
      split; [exact Hinit|]. exists before. repeat split; assumption.
  - destruct Hp as (-> & -> & Hne & Hc & Hr). split; [exact Hok|].
    cbn [fst set_place place called returned]. repeat split; assumption.
  - split; [exact Hok|]. cbn [fst]. rewrite Hplace. exact Hp.
Qed.

Lemma start_inv_deliver eval s0 m e k s :
  same_world s0 s -> start_inv s0 m k -> start_inv s0 m (fst (deliver eval e k s)).
Proof.
  intros Hw [Hok Hp]. unfold deliver.
  destruct (is_run_event e); [|split; assumption].
  destruct (place k) as [message|c|t rest|t rest p| |m'|m'|m' starting t rest p|m' starting|r]
    eqn:Hplace; try contradiction;
    try (split; [exact Hok|]; cbn [fst]; rewrite Hplace; exact Hp).
  destruct p as [m''|pc];
    [split; [exact Hok|]; cbn [fst]; rewrite Hplace; exact Hp|].
  destruct (getAgentByType t s) as [agent|] eqn:Hget;
    [|split; [exact Hok|]; cbn [fst]; rewrite Hplace; exact Hp].
  destruct (step eval e (agent, pc)) as [[agent' pc']|] eqn:E;
    [|split; [exact Hok|]; cbn [fst]; rewrite Hplace; exact Hp].
  destruct Hp as (-> & -> & Hpc & _ & Hinit & before & Hsplit & Hc & Hr).
  assert (Hfin : pc' = Finished ->
                 start_inv s0 m
                   (fst (start_scan m (startingAgents s0) rest (log_return t agent' true k)
                                    (update_agent t agent' s)))).
  { intros ->. apply (start_scan_inv s0 m rest (before ++ [t])).
    - eapply same_world_update; [exact Hw | exact Hget | eapply step_type; exact E].
    - rewrite <- app_assoc. exact Hsplit.
    - rewrite Hsplit. destruct before; discriminate.
    - cbn [log_return returned]. apply Forall_app. split; [exact Hok|].
      constructor; [|constructor]. unfold return_ok. cbn.
      eapply step_finished; [|exact E]. congruence.
    - cbn [log_return called]. rewrite filter_snoc_in by exact Hinit. exact Hc.
    - unfold returned_types in *. cbn [log_return returned].
      rewrite List.map_app, filter_snoc_in by exact Hinit. cbn. congruence. }
  destruct pc'; try (apply Hfin; reflexivity);
    (split; [exact Hok|]); cbn [fst set_place place called returned];
    (split; [reflexivity|]); (split; [reflexivity|]); (split; [discriminate|]);
    (split; [discriminate|]);
    (split; [exact Hinit|]); exists before; repeat split; assumption.
Qed.

Lemma start_inv_request s0 m : start_inv s0 m (request m).
Proof. split; [constructor|]. cbn. auto. Qed.

(** The calls made so far are the first of the selected agents. *)
Lemma start_inv_prefix s0 m k :
  start_inv s0 m k -> exists rest, selected s0 = called k ++ rest.
Proof.
  intros [_ Hp]. unfold selected.
  destruct (place k) as [message|c|t rest|t rest p| |m'|m'|m' starting t rest p|m' starting|r];
    try contradiction.
  - destruct Hp as (_ & -> & _). eexists. reflexivity.
  - destruct Hp as (_ & -> & _). eexists. reflexivity.
  - destruct Hp as (_ & -> & _ & _ & Hinit & before & -> & -> & _).
    exists (List.filter (initialised s0) rest).
    rewrite List.filter_app. cbn [List.filter]. rewrite Hinit, <- app_assoc. reflexivity.
  - destruct Hp as (_ & _ & _ & -> & _). exists []. rewrite app_nil_r. reflexivity.
  - destruct r as [e|cur started|e|]; try contradiction.
    + destruct Hp as (_ & _ & -> & _). eexists. reflexivity.
    + destruct Hp as (_ & _ & _ & -> & _). exists []. rewrite app_nil_r. reflexivity.
    + destruct Hp as (before & t & rest & a0 & -> & [-> _] & Hget & _).
      exists (List.filter (initialised s0) rest).
      rewrite List.filter_app. cbn [List.filter]. unfold initialised at 2. rewrite Hget.
      rewrite <- app_assoc. reflexivity.
Qed.

(** Wherever a start of the workflow is suspended, after any moves. *)
Lemma start_task_inv eval moves y j m :
  tasks y !! j = Some (request m) ->
  exists k, tasks (run_moves eval moves y) !! j = Some k
            /\ start_inv (shared y) m k
            /\ same_world (shared y) (shared (run_moves eval moves y)).
Proof.
  intros Hj.
  apply (task_invariant eval (same_world (shared y)) (start_inv (shared y) m)
                        (fun _ => true)) with (k := request m).
  - intros mv y' _. apply sys_step_world.
  - intros k s. apply start_inv_resume.
  - intros e k s. apply start_inv_deliver.
  - apply forallb_forall. reflexivity.
  - apply same_world_refl.
  - exact Hj.
  - apply start_inv_request.
Qed.

Lemma start_after_read_enters config initialData m a :
  configured config = true ->
  exists a',
    start_after_read config initialData m a = Enters a'
    /\ status a' = RUNNING /\ goalAchieved a' = false
    /\ executionMode a' = default automatic m
    /\ agentConfig a' = config
    /\ (ws_open a = true -> AgentObs.last_sent_type a' = Some AGENT_START).
Proof.
  intros Hc. unfold start_after_read. rewrite Hc. cbn [negb]. eexists.
  split; [reflexivity|]. rewrite status_send, goalAchieved_send.
  split; [reflexivity|]. split; [reflexivity|].
  split; [unfold sendA2AMessage; destruct (ws_open _); reflexivity|].
  split; [unfold sendA2AMessage; destruct (ws_open _); reflexivity|].
  intros Hopen. apply last_sent_send. exact Hopen.
Qed.

Lemma start_after_read_unconfigured config initialData m a :
  configured config = false ->
  start_after_read config initialData m a
  = Throws (scenario_missing (type a)) (set_agentConfig config a).
Proof. intros Hc. unfold start_after_read. rewrite Hc. reflexivity. Qed.

Lemma sys_step_resume eval y j k :
  tasks y !! j = Some k ->
  tasks (sys_step eval (Resume j) y) !! j = Some (fst (resume_task k (shared y)))
  /\ shared (sys_step eval (Resume j) y) = snd (resume_task k (shared y)).
Proof.
  intros Hj. cbn [sys_step]. rewrite Hj. cbn [put_task tasks shared].
  split; [|reflexivity]. apply list_lookup_insert_eq. eapply lookup_lt_Some. exact Hj.
Qed.

Lemma run_moves_app eval a b y :
  run_moves eval (a ++ b) y = run_moves eval b (run_moves eval a y).
Proof. apply fold_left_app. Qed.

Lemma deliver_elsewhere eval e k s :
  pending k = None -> fst (deliver eval e k s) = k.
Proof.
  unfold deliver, pending. destruct (is_run_event e); [|reflexivity].
  destruct (place k); try reflexivity; discriminate.
Qed.

(** Without a starting agent the handler answers 400 at its second
    resumption, whatever happens in between. *)
Lemma no_starting_agent_answer eval y j m ms1 ms2 ms3 :
  tasks y !! j = Some (request m) ->
  startingAgents (shared y) = [] ->
  exists k,
    tasks (run_moves eval (ms1 ++ Resume j :: ms2 ++ Resume j :: ms3) y) !! j = Some k
    /\ place k = StartAnswered (BadRequest "No starting agents found")
    /\ called k = [].
Proof.
  intros Hj Hnone.
  set (s0 := shared y).
  set (W := fun s => same_world s0 s).
  set (Q0 := fun k => called k = []
                      /\ (place k = StartReceived m \/ place k = StartReset m
                          \/ place k = StartAnswered (BadRequest "No starting agents found"))).
  set (Q1 := fun k => called k = []
                      /\ (place k = StartReset m
                          \/ place k = StartAnswered (BadRequest "No starting agents found"))).
  set (Q2 := fun k => called k = []
                      /\ place k = StartAnswered (BadRequest "No starting agents found")).
  assert (HW : forall mv y', (fun _ : Move => true) mv = true -> W (shared y') ->
                             W (shared (sys_step eval mv y')))
    by (intros mv y' _; apply sys_step_world).
  assert (Hres : forall k s, W s -> Q0 k ->
                             (place k = StartReceived m -> Q1 (fst (resume_task k s)))
                             /\ (Q1 k -> Q2 (fst (resume_task k s)))
                             /\ (Q2 k -> Q2 (fst (resume_task k s)))).
  { unfold Q0, Q1, Q2, W. intros k s Hw [Hc Hp]. unfold resume_task.
    split; [|split].
    - intros ->. cbn. auto.
    - intros [_ [E|E]]; rewrite E; cbn [fst].
      + rewrite (startingAgents_connections s s0) by apply Hw.
        unfold s0. rewrite Hnone. cbn. auto.
      + rewrite E. auto.
    - intros [_ E]. rewrite E. cbn [fst]. rewrite E. auto. }
  assert (Q10 : forall k, Q1 k -> Q0 k) by (intros k [? [?|?]]; split; auto).
  assert (Q21 : forall k, Q2 k -> Q1 k) by (intros k [? ?]; split; auto).
  assert (Hdel : forall e k s, Q0 k -> fst (deliver eval e k s) = k).
  { intros e k s [_ Hp]. apply deliver_elsewhere. unfold pending.
    destruct Hp as [->|[->| ->]]; reflexivity. }
  assert (Hall : forall ms, forallb (fun _ : Move => true) ms = true)
    by (intros ms; apply forallb_forall; reflexivity).
  rewrite run_moves_app.
  destruct (task_invariant eval W Q0 (fun _ => true) HW) with (moves := ms1) (y := y) (j := j)
    (k := request m) as (k1 & Hk1 & Hq1 & Hw1).
  { intros k s Hw Hq. destruct (Hres k s Hw Hq) as (H1 & H2 & H3).
    destruct Hq as [Hc [E|[E|E]]]; apply Q10; [apply H1, E | | ].
    - apply Q21, H2. split; auto.
    - apply Q21, H3. split; auto. }
  { intros e k s _ Hq. rewrite Hdel by exact Hq. exact Hq. }
  { apply Hall. } { apply same_world_refl. } { exact Hj. }
  { split; [reflexivity|]. left. reflexivity. }
  change (run_moves eval (Resume j :: ms2 ++ Resume j :: ms3) (run_moves eval ms1 y))
    with (run_moves eval (ms2 ++ Resume j :: ms3)
                    (sys_step eval (Resume j) (run_moves eval ms1 y))).
  destruct (sys_step_resume eval _ j k1 Hk1) as [Hk2 Hs2].
  assert (Hq2 : Q1 (fst (resume_task k1 (shared (run_moves eval ms1 y))))).
  { destruct (Hres k1 _ Hw1 Hq1) as (H1 & H2 & H3).
    destruct Hq1 as [Hc [E|[E|E]]]; [apply H1, E | apply Q21, H2; split; auto
                                     | apply Q21, H3; split; auto]. }
  assert (Hw2 : W (shared (sys_step eval (Resume j) (run_moves eval ms1 y))))
    by (apply sys_step_world; exact Hw1).
  rewrite run_moves_app.
  destruct (task_invariant eval W Q1 (fun _ => true) HW) with (moves := ms2)
    (y := sys_step eval (Resume j) (run_moves eval ms1 y)) (j := j)
    (k := fst (resume_task k1 (shared (run_moves eval ms1 y)))) as (k3 & Hk3 & Hq3 & Hw3).
  { intros k s Hw Hq. destruct (Hres k s Hw (Q10 k Hq)) as (H1 & H2 & H3).
    apply Q21, H2, Hq. }
  { intros e k s _ Hq. rewrite Hdel by (apply Q10; exact Hq). exact Hq. }
  { apply Hall. } { exact Hw2. } { exact Hk2. } { exact Hq2. }
  change (run_moves eval (Resume j :: ms3) ?z)
    with (run_moves eval ms3 (sys_step eval (Resume j) z)).
  destruct (sys_step_resume eval _ j k3 Hk3) as [Hk4 Hs4].
  destruct (task_invariant eval W Q2 (fun _ => true) HW) with (moves := ms3)
    (y := sys_step eval (Resume j)
            (run_moves eval ms2 (sys_step eval (Resume j) (run_moves eval ms1 y)))) (j := j)
    (k := fst (resume_task k3 (shared (run_moves eval ms2
                 (sys_step eval (Resume j) (run_moves eval ms1 y))))))
    as (k5 & Hk5 & Hq5 & _).
  { intros k s Hw Hq. destruct (Hres k s Hw (Q10 k (Q21 k Hq))) as (H1 & H2 & H3).
    apply H3, Hq. }
  { intros e k s _ Hq. rewrite Hdel by (apply Q10, Q21; exact Hq). exact Hq. }
  { apply Hall. } { apply sys_step_world. exact Hw3. } { exact Hk4. }
  { destruct (Hres k3 _ Hw3 (Q10 k3 Hq3)) as (H1 & H2 & H3). apply H2, Hq3. }
  exists k5. destruct Hq5 as [Hc Hp]. auto.
Qed.


(** X24. The handler of POST /api/workflow/start awaits each call of
    [start] before it makes the next.  Whatever other handlers, runs and
    calls from outside take their turns in between, at every moment the
    calls it has made have all returned, except possibly the last one, which
    it is still awaiting or which has thrown and ended the handler with 500;
    when it answers that the workflow has started, every call has returned.
    A call that had entered [run] returned with the agent completed or in
    error at that instant, and a call that returned at once had found the
    agent running.  (What [stop] or [pause] do to a finished agent afterwards
    is not undone by the answer.) *)
Theorem workflow_start_answers_after_the_runs :
  forall (agent_eval : string -> BaseAgent -> option Value) (y : System) (j : nat)
         (m : option ExecutionMode) (moves : list Move),
    tasks y !! j = Some (request m) ->
    exists k,
      tasks (run_moves agent_eval moves y) !! j = Some k
      /\ Forall return_ok (returned k)
      /\ (called k = returned_types k
          \/ exists t, called k = returned_types k ++ [t]
                       /\ (pending k = Some t \/ exists e, answer k = Some (InternalError e)))
      /\ (forall cur started,
             answer k = Some (WorkflowStarted cur started) -> returned_types k = called k).
Proof.
  intros agent_eval y j m moves Hj.
  destruct (start_task_inv agent_eval moves y j m Hj) as (k & Hk & [Hok Hp] & _).
  exists k. split; [exact Hk|]. split; [exact Hok|]. unfold answer, pending. split.
  - destruct (place k) as [message|c|t rest|t rest p| |m'|m'|m' starting t rest p|m' starting|r];
      try contradiction.
    + destruct Hp as (_ & -> & Hr). left. unfold returned_types. rewrite Hr. reflexivity.
    + destruct Hp as (_ & -> & Hr). left. unfold returned_types. rewrite Hr. reflexivity.
    + destruct Hp as (_ & _ & _ & _ & _ & before & _ & -> & ->). right. exists t. auto.
    + destruct Hp as (_ & _ & _ & _ & ->). left. reflexivity.
    + destruct r as [e|cur started|e|]; try contradiction.
      * destruct Hp as (_ & _ & -> & Hr). left. unfold returned_types. rewrite Hr. reflexivity.
      * destruct Hp as (_ & _ & _ & _ & ->). left. reflexivity.
      * destruct Hp as (before & t & rest & a0 & _ & [-> ->] & _). right. exists t.
        split; [reflexivity|]. right. exists e. reflexivity.
  - intros cur started. destruct (place k); try discriminate. intros [= ->].
    destruct Hp as (_ & _ & _ & _ & H). exact H.
Qed.

(** ** The monitor with the single connection P -> Q *)

Lemma successors_single P Q s :
  agentConnections s = [mkConnection P Q] -> successors P s = [Q].
Proof. intros H. unfold successors. rewrite H. cbn. rewrite String.eqb_refl. reflexivity. Qed.

Lemma dependencies_met_single P Q s :
  agentConnections s = [mkConnection P Q] ->
  dependencies_met Q s = includes_name P (completedNodes (executionState s)).
Proof.
  intros H. unfold dependencies_met. rewrite H. cbn. rewrite String.eqb_refl. cbn.
  apply andb_true_r.
Qed.

Lemma monitor_scan_single Q k s :
  fst (monitor_scan [Q] k s) = set_place (MonitorGuarded Q []) k
  \/ fst (monitor_scan [Q] k s) = set_place (MonitorEnded None) k.
Proof.
  cbn [monitor_scan]. destruct (dependencies_met Q s); [|right; reflexivity].
  destruct (getAgentByType Q s) as [agent|]; [|right; reflexivity].
  destruct (status_eqb (getStatus agent) IDLE); [left|right]; reflexivity.
Qed.

Lemma monitor_scan_busy P Q k s :
  successor_busy P Q s -> monitor_scan [Q] k s = (set_place (MonitorEnded None) k, s).
Proof.
  intros [_ Hbusy]. cbn [monitor_scan]. destruct (dependencies_met Q s); [|reflexivity].
  destruct (getAgentByType Q s) as [agent|]; [|reflexivity].
  unfold getStatus. rewrite (proj2 (status_eqb_neq _ _) (Hbusy agent eq_refl)). reflexivity.
Qed.

Lemma monitor_scan_idle P Q k s a :
  agentConnections s = [mkConnection P Q] ->
  includes_name P (completedNodes (executionState s)) = true ->
  getAgentByType Q s = Some a -> status a = IDLE ->
  monitor_scan [Q] k s
  = (set_place (MonitorGuarded Q []) k,
     set_executionState (set_currentAgentType (Some Q) (executionState s)) s).
Proof.
  intros Hc Hin Hget Hidle. cbn [monitor_scan].
  rewrite (dependencies_met_single P Q s Hc), Hin, Hget. unfold getStatus. rewrite Hidle.
  reflexivity.
Qed.

Lemma monitor_inv_resume P Q k s :
  agentConnections s = [mkConnection P Q] ->
  monitor_inv P Q k -> monitor_inv P Q (fst (resume_task k s)).
Proof.
  intros Hc. unfold monitor_inv at 1, resume_task.
  destruct (place k) as [message|c|t rest|t rest p|e|m'|m'|m' starting t rest p|m' starting|r]
    eqn:Hplace; try contradiction.
  - intros [Hfrom Hcalled]. destruct (msg_type message) eqn:Hty;
      try (unfold monitor_inv; cbn; left; exact Hcalled).
    rewrite (Hfrom eq_refl). destruct (negb _).
    + unfold monitor_inv. cbn. auto.
    + rewrite (successors_single P Q s Hc).
      destruct (monitor_scan_single Q k s) as [-> | ->]; unfold monitor_inv; cbn; auto.
  - intros [-> Hcalled]. rewrite (successors_single P Q s Hc).
    destruct (monitor_scan_single Q k s) as [-> | ->]; unfold monitor_inv; cbn; auto.
  - intros (-> & -> & Hcalled). destruct (getAgentByType Q s) as [agent|].
    + destruct (status_eqb (status agent) RUNNING); unfold monitor_inv; cbn;
        rewrite Hcalled; auto.
    + unfold monitor_inv. cbn. auto.
  - intros (-> & -> & Hcalled). destruct p as [m|pc].
    + destruct (getAgentByType Q s) as [agent|].
      * destruct (start_after_read _ _ _ _); unfold monitor_inv; cbn; auto.
      * unfold monitor_inv. cbn [fst]. rewrite Hplace. auto.
    + unfold monitor_inv. cbn [fst]. rewrite Hplace. auto.
  - intros H. unfold monitor_inv. cbn [fst]. rewrite Hplace. exact H.
Qed.

Lemma monitor_inv_deliver eval P Q e k s :
  monitor_inv P Q k -> monitor_inv P Q (fst (deliver eval e k s)).
Proof.
  unfold deliver. destruct (is_run_event e); [|auto].
  unfold monitor_inv at 1.
  destruct (place k) as [message|c|t rest|t rest p|x|m'|m'|m' starting t rest p|m' starting|r]
    eqn:Hplace; try contradiction;
    try (intros H; unfold monitor_inv; cbn [fst]; rewrite Hplace; exact H).
  intros (-> & -> & Hcalled).
  destruct p as [m|pc]; [unfold monitor_inv; cbn [fst]; rewrite Hplace; auto|].
  destruct (getAgentByType Q s) as [agent|];
    [|unfold monitor_inv; cbn [fst]; rewrite Hplace; auto].
  destruct (step eval e (agent, pc)) as [[agent' pc']|];
    [|unfold monitor_inv; cbn [fst]; rewrite Hplace; auto].
  destruct pc'; unfold monitor_inv; cbn; auto.
Qed.

Lemma monitor_quiet_resume P Q k s :
  successor_busy P Q s -> monitor_quiet P k -> monitor_quiet P (fst (resume_task k s)).
Proof.
  intros Hb. pose proof Hb as [Hc _]. unfold monitor_quiet at 1, resume_task.
  destruct (place k) as [message|c|t rest|t rest p|e|m'|m'|m' starting t rest p|m' starting|r]
    eqn:Hplace; try contradiction.
  - intros [Hfrom Hcalled]. destruct (msg_type message) eqn:Hty;
      try (unfold monitor_quiet; cbn; exact Hcalled).
    rewrite (Hfrom eq_refl). destruct (negb _).
    + unfold monitor_quiet. cbn. auto.
    + rewrite (successors_single P Q s Hc), (monitor_scan_busy P Q k s Hb).
      unfold monitor_quiet. cbn. exact Hcalled.
  - intros [-> Hcalled].
    rewrite (successors_single P Q s Hc), (monitor_scan_busy P Q k s Hb).
    unfold monitor_quiet. cbn. exact Hcalled.
  - intros H. unfold monitor_quiet. cbn [fst]. rewrite Hplace. exact H.
Qed.

Lemma monitor_quiet_deliver eval P e k s :
  monitor_quiet P k -> fst (deliver eval e k s) = k.
Proof.
  intros H. apply deliver_elsewhere. unfold monitor_quiet in H. unfold pending.
  destruct (place k); try contradiction; reflexivity.
Qed.

Lemma agent_moved_not_idle eval mv Q a a' :
  (match mv with Control t' CallStop => negb (String.eqb t' Q) | _ => true end) = true ->
  agent_moved eval mv Q a a' -> status a <> IDLE -> status a' <> IDLE.
Proof.
  intros Hallowed [config d m E|config d m message E|e pc pc' He E|e pc' -> E] Hs.
  - pose proof (start_after_read_status config d m a) as H. rewrite E in H.
    rewrite H. discriminate.
  - pose proof (start_after_read_status config d m a) as H. rewrite E in H.
    rewrite H. exact Hs.
  - eapply step_not_idle; [|exact Hs|exact E]. intros ->. discriminate.
  - eapply step_not_idle; [|exact Hs|exact E]. intros ->.
    rewrite String.eqb_refl in Hallowed. discriminate.
Qed.

Lemma sys_step_busy eval P Q mv y :
  (match mv with Control t' CallStop => negb (String.eqb t' Q) | _ => true end) = true ->
  successor_busy P Q (shared y) -> successor_busy P Q (shared (sys_step eval mv y)).
Proof.
  intros Hallowed [Hc Hb]. destruct (sys_step_setup eval mv y) as [E1 _].
  split; [congruence|].
  destruct (sys_step_agent eval mv y Q) as [->|(a & a' & Ha & -> & Hm)]; [exact Hb|].
  intros a'' [= <-]. eapply agent_moved_not_idle; [exact Hallowed | exact Hm | auto].
Qed.

Lemma sys_step_connections eval (c : list AgentConnection) mv y :
  agentConnections (shared y) = c -> agentConnections (shared (sys_step eval mv y)) = c.
Proof. intros H. destruct (sys_step_setup eval mv y) as [E _]. congruence. Qed.

(** An observation of the completion of P calls [start] on Q only, and at
    most once. *)
Lemma observation_inv eval P Q moves y i k :
  agentConnections (shared y) = [mkConnection P Q] ->
  tasks y !! i = Some k -> monitor_inv P Q k ->
  exists k', tasks (run_moves eval moves y) !! i = Some k' /\ monitor_inv P Q k'.
Proof.
  intros Hc Hi Hinv.
  destruct (task_invariant eval (fun s => agentConnections s = [mkConnection P Q])
                           (monitor_inv P Q) (fun _ => true)) with
    (moves := moves) (y := y) (j := i) (k := k) as (k' & Hk' & Hq & _); try assumption.
  - intros mv y' _. apply sys_step_connections.
  - intros k0 s. apply monitor_inv_resume.
  - intros e k0 s _. apply monitor_inv_deliver.
  - apply forallb_forall. reflexivity.
  - exists k'. auto.
Qed.

(** While Q is not idle an observation of the completion of P calls
    nothing. *)
Lemma observation_quiet eval P Q moves y i k :
  successor_busy P Q (shared y) -> no_stop_on Q moves = true ->
  tasks y !! i = Some k -> monitor_quiet P k ->
  exists k', tasks (run_moves eval moves y) !! i = Some k' /\ monitor_quiet P k'
             /\ successor_busy P Q (shared (run_moves eval moves y)).
Proof.
  intros Hb Hns Hi Hq.
  apply (task_invariant eval (successor_busy P Q) (monitor_quiet P)
           (fun mv => match mv with
                      | Control t' CallStop => negb (String.eqb t' Q)
                      | _ => true
                      end)) with (k := k); try assumption.
  - intros mv y'. apply sys_step_busy.
  - intros k0 s. apply monitor_quiet_resume.
  - intros e k0 s _ H. rewrite (monitor_quiet_deliver eval P e k0 s H). exact H.
Qed.

(** ** A task resumed in a row *)

Lemma run_resumes eval n : forall y i k,
  tasks y !! i = Some k ->
  tasks (run_moves eval (repeat (Resume i) n) y) !! i
  = Some (fst (resume_times n k (shared y)))
  /\ shared (run_moves eval (repeat (Resume i) n) y) = snd (resume_times n k (shared y))
  /\ forall i', i' <> i ->
                tasks (run_moves eval (repeat (Resume i) n) y) !! i' = tasks y !! i'.
Proof.
  induction n as [|n IH]; intros y i k Hi.
  - cbn. auto.
  - cbn [repeat resume_times].
    change (run_moves eval (Resume i :: repeat (Resume i) n) y)
      with (run_moves eval (repeat (Resume i) n) (sys_step eval (Resume i) y)).
    destruct (sys_step_resume eval y i k Hi) as [Hk Hs].
    destruct (IH _ i _ Hk) as (H1 & H2 & H3). rewrite Hs in H1, H2.
    destruct (resume_task k (shared y)) as [k' s'] eqn:E. cbn [fst snd] in *.
    split; [exact H1|]. split; [exact H2|]. intros i' Hne. rewrite (H3 i' Hne).
    apply sys_step_tasks; intros; [|left; discriminate].
    destruct (Nat.eq_dec i0 i') as [->|]; [left; congruence | right; assumption].
Qed.

Lemma resume_received_new message k s :
  place k = MonitorReceived message -> msg_type message = AGENT_COMPLETE ->
  includes_name (msg_from message) (completedNodes (executionState s)) = false ->
  resume_task k s
  = (set_place (MonitorMarked (msg_from message)) k,
     set_executionState
       (set_completedNodes (completedNodes (executionState s) ++ [msg_from message])
                           (executionState s)) s).
Proof. intros Hp Ht Hin. unfold resume_task. rewrite Hp, Ht, Hin. reflexivity. Qed.

Lemma resume_received_known message k s :
  place k = MonitorReceived message -> msg_type message = AGENT_COMPLETE ->
  includes_name (msg_from message) (completedNodes (executionState s)) = true ->
  resume_task k s = monitor_scan (successors (msg_from message) s) k s.
Proof. intros Hp Ht Hin. unfold resume_task. rewrite Hp, Ht, Hin. reflexivity. Qed.

Lemma resume_marked c k s :
  place k = MonitorMarked c -> resume_task k s = monitor_scan (successors c s) k s.
Proof. intros Hp. unfold resume_task. rewrite Hp. reflexivity. Qed.

(** The call of [start] follows the save without a second look at the
    status: only a running agent makes it return at once. *)
Lemma resume_guarded t rest k s a :
  place k = MonitorGuarded t rest -> getAgentByType t s = Some a -> status a <> RUNNING ->
  resume_task k s
  = (set_place (MonitorStarting t rest (ReadingConfig (Some (mode (executionState s)))))
               (log_call t k), s).
Proof.
  intros Hp Hget Hs. unfold resume_task. rewrite Hp, Hget.
  rewrite (proj2 (status_eqb_neq _ _) Hs). reflexivity.
Qed.

Lemma resume_reading t rest m k s a a' :
  place k = MonitorStarting t rest (ReadingConfig m) -> getAgentByType t s = Some a ->
  start_after_read (omap_get (type a) (configs s)) [] m a = Enters a' ->
  resume_task k s
  = (set_place (MonitorStarting t rest (InRun LoadingWorkflow)) k, update_agent t a' s).
Proof. intros Hp Hget E. unfold resume_task. rewrite Hp, Hget, E. reflexivity. Qed.

Lemma resume_in_run t rest pc k s :
  place k = MonitorStarting t rest (InRun pc) -> resume_task k s = (k, s).
Proof. intros Hp. unfold resume_task. rewrite Hp. reflexivity. Qed.

Lemma includes_name_last x l : includes_name x (l ++ [x]) = true.
Proof. apply includes_name_In, in_or_app. right. left. reflexivity. Qed.

Lemma resume_times_S n k s :
  resume_times (S n) k s = resume_times n (fst (resume_task k s)) (snd (resume_task k s)).
Proof. cbn [resume_times]. destruct (resume_task k s). reflexivity. Qed.

Lemma resume_times_add n m : forall k s,
  resume_times (n + m) k s
  = resume_times m (fst (resume_times n k s)) (snd (resume_times n k s)).
Proof.
  induction n as [|n IH]; intros k s; [reflexivity|].
  cbn [Nat.add]. rewrite !resume_times_S. apply IH.
Qed.

(** From the guard to the entry of the run, without anything in between. *)
Lemma guarded_then_started P Q k s a :
  place k = MonitorGuarded Q [] -> called k = [] -> returned k = [] ->
  agentConnections s = [mkConnection P Q] ->
  getAgentByType Q s = Some a -> status a <> RUNNING ->
  configured (omap_get (type a) (configs s)) = true ->
  exists s' a',
    resume_times 2 k s = (mkTask (MonitorStarting Q [] (InRun LoadingWorkflow)) [Q] [], s')
    /\ agentConnections s' = [mkConnection P Q]
    /\ getAgentByType Q s' = Some a'
    /\ status a' = RUNNING /\ goalAchieved a' = false
    /\ (ws_open a = true -> AgentObs.last_sent_type a' = Some AGENT_START).
Proof.
  intros Hp Hcalled Hret Hc Hget Hnr Hconf.
  destruct (start_after_read_enters (omap_get (type a) (configs s)) []
              (Some (mode (executionState s))) a Hconf)
    as (a' & E & H1 & H2 & _ & _ & H3).
  exists (update_agent Q a' s), a'. cbn [resume_times].
  rewrite (resume_guarded Q [] k s a Hp Hget Hnr).
  rewrite (resume_reading Q [] (Some (mode (executionState s)))
             (set_place (MonitorStarting Q [] (ReadingConfig (Some (mode (executionState s)))))
                        (log_call Q k)) s a a' eq_refl Hget E).
  split; [unfold set_place, log_call; cbn [place called returned];
          rewrite Hcalled, Hret; reflexivity|].
  split; [destruct (update_agent_setup Q a' s) as [-> _]; exact Hc|].
  split; [|auto].
  rewrite getAgentByType_update, String.eqb_refl, (getAgentByType_known Q s a Hget).
  reflexivity.
Qed.

(** The first observation, handled without anything in between up to the
    entry of the run of Q. *)
Lemma observation_alone P Q message s a :
  agentConnections s = [mkConnection P Q] ->
  msg_type message = AGENT_COMPLETE -> msg_from message = P ->
  getAgentByType Q s = Some a -> status a = IDLE ->
  configured (omap_get (type a) (configs s)) = true ->
  exists s' a',
    resume_times 4 (observation message) s
    = (mkTask (MonitorStarting Q [] (InRun LoadingWorkflow)) [Q] [], s')
    /\ agentConnections s' = [mkConnection P Q]
    /\ getAgentByType Q s' = Some a'
    /\ status a' = RUNNING /\ goalAchieved a' = false
    /\ (ws_open a = true -> AgentObs.last_sent_type a' = Some AGENT_START).
Proof.
  intros Hc Hty Hfrom Hget Hidle Hconf.
  assert (Hnr : status a <> RUNNING) by (rewrite Hidle; discriminate).
  destruct (includes_name P (completedNodes (executionState s))) eqn:Hin.
  - (* P is already among the completed nodes: three steps, and one that does nothing *)
    set (s1 := set_executionState (set_currentAgentType (Some Q) (executionState s)) s).
    destruct (guarded_then_started P Q (set_place (MonitorGuarded Q []) (observation message))
                s1 a eq_refl eq_refl eq_refl Hc Hget Hnr Hconf)
      as (s' & a' & E & H).
    exists s', a'. split; [|exact H].
    rewrite (resume_times_S 3).
    rewrite (resume_received_known message (observation message) s eq_refl Hty)
      by (rewrite Hfrom; exact Hin).
    rewrite Hfrom, (successors_single P Q s Hc).
    rewrite (monitor_scan_idle P Q (observation message) s a Hc Hin Hget Hidle).
    cbn [fst snd]. fold s1. change 3 with (2 + 1). rewrite resume_times_add, E.
    cbn [fst snd]. rewrite (resume_times_S 0).
    rewrite (resume_in_run Q [] LoadingWorkflow
               (mkTask (MonitorStarting Q [] (InRun LoadingWorkflow)) [Q] []) s' eq_refl).
    reflexivity.
  - set (s1 := set_executionState
                 (set_completedNodes (completedNodes (executionState s) ++ [P])
                                     (executionState s)) s).
    set (s2 := set_executionState (set_currentAgentType (Some Q) (executionState s1)) s1).
    destruct (guarded_then_started P Q
                (set_place (MonitorGuarded Q [])
                           (set_place (MonitorMarked P) (observation message)))
                s2 a eq_refl eq_refl eq_refl Hc Hget Hnr Hconf)
      as (s' & a' & E & H).
    exists s', a'. split; [|exact H].
    rewrite (resume_times_S 3).
    rewrite (resume_received_new message (observation message) s eq_refl Hty)
      by (rewrite Hfrom; exact Hin).
    rewrite Hfrom. cbn [fst snd]. fold s1. rewrite (resume_times_S 2).
    rewrite (resume_marked P (set_place (MonitorMarked P) (observation message)) s1 eq_refl).
    rewrite (successors_single P Q s1 Hc).
    rewrite (monitor_scan_idle P Q _ s1 a Hc (includes_name_last P _) Hget Hidle).
    cbn [fst snd]. fold s2. exact E.
Qed.

(** ** The calls of a task are a log *)

Lemma monitor_scan_called next k : forall s,
  called (fst (monitor_scan next k s)) = called k.
Proof.
  induction next as [|t rest IH]; intros s; cbn [monitor_scan]; [reflexivity|].
  destruct (dependencies_met t s); [|apply IH].
  destruct (getAgentByType t s) as [agent|]; [|apply IH].
  destruct (status_eqb (getStatus agent) IDLE); [reflexivity|apply IH].
Qed.

Lemma start_scan_called m starting agents : forall k s,
  exists extra, called (fst (start_scan m starting agents k s)) = called k ++ extra.
Proof.
  induction agents as [|t rest IH]; intros k s; cbn [start_scan].
  - exists []. rewrite app_nil_r. reflexivity.
  - destruct (getAgentByType t s) as [agent|]; [|apply IH].
    destruct (status_eqb (status agent) RUNNING).
    + destruct (IH (log_return t agent false (log_call t k)) s) as [extra ->].
      exists (t :: extra). cbn. rewrite <- app_assoc. reflexivity.
    + exists [t]. reflexivity.
Qed.

Lemma resume_called k s : exists extra, called (fst (resume_task k s)) = called k ++ extra.
Proof.
  assert (Hsame : exists extra, called k = called k ++ extra)
    by (exists []; rewrite app_nil_r; reflexivity).
  unfold resume_task.
  destruct (place k) as [message|c|t rest|t rest p|e|m'|m'|m' starting t rest p|m' starting|r].
  - destruct (msg_type message); try exact Hsame.
    destruct (negb _); [exact Hsame|]. rewrite monitor_scan_called. exact Hsame.
  - rewrite monitor_scan_called. exact Hsame.
  - destruct (getAgentByType t s) as [agent|]; [|rewrite monitor_scan_called; exact Hsame].
    destruct (status_eqb (status agent) RUNNING).
    + rewrite monitor_scan_called. exists [t]. reflexivity.
    + exists [t]. reflexivity.
  - destruct p as [m|pc]; [|exact Hsame].
    destruct (getAgentByType t s) as [agent|]; [|exact Hsame].
    destruct (start_after_read _ _ _ _); exact Hsame.
  - exact Hsame.
  - exact Hsame.
  - destruct (Nat.eqb _ _); [exact Hsame|]. apply start_scan_called.
  - destruct p as [m|pc]; [|exact Hsame].
    destruct (getAgentByType t s) as [agent|]; [|exact Hsame].
    destruct (start_after_read _ _ _ _); exact Hsame.
  - exact Hsame.
  - exact Hsame.
Qed.

Lemma deliver_called eval e k s :
  exists extra, called (fst (deliver eval e k s)) = called k ++ extra.
Proof.
  assert (Hsame : exists extra, called k = called k ++ extra)
    by (exists []; rewrite app_nil_r; reflexivity).
  unfold deliver. destruct (is_run_event e); [|exact Hsame].
  destruct (place k) as [message|c|t rest|t rest p|x|m'|m'|m' starting t rest p|m' starting|r];
    try exact Hsame.
  - destruct p as [m|pc]; [exact Hsame|].
    destruct (getAgentByType t s) as [agent|]; [|exact Hsame].
    destruct (step eval e (agent, pc)) as [[agent' pc']|]; [|exact Hsame].
    destruct pc'; try exact Hsame. rewrite monitor_scan_called. exact Hsame.
  - destruct p as [m|pc]; [exact Hsame|].
    destruct (getAgentByType t s) as [agent|]; [|exact Hsame].
    destruct (step eval e (agent, pc)) as [[agent' pc']|]; [|exact Hsame].
    destruct pc'; try exact Hsame.
    apply (start_scan_called m' starting rest (log_return t agent' true k)).
Qed.

Lemma called_grows eval moves y i k :
  tasks y !! i = Some k ->
  exists k' extra, tasks (run_moves eval moves y) !! i = Some k'
                   /\ called k' = called k ++ extra.
Proof.
  intros Hi.
  destruct (task_invariant eval (fun _ => True)
              (fun k' => exists extra, called k' = called k ++ extra) (fun _ => true))
    with (moves := moves) (y := y) (j := i) (k := k) as (k' & Hk' & [extra Hq] & _);
    try auto.
  - intros k0 s _ [extra E]. destruct (resume_called k0 s) as [extra' ->].
    exists (extra ++ extra'). rewrite E, app_assoc. reflexivity.
  - intros e k0 s _ [extra E]. destruct (deliver_called eval e k0 s) as [extra' ->].
    exists (extra ++ extra'). rewrite E, app_assoc. reflexivity.
  - apply forallb_forall. reflexivity.
  - exists []. rewrite app_nil_r. reflexivity.
  - exists k', extra. auto.
Qed.

Lemma monitor_inv_called P Q k : monitor_inv P Q k -> called k = [] \/ called k = [Q].
Proof.
  unfold monitor_inv. destruct (place k); try contradiction; intuition auto.
Qed.


(** ** Two observations that overlap *)

Lemma run_resumes_at eval n y i k k' s' :
  tasks y !! i = Some k -> resume_times n k (shared y) = (k', s') ->
  tasks (run_moves eval (repeat (Resume i) n) y) !! i = Some k'
  /\ shared (run_moves eval (repeat (Resume i) n) y) = s'
  /\ forall i', i' <> i ->
                tasks (run_moves eval (repeat (Resume i) n) y) !! i' = tasks y !! i'.
Proof.
  intros Hi E. destruct (run_resumes eval n y i k Hi) as (H1 & H2 & H3).
  rewrite E in H1, H2. auto.
Qed.

Lemma start_after_read_outbox config initialData m a a' :
  start_after_read config initialData m a = Enters a' ->
  ws_open a' = ws_open a
  /\ (ws_open a = true ->
      exists o, o_type o = AGENT_START /\ outbox a' = outbox a ++ [o]).
Proof.
  unfold start_after_read. destruct (negb (configured config)); [discriminate|].
  intros [= <-]. split; [rewrite ws_open_send; reflexivity|]. intros Hopen.
  unfold sendA2AMessage. cbn [ws_open set_executionContext set_goalAchieved set_status
                                set_executionMode set_agentConfig].
  rewrite Hopen. eexists. split; [|reflexivity]. reflexivity.
Qed.

(** X27. The monitor does not look at the status of an agent again after
    the save that follows its idle test, and [start] does not look at it
    again after the read of the configuration.  When the completion of [P]
    is delivered twice and the second invocation passes the idle test before
    the first has read the configuration of [Q], both invocations call
    [start] on [Q], both calls enter [run], so that two runs go on for the one
    agent, and [agent_start] is sent twice on an open socket. *)
Theorem overlapping_observations_start_the_successor_twice :
  forall (agent_eval : string -> BaseAgent -> option Value) (P Q : string) (y : System)
         (i i' : nat) (message message' : A2AMessage) (a : BaseAgent),
    i <> i' ->
    agentConnections (shared y) = [mkConnection P Q] ->
    msg_type message = AGENT_COMPLETE -> msg_from message = P ->
    msg_type message' = AGENT_COMPLETE -> msg_from message' = P ->
    tasks y !! i = Some (observation message) ->
    tasks y !! i' = Some (observation message') ->
    getAgentByType Q (shared y) = Some a -> status a = IDLE ->
    configured (omap_get (type a) (configs (shared y))) = true ->
    let y' := run_moves agent_eval
                (repeat (Resume i) 2 ++ repeat (Resume i') 2 ++ repeat (Resume i) 2
                 ++ repeat (Resume i') 1) y in
    exists a',
      tasks y' !! i = Some (mkTask (MonitorStarting Q [] (InRun LoadingWorkflow)) [Q] [])
      /\ tasks y' !! i' = Some (mkTask (MonitorStarting Q [] (InRun LoadingWorkflow)) [Q] [])
      /\ getAgentByType Q (shared y') = Some a'
      /\ status a' = RUNNING
      /\ (ws_open a = true ->
          exists o1 o2, o_type o1 = AGENT_START /\ o_type o2 = AGENT_START
                        /\ outbox a' = outbox a ++ [o1; o2]).
Proof.
  intros agent_eval P Q y i i' message message' a Hii Hconn Hty Hfrom Hty' Hfrom' Hi Hi'
         Hget Hidle Hconf y'.
  assert (Hnr : status a <> RUNNING) by (rewrite Hidle; discriminate).
  set (s := shared y) in *.
  (* the first observation, up to its second suspension *)
  assert (exists k1 s1,
             resume_times 2 (observation message) s = (k1, s1)
             /\ agentConnections s1 = [mkConnection P Q] /\ configs s1 = configs s
             /\ getAgentByType Q s1 = Some a
             /\ includes_name P (completedNodes (executionState s1)) = true
             /\ exists s3 a3,
                 resume_times 2 k1 (set_executionState
                                      (set_currentAgentType (Some Q) (executionState s1)) s1)
                 = (mkTask (MonitorStarting Q [] (InRun LoadingWorkflow)) [Q] [], s3)
                 /\ agentConnections s3 = [mkConnection P Q] /\ configs s3 = configs s
                 /\ getAgentByType Q s3 = Some a3 /\ status a3 = RUNNING
                 /\ type a3 = type a /\ ws_open a3 = ws_open a
                 /\ (ws_open a = true ->
                     exists o, o_type o = AGENT_START /\ outbox a3 = outbox a ++ [o]))
    as (k1 & s1 & E1 & Hc1 & Hcfg1 & Hget1 & Hin1 & s3 & a3 & E3 & Hc3 & Hcfg3 & Hget3
        & Hrun3 & Hty3 & Hopen3 & Hout3).
  { destruct (includes_name P (completedNodes (executionState s))) eqn:Hin.
    - set (s1 := set_executionState (set_currentAgentType (Some Q) (executionState s)) s).
      set (m1 := Some (mode (executionState s1))).
      set (k1 := set_place (MonitorStarting Q [] (ReadingConfig m1))
                           (log_call Q (set_place (MonitorGuarded Q [])
                                                  (observation message)))).
      exists k1, s1. split.
      { rewrite (resume_times_S 1).
        rewrite (resume_received_known message (observation message) s eq_refl Hty)
          by (rewrite Hfrom; exact Hin).
        rewrite Hfrom, (successors_single P Q s Hconn).
        rewrite (monitor_scan_idle P Q (observation message) s a Hconn Hin Hget Hidle).
        cbn [fst snd]. fold s1. rewrite (resume_times_S 0).
        rewrite (resume_guarded Q [] (set_place (MonitorGuarded Q []) (observation message))
                   s1 a eq_refl Hget Hnr).
        reflexivity. }
      split; [exact Hconn|]. split; [reflexivity|]. split; [exact Hget|].
      split; [exact Hin|].
      set (s2 := set_executionState (set_currentAgentType (Some Q) (executionState s1)) s1).
      destruct (start_after_read_enters (omap_get (type a) (configs s)) [] m1 a Hconf)
        as (a3 & E & H1 & _).
      exists (update_agent Q a3 s2), a3. split.
      { rewrite (resume_times_S 1).
        rewrite (resume_reading Q [] m1 k1 s2 a a3 eq_refl Hget E). cbn [fst snd].
        rewrite (resume_times_S 0).
        rewrite (resume_in_run Q [] LoadingWorkflow
                   (set_place (MonitorStarting Q [] (InRun LoadingWorkflow)) k1) _ eq_refl).
        reflexivity. }
      destruct (update_agent_setup Q a3 s2) as [-> ->].
      split; [exact Hconn|]. split; [reflexivity|].
      split; [rewrite getAgentByType_update, String.eqb_refl,
                (getAgentByType_known Q s2 a Hget); reflexivity|].
      split; [exact H1|].
      pose proof (start_after_read_type (omap_get (type a) (configs s)) [] m1 a) as Ht.
      rewrite E in Ht. split; [exact Ht|].
      apply (start_after_read_outbox _ _ _ _ _ E).
    - set (s0 := set_executionState
                   (set_completedNodes (completedNodes (executionState s) ++ [P])
                                       (executionState s)) s).
      set (s1 := set_executionState (set_currentAgentType (Some Q) (executionState s0)) s0).
      set (k1 := set_place (MonitorGuarded Q [])
                           (set_place (MonitorMarked P) (observation message))).
      exists k1, s1. split.
      { rewrite (resume_times_S 1).
        rewrite (resume_received_new message (observation message) s eq_refl Hty)
          by (rewrite Hfrom; exact Hin).
        rewrite Hfrom. cbn [fst snd]. fold s0. rewrite (resume_times_S 0).
        rewrite (resume_marked P (set_place (MonitorMarked P) (observation message)) s0
                               eq_refl).
        rewrite (successors_single P Q s0 Hconn).
        rewrite (monitor_scan_idle P Q _ s0 a Hconn (includes_name_last P _) Hget Hidle).
        reflexivity. }
      split; [exact Hconn|]. split; [reflexivity|]. split; [exact Hget|].
      split; [apply includes_name_last|].
      set (s2 := set_executionState (set_currentAgentType (Some Q) (executionState s1)) s1).
      set (m1 := Some (mode (executionState s2))).
      destruct (start_after_read_enters (omap_get (type a) (configs s)) [] m1 a Hconf)
        as (a3 & E & H1 & _).
      exists (update_agent Q a3 s2), a3. split.
      { rewrite (resume_times_S 1).
        rewrite (resume_guarded Q [] k1 s2 a eq_refl Hget Hnr). cbn [fst snd].
        fold m1. rewrite (resume_times_S 0).
        rewrite (resume_reading Q [] m1
                   (set_place (MonitorStarting Q [] (ReadingConfig m1)) (log_call Q k1))
                   s2 a a3 eq_refl Hget E).
        reflexivity. }
      destruct (update_agent_setup Q a3 s2) as [-> ->].
      split; [exact Hconn|]. split; [reflexivity|].
      split; [rewrite getAgentByType_update, String.eqb_refl,
                (getAgentByType_known Q s2 a Hget); reflexivity|].
      split; [exact H1|].
      pose proof (start_after_read_type (omap_get (type a) (configs s)) [] m1 a) as Ht.
      rewrite E in Ht. split; [exact Ht|].
      apply (start_after_read_outbox _ _ _ _ _ E). }
  (* the second observation passes the guard in between *)
  set (s2 := set_executionState (set_currentAgentType (Some Q) (executionState s1)) s1) in *.
  set (m2 := Some (mode (executionState s2))).
  set (k2 := set_place (MonitorStarting Q [] (ReadingConfig m2))
                       (log_call Q (set_place (MonitorGuarded Q [])
                                              (observation message')))).
  assert (E2 : resume_times 2 (observation message') s1 = (k2, s2)).
  { rewrite (resume_times_S 1).
    rewrite (resume_received_known message' (observation message') s1 eq_refl Hty')
      by (rewrite Hfrom'; exact Hin1).
    rewrite Hfrom', (successors_single P Q s1 Hc1).
    rewrite (monitor_scan_idle P Q (observation message') s1 a Hc1 Hin1 Hget1 Hidle).
    cbn [fst snd]. fold s2. rewrite (resume_times_S 0).
    rewrite (resume_guarded Q [] (set_place (MonitorGuarded Q []) (observation message'))
               s2 a eq_refl Hget1 Hnr).
    reflexivity. }
  (* and reads the configuration after the first has entered the run *)
  assert (Hconf3 : configured (omap_get (type a3) (configs s3)) = true)
    by (rewrite Hty3, Hcfg3; exact Hconf).
  destruct (start_after_read_enters (omap_get (type a3) (configs s3)) [] m2 a3 Hconf3)
    as (a4 & E & Hrun4 & _).
  assert (E4 : resume_times 1 k2 s3
               = (mkTask (MonitorStarting Q [] (InRun LoadingWorkflow)) [Q] [],
                  update_agent Q a4 s3)).
  { rewrite (resume_times_S 0).
    rewrite (resume_reading Q [] m2 k2 s3 a3 a4 eq_refl Hget3 E). reflexivity. }
  (* the four blocks of the schedule *)
  subst y'. rewrite !run_moves_app.
  destruct (run_resumes_at agent_eval 2 y i _ k1 s1 Hi E1) as (A1 & A2 & A3).
  set (y1 := run_moves agent_eval (repeat (Resume i) 2) y) in *.
  assert (Hi1' : tasks y1 !! i' = Some (observation message'))
    by (rewrite (A3 i') by congruence; exact Hi').
  rewrite <- A2 in E2.
  destruct (run_resumes_at agent_eval 2 y1 i' _ k2 s2 Hi1' E2) as (B1 & B2 & B3).
  set (y2 := run_moves agent_eval (repeat (Resume i') 2) y1) in *.
  assert (Hi2 : tasks y2 !! i = Some k1) by (rewrite (B3 i) by congruence; exact A1).
  rewrite <- B2 in E3.
  destruct (run_resumes_at agent_eval 2 y2 i _ _ s3 Hi2 E3) as (C1 & C2 & C3).
  set (y3 := run_moves agent_eval (repeat (Resume i) 2) y2) in *.
  assert (Hi3' : tasks y3 !! i' = Some k2) by (rewrite (C3 i') by congruence; exact B1).
  rewrite <- C2 in E4.
  destruct (run_resumes_at agent_eval 1 y3 i' _ _ _ Hi3' E4) as (D1 & D2 & D3).
  exists a4. split; [rewrite (D3 i) by congruence; exact C1|]. split; [exact D1|].
  rewrite D2, C2. split.
  { rewrite getAgentByType_update, String.eqb_refl, (getAgentByType_known Q s3 a3 Hget3).
    reflexivity. }
  split; [exact Hrun4|]. intros Hopen.
  destruct (Hout3 Hopen) as (o1 & Ho1 & Hout1).
  destruct (start_after_read_outbox _ _ _ _ _ E) as [_ Hout4].
  destruct (Hout4 (eq_trans Hopen3 Hopen)) as (o2 & Ho2 & Hout2).
  exists o1, o2. split; [exact Ho1|]. split; [exact Ho2|].
  rewrite Hout2, Hout1, <- app_assoc. reflexivity.
Qed.


Lemma workflow_start_answers_after_the_runs_witness :
  exists k,
    tasks (run_moves no_eval whole_start (start_requested planner_then_artist)) !! 0 = Some k
    /\ answer k = Some (WorkflowStarted (Some "planner") ["planner"; "developer"])
    /\ returned_types k = called k
    /\ Forall return_ok (returned k)
    /\ List.map (fun r => status (r_agent r)) (returned k) = [COMPLETED; COMPLETED]
    /\ status_of "planner"
                 (shared (run_moves no_eval whole_start
                                    (start_requested planner_then_artist)))
       = Some IDLE.
Proof.
  destruct (workflow_start_answers_after_the_runs no_eval
              (start_requested planner_then_artist) 0 None whole_start eq_refl)
    as (k & Hk & Hok & _ & H).
  exists k. split; [exact Hk|].
  assert (Ha : answer k = Some (WorkflowStarted (Some "planner") ["planner"; "developer"])
               /\ List.map (fun r => status (r_agent r)) (returned k)
                  = [COMPLETED; COMPLETED]).
  { vm_compute in Hk. injection Hk as <-. split; reflexivity. }
  destruct Ha as [Ha Hs]. split; [exact Ha|]. split; [exact (H _ _ Ha)|].
  split; [exact Hok|]. split; [exact Hs|]. vm_compute. reflexivity.
Defined.




Lemma overlapping_observations_start_the_successor_twice_witness :
  exists a',
    tasks (run_moves no_eval
             (repeat (Resume 0) 2 ++ repeat (Resume 1) 2 ++ repeat (Resume 0) 2
              ++ repeat (Resume 1) 1) observed_twice) !! 0
    = Some (mkTask (MonitorStarting "artist" [] (InRun LoadingWorkflow)) ["artist"] [])
    /\ tasks (run_moves no_eval
                (repeat (Resume 0) 2 ++ repeat (Resume 1) 2 ++ repeat (Resume 0) 2
                 ++ repeat (Resume 1) 1) observed_twice) !! 1
       = Some (mkTask (MonitorStarting "artist" [] (InRun LoadingWorkflow)) ["artist"] [])
    /\ status a' = RUNNING.
Proof.
  destruct (overlapping_observations_start_the_successor_twice no_eval "planner" "artist"
              observed_twice 0 1 planner_completed planner_completed (new_agent "artist"))
    as (a' & H1 & H2 & _ & H3 & _); try reflexivity; try discriminate.
  exists a'. auto.
Defined.

End TaskFacts.
